(* ===== verification/_CoqProject ===== *)
-Q . S2P
Prelude.v
Slot.v
Bitlist.v
Types.v
Hash.v
Concrete.v
GoStd.v
VoteRule.v
Attestations.v
Transition.v
Chain.v
Finality.v
Progress.v
Storage.v
Ghost.v
Leansig.v
Ssz.v
SszCodec.v
SszWire.v
ForkChoice.v
ForkInv.v
ForkProduce.v
Aggregation.v
ForkProps.v
Order.v
Duties.v
Liveness.v
SszProps.v
Wire.v
Reqresp.v
Gossip.v
Node.v
NodeSafety.v
NodeSync.v
Network.v
Setup.v
Logging.v
Fixtures.v
Files.v
Keys.v
Ffi.v
Host.v
Startup.v
Metrics.v
