(* ===== verification/Prelude.v ===== *)
(** A verification development of gean, a consensus client for Lean Ethereum written in Go.

    * The program

    A node keeps a fork choice store (chain/forkchoice).  It imports signed blocks with the
    state transition function (chain/statetransition), counts signed votes with their XMSS
    signatures (xmss/leansig), selects the head of the block tree with LMD GHOST, and produces
    blocks and votes.  Blocks, states and votes are SSZ containers (types); they are kept in a
    block storage (storage) and exchanged over gossip and request/response streams (network).
    The node package wires the parts to the clock and to the validator duties.

    * The files, in dependency order

    - [Prelude]: machine integers as [Z] with explicit wrap-around ([u64], [u32]), bytes and
      fixed arrays ([vec byte n]), the [outcome] of a Go call ([Ok], [Err] with the error built
      by the code, [Panic], [Diverges] when the fuel of a loop is used up), loops and their
      total-correctness rules, little-endian integers, shared tactics.
    - [Slot]: types/slot.go.  The float64 square root is modelled down to the rounding of the
      conversion; [isqrt] and the 3SF-mini rule [IsJustifiableAfter].
    - [Bitlist]: chain/statetransition/bitlist.go on byte slices, refined to lists of booleans.
    - [Types], [Hash]: the containers of types/*.go as records, and the HashTreeRootWith walks of
      types/*_encoding.go over an abstract hasher ([HashWalker], the fastssz interface).
    - [Concrete]: an executable hasher; only the witnesses use it.
    - [GoStd]: what the code uses of Go's library: bytes.Compare, sort.Slice on arrays, and the
      order of a range over a map ([MapRange]: any permutation, and a new one for each range).
    - [VoteRule], [Attestations]: process_attestations.go.  [VoteRule] is the specification, a step
      relation on a ledger of votes with one constructor per fate of a vote; [Attestations] is
      the code on SSZ bytes, and the refinement between the two.
    - [Transition], [Chain]: genesis.go, proposer.go, transition.go; then chains of accepted
      blocks, with the state invariant [wf_state].
    - [Finality]: two chains of one genesis: the votes in their blocks, the offences they prove,
      accountable safety, and where it stops.
    - [Progress]: the converse of the quorum theorems: timely votes are not lost, two thirds of the
      validators justify, and a block of votes for one link finalizes.
    - [Storage]: the interface of storage/interface.go as operations with laws, and
      storage/memory as an instance.
    - [Ghost]: ghost.go, and the LMD GHOST rule as a relation on block trees.
    - [Leansig]: the Go side of xmss/leansig over an abstract signature library.
    - [Ssz]: the encoders, decoders and sizes of types/*_encoding.go over the fastssz runtime.
      [SszCodec] has the two classes of codecs (fixed and variable size) and the lemmas that cut
      a buffer into its fields, [SszWire] the wire format of every container and its codec
      instance, [SszProps] the theorems.
    - [ForkChoice]: store.go, time.go, attestation.go, block.go, produce.go, helpers.go and
      initGenesis of node/lifecycle.go, over any storage, hasher and signature library.
      [ForkInv] and [ForkProduce] hold the invariant [wf_fc] and the total-correctness lemmas of
      the operations, [Aggregation] is aggregation.go, and [ForkProps] the step relation
      [fc_step] of the whole store and its theorems.
    - [Order], [Duties], [Liveness]: on top of the fork choice: gossip votes in any order, what an
      honest node signs along a run, and the production of a block from a quorum of votes.
    - [Wire], [Reqresp], [Gossip]: network/reqresp and network/gossipsub on byte streams: varints
      and snappy frames, both ends of the status and blocks-by-root protocols, publishing and
      reading gossip messages, message identifiers.
    - [Node]: the node package (clock.go, handler.go, validator.go, sync.go, ticker.go and the
      wiring of lifecycle.go): one tick of the event loop, the validator duties, synchronisation
      with a peer.  [NodeSafety] shows that a tick is a sequence of steps of the fork choice,
      [NodeSync] what synchronisation achieves and where it stops.
    - [Network]: which readers and stream handlers run, what each does with the store on any bytes
      ([on_event]), and Run of ticker.go among them.
    - [Setup]: the config package after YAML, and what an accepted configuration gives the node.
    - [Logging]: observability/logging: the global logger, the handler and the text it prints.
    - [Fixtures]: spectests/converters.go and the types it converts.
    - [Files]: the world outside the node's memory: files with their modes, randomness and open
      handles; the monad [io] with errors and clean-up, its program logic ([triple], with a
      postcondition for the error exit), os and path/filepath.
    - [Keys]: xmss/leansig/keystore.go, cmd/keygen, scripts/gen_node_keys and the two loaders of
      the node key.
    - [Ffi]: xmss/leansig-ffi/src/lib.rs, the C functions that [Leansig] calls, over the leansig
      crate ([SignatureScheme]); an instance of the interface of [Leansig], with its laws.
    - [Host]: network/host.go and network/p2p: the libp2p host, the bootnodes, the node record and
      discovery, with the handles each opens.
    - [Startup]: New of lifecycle.go with its services and error paths, Close, the end of Run, and
      cmd/gean/main.go from the flags to the event loop.
    - [Metrics]: observability/metrics, and the calls that the other packages make on it.

    * How state and operations correspond

    A Go struct is a record, a map is a [gmap], a method that changes its receiver returns the new
    receiver, and a method that can fail after it has changed the store returns the store with
    its result.  The exported methods of the fork choice store run under its mutex, so each is
    one atomic step; [fc_step] interleaves them freely.  The main goroutine of the node reaches
    the store through [call], before each of which the other goroutines may run
    ([Surroundings]).  What touches files, sockets or randomness is a computation in [io].  Pointers to structs that are never changed after they are shared are the
    structs; the one pointer the code tests for nil, the proposer attestation, is an option.

    * What the theorems show

    - safety: the fork choice invariant holds in every reachable store, whatever blocks, votes,
      aggregates and clock readings arrive; the head extends the justified root; checkpoints
      never go back; every counted vote is signed by its validator; justification needs the
      votes of two thirds of the validators, and finality only advances;
    - liveness: two thirds of the validators with timely votes justify, whatever else the blocks
      carry; a proposer that holds their votes produces the block that does; and a block of votes
      for one link without a gap finalizes;
    - ordering: gossip votes without equivocation may arrive in any order; a vote signed later
      never surrounds an earlier one, but an earlier one can surround a later one;
    - finality: a checkpoint with a supermajority link is contradicted only if a third of the
      validators committed an offence that the blocks of the two chains prove; but because the
      votes for a target are pooled whatever their sources, two chains can finalize conflicting
      checkpoints without an offence;
    - functional behaviour: exactly when a block header, a block and an envelope are accepted, and
      the state they lead to; the hashes recorded in a state are the chain that led to it; a
      produced block is accepted by its peers; GetForkChoiceHead selects the block of the
      LMD GHOST rule, whatever the order of Go's maps;
    - total correctness: no operation panics or loops forever on a reachable store;
    - data formats: bitlists refine lists of booleans, the votes of a state, aggregates and the
      SSZ encodings survive a round trip, and a byte string decodes to at most one container,
      whose encoding it is;
    - the network: what one end of a protocol writes the other reads, and no bytes can panic an
      end or bring a value out of range to the fork choice; a proposal that one node publishes is
      imported by another that has its parent; a vote counts at another node that has its blocks
      exactly when its slot has come and it points forward, which the votes signed while the safe
      target lags do not;
    - the node: a tick keeps the fork choice invariant under any interference and publishes what
      its duty calls for; synchronisation with an honest peer imports its chain when at most 64
      blocks are missing, and nothing when more are; an accepted registry gives every validator
      to one node;
    - the program: on any files main exits with an error, its handles closed but for the UDP socket
      of a discovery service that did not start, panics on a bootnode with a peer id shorter than
      16 characters, or runs a well-formed node for the validators of the genesis file; the keys
      and the genesis file that keygen makes start a network; a node has one identity for both of
      its networks when its key file is libp2p's with a secp256k1 key, or missing; the metrics count
      every vote once, as what the store makes of it;
    - what the code does where it departs from its intention: the square root near 2^64, votes
      for the zero hash, older pending votes, the producer's own block, proposer
      attestations that are nil, a node without a key file, Close, the log level, votes signed
      while the safe target lags behind or after the head has changed.

    * Conditions on the hash function and the network

    The hasher is abstract and may collide.  Theorems about proposals assume [no_collision] of the
    blocks at hand: a root that is not zero, and that no other stored block has; those about a
    running node assume it of the blocks the node proposes in that one run ([fresh_run]), never of
    all stores.  A block that arrives is admissible when its slot times the number of validators
    is below 2^64 - 16 and its root is not zero ([admissible_block]); a theorem that says what
    bytes may arrive asks this of the blocks that decode from them ([admissible_event],
    [peer_ok]), and 16 characters of the ids of peers.

    * Bounds and fuel

    Every loop whose bound is not a Go counter has a fuel computed from its inputs (the missing
    ticks, the number of stored blocks, the number of known votes) and is proved to stop within
    it; a theorem that concludes [Ok] or [Err] therefore includes termination.  The state
    invariant carries the SSZ list limits, and [roomy] leaves them room for the next block.

    * Parameters

    The hasher and the SSZ runtime (fastssz), the compression library (snappy), the C functions of
    leansig-ffi in [Leansig] and the leansig crate in [Ffi], the order of maps, the permissions of the
    platform, the key formats of libp2p and go-ethereum ([NodeKeyLib]), their hosts, records and
    sockets ([NetLib]), pubsub, the prometheus client ([PromLib]) and YAML are
    classes, with their documented behaviour as laws where a theorem needs it; every such class has
    an executable instance, on which the witnesses run.

    * Not modelled

    The exhaustion of memory, and with it the limit of Go's make on the length of a slice, which
    is far beyond the sizes of any container; the read errors of a stream other than its end, which
    are one failure of the exchange.  The durations that the metrics observe, and the log lines outside the logging package; the
    streams and deadlines under the network package (an exchange with a peer is a function on bytes
    that can fail) and the options passed to libp2p and discv5; the parsers of YAML, JSON and
    flags; a key of a running node that another process changes; the runners of the fixtures, which
    are test files.  GetTree, which only calls the SSZ runtime, and the accessors of the node record
    are left out. *)
From Stdlib Require Export ZArith Lia.
From Stdlib Require Import Init.Byte Strings.Byte.
From stdpp Require Export base gmap list strings vector sorting numbers.

(** * Machine integers *)

Declare Scope go_scope.
Delimit Scope go_scope with go.

(** A Go [uint64] is a [Z] in [0, 2^64); every operation that can leave the range wraps. *)
Definition u64 (x : Z) : Z := (x mod 2 ^ 64)%Z.
(** The conversion [uint32(x)]. *)
Definition u32 (x : Z) : Z := (x mod 2 ^ 32)%Z.
Definition is_u64 (x : Z) : Prop := (0 <= x < 2 ^ 64)%Z.

Notation "a +u b" := (u64 (a + b)%Z) (at level 50, left associativity) : go_scope.
Notation "a -u b" := (u64 (a - b)%Z) (at level 50, left associativity) : go_scope.
Notation "a *u b" := (u64 (a * b)%Z) (at level 40, left associativity) : go_scope.

Lemma u64_small (x : Z) : is_u64 x -> u64 x = x.
Proof. intros H; unfold u64; apply Z.mod_small, H. Qed.

Lemma u64_range (x : Z) : is_u64 (u64 x).
Proof. apply Z.mod_pos_bound; lia. Qed.

#[export] Instance is_u64_dec x : Decision (is_u64 x).
Proof. unfold is_u64; apply _. Defined.

(** * Bytes and fixed-size arrays *)

Abbreviation byte := Byte.byte.
Abbreviation bytes := (list Byte.byte).

#[export] Instance byte_eq_dec : EqDecision byte := Byte.byte_eq_dec.
#[export] Program Instance byte_countable : Countable byte :=
  inj_countable Byte.to_N Byte.of_N _.
Next Obligation. intros b. apply Byte.of_to_N. Qed.

(** A byte seen as an integer in [0, 256), and the truncating conversion [byte(x)]. *)
Definition byte_Z (b : byte) : Z := Z.of_N (Byte.to_N b).
Definition Z_byte (x : Z) : byte := default Byte.x00 (Byte.of_N (Z.to_N (x mod 256))).

Lemma byte_Z_range (b : byte) : (0 <= byte_Z b < 256)%Z.
Proof. unfold byte_Z. pose proof (Byte.to_N_bounded b). lia. Qed.

Lemma byte_Z_Z_byte (x : Z) : byte_Z (Z_byte x) = (x mod 256)%Z.
Proof.
  unfold byte_Z, Z_byte.
  assert (H : (0 <= x mod 256 < 256)%Z) by (apply Z.mod_pos_bound; lia).
  destruct (Byte.of_N (Z.to_N (x mod 256))) as [b|] eqn:E; simpl.
  - apply Byte.to_of_N in E. lia.
  - apply Byte.of_N_None_iff in E. lia.
Qed.

Lemma byte_Z_inj (a b : byte) : byte_Z a = byte_Z b -> a = b.
Proof.
  unfold byte_Z; intros H. apply N2Z.inj in H.
  assert (Some a = Some b) as Hs by (rewrite <- !Byte.of_to_N; by rewrite H).
  by simplify_eq.
Qed.

Lemma Z_byte_byte_Z (b : byte) : Z_byte (byte_Z b) = b.
Proof.
  apply byte_Z_inj. rewrite byte_Z_Z_byte.
  apply Z.mod_small, byte_Z_range.
Qed.

(** Go's [\[n\]byte] is a length-indexed vector of bytes. [vec_of] is what [copy]
    into a fresh (zeroed) array does: it stops at the shorter of the two. *)
Fixpoint vec_of (n : nat) (l : bytes) : vec byte n :=
  match n with
  | O => [#]
  | S n' => match l with
            | [] => Byte.x00 ::: vec_of n' []
            | b :: l' => b ::: vec_of n' l'
            end
  end.

Lemma vec_of_to_list {n} (v : vec byte n) : vec_of n (vec_to_list v) = v.
Proof. induction v as [|b n v IH]; simpl; [done|]. by rewrite IH. Qed.

Lemma vec_to_list_vec_of n (l : bytes) : length l = n -> vec_to_list (vec_of n l) = l.
Proof.
  revert l; induction n as [|n IH]; intros [|b l] H; simpl in *; try lia; [done|].
  f_equal. apply IH. lia.
Qed.

#[export] Instance vec_byte_eq_dec n : EqDecision (vec byte n) :=
  fun v w => match decide (vec_to_list v = vec_to_list w) with
             | left H => left (vec_to_list_inj2 v w H)
             | right H => right (fun E => H (f_equal vec_to_list E))
             end.
#[export] Program Instance vec_byte_countable n : Countable (vec byte n) | 0 :=
  inj_countable' (A:=bytes) vec_to_list (vec_of n) _.
Next Obligation. intros n v. apply vec_of_to_list. Qed.

(** * Outcomes of a Go call *)

(** [fmt.Errorf]: the format string and its operands; [Wrapf] is an error built with
    [%w], [ErrLib] an error value of a library, by its Go name. *)
Inductive arg :=
| Num (z : Z)
| Hex (b : bytes)
| Str (s : string).

Inductive error :=
| Errorf (fmt : string) (args : list arg)
| Wrapf (fmt : string) (args : list arg) (e : error)
| ErrLib (name : string).

(** [Ok] is a normal return with a nil error, [Err] a non-nil error, [Panic] a run-time
    panic, and [Diverges] a loop that has not stopped within the fuel given to it. *)
Inductive outcome (A : Type) :=
| Ok (x : A)
| Err (e : error)
| Panic (why : string)
| Diverges.
Arguments Ok {A} _.
Arguments Err {A} _.
Arguments Panic {A} _.
Arguments Diverges {A}.

#[export] Instance outcome_ret : MRet outcome := fun A x => Ok x.
#[export] Instance outcome_bind : MBind outcome := fun A B f m =>
  match m with
  | Ok x => f x
  | Err e => Err e
  | Panic w => Panic w
  | Diverges => Diverges
  end.

(** [map_err f m] is [if err != nil { return f(err) }]. *)
Definition map_err {A} (f : error -> error) (m : outcome A) : outcome A :=
  match m with Err e => Err (f e) | _ => m end.

(** [guard c e m] is [if c { return e }; m]. *)
Definition fail_if {A} (c : bool) (e : error) (m : outcome A) : outcome A :=
  if c then Err e else m.

Lemma Ok_inj {A} (x y : A) : Ok x = Ok y -> x = y.
Proof. by intros [= ->]. Qed.

Lemma bind_Ok {A B} (m : outcome A) (f : A -> outcome B) (y : B) :
  (m ≫= f) = Ok y <-> exists x, m = Ok x /\ f x = Ok y.
Proof.
  split.
  - destruct m; simpl; try discriminate. eauto.
  - intros (x & -> & Hf). exact Hf.
Qed.

Lemma bind_assoc {A B C} (m : outcome A) (f : A -> outcome B) (g : B -> outcome C) :
  ((m ≫= f) ≫= g) = (m ≫= fun x => f x ≫= g).
Proof. by destruct m. Qed.

(** Did the call return normally? *)
Definition is_ok {A} (m : outcome A) : bool := match m with Ok _ => true | _ => false end.

(** Total correctness: the call neither panics nor diverges; its value satisfies [Q]
    and its error, if it returns one, satisfies [E]. *)
Definition total {A} (m : outcome A) (Q : A -> Prop) (E : error -> Prop) : Prop :=
  match m with
  | Ok x => Q x
  | Err e => E e
  | Panic _ => False
  | Diverges => False
  end.

Lemma total_bind {A B} (m : outcome A) (f : A -> outcome B) Q E :
  total m (fun x => total (f x) Q E) E -> total (m ≫= f) Q E.
Proof. by destruct m. Qed.

Lemma total_mono {A} (m : outcome A) (Q Q' : A -> Prop) (E E' : error -> Prop) :
  total m Q E -> (forall x, m = Ok x -> Q x -> Q' x) -> (forall e, E e -> E' e) -> total m Q' E'.
Proof. destruct m; simpl; try done; auto. Qed.

Lemma total_no_err {A} (m : outcome A) (Q : A -> Prop) :
  total m Q (fun _ => False) <-> exists x, m = Ok x /\ Q x.
Proof. split; [destruct m; simpl; try done; eauto|by intros (x & -> & HQ)]. Qed.

(** * Loops *)

(** [for { body }] with a fuel: [inl] continues with a new loop state, [inr] leaves. *)
Fixpoint loop {S R} (fuel : nat) (body : S -> outcome (S + R)) (s : S) : outcome R :=
  match fuel with
  | O => Diverges
  | S fuel' =>
      step ← body s;
      match step with
      | inl s' => loop fuel' body s'
      | inr r => Ok r
      end
  end.

(** The total-correctness rule: an invariant, a decreasing measure bounded by the fuel. *)
Lemma loop_total {S R} (I : S -> Prop) (mu : S -> nat) (body : S -> outcome (S + R)) Q E :
  (forall s, I s -> total (body s)
     (fun step => match step with inl s' => I s' /\ mu s' < mu s | inr r => Q r end) E) ->
  forall fuel s, I s -> mu s < fuel -> total (loop fuel body s) Q E.
Proof.
  intros Hbody fuel. induction fuel as [|fuel IH]; intros s HI Hmu; [lia|].
  simpl. apply total_bind. eapply total_mono; [by apply Hbody| |done].
  intros [s'|r] _; [intros [HI' Hlt]; apply IH; [done|lia]|done].
Qed.

(** More fuel does not change a run that has stopped. *)
Lemma loop_fuel_mono {S R} (body : S -> outcome (S + R)) fuel fuel' s :
  loop fuel body s <> Diverges -> fuel <= fuel' -> loop fuel' body s = loop fuel body s.
Proof.
  revert fuel' s; induction fuel as [|fuel IH]; intros fuel' s Hd Hle; [done|].
  destruct fuel' as [|fuel']; [lia|]. simpl in *.
  destruct (body s) as [[s'|r]|e|w|]; simpl in *; try done.
  apply IH; [done|lia].
Qed.

(** [for _, x := range l { s, err = f(s, x); ... }] *)
Fixpoint foldM {S A} (f : S -> A -> outcome S) (s : S) (l : list A) : outcome S :=
  match l with
  | [] => Ok s
  | x :: l' => s' ← f s x; foldM f s' l'
  end.

Lemma foldM_app {S A} (f : S -> A -> outcome S) (s : S) (l1 l2 : list A) :
  foldM f s (l1 ++ l2) = (s' ← foldM f s l1; foldM f s' l2).
Proof.
  revert s; induction l1 as [|x l1 IH]; intros s; simpl; [done|].
  destruct (f s x); simpl; auto.
Qed.

(** [for i := 0; i < n; i++ { s = f(i, s) }]. *)
Fixpoint for_range_from {S} (i n : nat) (f : nat -> S -> S) (s : S) : S :=
  match n with
  | O => s
  | S n' => for_range_from (Datatypes.S i) n' f (f i s)
  end.
Definition for_range {S} (n : nat) (f : nat -> S -> S) (s : S) : S := for_range_from 0 n f s.

Lemma for_range_from_snoc {S} (i n : nat) (f : nat -> S -> S) (s : S) :
  for_range_from i (Datatypes.S n) f s = f (i + n) (for_range_from i n f s).
Proof.
  revert i s; induction n as [|n IH]; intros i s; [simpl; f_equal; lia|].
  change (for_range_from (Datatypes.S i) (Datatypes.S n) f (f i s) =
          f (i + Datatypes.S n) (for_range_from (Datatypes.S i) n f (f i s))).
  rewrite IH. f_equal. lia.
Qed.

Lemma for_range_S {S} (n : nat) (f : nat -> S -> S) (s : S) :
  for_range (Datatypes.S n) f s = f n (for_range n f s).
Proof. apply for_range_from_snoc. Qed.

(** The invariant rule of a counted loop. *)
Lemma for_range_ind {S} (P : nat -> S -> Prop) (n : nat) (f : nat -> S -> S) (s : S) :
  P 0 s -> (forall i s, i < n -> P i s -> P (Datatypes.S i) (f i s)) -> P n (for_range n f s).
Proof.
  intros H0 Hs. induction n as [|n IH]; [done|].
  rewrite for_range_S. apply Hs; [lia|]. apply IH. intros; apply Hs; [lia|done].
Qed.

(** * Tactics *)

(** Split a boolean condition of the code into its propositional reading. *)
Ltac bool_case b :=
  let E := fresh "E" in destruct b eqn:E; try done.

(** Normalise Z boolean tests in the context to propositions. *)
Ltac zb :=
  repeat match goal with
  | H : (_ <? _)%Z = true |- _ => apply Z.ltb_lt in H
  | H : (_ <? _)%Z = false |- _ => apply Z.ltb_ge in H
  | H : (_ <=? _)%Z = true |- _ => apply Z.leb_le in H
  | H : (_ <=? _)%Z = false |- _ => apply Z.leb_gt in H
  | H : (_ =? _)%Z = true |- _ => apply Z.eqb_eq in H
  | H : (_ =? _)%Z = false |- _ => apply Z.eqb_neq in H
  | H : andb _ _ = true |- _ => apply andb_true_iff in H as [? ?]
  | H : orb _ _ = false |- _ => apply orb_false_iff in H as [? ?]
  | H : negb _ = true |- _ => apply negb_true_iff in H
  | H : negb _ = false |- _ => apply negb_false_iff in H
  | H : bool_decide _ = true |- _ => apply bool_decide_eq_true in H
  | H : bool_decide _ = false |- _ => apply bool_decide_eq_false in H
  end.

(** * Bits of bytes *)

#[export] Instance byte_inhabited : Inhabited byte := populate Byte.x00.

(** [b | x] and [b &^ x] on a byte. *)
Definition byte_or (b : byte) (x : Z) : byte := Z_byte (Z.lor (byte_Z b) x).
Definition byte_andnot (b : byte) (x : Z) : byte := Z_byte (Z.ldiff (byte_Z b) x).

(** The [j]-th bit of a byte, least significant first. *)
Definition bbit (b : byte) (j : nat) : bool := Z.testbit (byte_Z b) (Z.of_nat j).

Lemma bbit_ge (b : byte) j : 8 <= j -> bbit b j = false.
Proof.
  intros Hj. unfold bbit. pose proof (byte_Z_range b).
  destruct (decide (byte_Z b = 0)%Z) as [->|]; [apply Z.testbit_0_l|].
  apply Z.bits_above_log2; [lia|].
  assert (Z.log2 (byte_Z b) < 8)%Z by (apply Z.log2_lt_pow2; lia). lia.
Qed.

Lemma bbit_ext (a b : byte) : (forall j, j < 8 -> bbit a j = bbit b j) -> a = b.
Proof.
  intros H. apply byte_Z_inj, Z.bits_inj'. intros n Hn.
  destruct (decide (n < 8)%Z).
  - specialize (H (Z.to_nat n) ltac:(lia)). unfold bbit in H.
    by rewrite Z2Nat.id in H by lia.
  - pose proof (bbit_ge a (Z.to_nat n) ltac:(lia)) as Ha.
    pose proof (bbit_ge b (Z.to_nat n) ltac:(lia)) as Hb.
    unfold bbit in Ha, Hb. rewrite Z2Nat.id in Ha, Hb by lia. congruence.
Qed.

Lemma bbit_Z_byte (x : Z) j : j < 8 -> bbit (Z_byte x) j = Z.testbit x (Z.of_nat j).
Proof.
  intros Hj. unfold bbit. rewrite byte_Z_Z_byte.
  change 256%Z with (2 ^ 8)%Z. apply Z.mod_pow2_bits_low. lia.
Qed.

Lemma bbit_byte_or (b : byte) k j :
  j < 8 -> bbit (byte_or b (Z.shiftl 1 (Z.of_nat k))) j = bbit b j || bool_decide (j = k).
Proof.
  intros Hj. unfold byte_or. rewrite bbit_Z_byte, Z.lor_spec by done. f_equal.
  rewrite Z.shiftl_1_l, Z.pow2_bits_eqb by lia.
  case_bool_decide; [apply Z.eqb_eq|apply Z.eqb_neq]; lia.
Qed.

Lemma bbit_byte_andnot (b : byte) k j :
  j < 8 -> bbit (byte_andnot b (Z.shiftl 1 (Z.of_nat k))) j = bbit b j && negb (bool_decide (j = k)).
Proof.
  intros Hj. unfold byte_andnot. rewrite bbit_Z_byte, Z.ldiff_spec by done. f_equal. f_equal.
  rewrite Z.shiftl_1_l, Z.pow2_bits_eqb by lia.
  case_bool_decide; [apply Z.eqb_eq|apply Z.eqb_neq]; lia.
Qed.

(** The [i]-th bit of a byte string, least significant bit of each byte first. *)
Definition bit (bl : bytes) (i : nat) : bool := bbit (bl !!! (i / 8)) (i mod 8).

Lemma bit_ge (bl : bytes) i : 8 * length bl <= i -> bit bl i = false.
Proof.
  intros Hi. unfold bit. assert (length bl <= i / 8) by (apply Nat.div_le_lower_bound; lia).
  rewrite list_lookup_total_alt, lookup_ge_None_2 by done. simpl.
  unfold bbit. apply Z.testbit_0_l.
Qed.

Lemma bytes_bit_ext (a b : bytes) :
  length a = length b -> (forall i, i < 8 * length a -> bit a i = bit b i) -> a = b.
Proof.
  intros Hlen H. apply list_eq_same_length with (length a); [done|done|].
  intros k x y Hk Hx Hy. apply bbit_ext. intros j Hj.
  specialize (H (8 * k + j) ltac:(lia)). unfold bit in H.
  replace ((8 * k + j) / 8) with k in H by (apply Nat.div_unique with j; lia).
  replace ((8 * k + j) mod 8) with j in H by (apply Nat.mod_unique with k; lia).
  by rewrite (list_lookup_total_correct _ _ _ Hx), (list_lookup_total_correct _ _ _ Hy) in H.
Qed.

(** Updating one byte of a byte string, bit by bit. *)
Lemma bit_alter (bl : bytes) (f : byte -> byte) k i :
  bit (alter f k bl) i =
    if decide (i / 8 = k /\ k < length bl) then bbit (f (bl !!! k)) (i mod 8) else bit bl i.
Proof.
  unfold bit. destruct (decide (k < length bl)) as [Hk|Hk].
  - destruct (decide (i / 8 = k)) as [<-|Hne].
    + rewrite decide_True by done.
      rewrite !list_lookup_total_alt, list_lookup_alter, decide_True by done.
      destruct (lookup_lt_is_Some_2 bl (i / 8) Hk) as [x ->]. done.
    + rewrite decide_False by (by intros [? _]).
      by rewrite !list_lookup_total_alt, list_lookup_alter_ne by done.
  - rewrite decide_False by (by intros [_ ?]). f_equal.
    rewrite !list_lookup_total_alt, list_lookup_alter. case_decide; [|done].
    subst. by rewrite lookup_ge_None_2 by lia.
Qed.

Lemma div_mod_eq8 (i k : nat) : (i / 8 = k / 8 /\ i mod 8 = k mod 8) <-> i = k.
Proof.
  split; [|by intros ->]. intros [H1 H2].
  rewrite (Nat.div_mod_eq i 8), (Nat.div_mod_eq k 8). lia.
Qed.

(** * Lists *)

Lemma list_filter_ext_in {A} (P1 P2 : A -> Prop)
    `{!forall x, Decision (P1 x), !forall x, Decision (P2 x)} (l : list A) :
  (forall x, x ∈ l -> P1 x <-> P2 x) -> filter P1 l = filter P2 l.
Proof.
  intros Hiff. induction l as [|x l IH]; [done|].
  rewrite !filter_cons, IH by (intros; apply Hiff; by right).
  apply decide_ext, Hiff. by left.
Qed.

(** * Little-endian integers (encoding/binary) *)

Fixpoint le_bytes (n : nat) (z : Z) : bytes :=
  match n with
  | O => []
  | S n' => Z_byte z :: le_bytes n' (z / 256)%Z
  end.

Fixpoint le_Z (l : bytes) : Z :=
  match l with
  | [] => 0
  | b :: l' => byte_Z b + 256 * le_Z l'
  end%Z.

Lemma length_le_bytes n z : length (le_bytes n z) = n.
Proof. revert z; induction n as [|n IH]; intros z; simpl; [done|]. by rewrite IH. Qed.

Lemma le_Z_bounds l : (0 <= le_Z l < 256 ^ Z.of_nat (length l))%Z.
Proof.
  induction l as [|b l IH]; [done|]. cbn [le_Z length].
  rewrite Nat2Z.inj_succ, Z.pow_succ_r by lia. pose proof (byte_Z_range b). lia.
Qed.

Lemma le_Z_le_bytes n z : (0 <= z < 256 ^ Z.of_nat n)%Z -> le_Z (le_bytes n z) = z.
Proof.
  revert z; induction n as [|n IH]; intros z Hz.
  - change (256 ^ Z.of_nat 0)%Z with 1%Z in Hz. simpl. lia.
  - cbn [le_bytes le_Z]. rewrite byte_Z_Z_byte. rewrite Nat2Z.inj_succ, Z.pow_succ_r in Hz by lia.
    rewrite IH by (split; [apply Z.div_pos; lia|apply Z.div_lt_upper_bound; lia]).
    pose proof (Z.div_mod z 256 ltac:(lia)). lia.
Qed.

Lemma le_bytes_le_Z l n : length l = n -> le_bytes n (le_Z l) = l.
Proof.
  revert n; induction l as [|b l IH]; intros [|n] Hn; simpl in Hn; try lia; [done|].
  cbn [le_bytes le_Z]. pose proof (byte_Z_range b). f_equal.
  - rewrite <- (Z_byte_byte_Z b) at 2. unfold Z_byte. do 3 f_equal.
    rewrite Z.mul_comm, Z.mod_add by lia. done.
  - rewrite Z.mul_comm, Z.div_add, (Z.div_small (byte_Z b)) by lia. simpl. apply IH. lia.
Qed.
