(* ===== verification/Slot.v ===== *)
(** types/slot.go: the 3SF-mini rule saying which slots may be justified after a
    finalized one, and the integer square root it relies on.

    [float64(n)] and [math.Sqrt] are the IEEE 754 binary64 operations: conversion to
    nearest-even, and the correctly rounded square root.  Both are written on integers
    ([float64_of_u64], [sqrt_float]); [float_model_agrees] runs them against the
    executable IEEE specification of the Standard Library (SpecFloat). *)
From Stdlib Require Import Floats.SpecFloat.
From S2P Require Import Prelude.
Local Open Scope Z_scope.
Local Open Scope go_scope.

(** * float64 *)

(** The integer nearest to [n / d], ties to even. *)
Definition rne (n d : Z) : Z :=
  let q := n / d in
  let r := n mod d in
  if 2 * r <? d then q
  else if d <? 2 * r then q + 1
  else if Z.even q then q else q + 1.

(** [float64(n)] for a uint64 [n]: 53 significant bits. *)
Definition float64_of_u64 (n : Z) : Z :=
  let k := Z.max 0 (Z.log2 n - 52) in
  rne n (2 ^ k) * 2 ^ k.

(** [math.Sqrt] of a float holding the integer [x]: the value is [fst / 2 ^ snd].  The
    root lies in [2^e, 2^(e+1)], so it has [52 - e] fractional bits. *)
Definition sqrt_float (x : Z) : Z * Z :=
  let f := 52 - Z.log2 x / 2 in
  let y := x * 4 ^ f in
  let s := Z.sqrt y in
  ((if s * s + s <? y then s + 1 else s), f).

(** [uint64(math.Sqrt(float64(n)))]: conversion to an integer truncates. *)
Definition sqrt_u64 (n : Z) : Z :=
  let '(m, f) := sqrt_float (float64_of_u64 n) in m / 2 ^ f.

(** isqrt *)
Definition isqrt (n : Z) : Z :=
  if n =? 0 then 0
  else
    let x := sqrt_u64 n in
    if (x +u 1) *u (x +u 1) <=? n then x +u 1
    else if n <? x *u x then x -u 1
    else x.

(** IsJustifiableAfter *)
Definition IsJustifiableAfter (slot finalizedSlot : Z) : bool :=
  if slot <? finalizedSlot then false
  else
    let delta := slot -u finalizedSlot in
    if delta <=? 5 then true
    else
      let s := isqrt delta in
      if s *u s =? delta then true
      else if s *u (s +u 1) =? delta then true
      else false.

(** The IEEE specification of the same computation, for comparison. *)
Definition spec_sqrt_u64 (n : Z) : Z :=
  match SFsqrt 53 1024 (binary_normalize 53 1024 n 0 false) with
  | S754_finite _ m e => Z.shiftl (Zpos m) e
  | _ => 0
  end.

(** * The float computation is within one of the exact root *)

Lemma rne_bounds n d : 0 < d -> 2 * n - d <= 2 * d * rne n d <= 2 * n + d.
Proof.
  intros Hd. unfold rne.
  pose proof (Z.div_mod n d ltac:(lia)). pose proof (Z.mod_pos_bound n d Hd).
  repeat case_match; zb; nia.
Qed.

Lemma float64_of_u64_exact n : 0 < n < 2 ^ 53 -> float64_of_u64 n = n.
Proof.
  intros Hn. unfold float64_of_u64.
  assert (Z.log2 n < 53) by (apply Z.log2_lt_pow2; lia).
  rewrite Z.max_l by lia. change (2 ^ 0) with 1.
  unfold rne. rewrite Z.div_1_r, Z.mod_1_r. simpl. lia.
Qed.

Lemma float64_of_u64_near n :
  0 < n < 2 ^ 64 -> n - 1024 <= float64_of_u64 n <= n + 1024.
Proof.
  intros Hn. unfold float64_of_u64.
  assert (Z.log2 n < 64) by (apply Z.log2_lt_pow2; lia).
  set (k := Z.max 0 (Z.log2 n - 52)).
  assert (0 < 2 ^ k) by (apply Z.pow_pos_nonneg; lia).
  assert (2 ^ k <= 2 ^ 11) by (apply Z.pow_le_mono_r; lia).
  pose proof (rne_bounds n (2 ^ k) ltac:(lia)). lia.
Qed.

(** The truncated root [x] of [N], with [f] fractional bits. *)
Lemma sqrt_float_bounds N m f :
  0 < N -> sqrt_float N = (m, f) -> 0 <= f ->
  let x := m / 2 ^ f in
  0 <= x /\ N < (x + 1) * (x + 1) /\ x * x * 2 ^ f <= N * 2 ^ f + x.
Proof.
  intros HN Hs Hf x. unfold sqrt_float in Hs. simplify_eq.
  set (f := 52 - Z.log2 N / 2) in *. set (y := N * 4 ^ f) in *.
  set (s := Z.sqrt y) in *.
  set (m := if s * s + s <? y then s + 1 else s) in *.
  assert (H4 : 4 ^ f = 2 ^ f * 2 ^ f).
  { rewrite <- Z.pow_add_r by lia. change 4 with (2 ^ 2).
    rewrite <- Z.pow_mul_r by lia. f_equal. lia. }
  set (p := 2 ^ f) in *.
  assert (Hp : 0 < p) by (apply Z.pow_pos_nonneg; lia).
  assert (Hy : 0 <= y) by nia.
  destruct (Z.sqrt_spec y Hy) as [Hlo Hhi]. fold s in Hlo, Hhi.
  assert (Hs0 : 0 <= s) by apply Z.sqrt_nonneg.
  assert (Hm : s <= m <= s + 1 /\ (m * (m - 1) < y \/ m = 0)).
  { unfold m. destruct (Z.ltb_spec (s * s + s) y); (split; [lia|]); [left; nia|].
    destruct (decide (s = 0)); [by right|left; nia]. }
  destruct Hm as [Hm Hmm].
  pose proof (Z.div_mod m p ltac:(lia)) as Hdm.
  pose proof (Z.mod_pos_bound m p Hp) as Hrm.
  fold x in Hdm.
  assert (Hx0 : 0 <= x) by (apply Z.div_pos; lia).
  split_and!; [done| |].
  - assert (s + 1 <= (x + 1) * p) by nia.
    assert (y < ((x + 1) * p) * ((x + 1) * p)) by nia.
    assert (N * (p * p) < ((x + 1) * (x + 1)) * (p * p)) by nia. nia.
  - destruct (decide (x = 0)) as [->|]; [nia|].
    assert ((x * p) * (x * p - 1) < y \/ m = 0) as [Hb|Hb].
    { destruct Hmm; [left|by right]. assert (x * p <= m) by lia. nia. }
    + assert (p * (x * x * p) < p * (N * p + x)) by nia. nia.
    + nia.
Qed.

Definition float_samples : list Z :=
  [1; 2; 3; 15; 16; 24; 25; 2 ^ 26 + 1; 2 ^ 52 - 1; 2 ^ 53 + 1; 2 ^ 53 + 3;
   94906265 * 94906265; 94906267 * 94906267 - 1; 2 ^ 62 - 1; 2 ^ 63 + 1025;
   (2 ^ 32 - 3) * (2 ^ 32 - 3) - 1; (2 ^ 32 - 1) * (2 ^ 32 - 1); 2 ^ 64 - 1025; 2 ^ 64 - 1].

Lemma float_model_agrees :
  Forall (fun n => sqrt_u64 n = spec_sqrt_u64 n) float_samples.
Proof. repeat (constructor; [vm_compute; reflexivity|]). constructor. Qed.

Lemma sqrt_u64_near n :
  0 < n < 2 ^ 64 -> Z.sqrt n - 1 <= sqrt_u64 n <= Z.sqrt n + 1.
Proof.
  intros Hn. unfold sqrt_u64.
  destruct (sqrt_float (float64_of_u64 n)) as [m f] eqn:E.
  set (N := float64_of_u64 n) in *. set (r := Z.sqrt n).
  destruct (Z.sqrt_spec n ltac:(lia)) as [Hlo Hhi]. fold r in Hlo, Hhi.
  assert (Hr0 : 0 <= r) by apply Z.sqrt_nonneg.
  assert (Hdist : N = n \/ (2 ^ 26 <= r /\ n - 1024 <= N <= n + 1024)).
  { destruct (decide (n < 2 ^ 53)); [left; apply float64_of_u64_exact; lia|right].
    split; [|apply float64_of_u64_near; lia].
    apply Z.sqrt_le_square; lia. }
  assert (HN : 0 < N).
  { destruct Hdist as [->|[? ?]]; [lia|]. nia. }
  assert (HN' : N < 2 ^ 65) by (destruct Hdist as [->|[? ?]]; lia).
  assert (Hf : 20 <= f).
  { unfold sqrt_float in E. simplify_eq.
    assert (Z.log2 N < 65) by (apply Z.log2_lt_pow2; lia).
    assert (Z.log2 N / 2 <= 32); [|lia].
    apply Z.lt_succ_r, Z.div_lt_upper_bound; lia. }
  assert (Hp : 2 ^ 20 <= 2 ^ f) by (apply Z.pow_le_mono_r; lia).
  destruct (sqrt_float_bounds N m f HN E ltac:(lia)) as (Hx0 & Hxlo & Hxhi).
  set (p := 2 ^ f) in *. set (x := m / p) in *.
  split.
  - destruct (decide (x < r - 1)); [exfalso|lia].
    assert ((x + 1) * (x + 1) <= (r - 1) * (r - 1)) by (apply Z.mul_le_mono_nonneg; lia).
    destruct Hdist as [->|[? ?]]; nia.
  - destruct (decide (r + 1 < x)); [exfalso|lia].
    assert (Hmono : (r + 2) * ((r + 2) * p - 1) <= x * (x * p - 1)).
    { assert ((r + 2) * p <= x * p) by (apply Z.mul_le_mono_nonneg_r; lia).
      assert (1 * 1 <= (r + 2) * p) by (apply Z.mul_le_mono_nonneg; lia).
      apply Z.mul_le_mono_nonneg; lia. }
    assert (Hle : (r + 2) * (r + 2) * p <= N * p + (r + 2)) by lia.
    assert (HNp : N * p <= (if decide (N = n) then n else n + 1024) * p).
    { apply Z.mul_le_mono_nonneg_r; [lia|]. case_decide; lia. }
    assert (Hnr : n <= (r + 1) * (r + 1) - 1) by lia.
    case_decide.
    + assert (n * p <= ((r + 1) * (r + 1) - 1) * p) by (apply Z.mul_le_mono_nonneg_r; lia).
      assert ((2 * r + 4) * p <= r + 2) by lia.
      assert ((2 * r + 4) * 1 <= (2 * r + 4) * p) by (apply Z.mul_le_mono_nonneg_l; lia). lia.
    + assert ((n + 1024) * p <= ((r + 1) * (r + 1) + 1023) * p)
        by (apply Z.mul_le_mono_nonneg_r; lia).
      assert ((2 * r - 1020) * p <= r + 2) by lia.
      assert ((2 * r - 1020) * 2 ^ 20 <= (2 * r - 1020) * p)
        by (apply Z.mul_le_mono_nonneg_l; lia). lia.
Qed.

(** * The properties *)

(** [isqrt] is the exact floor of the square root as long as the correction
    [(x+1)*(x+1)] cannot wrap, that is for every argument below [(2^32-2)^2]. *)
Theorem isqrt_correct (n : Z) :
  0 <= n < (2 ^ 32 - 2) * (2 ^ 32 - 2) -> isqrt n = Z.sqrt n.
Proof.
  intros Hn. unfold isqrt. destruct (Z.eqb_spec n 0) as [->|Hn0]; [done|].
  pose proof (sqrt_u64_near n ltac:(lia)) as Hx.
  destruct (Z.sqrt_spec n ltac:(lia)) as [Hlo Hhi].
  assert (Hr : 0 < Z.sqrt n < 2 ^ 32 - 2).
  { split; [apply Z.sqrt_pos; lia|]. apply Z.sqrt_lt_square; lia. }
  set (x := sqrt_u64 n) in *. set (r := Z.sqrt n) in *.
  assert (Hx1 : (x +u 1) = x + 1) by (apply u64_small; unfold is_u64; lia).
  rewrite Hx1.
  assert (((x + 1) *u (x + 1)) = (x + 1) * (x + 1)) as -> by (apply u64_small; unfold is_u64; nia).
  assert ((x *u x) = x * x) as -> by (apply u64_small; unfold is_u64; nia).
  destruct (Z.leb_spec ((x + 1) * (x + 1)) n); [nia|].
  destruct (Z.ltb_spec n (x * x)); [|nia].
  rewrite u64_small by (unfold is_u64; nia). nia.
Qed.

Lemma isqrt_small_range n :
  0 <= n < (2 ^ 32 - 2) * (2 ^ 32 - 2) -> 0 <= isqrt n < 2 ^ 32 - 2.
Proof.
  intros Hn. rewrite isqrt_correct by done. split; [apply Z.sqrt_nonneg|].
  apply Z.sqrt_lt_square; lia.
Qed.

(** The distances the 3SF-mini rule accepts. *)
Definition justifiable_distance (d : Z) : Prop :=
  0 <= d <= 5 \/ exists k, 0 <= k /\ (d = k * k \/ d = k * (k + 1)).

Lemma sqrt_square_or_pronic d :
  0 <= d ->
  (exists k, 0 <= k /\ (d = k * k \/ d = k * (k + 1))) <->
  (Z.sqrt d * Z.sqrt d = d \/ Z.sqrt d * (Z.sqrt d + 1) = d).
Proof.
  intros Hd. split.
  - intros (k & Hk & [-> | ->]).
    + left. by rewrite Z.sqrt_square.
    + right. assert (Z.sqrt (k * (k + 1)) = k) as ->; [|lia].
      apply Z.sqrt_unique. lia.
  - intros H. exists (Z.sqrt d). split; [apply Z.sqrt_nonneg|]. lia.
Qed.

(** C38: for distances below [(2^32-2)^2], [IsJustifiableAfter] is exactly the documented
    rule: the slot is not before the finalized one, and its distance is at most 5, a
    perfect square or a pronic number. *)
Theorem IsJustifiableAfter_spec (slot finalizedSlot : Z) :
  is_u64 slot -> is_u64 finalizedSlot ->
  slot - finalizedSlot < (2 ^ 32 - 2) * (2 ^ 32 - 2) ->
  IsJustifiableAfter slot finalizedSlot = true <->
  finalizedSlot <= slot /\ justifiable_distance (slot - finalizedSlot).
Proof.
  intros Hs Hf Hd. unfold IsJustifiableAfter, justifiable_distance, is_u64 in *.
  destruct (Z.ltb_spec slot finalizedSlot); [split; [done|lia]|].
  rewrite u64_small by (unfold is_u64; lia).
  set (d := slot - finalizedSlot) in *.
  destruct (Z.leb_spec d 5); [split; [intros _; lia|done]|].
  pose proof (isqrt_small_range d ltac:(lia)) as Hr.
  rewrite sqrt_square_or_pronic by lia. rewrite <- isqrt_correct by lia.
  set (s := isqrt d) in *.
  rewrite (u64_small (s * s)) by (unfold is_u64; nia).
  rewrite (u64_small (s + 1)) by (unfold is_u64; nia).
  rewrite (u64_small (s * (s + 1))) by (unfold is_u64; nia).
  destruct (Z.eqb_spec (s * s) d); [split; [intros _; lia|done]|].
  destruct (Z.eqb_spec (s * (s + 1)) d); [split; [intros _; lia|done]|].
  split; [done|lia].
Qed.

(** near the top of the range the correction step wraps around: [isqrt] exceeds the root
    and the rule rejects a slot at a perfect-square distance. *)
Theorem isqrt_wraps :
  isqrt ((2 ^ 32 - 1) * (2 ^ 32 - 1)) = 2 ^ 32 /\
  isqrt (2 ^ 64 - 1) = 2 ^ 32 + 1 /\
  IsJustifiableAfter ((2 ^ 32 - 1) * (2 ^ 32 - 1)) 0 = false /\
  justifiable_distance ((2 ^ 32 - 1) * (2 ^ 32 - 1)).
Proof.
  split_and!; try (vm_compute; reflexivity).
  right. exists (2 ^ 32 - 1). lia.
Qed.

Lemma isqrt_correct_witness :
  0 <= 9007199254740993 < (2 ^ 32 - 2) * (2 ^ 32 - 2) /\
  isqrt 9007199254740993 = Z.sqrt 9007199254740993.
Proof. split; [lia|apply (isqrt_correct 9007199254740993); lia]. Defined.

Lemma IsJustifiableAfter_spec_witness :
  IsJustifiableAfter 1046 16 = false /\
  (IsJustifiableAfter 1046 16 = true <-> 16 <= 1046 /\ justifiable_distance (1046 - 16)).
Proof.
  split; [vm_compute; reflexivity|].
  apply (IsJustifiableAfter_spec 1046 16); unfold is_u64; lia.
Defined.

(** * Facts the state transition uses *)

Lemma IsJustifiableAfter_refl (s : Z) : is_u64 s -> IsJustifiableAfter s s = true.
Proof.
  intros Hs. unfold IsJustifiableAfter. rewrite Z.ltb_irrefl, Z.sub_diag. done.
Qed.

Lemma IsJustifiableAfter_ge (slot fin : Z) : IsJustifiableAfter slot fin = true -> fin <= slot.
Proof. unfold IsJustifiableAfter. destruct (Z.ltb_spec slot fin); [done|lia]. Qed.
