(* ===== verification/Bitlist.v ===== *)
(** chain/statetransition/bitlist.go: SSZ bitlists on byte slices, and the list of
    booleans each of them stands for.

    The abstract value of a bitlist is a [list bool]; [encode_bits] is its unique
    canonical byte string (data bits packed least-significant first, then the sentinel).
    Every helper of the file is shown to implement the list operation it names. *)
From S2P Require Import Prelude.
Local Open Scope Z_scope.

(** * The code *)

(** [for b := lastByte; b > 0; b >>= 1 { msb++ }]: a byte has at most eight bits, so
    eight rounds always reach zero. *)
Fixpoint msb_loop (fuel : nat) (b msb : Z) : Z :=
  match fuel with
  | O => msb
  | S fuel' => if 0 <? b then msb_loop fuel' (Z.shiftr b 1) (msb + 1) else msb
  end.

(** BitlistLen *)
Definition BitlistLen (bl : bytes) : Z :=
  if (length bl =? 0)%nat then 0
  else
    let lastByte := bl !!! (length bl - 1)%nat in
    if byte_Z lastByte =? 0 then 0
    else
      let msb := msb_loop 8 (byte_Z lastByte) 0 in
      (Z.of_nat (length bl) - 1) * 8 + msb - 1.

(** GetBit *)
Definition GetBit (bl : bytes) (idx : Z) : bool :=
  let byteIdx := idx / 8 in
  let bitIdx := idx mod 8 in
  if Z.of_nat (length bl) <=? byteIdx then false
  else negb (Z.land (byte_Z (bl !!! Z.to_nat byteIdx)) (Z.shiftl 1 bitIdx) =? 0).

(** SetBit *)
Definition SetBit (bl : bytes) (idx : Z) (val : bool) : bytes :=
  let byteIdx := idx / 8 in
  let bitIdx := idx mod 8 in
  if Z.of_nat (length bl) <=? byteIdx then bl
  else if val then alter (fun b => byte_or b (Z.shiftl 1 bitIdx)) (Z.to_nat byteIdx) bl
  else alter (fun b => byte_andnot b (Z.shiftl 1 bitIdx)) (Z.to_nat byteIdx) bl.

(** AppendBit *)
Definition AppendBit (bl : bytes) (val : bool) : bytes :=
  let n := BitlistLen bl in
  let newLen := n + 1 in
  let neededBytes := (newLen + 1 + 7) / 8 in
  (* for len(bl) < neededBytes { bl = append(bl, 0) }; bl = bl[:neededBytes] *)
  let bl := bl ++ replicate (Z.to_nat neededBytes - length bl) Byte.x00 in
  let bl := take (Z.to_nat neededBytes) bl in
  (* Clear old sentinel. *)
  let bl :=
    if 0 <? n then
      let sentinelByte := n / 8 in
      let sentinelBit := n mod 8 in
      if sentinelByte <? Z.of_nat (length bl)
      then alter (fun b => byte_andnot b (Z.shiftl 1 sentinelBit)) (Z.to_nat sentinelByte) bl
      else bl
    else bl in
  (* Set the new data bit. *)
  let dataByte := n / 8 in
  let dataBit := n mod 8 in
  let bl :=
    if val then alter (fun b => byte_or b (Z.shiftl 1 dataBit)) (Z.to_nat dataByte) bl
    else alter (fun b => byte_andnot b (Z.shiftl 1 dataBit)) (Z.to_nat dataByte) bl in
  (* Set new sentinel at position newLen. *)
  let sentinelByte := newLen / 8 in
  let sentinelBit := newLen mod 8 in
  alter (fun b => byte_or b (Z.shiftl 1 sentinelBit)) (Z.to_nat sentinelByte) bl.

(** MakeBitlist: [numBits + 1 + 7] is a uint64 sum, and writing the sentinel of a slice
    that the wrapped size made too short is an index panic. *)
Definition MakeBitlist (numBits : Z) : outcome bytes :=
  if numBits =? 0 then Ok [Byte.x01]
  else
    let numBytes := u64 (numBits + 1 + 7) / 8 in
    let bl := replicate (Z.to_nat numBytes) Byte.x00 in
    if numBytes <=? numBits / 8 then Panic "index out of range"
    else Ok (alter (fun b => byte_or b (Z.shiftl 1 (numBits mod 8))) (Z.to_nat (numBits / 8)) bl).

(** CloneBitlist: [copy] into a fresh slice of the same length. *)
Definition CloneBitlist (src : bytes) : bytes :=
  let dst := replicate (length src) Byte.x00 in
  take (length dst) src ++ drop (length src) dst.

(** * Canonical bitlists *)

(** The byte whose [j]-th bit is [f j]. *)
Definition byte_of_bits (f : nat -> bool) : byte :=
  Z_byte (foldr (fun j acc => 2 * acc + Z.b2z (f j)) 0 (seq 0 8)).

(** The canonical SSZ form: data bits, the sentinel, zero padding. *)
Definition encode_bits (l : list bool) : bytes :=
  map (fun k => byte_of_bits (fun j => default false ((l ++ [true]) !! (8 * k + j)%nat)))
      (seq 0 (length l / 8 + 1)).

Lemma testbit_foldr_bits (f : nat -> bool) (n s j : nat) :
  (j < n)%nat ->
  Z.testbit (foldr (fun j acc => 2 * acc + Z.b2z (f j)) 0 (seq s n)) (Z.of_nat j) = f (s + j)%nat.
Proof.
  revert s j; induction n as [|n IH]; intros s j Hj; [lia|].
  cbn [seq foldr]. destruct j as [|j].
  - rewrite Z.testbit_0_r. f_equal; lia.
  - rewrite Nat2Z.inj_succ, Z.testbit_succ_r by lia. rewrite IH by lia. f_equal; lia.
Qed.

Lemma bbit_byte_of_bits (f : nat -> bool) j : (j < 8)%nat -> bbit (byte_of_bits f) j = f j.
Proof.
  intros Hj. unfold byte_of_bits. rewrite bbit_Z_byte by done.
  by rewrite testbit_foldr_bits.
Qed.

Lemma length_encode_bits l : length (encode_bits l) = (length l / 8 + 1)%nat.
Proof. unfold encode_bits. by rewrite length_map, length_seq. Qed.

Lemma div8_bounds (n : nat) : (8 * (n / 8) <= n < 8 * (n / 8) + 8)%nat.
Proof. pose proof (Nat.div_mod_eq n 8). pose proof (Nat.mod_upper_bound n 8). lia. Qed.

(** Every bit of the canonical form, the padding included. *)
Lemma bit_encode_bits l i : bit (encode_bits l) i = default false ((l ++ [true]) !! i).
Proof.
  pose proof (div8_bounds (length l)). pose proof (Nat.div_mod_eq i 8).
  pose proof (Nat.mod_upper_bound i 8 ltac:(lia)).
  destruct (decide (i < 8 * length (encode_bits l))%nat) as [Hi|Hi].
  - rewrite length_encode_bits in Hi. unfold bit, encode_bits.
    assert (Hk : (i / 8 < length l / 8 + 1)%nat) by (apply Nat.Div0.div_lt_upper_bound; lia).
    erewrite list_lookup_total_correct.
    2:{ rewrite list_lookup_fmap, lookup_seq_lt by done. reflexivity. }
    rewrite bbit_byte_of_bits by done. do 2 f_equal. lia.
  - rewrite bit_ge by lia. rewrite length_encode_bits in Hi.
    rewrite lookup_ge_None_2; [done|]. rewrite length_app. simpl. lia.
Qed.

(** * What the helpers compute *)

Lemma GetBit_bit bl (i : nat) : GetBit bl (Z.of_nat i) = bit bl i.
Proof.
  unfold GetBit, bit.
  replace (Z.of_nat i / 8) with (Z.of_nat (i / 8)%nat) by (rewrite Nat2Z.inj_div; done).
  replace (Z.of_nat i mod 8) with (Z.of_nat (i mod 8)%nat) by (rewrite Nat2Z.inj_mod; done).
  rewrite Nat2Z.id. destruct (Z.leb_spec (Z.of_nat (length bl)) (Z.of_nat (i / 8)%nat)) as [Hge|Hlt].
  - rewrite list_lookup_total_alt, lookup_ge_None_2 by lia. simpl.
    symmetry. apply Z.testbit_0_l.
  - unfold bbit. set (b := byte_Z _). rewrite Z.shiftl_1_l.
    destruct (Z.testbit b (Z.of_nat (i mod 8))) eqn:E.
    + apply negb_true_iff, Z.eqb_neq. intros H0.
      apply (f_equal (fun z => Z.testbit z (Z.of_nat (i mod 8)))) in H0.
      rewrite Z.land_spec, E, Z.pow2_bits_true, Z.testbit_0_l in H0 by lia. done.
    + apply negb_false_iff, Z.eqb_eq, Z.bits_inj'. intros n Hn.
      rewrite Z.land_spec, Z.testbit_0_l.
      destruct (decide (n = Z.of_nat (i mod 8))) as [->|]; [by rewrite E|].
      rewrite Z.pow2_bits_false by done. apply andb_false_r.
Qed.

Lemma msb_loop_spec fuel b msb :
  0 <= b < 2 ^ Z.of_nat fuel ->
  msb_loop fuel b msb = if b =? 0 then msb else msb + Z.log2 b + 1.
Proof.
  revert b msb; induction fuel as [|fuel IH]; intros b msb Hb.
  - change (2 ^ Z.of_nat 0) with 1 in Hb. replace b with 0 by lia. done.
  - cbn [msb_loop]. destruct (Z.ltb_spec 0 b) as [Hpos|Hz].
    + rewrite Nat2Z.inj_succ, Z.pow_succ_r in Hb by lia.
      rewrite IH by (rewrite Z.shiftr_div_pow2 by lia; split;
                     [apply Z.div_pos; lia|apply Z.div_lt_upper_bound; lia]).
      rewrite (proj2 (Z.eqb_neq b 0)) by lia.
      destruct (Z.eqb_spec (Z.shiftr b 1) 0) as [Hs|Hs].
      * apply Z.shiftr_eq_0_iff in Hs as [|[_ Hl]]; [lia|].
        pose proof (Z.log2_nonneg b). lia.
      * rewrite Z.log2_shiftr by lia.
        assert (Z.log2 b <> 0); [|pose proof (Z.log2_nonneg b); lia].
        intros Hl. apply Hs, Z.shiftr_eq_0; lia.
    + replace b with 0 by lia. done.
Qed.

Lemma last_encode_bits l (j : nat) :
  (j < 8)%nat ->
  bbit (encode_bits l !!! (length l / 8)%nat) j = default false ((l ++ [true]) !! (8 * (length l / 8) + j)%nat).
Proof.
  intros Hj. rewrite <- bit_encode_bits. unfold bit. f_equal.
  - f_equal. apply Nat.div_unique with j; lia.
  - apply Nat.mod_unique with (length l / 8)%nat; lia.
Qed.

(** The length is read back. *)
Lemma BitlistLen_encode l : BitlistLen (encode_bits l) = Z.of_nat (length l).
Proof.
  unfold BitlistLen. rewrite length_encode_bits.
  replace (length l / 8 + 1 - 1)%nat with (length l / 8)%nat by lia.
  rewrite (proj2 (Nat.eqb_neq _ _)) by lia.
  set (b := encode_bits l !!! (length l / 8)%nat).
  pose proof (div8_bounds (length l)) as Hd. set (q := (length l / 8)%nat) in *.
  assert (Hlog : Z.log2 (byte_Z b) = Z.of_nat (length l - 8 * q) /\ byte_Z b <> 0).
  { assert (Htop : Z.testbit (byte_Z b) (Z.of_nat (length l - 8 * q)) = true).
    { pose proof (last_encode_bits l (length l - 8 * q) ltac:(fold q; lia)) as H.
      fold q b in H. unfold bbit in H. rewrite H.
      replace (8 * q + (length l - 8 * q))%nat with (length l) by lia.
      by rewrite list_lookup_middle. }
    split.
    - apply Z.log2_bits_unique; [done|]. intros m Hm.
      replace m with (Z.of_nat (Z.to_nat m)) by lia. change (bbit b (Z.to_nat m) = false).
      destruct (decide (Z.to_nat m < 8)%nat); [|by apply bbit_ge; lia].
      unfold b, q. rewrite last_encode_bits by done. fold q.
      rewrite lookup_ge_None_2; [done|]. rewrite length_app; simpl; lia.
    - intros H0. by rewrite H0, Z.testbit_0_l in Htop. }
  destruct Hlog as [Hlog Hnz].
  rewrite (proj2 (Z.eqb_neq _ _)) by done.
  rewrite msb_loop_spec by apply byte_Z_range.
  rewrite (proj2 (Z.eqb_neq _ _)) by done. rewrite Hlog. lia.
Qed.

(** Reading any index: the data bit, the sentinel at the length, false beyond. *)
Lemma GetBit_encode l (i : nat) :
  GetBit (encode_bits l) (Z.of_nat i) = default false ((l ++ [true]) !! i).
Proof. by rewrite GetBit_bit, bit_encode_bits. Qed.

Lemma GetBit_encode_lt l (i : nat) b : l !! i = Some b -> GetBit (encode_bits l) (Z.of_nat i) = b.
Proof. intros H. rewrite GetBit_encode, (lookup_app_l_Some _ _ _ _ H). done. Qed.

Lemma lookup_app_sentinel (l : list bool) i :
  default false ((l ++ [true]) !! i) =
    if decide (i < length l)%nat then default false (l !! i) else bool_decide (i = length l).
Proof.
  case_decide.
  - by rewrite lookup_app_l by done.
  - rewrite lookup_app_r by lia. case_bool_decide.
    + by replace (i - length l)%nat with 0%nat by lia.
    + by rewrite lookup_ge_None_2 by (simpl; lia).
Qed.

(** The canonical form is the only byte string with these bits and this size. *)
Lemma encode_bits_unique bl l :
  length bl = (length l / 8 + 1)%nat ->
  (forall i, (i < 8 * length bl)%nat -> bit bl i = default false ((l ++ [true]) !! i)) ->
  bl = encode_bits l.
Proof.
  intros Hlen Hbit. apply bytes_bit_ext.
  - by rewrite length_encode_bits.
  - intros i Hi. rewrite bit_encode_bits. by apply Hbit.
Qed.

Lemma bit_alter_or bl k i :
  (k < 8 * length bl)%nat ->
  bit (alter (fun b => byte_or b (Z.shiftl 1 (Z.of_nat k mod 8))) (Z.to_nat (Z.of_nat k / 8)) bl) i
  = bit bl i || bool_decide (i = k).
Proof.
  intros Hk.
  replace (Z.of_nat k mod 8) with (Z.of_nat (k mod 8)) by (by rewrite Nat2Z.inj_mod).
  replace (Z.to_nat (Z.of_nat k / 8)) with (k / 8)%nat
    by (change 8 with (Z.of_nat 8); by rewrite <- Nat2Z.inj_div, Nat2Z.id).
  rewrite bit_alter. destruct (decide (i / 8 = k / 8 /\ k / 8 < length bl)%nat) as [[Hd _]|Hn].
  - rewrite bbit_byte_or by (apply Nat.mod_upper_bound; lia).
    unfold bit at 1. rewrite Hd. f_equal. apply bool_decide_ext.
    rewrite <- (div_mod_eq8 i k). split; [by intros ->|by intros [_ ->]].
  - rewrite (bool_decide_eq_false_2 (i = k)); [by rewrite orb_false_r|].
    intros ->. apply Hn. split; [done|]. apply Nat.Div0.div_lt_upper_bound; lia.
Qed.

Lemma bit_alter_andnot bl k i :
  (k < 8 * length bl)%nat ->
  bit (alter (fun b => byte_andnot b (Z.shiftl 1 (Z.of_nat k mod 8))) (Z.to_nat (Z.of_nat k / 8)) bl) i
  = bit bl i && negb (bool_decide (i = k)).
Proof.
  intros Hk.
  replace (Z.of_nat k mod 8) with (Z.of_nat (k mod 8)) by (by rewrite Nat2Z.inj_mod).
  replace (Z.to_nat (Z.of_nat k / 8)) with (k / 8)%nat
    by (change 8 with (Z.of_nat 8); by rewrite <- Nat2Z.inj_div, Nat2Z.id).
  rewrite bit_alter. destruct (decide (i / 8 = k / 8 /\ k / 8 < length bl)%nat) as [[Hd _]|Hn].
  - rewrite bbit_byte_andnot by (apply Nat.mod_upper_bound; lia).
    unfold bit at 1. rewrite Hd. do 2 f_equal. apply bool_decide_ext.
    rewrite <- (div_mod_eq8 i k). split; [by intros ->|by intros [_ ->]].
  - rewrite (bool_decide_eq_false_2 (i = k)); [by rewrite andb_true_r|].
    intros ->. apply Hn. split; [done|]. apply Nat.Div0.div_lt_upper_bound; lia.
Qed.

(** Storing the value [v] at bit [k]: the code's two branches, as one update. *)
Lemma bit_store bl k (v : bool) i :
  (k < 8 * length bl)%nat ->
  bit (if v
       then alter (fun b => byte_or b (Z.shiftl 1 (Z.of_nat k mod 8))) (Z.to_nat (Z.of_nat k / 8)) bl
       else alter (fun b => byte_andnot b (Z.shiftl 1 (Z.of_nat k mod 8))) (Z.to_nat (Z.of_nat k / 8)) bl) i
  = if decide (i = k) then v else bit bl i.
Proof.
  intros Hk. destruct v; [rewrite bit_alter_or|rewrite bit_alter_andnot]; try done;
    destruct (decide (i = k)) as [->|Hi].
  - by rewrite bool_decide_eq_true_2, orb_true_r.
  - by rewrite bool_decide_eq_false_2, orb_false_r.
  - by rewrite bool_decide_eq_true_2, andb_false_r.
  - by rewrite bool_decide_eq_false_2, andb_true_r.
Qed.

Lemma bit_take_pad bl n i :
  (length bl <= n)%nat ->
  bit (take n (bl ++ replicate (n - length bl) Byte.x00)) i = bit bl i.
Proof.
  intros Hn. rewrite take_ge by (rewrite length_app, length_replicate; lia).
  unfold bit. f_equal. rewrite !list_lookup_total_alt.
  destruct (decide (i / 8 < length bl)%nat).
  - by rewrite lookup_app_l.
  - rewrite lookup_app_r, (lookup_ge_None_2 bl) by lia.
    destruct (_ !! _) as [x|] eqn:E; [|done].
    by apply lookup_replicate in E as [-> _].
Qed.

Create Rewrite HintDb bitlist.
#[export] Hint Rewrite BitlistLen_encode length_encode_bits bit_encode_bits : bitlist.
#[export] Hint Rewrite @length_alter @length_app @length_replicate @length_insert : bitlist.

(** * The properties *)

(** [AppendBit] on a canonical bitlist is [append] on the list it stands for: the old
    sentinel is cleared, the bit is stored, a new sentinel is set, and the byte slice grows
    exactly when it must. *)
Lemma AppendBit_encode (l : list bool) (v : bool) :
  AppendBit (encode_bits l) v = encode_bits (l ++ [v]).
Proof.
  unfold AppendBit. rewrite BitlistLen_encode.
  set (n := length l). pose proof (div8_bounds n). pose proof (div8_bounds (n + 1)).
  assert (Hneed : Z.to_nat ((Z.of_nat n + 1 + 1 + 7) / 8) = ((n + 1) / 8 + 1)%nat).
  { replace (Z.of_nat n + 1 + 1 + 7) with (Z.of_nat (n + 1) + 1 * 8) by lia.
    rewrite Z.div_add by lia. change 8 with (Z.of_nat 8). rewrite <- Nat2Z.inj_div. lia. }
  rewrite Hneed. set (need := ((n + 1) / 8 + 1)%nat).
  set (bl0 := take need _).
  assert (Hl0 : length bl0 = need).
  { unfold bl0. rewrite length_take. autorewrite with bitlist. unfold need. fold n. lia. }
  assert (Hb0 : forall i, bit bl0 i = default false ((l ++ [true]) !! i)).
  { intros i. unfold bl0. rewrite bit_take_pad; [apply bit_encode_bits|].
    autorewrite with bitlist. fold n. unfold need. lia. }
  set (bl1 := if 0 <? Z.of_nat n then _ else _).
  assert (Hl1 : length bl1 = need /\ forall i, i <> n -> bit bl1 i = default false ((l ++ [true]) !! i)).
  { unfold bl1. repeat case_match; autorewrite with bitlist; split; auto.
    intros i Hi. rewrite bit_alter_andnot by (rewrite Hl0; unfold need; lia).
    rewrite bool_decide_eq_false_2 by done. by rewrite Hb0, andb_true_r. }
  destruct Hl1 as [Hl1 Hb1]. clearbody bl1 bl0.
  replace (Z.of_nat n + 1) with (Z.of_nat (n + 1)) by lia.
  apply encode_bits_unique.
  - rewrite length_alter. destruct v; rewrite length_alter, Hl1, length_app; simpl; done.
  - intros i _. rewrite lookup_app_sentinel, length_app. simpl. fold n.
    rewrite bit_alter_or by (destruct v; rewrite length_alter, Hl1; unfold need; lia).
    rewrite bit_store by (rewrite Hl1; unfold need; lia).
    destruct (decide (i = n)) as [->|Hin].
    + rewrite (decide_True (P:=(n < n + 1)%nat)) by lia. rewrite bool_decide_eq_false_2 by lia.
      unfold n. rewrite list_lookup_middle by done. by rewrite orb_false_r.
    + destruct (decide (i < n)%nat) as [Hlt|Hge].
      * rewrite Hb1, lookup_app_sentinel by done. fold n.
        rewrite !decide_True by lia. rewrite bool_decide_eq_false_2 by lia.
        rewrite lookup_app_l by done. by rewrite orb_false_r.
      * rewrite Hb1, lookup_app_sentinel by done. fold n. rewrite !decide_False by lia.
        rewrite (bool_decide_eq_false_2 (i = n)) by done. done.
Qed.

(** [SetBit] inside the data bits of a canonical bitlist is the list update at that
    index; the sentinel and every other bit stay. *)
Lemma SetBit_encode (l : list bool) (i : nat) (v : bool) :
  (i < length l)%nat ->
  SetBit (encode_bits l) (Z.of_nat i) v = encode_bits (<[i := v]> l).
Proof.
  intros Hi. pose proof (div8_bounds (length l)).
  assert (Hi' : (i < 8 * length (encode_bits l))%nat) by (autorewrite with bitlist; lia).
  unfold SetBit. replace (Z.of_nat (length (encode_bits l)) <=? Z.of_nat i / 8) with false.
  2:{ symmetry. apply Z.leb_gt. apply Z.div_lt_upper_bound; lia. }
  apply encode_bits_unique.
  - destruct v; by autorewrite with bitlist.
  - intros j _. rewrite bit_store by done. rewrite bit_encode_bits, !lookup_app_sentinel.
    rewrite length_insert. destruct (decide (j = i)) as [->|Hj].
    + rewrite decide_True by done. by rewrite list_lookup_insert_eq.
    + by rewrite list_lookup_insert_ne.
Qed.

(** [MakeBitlist n] is the bitlist of [n] zero bits, for every [n] whose size
    computation does not wrap. *)
Lemma MakeBitlist_encode (n : Z) :
  0 <= n < 2 ^ 64 - 8 -> MakeBitlist n = Ok (encode_bits (replicate (Z.to_nat n) false)).
Proof.
  intros Hn. unfold MakeBitlist. destruct (Z.eqb_spec n 0) as [->|Hn0]; [done|].
  rewrite u64_small by (unfold is_u64; lia).
  assert (Hneed : (n + 1 + 7) / 8 = n / 8 + 1).
  { replace (n + 1 + 7) with (n + 1 * 8) by lia. rewrite Z.div_add by lia. done. }
  rewrite Hneed. rewrite (proj2 (Z.leb_gt _ _)) by lia. f_equal.
  remember (Z.to_nat n) as k eqn:Ek. assert (n = Z.of_nat k) as -> by lia. clear Ek.
  assert (Hk : Z.to_nat (Z.of_nat k / 8 + 1) = (k / 8 + 1)%nat).
  { change 8 with (Z.of_nat 8). rewrite <- Nat2Z.inj_div. lia. }
  rewrite Hk. pose proof (div8_bounds k). apply encode_bits_unique.
  - by autorewrite with bitlist.
  - intros i _. rewrite bit_alter_or by (rewrite length_replicate; lia).
    rewrite lookup_app_sentinel, length_replicate.
    assert (bit (replicate (k / 8 + 1) Byte.x00) i = false) as ->.
    { unfold bit. rewrite list_lookup_total_alt.
      destruct (_ !! _) as [x|] eqn:E; [apply lookup_replicate in E as [-> _]|];
        apply Z.testbit_0_l. }
    case_decide; [|done]. rewrite bool_decide_eq_false_2 by lia.
    by rewrite lookup_replicate_2.
Qed.

Lemma CloneBitlist_id bl : CloneBitlist bl = bl.
Proof.
  unfold CloneBitlist. rewrite length_replicate, take_ge by done.
  rewrite drop_ge by (by rewrite length_replicate). apply app_nil_r.
Qed.

Lemma encode_bits_nil : encode_bits [] = [Byte.x01].
Proof. reflexivity. Qed.

Lemma encode_bits_inj : Inj (=) (=) encode_bits.
Proof.
  intros l l' Heq. assert (Hlen : length l = length l').
  { pose proof (BitlistLen_encode l) as H. rewrite Heq, BitlistLen_encode in H. lia. }
  apply list_eq_same_length with (length l); [done|done|].
  intros i x y Hi Hx Hy.
  by rewrite <- (GetBit_encode_lt _ _ _ Hx), <- (GetBit_encode_lt _ _ _ Hy), Heq.
Qed.

(** The two readers recover a canonical bitlist completely: [BitlistLen] its length and
    [GetBit] each of its bits, so a bitlist determines its list of booleans. *)
Theorem bitlist_roundtrip (l : list bool) :
  map (fun i => GetBit (encode_bits l) (Z.of_nat i)) (seq 0 (Z.to_nat (BitlistLen (encode_bits l))))
  = l.
Proof.
  rewrite BitlistLen_encode, Nat2Z.id.
  apply list_eq_same_length with (length l); [done|by rewrite length_map, length_seq|].
  intros i x y Hi Hx Hy. rewrite list_lookup_fmap, lookup_seq_lt in Hx by done.
  simpl in Hx. simplify_eq. by apply GetBit_encode_lt.
Qed.

(** C37: the bitlist operations are the list operations on the booleans a canonical bitlist
    stands for: the length and the bits are read back, a bit past the end reads as the
    sentinel or as zero, setting a data bit updates the list, appending extends it (the
    sentinel moves, the slice grows exactly when it must), and a fresh bitlist is all zeros. *)
Theorem bitlist_refines_list :
  (forall l, BitlistLen (encode_bits l) = Z.of_nat (length l)) /\
  (forall l (i : nat), GetBit (encode_bits l) (Z.of_nat i) = default false ((l ++ [true]) !! i)) /\
  (forall l (i : nat) v, (i < length l)%nat ->
     SetBit (encode_bits l) (Z.of_nat i) v = encode_bits (<[i := v]> l)) /\
  (forall l v, AppendBit (encode_bits l) v = encode_bits (l ++ [v])) /\
  (forall n, 0 <= n < 2 ^ 64 - 8 -> MakeBitlist n = Ok (encode_bits (replicate (Z.to_nat n) false))).
Proof.
  split; [exact BitlistLen_encode|]. split; [exact GetBit_encode|]. split; [exact SetBit_encode|].
  split; [exact AppendBit_encode|exact MakeBitlist_encode].
Qed.
