(* ===== verification/Types.v ===== *)
(** The types package (types/*.go): the consensus containers as records, the protocol
    constants, and [State.Copy].

    [uint64] fields are [Z], the [wf_] predicates give their range.  Fixed arrays are
    vectors, so their length is part of the type.  A pointer to a struct that the code
    allocates everywhere and dereferences without a test is the struct itself;
    [BlockWithAttestation.ProposerAttestation], which the code does test against nil, is an
    option. *)
From S2P Require Import Prelude.
Local Open Scope Z_scope.

(** * Constants (types/constants.go, types/state.go, types/aggregated_attestation.go) *)

Definition SecondsPerSlot : Z := 4.
Definition IntervalsPerSlot : Z := 4.
Definition SecondsPerInterval : Z := SecondsPerSlot / IntervalsPerSlot.
Definition JustificationLookback : nat := 3.
Definition MaxRequestBlocks : Z := 1024.
Definition XMSSSignatureSize : nat := 3112.
Definition HistoricalRootsLimit : Z := Z.shiftl 1 18.
Definition ValidatorRegistryLimit : Z := Z.shiftl 1 12.
Definition JustificationValsLimit : Z := HistoricalRootsLimit * ValidatorRegistryLimit.

Abbreviation root := (vec Byte.byte 32).
Abbreviation signature := (vec Byte.byte XMSSSignatureSize).
Abbreviation pubkey := (vec Byte.byte 52).

Definition ZeroHash : root := vreplicate 32 Byte.x00.

(** * Containers *)

Record Config := mkConfig { cfg_GenesisTime : Z }.

Record Checkpoint := mkCheckpoint { cp_Root : root; cp_Slot : Z }.

Record AttestationData := mkAttestationData {
  ad_Slot : Z;
  ad_Head : Checkpoint;
  ad_Target : Checkpoint;
  ad_Source : Checkpoint }.

Record Attestation := mkAttestation {
  att_ValidatorID : Z;
  att_Data : AttestationData }.

Record SignedAttestation := mkSignedAttestation {
  sa_ValidatorID : Z;
  sa_Message : AttestationData;
  sa_Signature : signature }.

Record AggregatedAttestation := mkAggregatedAttestation {
  ag_Data : AttestationData;
  ag_AggregationBits : bytes;
  ag_AggregatedSignature : bytes }.

Record BlockHeader := mkBlockHeader {
  bh_Slot : Z;
  bh_ProposerIndex : Z;
  bh_ParentRoot : root;
  bh_StateRoot : root;
  bh_BodyRoot : root }.

Record BlockBody := mkBlockBody { bb_Attestations : list Attestation }.

Record Block := mkBlock {
  b_Slot : Z;
  b_ProposerIndex : Z;
  b_ParentRoot : root;
  b_StateRoot : root;
  b_Body : BlockBody }.

Record BlockWithAttestation := mkBlockWithAttestation {
  ba_Block : Block;
  ba_ProposerAttestation : option Attestation }.

Record SignedBlockWithAttestation := mkSignedBlock {
  sb_Message : BlockWithAttestation;
  sb_Signature : list signature }.

Record Validator := mkValidator { v_Pubkey : pubkey; v_Index : Z }.

Record State := mkState {
  st_Config : Config;
  st_Slot : Z;
  st_LatestBlockHeader : BlockHeader;
  st_LatestJustified : Checkpoint;
  st_LatestFinalized : Checkpoint;
  st_HistoricalBlockHashes : list root;
  st_JustifiedSlots : bytes;
  st_Validators : list Validator;
  st_JustificationsRoots : list root;
  st_JustificationsValidators : bytes }.

(** State.Copy: every field of the copy is a fresh value equal to the original's. *)
Definition Copy (s : State) : State :=
  {| st_Config := mkConfig (cfg_GenesisTime (st_Config s));
     st_Slot := st_Slot s;
     st_LatestBlockHeader := st_LatestBlockHeader s;
     st_LatestJustified := mkCheckpoint (cp_Root (st_LatestJustified s)) (cp_Slot (st_LatestJustified s));
     st_LatestFinalized := mkCheckpoint (cp_Root (st_LatestFinalized s)) (cp_Slot (st_LatestFinalized s));
     st_HistoricalBlockHashes := st_HistoricalBlockHashes s;
     st_JustifiedSlots := st_JustifiedSlots s;
     st_Validators := map (fun v => mkValidator (v_Pubkey v) (v_Index v)) (st_Validators s);
     st_JustificationsRoots := st_JustificationsRoots s;
     st_JustificationsValidators := st_JustificationsValidators s |}.

(** Assignments to fields of a copied state. *)
Definition set_Slot (s : State) (x : Z) : State :=
  {| st_Config := st_Config s; st_Slot := x;
     st_LatestBlockHeader := st_LatestBlockHeader s;
     st_LatestJustified := st_LatestJustified s; st_LatestFinalized := st_LatestFinalized s;
     st_HistoricalBlockHashes := st_HistoricalBlockHashes s;
     st_JustifiedSlots := st_JustifiedSlots s; st_Validators := st_Validators s;
     st_JustificationsRoots := st_JustificationsRoots s;
     st_JustificationsValidators := st_JustificationsValidators s |}.

Definition set_LatestBlockHeader (s : State) (h : BlockHeader) : State :=
  {| st_Config := st_Config s; st_Slot := st_Slot s;
     st_LatestBlockHeader := h;
     st_LatestJustified := st_LatestJustified s; st_LatestFinalized := st_LatestFinalized s;
     st_HistoricalBlockHashes := st_HistoricalBlockHashes s;
     st_JustifiedSlots := st_JustifiedSlots s; st_Validators := st_Validators s;
     st_JustificationsRoots := st_JustificationsRoots s;
     st_JustificationsValidators := st_JustificationsValidators s |}.

Definition set_StateRoot (h : BlockHeader) (r : root) : BlockHeader :=
  {| bh_Slot := bh_Slot h; bh_ProposerIndex := bh_ProposerIndex h;
     bh_ParentRoot := bh_ParentRoot h; bh_StateRoot := r; bh_BodyRoot := bh_BodyRoot h |}.

Lemma Copy_id s : Copy s = s.
Proof.
  destruct s as [[g] ? ? [? ?] [? ?] ? ? vs ? ?]. unfold Copy; simpl. f_equal.
  rewrite <- (map_id vs) at 2. apply map_ext. by intros [].
Qed.

(** * Decidable equality *)

#[export] Instance Config_eq_dec : EqDecision Config.
Proof. solve_decision. Defined.
#[export] Instance Checkpoint_eq_dec : EqDecision Checkpoint.
Proof. solve_decision. Defined.
#[export] Instance AttestationData_eq_dec : EqDecision AttestationData.
Proof. solve_decision. Defined.
#[export] Instance Attestation_eq_dec : EqDecision Attestation.
Proof. solve_decision. Defined.
#[export] Instance SignedAttestation_eq_dec : EqDecision SignedAttestation.
Proof. solve_decision. Defined.
#[export] Instance BlockHeader_eq_dec : EqDecision BlockHeader.
Proof. solve_decision. Defined.
#[export] Instance BlockBody_eq_dec : EqDecision BlockBody.
Proof. solve_decision. Defined.
#[export] Instance Block_eq_dec : EqDecision Block.
Proof. solve_decision. Defined.
#[export] Instance BlockWithAttestation_eq_dec : EqDecision BlockWithAttestation.
Proof. solve_decision. Defined.
#[export] Instance SignedBlock_eq_dec : EqDecision SignedBlockWithAttestation.
Proof. solve_decision. Defined.
#[export] Instance Validator_eq_dec : EqDecision Validator.
Proof. solve_decision. Defined.
#[export] Instance State_eq_dec : EqDecision State.
Proof. solve_decision. Defined.

(** * Ranges of the uint64 fields *)

Definition wf_Checkpoint (c : Checkpoint) : Prop := is_u64 (cp_Slot c).
Definition wf_AttestationData (d : AttestationData) : Prop :=
  is_u64 (ad_Slot d) /\ wf_Checkpoint (ad_Head d) /\ wf_Checkpoint (ad_Target d) /\
  wf_Checkpoint (ad_Source d).
Definition wf_Attestation (a : Attestation) : Prop :=
  is_u64 (att_ValidatorID a) /\ wf_AttestationData (att_Data a).
Definition wf_SignedAttestation (a : SignedAttestation) : Prop :=
  is_u64 (sa_ValidatorID a) /\ wf_AttestationData (sa_Message a).
Definition wf_BlockHeader (h : BlockHeader) : Prop :=
  is_u64 (bh_Slot h) /\ is_u64 (bh_ProposerIndex h).
Definition wf_Block (b : Block) : Prop :=
  is_u64 (b_Slot b) /\ is_u64 (b_ProposerIndex b) /\
  Forall wf_Attestation (bb_Attestations (b_Body b)).
Definition wf_Validator (v : Validator) : Prop := is_u64 (v_Index v).

#[export] Instance wf_Checkpoint_dec c : Decision (wf_Checkpoint c).
Proof. unfold wf_Checkpoint; apply _. Defined.
#[export] Instance wf_AttestationData_dec d : Decision (wf_AttestationData d).
Proof. unfold wf_AttestationData; apply _. Defined.
#[export] Instance wf_Attestation_dec a : Decision (wf_Attestation a).
Proof. unfold wf_Attestation; apply _. Defined.
#[export] Instance wf_Block_dec b : Decision (wf_Block b).
Proof. unfold wf_Block; apply _. Defined.
