(* ===== verification/Hash.v ===== *)
(** The hash-tree-root walks of the types package ([HashTreeRootWith] and [HashTreeRoot] in
    types/*_encoding.go).

    The hasher itself is the fastssz library: its operations are the class [HashWalker], and
    what the consensus code relies on is [HashWalkerLaws].  The walks are the code's own:
    the order of the fields, the list limits, the mixed-in lengths and the error returns. *)
From S2P Require Import Prelude Types.
Local Open Scope Z_scope.

(** * The fastssz hasher *)

Class HashWalker := {
  hasher : Type;
  Index : hasher -> Z;
  PutUint64 : hasher -> Z -> hasher;
  PutBytes : hasher -> bytes -> hasher;
  AppendBytes : hasher -> bytes -> hasher;
  PutBitlist : hasher -> bytes -> Z -> hasher;
  Merkleize : hasher -> Z -> hasher;
  MerkleizeWithMixin : hasher -> Z -> Z -> Z -> hasher;
  HashWithDefaultHasher : (hasher -> hasher * option error) -> root * option error }.

Section Walks.
Context {HW : HashWalker}.

(** A walk updates the hasher and may stop with an error. *)
Definition walk : Type := hasher -> hasher * option error.

Definition put (f : hasher -> hasher) : walk := fun hh => (f hh, None).
Definition stop (e : error) : walk := fun hh => (hh, Some e).
Definition seqw (w1 w2 : walk) : walk := fun hh =>
  let '(hh', err) := w1 hh in
  match err with
  | None => w2 hh'
  | Some e => (hh', Some e)
  end.
(** [indx := hh.Index(); ...] *)
Definition with_index (k : Z -> walk) : walk := fun hh => k (Index hh) hh.
(** [for _, elem := range l { if err = f(elem); err != nil { return } }] *)
Definition walk_list {A} (f : A -> walk) (l : list A) : walk :=
  foldr (fun x w => seqw (f x) w) (put id) l.

Local Infix ";>" := seqw (at level 60, right associativity).

(** ** types/checkpoint_encoding.go, types/config_encoding.go *)

Definition Checkpoint_HashTreeRootWith (c : Checkpoint) : walk :=
  with_index (fun indx =>
    put (fun hh => PutBytes hh (cp_Root c)) ;>
    put (fun hh => PutUint64 hh (cp_Slot c)) ;>
    put (fun hh => Merkleize hh indx)).

Definition Config_HashTreeRootWith (c : Config) : walk :=
  with_index (fun indx =>
    put (fun hh => PutUint64 hh (cfg_GenesisTime c)) ;>
    put (fun hh => Merkleize hh indx)).

(** ** types/vote_encoding.go *)

Definition AttestationData_HashTreeRootWith (a : AttestationData) : walk :=
  with_index (fun indx =>
    put (fun hh => PutUint64 hh (ad_Slot a)) ;>
    Checkpoint_HashTreeRootWith (ad_Head a) ;>
    Checkpoint_HashTreeRootWith (ad_Target a) ;>
    Checkpoint_HashTreeRootWith (ad_Source a) ;>
    put (fun hh => Merkleize hh indx)).

Definition Attestation_HashTreeRootWith (a : Attestation) : walk :=
  with_index (fun indx =>
    put (fun hh => PutUint64 hh (att_ValidatorID a)) ;>
    AttestationData_HashTreeRootWith (att_Data a) ;>
    put (fun hh => Merkleize hh indx)).

Definition SignedAttestation_HashTreeRootWith (s : SignedAttestation) : walk :=
  with_index (fun indx =>
    put (fun hh => PutUint64 hh (sa_ValidatorID s)) ;>
    AttestationData_HashTreeRootWith (sa_Message s) ;>
    put (fun hh => PutBytes hh (sa_Signature s)) ;>
    put (fun hh => Merkleize hh indx)).

(** ** types/block_encoding.go *)

Definition BlockHeader_HashTreeRootWith (b : BlockHeader) : walk :=
  with_index (fun indx =>
    put (fun hh => PutUint64 hh (bh_Slot b)) ;>
    put (fun hh => PutUint64 hh (bh_ProposerIndex b)) ;>
    put (fun hh => PutBytes hh (bh_ParentRoot b)) ;>
    put (fun hh => PutBytes hh (bh_StateRoot b)) ;>
    put (fun hh => PutBytes hh (bh_BodyRoot b)) ;>
    put (fun hh => Merkleize hh indx)).

Definition BlockBody_HashTreeRootWith (b : BlockBody) : walk :=
  with_index (fun indx =>
    with_index (fun subIndx =>
      let num := Z.of_nat (length (bb_Attestations b)) in
      if 4096 <? num then stop (ErrLib "ErrIncorrectListSize")
      else
        walk_list Attestation_HashTreeRootWith (bb_Attestations b) ;>
        put (fun hh => MerkleizeWithMixin hh subIndx num 4096)) ;>
    put (fun hh => Merkleize hh indx)).

Definition Block_HashTreeRootWith (b : Block) : walk :=
  with_index (fun indx =>
    put (fun hh => PutUint64 hh (b_Slot b)) ;>
    put (fun hh => PutUint64 hh (b_ProposerIndex b)) ;>
    put (fun hh => PutBytes hh (b_ParentRoot b)) ;>
    put (fun hh => PutBytes hh (b_StateRoot b)) ;>
    BlockBody_HashTreeRootWith (b_Body b) ;>
    put (fun hh => Merkleize hh indx)).

(** The zero values [new(Attestation)] stands for in a nil proposer attestation. *)
Definition zero_Checkpoint : Checkpoint := mkCheckpoint ZeroHash 0.
Definition zero_AttestationData : AttestationData :=
  mkAttestationData 0 zero_Checkpoint zero_Checkpoint zero_Checkpoint.
Definition zero_Attestation : Attestation := mkAttestation 0 zero_AttestationData.

Definition BlockWithAttestation_HashTreeRootWith (b : BlockWithAttestation) : walk :=
  with_index (fun indx =>
    Block_HashTreeRootWith (ba_Block b) ;>
    Attestation_HashTreeRootWith (default zero_Attestation (ba_ProposerAttestation b)) ;>
    put (fun hh => Merkleize hh indx)).

Definition SignedBlock_HashTreeRootWith (s : SignedBlockWithAttestation) : walk :=
  with_index (fun indx =>
    BlockWithAttestation_HashTreeRootWith (sb_Message s) ;>
    (if 4096 <? Z.of_nat (length (sb_Signature s))
     then stop (Errorf "SignedBlockWithAttestation.Signature: list too big"
                  [Num (Z.of_nat (length (sb_Signature s))); Num 4096])
     else
       with_index (fun subIndx =>
         walk_list (fun i => put (fun hh => PutBytes hh (vec_to_list i))) (sb_Signature s) ;>
         put (fun hh => MerkleizeWithMixin hh subIndx (Z.of_nat (length (sb_Signature s))) 4096))) ;>
    put (fun hh => Merkleize hh indx)).

(** ** types/state_encoding.go *)

Definition Validator_HashTreeRootWith (v : Validator) : walk :=
  with_index (fun indx =>
    put (fun hh => PutBytes hh (v_Pubkey v)) ;>
    put (fun hh => PutUint64 hh (v_Index v)) ;>
    put (fun hh => Merkleize hh indx)).

(** The two root lists of the state share this shape. *)
Definition roots_walk (name : string) (roots : list root) : walk :=
  if 262144 <? Z.of_nat (length roots)
  then stop (Errorf name [Num (Z.of_nat (length roots)); Num 262144])
  else
    with_index (fun subIndx =>
      walk_list (fun i : root => put (fun hh => AppendBytes hh i)) roots ;>
      put (fun hh => MerkleizeWithMixin hh subIndx (Z.of_nat (length roots)) 262144)).

Definition bitlist_walk (bl : bytes) (limit : Z) : walk :=
  if (length bl =? 0)%nat then stop (ErrLib "ErrEmptyBitlist")
  else put (fun hh => PutBitlist hh bl limit).

Definition State_HashTreeRootWith (s : State) : walk :=
  with_index (fun indx =>
    Config_HashTreeRootWith (st_Config s) ;>
    put (fun hh => PutUint64 hh (st_Slot s)) ;>
    BlockHeader_HashTreeRootWith (st_LatestBlockHeader s) ;>
    Checkpoint_HashTreeRootWith (st_LatestJustified s) ;>
    Checkpoint_HashTreeRootWith (st_LatestFinalized s) ;>
    roots_walk "State.HistoricalBlockHashes: list too big" (st_HistoricalBlockHashes s) ;>
    bitlist_walk (st_JustifiedSlots s) 262144 ;>
    with_index (fun subIndx =>
      let num := Z.of_nat (length (st_Validators s)) in
      if 4096 <? num then stop (ErrLib "ErrIncorrectListSize")
      else
        walk_list Validator_HashTreeRootWith (st_Validators s) ;>
        put (fun hh => MerkleizeWithMixin hh subIndx num 4096)) ;>
    roots_walk "State.JustificationsRoots: list too big" (st_JustificationsRoots s) ;>
    bitlist_walk (st_JustificationsValidators s) 1073741824 ;>
    put (fun hh => Merkleize hh indx)).

(** ** The roots; the consensus code discards the error. *)

Definition BlockHeader_HashTreeRoot (b : BlockHeader) : root * option error :=
  HashWithDefaultHasher (BlockHeader_HashTreeRootWith b).
Definition BlockBody_HashTreeRoot (b : BlockBody) : root * option error :=
  HashWithDefaultHasher (BlockBody_HashTreeRootWith b).
Definition Block_HashTreeRoot (b : Block) : root * option error :=
  HashWithDefaultHasher (Block_HashTreeRootWith b).
Definition State_HashTreeRoot (s : State) : root * option error :=
  HashWithDefaultHasher (State_HashTreeRootWith s).
Definition Attestation_HashTreeRoot (a : Attestation) : root * option error :=
  HashWithDefaultHasher (Attestation_HashTreeRootWith a).

(** The roots that no code asks for. *)
Definition Config_HashTreeRoot (c : Config) : root * option error := HashWithDefaultHasher (Config_HashTreeRootWith c).
Definition Checkpoint_HashTreeRoot (c : Checkpoint) : root * option error :=
  HashWithDefaultHasher (Checkpoint_HashTreeRootWith c).
Definition AttestationData_HashTreeRoot (a : AttestationData) : root * option error :=
  HashWithDefaultHasher (AttestationData_HashTreeRootWith a).
Definition SignedAttestation_HashTreeRoot (s : SignedAttestation) : root * option error :=
  HashWithDefaultHasher (SignedAttestation_HashTreeRootWith s).
Definition BlockWithAttestation_HashTreeRoot (b : BlockWithAttestation) : root * option error :=
  HashWithDefaultHasher (BlockWithAttestation_HashTreeRootWith b).
Definition SignedBlock_HashTreeRoot (s : SignedBlockWithAttestation) : root * option error :=
  HashWithDefaultHasher (SignedBlock_HashTreeRootWith s).
Definition Validator_HashTreeRoot (v : Validator) : root * option error :=
  HashWithDefaultHasher (Validator_HashTreeRootWith v).

End Walks.

Arguments walk {HW}.

(** What the code relies on in fastssz: a root depends only on what the walk does, and a
    body merkleized inside a block leaves the same single chunk as its own root. *)
Class HashWalkerLaws (W : HashWalker) := {
  HashWithDefaultHasher_ext : forall f g : walk,
    (forall hh, f hh = g hh) -> HashWithDefaultHasher f = HashWithDefaultHasher g;
  BlockBody_chunk : forall (b : BlockBody) (r : root) (hh : hasher),
    BlockBody_HashTreeRoot b = (r, None) ->
    BlockBody_HashTreeRootWith b hh = (PutBytes hh r, None) }.

Section Laws.
Context {HW : HashWalker} {HWL : HashWalkerLaws HW}.

(** The header a block leaves behind, once its state root is filled in. *)
Definition header_of_block (b : Block) (bodyRoot : root) : BlockHeader :=
  {| bh_Slot := b_Slot b; bh_ProposerIndex := b_ProposerIndex b;
     bh_ParentRoot := b_ParentRoot b; bh_StateRoot := b_StateRoot b; bh_BodyRoot := bodyRoot |}.

(** A block and its header have the same root. *)
Lemma header_root_block_root (b : Block) (r : root) :
  BlockBody_HashTreeRoot (b_Body b) = (r, None) ->
  BlockHeader_HashTreeRoot (header_of_block b r) = Block_HashTreeRoot b.
Proof.
  intros Hr. apply HashWithDefaultHasher_ext. intros hh.
  unfold BlockHeader_HashTreeRootWith, Block_HashTreeRootWith, with_index, seqw, put. simpl.
  by rewrite (BlockBody_chunk _ _ _ Hr).
Qed.
End Laws.
