(* ===== verification/Concrete.v ===== *)
(** Concrete parameters: an executable hasher satisfying the hasher laws.  Nothing in the
    development depends on this file except the witnesses, which evaluate the consensus code
    on it; its digest is a polynomial checksum, not a cryptographic hash. *)
From S2P Require Import Prelude Types Hash.
Local Open Scope Z_scope.

Definition checksum (l : bytes) : Z :=
  foldl (fun acc b => Z.land (acc * 33 + byte_Z b + 1) 1099511627775) 5381 l.

(** 32 bytes, the first one non-zero: no digest is the zero hash. *)
Definition toy_digest (l : bytes) : bytes :=
  Byte.x01 :: le_bytes 8 (checksum l) ++ replicate 23 Byte.x00.

Definition toy_put_bytes (hh b : bytes) : bytes :=
  if (length b <=? 32)%nat then hh ++ b ++ replicate (32 - length b) Byte.x00
  else hh ++ toy_digest b.

#[export] Instance toy_walker : HashWalker := {
  hasher := bytes;
  Index hh := Z.of_nat (length hh);
  PutUint64 hh v := hh ++ le_bytes 8 v ++ replicate 24 Byte.x00;
  PutBytes := toy_put_bytes;
  AppendBytes hh b := hh ++ b;
  PutBitlist hh bl limit := hh ++ toy_digest bl;
  Merkleize hh i := take (Z.to_nat i) hh ++ toy_digest (drop (Z.to_nat i) hh);
  MerkleizeWithMixin hh i num limit :=
    take (Z.to_nat i) hh ++ toy_digest (drop (Z.to_nat i) hh ++ le_bytes 8 num);
  HashWithDefaultHasher f :=
    let '(hh, err) := f [] in
    match err with
    | None => (vec_of 32 hh, None)
    | Some e => (ZeroHash, Some e)
    end }.

Lemma length_toy_digest l : length (toy_digest l) = 32%nat.
Proof. unfold toy_digest. by rewrite length_cons, length_app, length_le_bytes, length_replicate. Qed.

(** A walk that only appends a fixed suffix. *)
Definition appends (w : walk) (c : bytes) : Prop := forall hh, w hh = (hh ++ c, None).

Lemma appends_seqw w1 w2 c1 c2 : appends w1 c1 -> appends w2 c2 -> appends (seqw w1 w2) (c1 ++ c2).
Proof. intros H1 H2 hh. unfold seqw. rewrite H1, H2. by rewrite app_assoc. Qed.

Lemma appends_container (w : walk) c :
  appends w c ->
  appends (with_index (fun indx => seqw w (put (fun hh => Merkleize hh indx)))) (toy_digest c).
Proof.
  intros H hh. unfold with_index, seqw, put. rewrite H. simpl.
  rewrite Nat2Z.id, take_app_length, drop_app_length. done.
Qed.

Lemma seqw_assoc (w1 w2 w3 : walk) hh : seqw (seqw w1 w2) w3 hh = seqw w1 (seqw w2 w3) hh.
Proof. unfold seqw. destruct (w1 hh) as [hh' [e|]]; done. Qed.

Lemma appends_ext w w' c : (forall hh, w hh = w' hh) -> appends w c -> appends w' c.
Proof. intros H Hw hh. by rewrite <- H. Qed.

Lemma appends_list {A} (f : A -> walk) (l : list A) :
  (forall x, exists c, appends (f x) c) -> exists c, appends (walk_list f l) c.
Proof.
  intros Hf. induction l as [|x l [c IH]]; simpl.
  - exists []. intros hh. by rewrite app_nil_r.
  - destruct (Hf x) as [cx Hx]. exists (cx ++ c). by apply appends_seqw.
Qed.

Lemma appends_uint64 v : exists c, appends (put (fun hh => PutUint64 hh v)) c.
Proof. eexists. intros hh. reflexivity. Qed.

Lemma appends_bytes b : exists c, appends (put (fun hh => PutBytes hh b)) c.
Proof.
  destruct (length b <=? 32)%nat eqn:E; eexists; intros hh; unfold put; simpl;
    unfold toy_put_bytes; rewrite E; reflexivity.
Qed.

Lemma appends_Checkpoint c : exists d, appends (Checkpoint_HashTreeRootWith c) d.
Proof.
  destruct (appends_bytes (cp_Root c)) as [c1 H1], (appends_uint64 (cp_Slot c)) as [c2 H2].
  exists (toy_digest (c1 ++ c2)).
  refine (appends_ext _ _ _ _ (appends_container _ _ (appends_seqw _ _ _ _ H1 H2))).
  intros hh. unfold with_index at 1. by rewrite seqw_assoc.
Qed.

Lemma appends_AttestationData a : exists d, appends (AttestationData_HashTreeRootWith a) d.
Proof.
  destruct (appends_uint64 (ad_Slot a)) as [c1 H1].
  destruct (appends_Checkpoint (ad_Head a)) as [c2 H2].
  destruct (appends_Checkpoint (ad_Target a)) as [c3 H3].
  destruct (appends_Checkpoint (ad_Source a)) as [c4 H4].
  exists (toy_digest (c1 ++ c2 ++ c3 ++ c4)).
  refine (appends_ext _ _ _ _ (appends_container _ _
           (appends_seqw _ _ _ _ H1 (appends_seqw _ _ _ _ H2 (appends_seqw _ _ _ _ H3 H4))))).
  intros hh. unfold with_index at 1. rewrite !seqw_assoc.
  unfold AttestationData_HashTreeRootWith, with_index, seqw, put. simpl.
  repeat case_match; done.
Qed.

Lemma appends_Attestation a : exists d, appends (Attestation_HashTreeRootWith a) d.
Proof.
  destruct (appends_uint64 (att_ValidatorID a)) as [c1 H1].
  destruct (appends_AttestationData (att_Data a)) as [c2 H2].
  exists (toy_digest (c1 ++ c2)).
  refine (appends_ext _ _ _ _ (appends_container _ _ (appends_seqw _ _ _ _ H1 H2))).
  intros hh. unfold with_index at 1. by rewrite seqw_assoc.
Qed.

(** A body within the limit appends one digest, its own root. *)
Lemma toy_body_appends (b : BlockBody) :
  ~ (4096 < Z.of_nat (length (bb_Attestations b))) ->
  exists c, appends (BlockBody_HashTreeRootWith b) (toy_digest c).
Proof.
  intros Hn.
  destruct (appends_list Attestation_HashTreeRootWith (bb_Attestations b) appends_Attestation)
    as [c Hc].
  eexists. apply appends_container. intros hh. unfold with_index.
  rewrite (proj2 (Z.ltb_ge _ _)) by lia. unfold seqw, put. rewrite Hc. simpl.
  rewrite Nat2Z.id, take_app_length, drop_app_length. reflexivity.
Qed.

#[export] Instance toy_walker_laws : HashWalkerLaws toy_walker.
Proof.
  split.
  - intros f g H. simpl. by rewrite H.
  - intros b r hh Hr. unfold BlockBody_HashTreeRoot in Hr.
    cbn [HashWithDefaultHasher toy_walker] in Hr.
    destruct (decide (4096 < Z.of_nat (length (bb_Attestations b)))) as [Hbig|Hn].
    + unfold BlockBody_HashTreeRootWith, with_index, seqw, stop in Hr.
      rewrite (proj2 (Z.ltb_lt _ _) Hbig) in Hr. done.
    + destruct (toy_body_appends b Hn) as [c Hc].
      rewrite Hc in Hr. cbn [app] in Hr. rewrite Hc. cbn [PutBytes toy_walker].
      assert (r = vec_of 32 (toy_digest c)) as -> by congruence. unfold toy_put_bytes.
      rewrite vec_to_list_vec_of by apply length_toy_digest.
      rewrite length_toy_digest. cbn [Nat.leb Nat.sub replicate]. by rewrite app_nil_r.
Qed.

(** No block hashes to the zero hash. *)
Lemma toy_digest_not_zero c : vec_of 32 (toy_digest c) <> ZeroHash.
Proof. intros H. apply (f_equal (fun v => vec_to_list v !! 0%nat)) in H. done. Qed.
