(* ===== verification/GoStd.v ===== *)
(** The pieces of Go's standard library the code is written with, where they are more than
    arithmetic: [bytes.Compare], [sort.Slice], iteration over a map, and the prefix of a string.

    Iteration order is unspecified in Go: [MapRange] is any choice of order, possibly a
    different one at each execution of a [range] statement (the [nat] argument). *)
From S2P Require Import Prelude.
Local Open Scope Z_scope.

(** * bytes.Compare *)

(** [bytes.Compare(a, b) < 0]: the lexicographic order. *)
Fixpoint bytes_ltb (a b : bytes) : bool :=
  match a, b with
  | _, [] => false
  | [], _ :: _ => true
  | x :: a', y :: b' =>
      if byte_Z x <? byte_Z y then true
      else if byte_Z y <? byte_Z x then false
      else bytes_ltb a' b'
  end.

Lemma bytes_ltb_irrefl a : bytes_ltb a a = false.
Proof. induction a as [|x a IH]; simpl; [done|]. by rewrite !Z.ltb_irrefl. Qed.

Lemma bytes_ltb_trans a b c : bytes_ltb a b = true -> bytes_ltb b c = true -> bytes_ltb a c = true.
Proof.
  revert b c; induction a as [|x a IH]; intros [|y b] [|z c]; simpl; try done.
  destruct (Z.ltb_spec (byte_Z x) (byte_Z y)), (Z.ltb_spec (byte_Z y) (byte_Z z)),
    (Z.ltb_spec (byte_Z y) (byte_Z x)), (Z.ltb_spec (byte_Z z) (byte_Z y)),
    (Z.ltb_spec (byte_Z x) (byte_Z z)), (Z.ltb_spec (byte_Z z) (byte_Z x));
    try done; try lia. apply IH.
Qed.

Lemma bytes_ltb_antisym a b : bytes_ltb a b = false -> bytes_ltb b a = false -> a = b.
Proof.
  revert b; induction a as [|x a IH]; intros [|y b]; simpl; try done.
  destruct (Z.ltb_spec (byte_Z x) (byte_Z y)), (Z.ltb_spec (byte_Z y) (byte_Z x)); try done.
  intros Ha Hb. f_equal; [apply byte_Z_inj; lia|by apply IH].
Qed.

Lemma bytes_ltb_asym a b : bytes_ltb a b = true -> bytes_ltb b a = false.
Proof.
  intros H. destruct (bytes_ltb b a) eqn:E; [|done].
  pose proof (bytes_ltb_trans _ _ _ H E) as Hc. by rewrite bytes_ltb_irrefl in Hc.
Qed.

(** "not after": the relation a slice sorted by [bytes.Compare(x, y) < 0] satisfies. *)
Definition bytes_le (a b : bytes) : Prop := bytes_ltb b a = false.

#[export] Instance bytes_le_dec a b : Decision (bytes_le a b).
Proof. unfold bytes_le; apply _. Defined.
#[export] Instance bytes_le_total : Total bytes_le.
Proof.
  intros a b. unfold bytes_le. destruct (bytes_ltb b a) eqn:E; [right|by left].
  by apply bytes_ltb_asym.
Qed.
#[export] Instance bytes_le_antisymm : AntiSymm (=) bytes_le.
Proof. intros a b Hab Hba. by apply bytes_ltb_antisym. Qed.
#[export] Instance bytes_le_trans : Transitive bytes_le.
Proof.
  unfold bytes_le. intros a b c Hab Hbc. destruct (bytes_ltb c a) eqn:E; [|done].
  destruct (bytes_ltb a b) eqn:E2.
  - pose proof (bytes_ltb_trans _ _ _ E E2). congruence.
  - rewrite (bytes_ltb_antisym a b E2 Hab) in E. congruence.
Qed.

(** * Sorting fixed-size arrays *)

Definition array_le {n} (a b : vec byte n) : Prop := bytes_le a b.

#[export] Instance array_le_dec {n} (a b : vec byte n) : Decision (array_le a b).
Proof. unfold array_le; apply _. Defined.
#[export] Instance array_le_total {n} : Total (@array_le n).
Proof. intros a b. apply bytes_le_total. Qed.
#[export] Instance array_le_trans {n} : Transitive (@array_le n).
Proof. intros a b c. apply bytes_le_trans. Qed.
#[export] Instance array_le_antisymm {n} : AntiSymm (=) (@array_le n).
Proof. intros a b Hab Hba. by apply vec_to_list_inj2, (anti_symm bytes_le). Qed.

(** [sort.Slice(l, func(i, j int) bool { return bytes.Compare(l[i][:], l[j][:]) < 0 })] *)
Definition sort_arrays {n} (l : list (vec byte n)) : list (vec byte n) := merge_sort array_le l.

Lemma sort_arrays_perm {n} (l : list (vec byte n)) : sort_arrays l ≡ₚ l.
Proof. apply merge_sort_Permutation. Qed.

Lemma sort_arrays_sorted {n} (l : list (vec byte n)) : StronglySorted array_le (sort_arrays l).
Proof. apply StronglySorted_merge_sort; apply _. Qed.

(** Any sorted arrangement of the same elements is this one, so neither the sorting
    algorithm nor the initial order matters. *)
Lemma sort_arrays_unique {n} (l l' : list (vec byte n)) :
  StronglySorted array_le l' -> l' ≡ₚ l -> sort_arrays l = l'.
Proof.
  intros Hs Hp. apply (StronglySorted_unique array_le); [apply sort_arrays_sorted|done|].
  by rewrite Hp, sort_arrays_perm.
Qed.

(** * Iterating over a map *)

Class MapRange := {
  range : forall {K V : Type} `{Countable K}, nat -> gmap K V -> list (K * V);
  range_perm : forall {K V : Type} `{Countable K} (i : nat) (m : gmap K V),
    range i m ≡ₚ map_to_list m }.

(** An admissible order, used by the witnesses. *)
Definition canonical_range : MapRange.
Proof. exists (fun K V _ _ _ m => map_to_list m). done. Defined.

(** Another one, the reverse. *)
Definition reversed_range : MapRange.
Proof.
  exists (fun K V _ _ _ m => reverse (map_to_list m)). intros. apply reverse_Permutation.
Defined.

Section Range.
Context `{!MapRange} {K V : Type} `{Countable K}.

Lemma elem_of_range i (m : gmap K V) k v : (k, v) ∈ range i m <-> m !! k = Some v.
Proof. by rewrite range_perm, elem_of_map_to_list. Qed.

Lemma NoDup_range_keys i (m : gmap K V) : NoDup (range i m).*1.
Proof. rewrite range_perm. apply NoDup_fst_map_to_list. Qed.

Lemma list_to_map_range i (m : gmap K V) : list_to_map (range i m) = m.
Proof.
  rewrite <- (list_to_map_to_list m) at 2.
  apply list_to_map_proper; [apply NoDup_range_keys|apply range_perm].
Qed.
End Range.

(** * Slices of strings *)

(** [s[:16]] *)
Definition prefix16 (s : string) : outcome string :=
  if (16 <=? String.length s)%nat then Ok (String.substring 0 16 s)
  else Panic "slice bounds out of range".
Lemma prefix16_Ok s : (16 <= String.length s)%nat -> prefix16 s = Ok (String.substring 0 16 s).
Proof. intros H. unfold prefix16. by rewrite (proj2 (Nat.leb_le _ _) H). Qed.
