(* ===== verification/VoteRule.v ===== *)
(** The 3SF-mini voting rule, as a step relation on a ledger of votes.

    This is the specification of ProcessAttestations (process_attestations.go): the
    constructors of [vote_step] are the possible fates of one vote, and [vote_run] is a
    block's list of votes in order.  Attestations.v shows that the code's loop takes these
    steps; what is proved here about runs therefore holds of the code. *)
From S2P Require Import Prelude Slot Types.
Local Open Scope Z_scope.

(** The indices of the validators that voted. *)
Definition supporters (vs : list bool) : list nat :=
  filter (fun i => vs !! i = Some true) (seq 0 (length vs)).

Record ledger := mkLedger {
  lg_votes : gmap root (list bool);   (* open votes, per target root *)
  lg_justified : list bool;           (* one bit per slot *)
  lg_J : Checkpoint;                  (* latest justified *)
  lg_F : Checkpoint }.                (* latest finalized *)

Section Rule.
(** The number of validators, the block roots by slot, the slot finalized before the block. *)
Context (n : nat) (hist : list root) (F0 : Z).

Definition src_slot (a : Attestation) : nat := Z.to_nat (cp_Slot (ad_Source (att_Data a))).
Definition tgt_slot (a : Attestation) : nat := Z.to_nat (cp_Slot (ad_Target (att_Data a))).
Definition src_root (a : Attestation) : root := cp_Root (ad_Source (att_Data a)).
Definition tgt_root (a : Attestation) : root := cp_Root (ad_Target (att_Data a)).
Definition voter (a : Attestation) : nat := Z.to_nat (att_ValidatorID a).

Record acceptable (L : ledger) (a : Attestation) : Prop := {
  acc_order : (src_slot a < tgt_slot a)%nat;
  acc_source : lg_justified L !! src_slot a = Some true;
  acc_target : lg_justified L !! tgt_slot a <> Some true;
  acc_src_root : hist !! src_slot a = Some (src_root a);
  acc_tgt_root : hist !! tgt_slot a = Some (tgt_root a);
  acc_justifiable : IsJustifiableAfter (Z.of_nat (tgt_slot a)) F0 = true;
  acc_voter : (voter a < n)%nat }.

Lemma acceptable_iff L a :
  acceptable L a <->
  ((src_slot a < tgt_slot a)%nat /\ lg_justified L !! src_slot a = Some true /\
   lg_justified L !! tgt_slot a <> Some true) /\ (hist !! src_slot a = Some (src_root a) /\ hist !! tgt_slot a = Some (tgt_root a) /\
   IsJustifiableAfter (Z.of_nat (tgt_slot a)) F0 = true /\ (voter a < n)%nat).
Proof. split; [intros []; tauto|intros ((?&?&?)&?&?&?&?); by constructor]. Qed.

#[export] Instance acceptable_dec L a : Decision (acceptable L a).
Proof.
  destruct (decide (
    ((src_slot a < tgt_slot a)%nat /\ lg_justified L !! src_slot a = Some true /\
     lg_justified L !! tgt_slot a <> Some true) /\ (hist !! src_slot a = Some (src_root a) /\ hist !! tgt_slot a = Some (tgt_root a) /\
     IsJustifiableAfter (Z.of_nat (tgt_slot a)) F0 = true /\ (voter a < n)%nat))) as [H|H].
  - left. by apply acceptable_iff.
  - right. intros Ha. by apply H, acceptable_iff.
Defined.

(** Has validator [v] an open vote for [r]? *)
Definition voted (L : ledger) (r : root) (v : nat) : Prop :=
  exists vs, lg_votes L !! r = Some vs /\ vs !! v = Some true.

Definition tally (L : ledger) (r : root) : list bool :=
  default (replicate n false) (lg_votes L !! r).

Definition supermajority (vs : list bool) : Prop := (2 * n <= 3 * length (supporters vs))%nat.
#[export] Instance supermajority_dec vs : Decision (supermajority vs).
Proof. unfold supermajority; apply _. Defined.

(** A justifiable slot strictly between source and target. *)
Definition gap (a : Attestation) : Prop :=
  exists s : nat, (src_slot a < s < tgt_slot a)%nat /\ IsJustifiableAfter (Z.of_nat s) F0 = true.

Definition new_tally (L : ledger) (a : Attestation) : list bool :=
  <[voter a := true]> (tally L (tgt_root a)).

(** The ledger after the target of [a] is justified; [F'] is the finalized checkpoint. *)
Definition justify (L : ledger) (a : Attestation) (F' : Checkpoint) : ledger :=
  {| lg_votes := delete (tgt_root a) (lg_votes L);
     lg_justified := <[tgt_slot a := true]> (lg_justified L);
     lg_J := ad_Target (att_Data a);
     lg_F := F' |}.

Inductive vote_step (L : ledger) (a : Attestation) : ledger -> Prop :=
| step_reject :
    ~ acceptable L a -> vote_step L a L
| step_repeat :
    acceptable L a -> voted L (tgt_root a) (voter a) -> vote_step L a L
| step_record :
    acceptable L a -> ~ voted L (tgt_root a) (voter a) -> ~ supermajority (new_tally L a) ->
    vote_step L a (mkLedger (<[tgt_root a := new_tally L a]> (lg_votes L))
                     (lg_justified L) (lg_J L) (lg_F L))
| step_justify :
    acceptable L a -> ~ voted L (tgt_root a) (voter a) -> supermajority (new_tally L a) ->
    gap a -> vote_step L a (justify L a (lg_F L))
| step_finalize :
    acceptable L a -> ~ voted L (tgt_root a) (voter a) -> supermajority (new_tally L a) ->
    ~ gap a -> vote_step L a (justify L a (ad_Source (att_Data a))).

Inductive vote_run : ledger -> list Attestation -> ledger -> Prop :=
| run_nil L : vote_run L [] L
| run_cons L a L1 atts L2 :
    vote_step L a L1 -> vote_run L1 atts L2 -> vote_run L (a :: atts) L2.

Record wf_ledger (L : ledger) : Prop := {
  wl_bits : length (lg_justified L) = length hist;
  wl_votes : forall r vs, lg_votes L !! r = Some vs -> length vs = n /\ r ∈ hist }.

(** * Facts about tallies *)

Lemma length_tally L r : wf_ledger L -> length (tally L r) = n.
Proof.
  intros HL. unfold tally. destruct (lg_votes L !! r) as [vs|] eqn:E; simpl.
  - by apply (wl_votes _ HL) in E as [? _].
  - apply length_replicate.
Qed.

Lemma elem_of_supporters vs v : v ∈ supporters vs <-> vs !! v = Some true.
Proof.
  unfold supporters. rewrite list_elem_of_filter, elem_of_seq. split; [tauto|].
  intros H. split; [done|]. apply lookup_lt_Some in H. lia.
Qed.

Lemma NoDup_supporters vs : NoDup (supporters vs).
Proof. apply list.NoDup_filter, NoDup_seq. Qed.

Lemma tally_voted L r v : tally L r !! v = Some true -> voted L r v.
Proof.
  unfold tally, voted. destruct (lg_votes L !! r) as [vs|] eqn:E; simpl; [eauto|].
  intros H. apply lookup_replicate in H as [? _]. done.
Qed.

Lemma new_tally_voted L a v :
  new_tally L a !! v = Some true -> v = voter a \/ voted L (tgt_root a) v.
Proof.
  unfold new_tally. destruct (decide (v = voter a)); [by left|].
  rewrite list_lookup_insert_ne by done. intros H. right. by apply tally_voted.
Qed.

(** * Invariants of runs *)

Lemma vote_step_wf L a L' : vote_step L a L' -> wf_ledger L -> wf_ledger L'.
Proof.
  intros Hstep HL. destruct Hstep as [| |Hacc| |]; try done; split; simpl;
    rewrite ?length_insert; try apply HL.
  - intros r vs Hr. apply lookup_insert_Some in Hr as [[<- <-]|[_ Hr]]; [|by apply HL].
    unfold new_tally. rewrite length_insert, length_tally by done. split; [done|].
    eapply list_elem_of_lookup_2, acc_tgt_root, Hacc.
  - intros r vs [_ Hr]%lookup_delete_Some. by apply HL.
  - intros r vs [_ Hr]%lookup_delete_Some. by apply HL.
Qed.

Lemma vote_run_wf L atts L' : vote_run L atts L' -> wf_ledger L -> wf_ledger L'.
Proof. induction 1; eauto using vote_step_wf. Qed.

(** Every vote is decided in exactly one way. *)
Lemma vote_step_det L a L1 L2 : vote_step L a L1 -> vote_step L a L2 -> L1 = L2.
Proof. intros H1 H2. destruct H1, H2; done. Qed.

Lemma vote_run_det L atts L1 L2 : vote_run L atts L1 -> vote_run L atts L2 -> L1 = L2.
Proof.
  intros H1. revert L2. induction H1 as [|L a M1 atts L1 Hs H1 IH]; intros L2 H2;
    inversion H2 as [|? ? M2 ? ? Hs2 H2']; subst; [done|].
  rewrite <- (vote_step_det _ _ _ _ Hs Hs2) in H2'. auto.
Qed.

(** Justified slots stay justified. *)
Lemma vote_step_justified_mono L a L' s :
  vote_step L a L' -> lg_justified L !! s = Some true -> lg_justified L' !! s = Some true.
Proof.
  intros Hstep Hs. destruct Hstep; simpl; try done;
    (destruct (decide (s = tgt_slot a)) as [->|];
      [rewrite list_lookup_insert_eq; [done|by eapply lookup_lt_Some]
      |by rewrite list_lookup_insert_ne]).
Qed.

Lemma vote_run_justified_mono L atts L' s :
  vote_run L atts L' -> lg_justified L !! s = Some true -> lg_justified L' !! s = Some true.
Proof. induction 1; eauto using vote_step_justified_mono. Qed.

(** * Where votes, justification and finalization come from *)

Lemma vote_step_voted L a L' r v :
  vote_step L a L' -> voted L' r v -> voted L r v \/ (r = tgt_root a /\ v = voter a).
Proof.
  intros Hstep (vs & Hr & Hv). destruct Hstep; simpl in Hr; try (left; by exists vs).
  - apply lookup_insert_Some in Hr as [[<- <-]|[_ Hr]]; [|left; by exists vs].
    apply new_tally_voted in Hv as [->|]; [by right|by left].
  - apply lookup_delete_Some in Hr as [_ Hr]. left. by exists vs.
  - apply lookup_delete_Some in Hr as [_ Hr]. left. by exists vs.
Qed.

(** A quorum for the root [r]: two thirds of the validators, each with a recorded vote or
    a vote in the block. *)
Definition quorum (L : ledger) (atts : list Attestation) (r : root) (V : list nat) : Prop :=
  NoDup V /\ (2 * n <= 3 * length V)%nat /\
  forall v, v ∈ V -> (v < n)%nat /\
    (voted L r v \/ exists a, a ∈ atts /\ tgt_root a = r /\ voter a = v).

Lemma new_tally_quorum L a atts :
  wf_ledger L -> acceptable L a -> supermajority (new_tally L a) ->
  quorum L (a :: atts) (tgt_root a) (supporters (new_tally L a)).
Proof.
  intros HL Hacc Hsm. split; [apply NoDup_supporters|split; [exact Hsm|]].
  intros v Hv%elem_of_supporters. split.
  - apply lookup_lt_Some in Hv. unfold new_tally in Hv.
    by rewrite length_insert, length_tally in Hv.
  - apply new_tally_voted in Hv as [->|Hv]; [|by left].
    right. exists a. split; [left|done].
Qed.

Lemma quorum_step L a L' atts r V :
  vote_step L a L' -> quorum L' atts r V -> quorum L (a :: atts) r V.
Proof.
  intros Hs (Hnd & Hsize & Hall). split; [done|split; [done|]]. intros v Hv.
  destruct (Hall v Hv) as [Hn Hor]. split; [done|].
  destruct Hor as [Hvt|(b & Hb & Hb')].
  - destruct (vote_step_voted _ _ _ _ _ Hs Hvt) as [|[-> ->]]; [by left|].
    right. exists a. split; [left|done].
  - right. exists b. split; [by right|done].
Qed.

(** A slot becomes justified only with a quorum for the block root of that slot. *)
Lemma vote_run_quorum L atts L' t :
  vote_run L atts L' -> wf_ledger L ->
  lg_justified L !! t <> Some true -> lg_justified L' !! t = Some true ->
  exists r V, hist !! t = Some r /\ quorum L atts r V.
Proof.
  induction 1 as [|L a L1 atts L2 Hs Hr IH]; intros HL Hno Hyes; [done|].
  destruct (decide (lg_justified L1 !! t = Some true)) as [H1|H1].
  - assert (Hcase : acceptable L a /\ t = tgt_slot a /\ supermajority (new_tally L a)).
    { destruct Hs; simpl in H1; try done;
        (destruct (decide (t = tgt_slot a)) as [->|];
          [done|by rewrite list_lookup_insert_ne in H1]). }
    destruct Hcase as (Hacc & -> & Hsm). exists (tgt_root a), (supporters (new_tally L a)).
    split; [apply Hacc|]. by apply new_tally_quorum.
  - destruct (IH (vote_step_wf _ _ _ Hs HL) H1 Hyes) as (r & V & Hh & HQ).
    exists r, V. split; [done|]. by eapply quorum_step.
Qed.

(** The finalized checkpoint never falls behind the one the block started from. *)
Lemma vote_step_finalized L a L' :
  vote_step L a L' -> is_u64 F0 -> wf_ledger L ->
  (hist <> [] -> lg_justified L !! Z.to_nat F0 = Some true) ->
  lg_F L' = lg_F L \/
  (lg_F L' = ad_Source (att_Data a) /\ (Z.to_nat F0 <= src_slot a)%nat /\
   lg_justified L !! src_slot a = Some true /\ hist !! src_slot a = Some (src_root a)).
Proof.
  intros Hs HF HL HF0. destruct Hs as [| | | |Hacc Hnv Hsm Hgap]; try by left.
  right. simpl. split_and!; [done| |apply Hacc|apply Hacc].
  destruct (decide (Z.to_nat F0 <= src_slot a)%nat) as [|Hlt]; [done|exfalso].
  assert (Hne : hist <> []) by (intros E; pose proof (acc_src_root _ _ Hacc) as Hh; by rewrite E, lookup_nil in Hh).
  specialize (HF0 Hne). apply Hgap. exists (Z.to_nat F0).
  pose proof (IsJustifiableAfter_ge _ _ (acc_justifiable _ _ Hacc)) as Hge.
  assert (Z.to_nat F0 <> tgt_slot a).
  { intros E. apply (acc_target _ _ Hacc). by rewrite <- E. }
  split; [lia|]. rewrite Z2Nat.id by apply HF. by apply IsJustifiableAfter_refl.
Qed.

Lemma vote_run_finalized L atts L' :
  vote_run L atts L' -> is_u64 F0 -> wf_ledger L ->
  (hist <> [] -> lg_justified L !! Z.to_nat F0 = Some true) ->
  lg_F L' = lg_F L \/
  exists a, a ∈ atts /\ lg_F L' = ad_Source (att_Data a) /\ (Z.to_nat F0 <= src_slot a)%nat /\
    lg_justified L' !! src_slot a = Some true /\ hist !! src_slot a = Some (src_root a).
Proof.
  induction 1 as [|L a L1 atts L2 Hs Hr IH]; intros HF HL HF0; [by left|].
  assert (HF1 : hist <> [] -> lg_justified L1 !! Z.to_nat F0 = Some true)
    by eauto using vote_step_justified_mono.
  destruct (IH HF (vote_step_wf _ _ _ Hs HL) HF1) as [E|(b & Hb & Hrest)].
  - destruct (vote_step_finalized _ _ _ Hs HF HL HF0) as [E'|(E' & Hge & Hj & Hh)];
      [left; congruence|].
    right. exists a. split_and!; [left|congruence|done| |done].
    eapply vote_run_justified_mono; [done|]. by eapply vote_step_justified_mono.
  - right. exists b. split; [by right|done].
Qed.

(** The latest justified checkpoint is the initial one or a justified slot of the history. *)
Lemma vote_run_latest L atts L' :
  vote_run L atts L' -> wf_ledger L ->
  lg_J L' = lg_J L \/
  exists a, a ∈ atts /\ lg_J L' = ad_Target (att_Data a) /\
    lg_justified L' !! tgt_slot a = Some true /\ hist !! tgt_slot a = Some (tgt_root a).
Proof.
  induction 1 as [|L a L1 atts L2 Hs Hr IH]; intros HL; [by left|].
  destruct (IH (vote_step_wf _ _ _ Hs HL)) as [E|(b & Hb & Hrest)].
  - assert (Hcase : lg_J L1 = lg_J L \/
      (lg_J L1 = ad_Target (att_Data a) /\ acceptable L a /\ lg_justified L1 !! tgt_slot a = Some true)).
    { destruct Hs as [| | |Hacc|Hacc]; try (by left); right; simpl; (split_and!; [done|done|]);
        (apply list_lookup_insert_eq; rewrite (wl_bits _ HL);
         eapply lookup_lt_Some, acc_tgt_root, Hacc). }
    destruct Hcase as [E'|(E' & Hacc & Hj)]; [left; congruence|].
    right. exists a. split_and!; [left|congruence| |apply Hacc].
    by eapply vote_run_justified_mono.
  - right. exists b. split; [by right|done].
Qed.

(** No open tally has reached two thirds: the vote that completes them closes the tally. *)
Definition no_quorum_open (L : ledger) : Prop :=
  forall r vs, lg_votes L !! r = Some vs -> ~ supermajority vs.

Lemma step_no_quorum L a L' : vote_step L a L' -> no_quorum_open L -> no_quorum_open L'.
Proof.
  intros Hs HL r vs. destruct Hs; cbn; try apply HL.
  - intros [[_ <-]|[_ Hr]]%lookup_insert_Some; [done|by eapply HL].
  - intros [_ Hr]%lookup_delete_Some. by eapply HL.
  - intros [_ Hr]%lookup_delete_Some. by eapply HL.
Qed.
Lemma run_no_quorum L atts L' : vote_run L atts L' -> no_quorum_open L -> no_quorum_open L'.
Proof. induction 1; eauto using step_no_quorum. Qed.

End Rule.
