(* ===== verification/Attestations.v ===== *)
(** chain/statetransition/process_attestations.go: counting the votes of a block, and the
    justification and finalization they cause.

    The first part is the code.  The second part is the 3SF-mini rule it implements: a
    [ledger] (votes per root, justified slots as booleans, the two checkpoints) and a step
    relation [vote_step] with one constructor per fate of a vote.  The refinement
    [process_attestation_refines] connects the two; the safety properties are proved on
    runs of the step relation. *)
From S2P Require Import Prelude Slot Bitlist Types GoStd VoteRule.
Local Open Scope Z_scope.

(** * The code *)

Section Code.
Context {MR : MapRange}.

Definition numValidators_of (s : State) : Z := u64 (Z.of_nat (length (st_Validators s))).

(** The working map built from justifications_roots and justifications_validators. *)
Definition load_justifications (s : State) : gmap root (list bool) :=
  let n := numValidators_of s in
  foldl (fun m '(i, r) =>
           <[r := map (fun v => GetBit (st_JustificationsValidators s)
                                  (u64 (u64 (Z.of_nat i * n) + Z.of_nat v)))
                      (seq 0 (Z.to_nat n))]> m)
    ∅ (imap pair (st_JustificationsRoots s)).

(** The local variables of the loop over the attestations. *)
Record attst := mkAttst {
  as_justifications : gmap root (list bool);
  as_justifiedSlots : bytes;
  as_latestJustified : Checkpoint;
  as_latestFinalized : Checkpoint }.

(** [for uint64(BitlistLen(justifiedSlots)) <= tgtSlot { append a zero bit }] *)
Definition extend_justified (js : bytes) (tgtSlot : Z) : outcome bytes :=
  loop (S (Z.to_nat (tgtSlot + 1 - BitlistLen js)))
    (fun js => if BitlistLen js <=? tgtSlot then Ok (inl (AppendBit js false)) else Ok (inr js)) js.

(** [for s := srcSlot + 1; s < tgtSlot; s++]: is some slot in between justifiable? *)
Fixpoint justifiable_gap (fuel : nat) (s tgtSlot originalFinalizedSlot : Z) : bool :=
  match fuel with
  | O => false
  | S fuel' =>
      if s <? tgtSlot then
        if IsJustifiableAfter s originalFinalizedSlot then true
        else justifiable_gap fuel' (u64 (s + 1)) tgtSlot originalFinalizedSlot
      else false
  end.

(** [for _, voted := range votes { if voted { count++ } }] *)
Definition count_votes (votes : list bool) : Z :=
  foldl (fun count voted => if voted : bool then u64 (count + 1) else count) 0 votes.

(** One round of the loop; a [continue] returns the state reached so far. *)
Definition process_attestation (hist : list root) (numValidators originalFinalizedSlot : Z)
    (st : attst) (att : Attestation) : outcome attst :=
  let source := ad_Source (att_Data att) in
  let target := ad_Target (att_Data att) in
  let srcSlot := cp_Slot source in
  let tgtSlot := cp_Slot target in
  let js := as_justifiedSlots st in
  if tgtSlot <=? srcSlot then Ok st
  else if (BitlistLen js <=? srcSlot) || negb (GetBit js srcSlot) then Ok st
  else if (tgtSlot <? BitlistLen js) && GetBit js tgtSlot then Ok st
  else if (Z.of_nat (length hist) <=? srcSlot) ||
          negb (bool_decide (hist !!! Z.to_nat srcSlot = cp_Root source)) then Ok st
  else if (Z.of_nat (length hist) <=? tgtSlot) ||
          negb (bool_decide (hist !!! Z.to_nat tgtSlot = cp_Root target)) then Ok st
  else if negb (IsJustifiableAfter tgtSlot originalFinalizedSlot) then Ok st
  else
  let validatorID := att_ValidatorID att in
  if numValidators <=? validatorID then Ok st
  else
  let r := cp_Root target in
  let justifications :=
    match as_justifications st !! r with
    | Some _ => as_justifications st
    | None => <[r := replicate (Z.to_nat numValidators) false]> (as_justifications st)
    end in
  let votes := default [] (justifications !! r) in
  if default false (votes !! Z.to_nat validatorID)
  then Ok (mkAttst justifications js (as_latestJustified st) (as_latestFinalized st))
  else
  let votes := <[Z.to_nat validatorID := true]> votes in
  let justifications := <[r := votes]> justifications in
  let count := count_votes votes in
  if u64 (3 * count) <? u64 (2 * numValidators)
  then Ok (mkAttst justifications js (as_latestJustified st) (as_latestFinalized st))
  else
  js ← extend_justified js tgtSlot;
  let js := SetBit js tgtSlot true in
  let hasJustifiableGap :=
    justifiable_gap (Z.to_nat (tgtSlot - srcSlot)) (u64 (srcSlot + 1)) tgtSlot originalFinalizedSlot in
  let latestFinalized :=
    if negb hasJustifiableGap then mkCheckpoint (cp_Root source) srcSlot
    else as_latestFinalized st in
  Ok (mkAttst (delete r justifications) js (mkCheckpoint r tgtSlot) latestFinalized).

(** sortedJustificationRoots *)
Definition sortedJustificationRoots (justifications : gmap root (list bool)) : list root :=
  sort_arrays (range 0 justifications).*1.

(** flattenVotes: the loops write bit [bitPos] of [bl] and advance. *)
Definition flattenVotes (sortedRoots : list root) (justifications : gmap root (list bool))
    (numValidators : Z) : bytes :=
  let totalBits := u64 (Z.of_nat (length sortedRoots) * numValidators) in
  if totalBits =? 0 then [Byte.x01]
  else
    let numBytes := u64 (totalBits + 1 + 7) / 8 in
    let bl := replicate (Z.to_nat numBytes) Byte.x00 in
    let put_bit bl bitPos :=
      alter (fun b => byte_or b (Z.shiftl 1 (bitPos mod 8))) (Z.to_nat (bitPos / 8)) bl in
    let '(bl, bitPos) :=
      foldl (fun acc r =>
        foldl (fun '(bl, bitPos) (voted : bool) =>
                 ((if voted then put_bit bl bitPos else bl), u64 (bitPos + 1)))
          acc (default [] (justifications !! r)))
        (bl, 0) sortedRoots in
    put_bit bl totalBits.

(** ProcessAttestations *)
Definition ProcessAttestations (state : State) (attestations : list Attestation) : outcome State :=
  let numValidators := numValidators_of state in
  let originalFinalizedSlot := cp_Slot (st_LatestFinalized state) in
  st ← foldM (process_attestation (st_HistoricalBlockHashes state) numValidators originalFinalizedSlot)
         {| as_justifications := load_justifications state;
            as_justifiedSlots := CloneBitlist (st_JustifiedSlots state);
            as_latestJustified := st_LatestJustified state;
            as_latestFinalized := st_LatestFinalized state |} attestations;
  let sortedRoots := sortedJustificationRoots (as_justifications st) in
  let flatVotes := flattenVotes sortedRoots (as_justifications st) numValidators in
  let out := Copy state in
  Ok {| st_Config := st_Config out; st_Slot := st_Slot out;
        st_LatestBlockHeader := st_LatestBlockHeader out;
        st_LatestJustified := as_latestJustified st;
        st_LatestFinalized := as_latestFinalized st;
        st_HistoricalBlockHashes := st_HistoricalBlockHashes out;
        st_JustifiedSlots := as_justifiedSlots st;
        st_Validators := st_Validators out;
        st_JustificationsRoots := sortedRoots;
        st_JustificationsValidators := flatVotes |}.
End Code.

(** * The loop body takes a step of the rule *)

(** The loop variables of a ledger: its justified slots as a canonical bitlist. *)
Definition attst_of (L : ledger) : attst :=
  mkAttst (lg_votes L) (encode_bits (lg_justified L)) (lg_J L) (lg_F L).

Section Guards.
Context (l : list bool) (s : Z).

Lemma justified_guard :
  0 <= s -> (s <? BitlistLen (encode_bits l)) && GetBit (encode_bits l) s
            = bool_decide (l !! Z.to_nat s = Some true).
Proof.
  intros Hs. rewrite BitlistLen_encode. replace s with (Z.of_nat (Z.to_nat s)) at 1 2 by lia.
  rewrite GetBit_encode, lookup_app_sentinel.
  destruct (Z.ltb_spec (Z.of_nat (Z.to_nat s)) (Z.of_nat (length l))) as [Hlt|Hge]; simpl.
  - rewrite decide_True by lia. destruct (lookup_lt_is_Some_2 l (Z.to_nat s)) as [[] ->]; [lia| |];
      [by rewrite bool_decide_eq_true_2|by rewrite bool_decide_eq_false_2].
  - rewrite bool_decide_eq_false_2; [done|]. rewrite lookup_ge_None_2 by lia. done.
Qed.

Lemma unjustified_guard :
  0 <= s -> (BitlistLen (encode_bits l) <=? s) || negb (GetBit (encode_bits l) s)
            = negb (bool_decide (l !! Z.to_nat s = Some true)).
Proof.
  intros Hs. rewrite <- justified_guard by done. rewrite negb_andb. f_equal.
  rewrite Z.ltb_antisym, negb_involutive. done.
Qed.
End Guards.

Lemma hist_guard (hist : list root) (s : Z) (r : root) :
  0 <= s ->
  (Z.of_nat (length hist) <=? s) || negb (bool_decide (hist !!! Z.to_nat s = r))
  = negb (bool_decide (hist !! Z.to_nat s = Some r)).
Proof.
  intros Hs. destruct (Z.leb_spec (Z.of_nat (length hist)) s) as [Hge|Hlt]; simpl.
  - rewrite lookup_ge_None_2 by lia. by rewrite bool_decide_eq_false_2.
  - destruct (lookup_lt_is_Some_2 hist (Z.to_nat s)) as [x Hx]; [lia|].
    rewrite (list_lookup_total_correct _ _ _ Hx), Hx. f_equal. apply bool_decide_ext. naive_solver.
Qed.

Lemma count_votes_from (vs : list bool) (c : Z) :
  0 <= c -> c + Z.of_nat (length vs) < 2 ^ 64 ->
  foldl (fun count voted => if voted : bool then u64 (count + 1) else count) c vs
  = c + Z.of_nat (length (filter (fun b => b = true) vs)).
Proof.
  revert c; induction vs as [|[] vs IH]; intros c Hc Hb; simpl in *; [lia| |].
  - rewrite u64_small by (unfold is_u64; lia). rewrite IH by lia. lia.
  - apply IH; lia.
Qed.

Lemma length_supporters vs : length (supporters vs) = length (filter (fun b => b = true) vs).
Proof.
  induction vs as [|b vs IH] using rev_ind; [done|].
  unfold supporters in *. rewrite length_app, Nat.add_1_r, seq_S, !list.filter_app, !length_app.
  f_equal.
  - rewrite <- IH. f_equal. apply list_filter_ext_in. intros i Hi%elem_of_seq.
    rewrite lookup_app_l by lia. done.
  - rewrite !filter_cons, !filter_nil. rewrite Nat.add_0_l, list_lookup_middle by done.
    destruct b; repeat case_decide; simplify_eq; done.
Qed.

Lemma count_votes_supporters vs :
  Z.of_nat (length vs) < 2 ^ 64 -> count_votes vs = Z.of_nat (length (supporters vs)).
Proof. intros H. unfold count_votes. rewrite count_votes_from by lia. by rewrite length_supporters. Qed.

Lemma length_supporters_le vs : (length (supporters vs) <= length vs)%nat.
Proof. rewrite length_supporters. apply list.length_filter. Qed.

(** The vote arithmetic of the code is the two-thirds rule when nothing wraps. *)
Lemma supermajority_test (n : nat) vs :
  Z.of_nat n < 2 ^ 62 -> length vs = n ->
  (u64 (3 * count_votes vs) <? u64 (2 * Z.of_nat n)) = negb (bool_decide (supermajority n vs)).
Proof.
  intros Hn Hlen. pose proof (length_supporters_le vs).
  rewrite count_votes_supporters by lia. rewrite !u64_small by (unfold is_u64; lia).
  unfold supermajority. destruct (Z.ltb_spec (3 * Z.of_nat (length (supporters vs))) (2 * Z.of_nat n));
    [rewrite bool_decide_eq_false_2 by lia|rewrite bool_decide_eq_true_2 by lia]; done.
Qed.

Lemma justifiable_gap_spec fuel s tgt F0 :
  0 <= s -> 0 <= tgt < 2 ^ 64 -> (Z.to_nat (tgt - s) <= fuel)%nat ->
  justifiable_gap fuel s tgt F0 = true <->
  exists k, s <= k < tgt /\ IsJustifiableAfter k F0 = true.
Proof.
  revert s; induction fuel as [|fuel IH]; intros s Hs Ht Hf; cbn [justifiable_gap].
  - split; [done|]. intros (k & Hk & _). lia.
  - destruct (Z.ltb_spec s tgt); [|split; [done|intros (k & Hk & _); lia]].
    destruct (IsJustifiableAfter s F0) eqn:E; [split; [intros _; exists s; split; [lia|done]|done]|].
    rewrite u64_small by (unfold is_u64; lia). rewrite IH by lia.
    split; intros (k & Hk & Hj); exists k; (split; [|done]); [lia|].
    destruct (decide (k = s)) as [->|]; [congruence|lia].
Qed.

Lemma gap_test F0 a :
  wf_Attestation a -> (src_slot a < tgt_slot a)%nat ->
  justifiable_gap (Z.to_nat (cp_Slot (ad_Target (att_Data a)) - cp_Slot (ad_Source (att_Data a))))
    (u64 (cp_Slot (ad_Source (att_Data a)) + 1)) (cp_Slot (ad_Target (att_Data a))) F0 = true
  <-> gap F0 a.
Proof.
  intros (_ & _ & _ & Ht & Hs) Hlt. unfold src_slot, tgt_slot, gap, wf_Checkpoint, is_u64 in *.
  rewrite u64_small by (unfold is_u64; lia). rewrite justifiable_gap_spec by lia.
  split; intros (k & Hk & Hj).
  - exists (Z.to_nat k). rewrite Z2Nat.id by lia. split; [unfold src_slot, tgt_slot; lia|done].
  - exists (Z.of_nat k). split; [unfold src_slot, tgt_slot in Hk; lia|done].
Qed.

Lemma extend_justified_noop l tgt :
  0 <= tgt -> (Z.to_nat tgt < length l)%nat ->
  extend_justified (encode_bits l) tgt = Ok (encode_bits l).
Proof.
  intros H0 Hlt. unfold extend_justified. cbn [loop]. rewrite BitlistLen_encode.
  rewrite (proj2 (Z.leb_gt _ _)) by lia. done.
Qed.

(** The validator's bit in the working map, a missing entry counting as all false. *)
Lemma voted_tally n L r v : (v < n)%nat ->
  default false (tally n L r !! v) = bool_decide (tally n L r !! v = Some true).
Proof.
  intros Hv. destruct (tally n L r !! v) as [[]|]; done.
Qed.

Section Step.
Context (n : nat) (hist : list root) (F0 : Z).

(** After the guards: recording the vote, and what a supermajority triggers. *)
Lemma record_refines (L : ledger) (a : Attestation) :
  Z.of_nat n < 2 ^ 62 -> wf_ledger n hist L -> wf_Attestation a -> acceptable n hist F0 L a ->
  exists L',
    (let r := tgt_root a in
     let justifications := match lg_votes L !! r with
       | Some _ => lg_votes L
       | None => <[r := replicate (Z.to_nat (Z.of_nat n)) false]> (lg_votes L) end in
     let votes := default [] (justifications !! r) in
     if default false (votes !! voter a)
     then Ok (mkAttst justifications (encode_bits (lg_justified L)) (lg_J L) (lg_F L))
     else
     let votes := <[voter a := true]> votes in
     let justifications := <[r := votes]> justifications in
     if u64 (3 * count_votes votes) <? u64 (2 * Z.of_nat n)
     then Ok (mkAttst justifications (encode_bits (lg_justified L)) (lg_J L) (lg_F L))
     else
     js ← extend_justified (encode_bits (lg_justified L)) (cp_Slot (ad_Target (att_Data a)));
     let js := SetBit js (cp_Slot (ad_Target (att_Data a))) true in
     let hasGap := justifiable_gap
        (Z.to_nat (cp_Slot (ad_Target (att_Data a)) - cp_Slot (ad_Source (att_Data a))))
        (u64 (cp_Slot (ad_Source (att_Data a)) + 1)) (cp_Slot (ad_Target (att_Data a))) F0 in
     let latestFinalized :=
       if negb hasGap then mkCheckpoint (src_root a) (cp_Slot (ad_Source (att_Data a)))
       else lg_F L in
     Ok (mkAttst (delete r justifications) js
           (mkCheckpoint r (cp_Slot (ad_Target (att_Data a)))) latestFinalized))
    = Ok (attst_of L') /\ vote_step n hist F0 L a L'.
Proof.
  intros Hn HL Hwf Hacc. cbv zeta. rewrite Nat2Z.id.
  set (r := tgt_root a). set (justs := match lg_votes L !! r with Some _ => _ | None => _ end).
  assert (Hvotes : default [] (justs !! r) = tally n L r).
  { unfold justs, tally. destruct (lg_votes L !! r) eqn:E; [by rewrite E|].
    by rewrite lookup_insert_eq. }
  rewrite Hvotes, voted_tally by apply Hacc.
  case_bool_decide as Hv.
  { (* already voted: the entry existed *)
    apply tally_voted in Hv as Hvd. exists L. split; [|by apply step_repeat].
    unfold justs. destruct Hvd as (vs & -> & _). done. }
  assert (Hnv : ~ voted L r (voter a)).
  { intros (vs & Hr & Hx). apply Hv. unfold tally. by rewrite Hr. }
  assert (Hins : forall vs, <[r := vs]> justs = <[r := vs]> (lg_votes L)).
  { intros vs. unfold justs. destruct (lg_votes L !! r); [done|]. apply insert_insert_eq. }
  rewrite !Hins. fold (new_tally n L a).
  rewrite supermajority_test by (try done; unfold new_tally; by rewrite length_insert, (length_tally n hist)).
  case_bool_decide as Hsm; cycle 1.
  { eexists. split; [|by apply step_record]. done. }
  assert (Htgt : (tgt_slot a < length (lg_justified L))%nat).
  { rewrite (wl_bits _ _ _ HL). eapply lookup_lt_Some, acc_tgt_root, Hacc. }
  assert (Hw : 0 <= cp_Slot (ad_Target (att_Data a)) /\ 0 <= cp_Slot (ad_Source (att_Data a)))
    by (destruct Hwf as (_ & _ & _ & Ht & Hs); unfold wf_Checkpoint, is_u64 in *; lia).
  rewrite extend_justified_noop by (unfold tgt_slot in Htgt; lia).
  cbn [mbind outcome_bind].
  pose proof (gap_test F0 a Hwf (acc_order _ _ _ _ _ Hacc)) as Hgap.
  set (g := justifiable_gap _ _ _ _) in *.
  assert (Hset : SetBit (encode_bits (lg_justified L)) (cp_Slot (ad_Target (att_Data a))) true
                 = encode_bits (<[tgt_slot a := true]> (lg_justified L))).
  { rewrite <- SetBit_encode by done. f_equal. unfold tgt_slot; lia. }
  rewrite Hset, delete_insert_eq.
  destruct g; eexists.
  - split; [|apply step_justify; try done; by apply Hgap].
    unfold justify, attst_of, r, tgt_root. simpl. by destruct (ad_Target (att_Data a)).
  - split; [|apply step_finalize; try done; intros Hg; by apply Hgap in Hg].
    unfold justify, attst_of, r, tgt_root, src_root. simpl.
    by destruct (ad_Target (att_Data a)), (ad_Source (att_Data a)).
Qed.

(** A guard of the code that fails rejects the vote. *)
Ltac reject L :=
  exists L; split; [done|apply step_reject; intros Hacc; destruct Hacc; unfold src_slot, tgt_slot, src_root, tgt_root, voter in *; try lia; congruence].

Lemma process_attestation_refines (L : ledger) (a : Attestation) :
  Z.of_nat n < 2 ^ 62 -> wf_ledger n hist L -> wf_Attestation a ->
  exists L', process_attestation hist (Z.of_nat n) F0 (attst_of L) a = Ok (attst_of L') /\
             vote_step n hist F0 L a L'.
Proof.
  intros Hn HL Hwf. pose proof Hwf as (Hid & _ & _ & Ht & Hs). unfold wf_Checkpoint, is_u64 in Ht, Hs, Hid.
  unfold process_attestation. cbn [attst_of as_justifications as_justifiedSlots as_latestJustified as_latestFinalized].
  destruct (Z.leb_spec (cp_Slot (ad_Target (att_Data a))) (cp_Slot (ad_Source (att_Data a)))); [reject L|].
  rewrite unjustified_guard by lia. case_bool_decide; [|reject L]. cbn [negb].
  rewrite justified_guard by lia. case_bool_decide; [reject L|].
  rewrite !hist_guard by lia. case_bool_decide; [|reject L]. cbn [negb].
  case_bool_decide; [|reject L]. cbn [negb].
  destruct (IsJustifiableAfter _ F0) eqn:EJ; cycle 1.
  { exists L. split; [done|]. apply step_reject. intros Hacc.
    pose proof (acc_justifiable _ _ _ _ _ Hacc) as HJ. unfold tgt_slot in HJ.
    rewrite Z2Nat.id in HJ by lia. congruence. }
  cbn [negb]. destruct (Z.leb_spec (Z.of_nat n) (att_ValidatorID a)); [reject L|].
  apply record_refines; try done. constructor; unfold src_slot, tgt_slot, voter; try done; try lia.
  by rewrite Z2Nat.id by lia.
Qed.

Lemma process_attestations_refine (L : ledger) (atts : list Attestation) :
  Z.of_nat n < 2 ^ 62 -> wf_ledger n hist L -> Forall wf_Attestation atts ->
  exists L', foldM (process_attestation hist (Z.of_nat n) F0) (attst_of L) atts = Ok (attst_of L') /\
             vote_run n hist F0 L atts L'.
Proof.
  intros Hn. revert L. induction atts as [|a atts IH]; intros L HL Hwf.
  - exists L. split; [done|constructor].
  - apply list.Forall_cons in Hwf as [Ha Hatts].
    destruct (process_attestation_refines L a Hn HL Ha) as (L1 & E1 & S1).
    destruct (IH L1 (vote_step_wf _ _ _ _ _ _ S1 HL) Hatts) as (L2 & E2 & S2).
    exists L2. split; [|by econstructor]. cbn [foldM]. rewrite E1. exact E2.
Qed.
End Step.

(** * The SSZ form of the open votes *)

(** The two SSZ fields a working map is stored in. *)
Definition vote_keys (m : gmap root (list bool)) : list root := sort_arrays (map_to_list m).*1.
Definition vote_bits (rs : list root) (m : gmap root (list bool)) : list bool :=
  concat (map (fun r => default [] (m !! r)) rs).

Lemma elem_of_vote_keys m r : r ∈ vote_keys m <-> is_Some (m !! r).
Proof.
  unfold vote_keys. rewrite sort_arrays_perm, list_elem_of_fmap. split.
  - intros ([k vs] & -> & Hin). apply elem_of_map_to_list in Hin. eauto.
  - intros [vs Hm]. exists (r, vs). by rewrite elem_of_map_to_list.
Qed.

Lemma length_vote_keys m : length (vote_keys m) = size m.
Proof. unfold vote_keys. by rewrite sort_arrays_perm, length_fmap, length_map_to_list. Qed.

Lemma sortedJustificationRoots_keys `{!MapRange} m : sortedJustificationRoots m = vote_keys m.
Proof.
  unfold sortedJustificationRoots. apply sort_arrays_unique; [apply sort_arrays_sorted|].
  unfold vote_keys. by rewrite sort_arrays_perm, range_perm.
Qed.

Lemma length_concat_uniform {A} (n : nat) (ls : list (list A)) :
  Forall (fun l => length l = n) ls -> length (concat ls) = (length ls * n)%nat.
Proof. induction 1 as [|l ls Hl _ IH]; simpl; [done|]. rewrite length_app, IH. lia. Qed.

Lemma lookup_concat_uniform {A} (n : nat) (ls : list (list A)) i l v :
  Forall (fun l => length l = n) ls -> ls !! i = Some l -> (v < n)%nat ->
  concat ls !! (i * n + v)%nat = l !! v.
Proof.
  intros Hall. revert i; induction Hall as [|x ls Hx _ IH]; intros i Hi Hv; [done|].
  destruct i as [|i]; simpl in *.
  - simplify_eq. by rewrite lookup_app_l by lia.
  - rewrite lookup_app_r by lia. rewrite <- (IH i Hi Hv). f_equal. lia.
Qed.

(** The write loop of flattenVotes over the concatenated bits. *)
Definition write_bits (bl : bytes) (pos : Z) (bits : list bool) : bytes * Z :=
  foldl (fun '(bl, bitPos) (voted : bool) =>
           ((if voted
             then alter (fun b => byte_or b (Z.shiftl 1 (bitPos mod 8))) (Z.to_nat (bitPos / 8)) bl
             else bl), u64 (bitPos + 1))) (bl, pos) bits.

Lemma write_bits_spec bits : forall bl (p : list bool),
  (length p + length bits < 8 * length bl)%nat -> Z.of_nat (8 * length bl) < 2 ^ 64 ->
  (forall i, bit bl i = default false (p !! i)) ->
  exists bl', write_bits bl (Z.of_nat (length p)) bits = (bl', Z.of_nat (length (p ++ bits))) /\
    length bl' = length bl /\ forall i, bit bl' i = default false ((p ++ bits) !! i).
Proof.
  induction bits as [|b bits IH]; intros bl p Hlen Hcap Hbit.
  - exists bl. by rewrite app_nil_r.
  - change (write_bits bl (Z.of_nat (length p)) (b :: bits)) with
      (write_bits (if b then alter (fun c => byte_or c (Z.shiftl 1 (Z.of_nat (length p) mod 8)))
                          (Z.to_nat (Z.of_nat (length p) / 8)) bl else bl)
         (u64 (Z.of_nat (length p) + 1)) bits).
    set (bl1 := if b then _ else bl). simpl in Hlen.
    assert (Hl1 : length bl1 = length bl) by (unfold bl1; destruct b; by autorewrite with bitlist).
    rewrite u64_small by (unfold is_u64; lia).
    replace (Z.of_nat (length p) + 1) with (Z.of_nat (length (p ++ [b])))
      by (rewrite length_app; simpl; lia).
    replace (p ++ b :: bits) with ((p ++ [b]) ++ bits) by (by rewrite <- app_assoc).
    destruct (IH bl1 (p ++ [b])) as (bl' & E & Hl' & Hb').
    + rewrite length_app, Hl1. simpl. lia.
    + by rewrite Hl1.
    + intros i. assert (Hor : bit bl1 i = bit bl i || (b && bool_decide (i = length p))).
      { unfold bl1. destruct b; [by rewrite bit_alter_or by lia|by rewrite orb_false_r]. }
      rewrite Hor, Hbit. destruct (decide (i < length p)%nat).
      * rewrite lookup_app_l, bool_decide_eq_false_2 by lia. by rewrite andb_false_r, orb_false_r.
      * rewrite (lookup_ge_None_2 p), lookup_app_r by lia. simpl. case_bool_decide.
        -- replace (i - length p)%nat with 0%nat by lia. by destruct b.
        -- rewrite lookup_ge_None_2 by (simpl; lia). by rewrite andb_false_r.
    + exists bl'. by rewrite E, Hl', Hl1.
Qed.

Lemma bit_zeros k i : bit (replicate k Byte.x00) i = false.
Proof.
  unfold bit. rewrite list_lookup_total_alt.
  destruct (_ !! _) as [x|] eqn:E; [apply lookup_replicate in E as [-> _]|]; apply Z.testbit_0_l.
Qed.

Lemma foldl_concat {A B} (f : A -> B -> A) (a : A) (ls : list (list B)) :
  foldl (foldl f) a ls = foldl f a (concat ls).
Proof. revert a; induction ls as [|l ls IH]; intros a; simpl; [done|]. by rewrite foldl_app, IH. Qed.

Lemma foldl_map {A B C} (f : A -> C -> A) (g : B -> C) (a : A) (l : list B) :
  foldl (fun acc x => f acc (g x)) a l = foldl f a (map g l).
Proof. revert a; induction l as [|x l IH]; intros a; simpl; [done|]. apply IH. Qed.

(** flattenVotes writes exactly the canonical bitlist of the concatenated votes. *)
Lemma flattenVotes_spec (n : nat) (rs : list root) (m : gmap root (list bool)) :
  Forall (fun r => length (default [] (m !! r)) = n) rs ->
  Z.of_nat (length rs * n) < 2 ^ 64 - 16 ->
  flattenVotes rs m (Z.of_nat n) = encode_bits (vote_bits rs m).
Proof.
  intros Hall Hcap. unfold flattenVotes.
  rewrite u64_small by (unfold is_u64; lia).
  assert (Hlen : length (vote_bits rs m) = (length rs * n)%nat).
  { unfold vote_bits. rewrite (length_concat_uniform n), length_map; [done|].
    by rewrite List.Forall_map. }
  replace (Z.of_nat (length rs) * Z.of_nat n) with (Z.of_nat (length (vote_bits rs m))) by lia.
  set (bits := vote_bits rs m) in *.
  destruct (Z.eqb_spec (Z.of_nat (length bits)) 0) as [H0|H0].
  { by rewrite (nil_length_inv bits) by lia. }
  rewrite u64_small by (unfold is_u64; lia).
  assert (Hneed : Z.to_nat ((Z.of_nat (length bits) + 1 + 7) / 8) = (length bits / 8 + 1)%nat).
  { replace (Z.of_nat (length bits) + 1 + 7) with (Z.of_nat (length bits) + 1 * 8) by lia.
    rewrite Z.div_add by lia. change 8 with (Z.of_nat 8). rewrite <- Nat2Z.inj_div. lia. }
  rewrite Hneed. pose proof (div8_bounds (length bits)).
  rewrite foldl_map, foldl_concat. fold (vote_bits rs m). fold bits.
  destruct (write_bits_spec bits (replicate (length bits / 8 + 1) Byte.x00) []) as (bl & E & Hl & Hb).
  - rewrite length_replicate. cbn [length Nat.add]. lia.
  - rewrite length_replicate. lia.
  - intros i. apply bit_zeros.
  - unfold write_bits in E. change (Z.of_nat (length [])) with 0 in E. rewrite E. cbn [app] in *.
    rewrite length_replicate in Hl. apply encode_bits_unique.
    + by rewrite length_alter.
    + intros i _. rewrite bit_alter_or, Hb by lia. rewrite lookup_app_sentinel.
      case_decide; [rewrite bool_decide_eq_false_2 by lia; by rewrite orb_false_r|].
      by rewrite lookup_ge_None_2 by lia.
Qed.

(** Reading the SSZ form back. *)
Lemma foldl_insert_lookup {V} (f : nat -> V) (m : gmap root V) (l : list root) (k0 : nat) (acc : gmap root V) :
  (forall i r, l !! i = Some r -> m !! r = Some (f (k0 + i)%nat)) ->
  forall r, foldl (fun (acc : gmap root V) '(i, r) => <[r := f i]> acc) acc (imap (fun i r => ((k0 + i)%nat, r)) l) !! r
            = if decide (r ∈ l) then m !! r else acc !! r.
Proof.
  revert k0 acc; induction l as [|x l IH]; intros k0 acc Hl r; [done|].
  cbn [imap foldl]. rewrite Nat.add_0_r.
  assert (Himap : imap ((fun i r0 => ((k0 + i)%nat, r0)) ∘ S) l = imap (fun i r0 => ((S k0 + i)%nat, r0)) l).
  { apply imap_ext. intros i y _. simpl. f_equal. lia. }
  rewrite Himap, IH by (intros i y Hi; rewrite (Hl (S i) y Hi); do 2 f_equal; lia).
  destruct (decide (r ∈ l)) as [Hin|Hin]; [by rewrite decide_True by (by right)|].
  destruct (decide (r = x)) as [->|Hne].
  - rewrite decide_True by left. rewrite lookup_insert_eq, (Hl 0%nat x eq_refl). do 2 f_equal. lia.
  - rewrite lookup_insert_ne by done. rewrite decide_False; [done|].
    by intros [|]%elem_of_cons.
Qed.

Lemma load_justifications_spec (s : State) (n : nat) (m : gmap root (list bool)) :
  length (st_Validators s) = n -> Z.of_nat n < 2 ^ 62 ->
  map_Forall (fun _ vs => length vs = n) m ->
  Z.of_nat (size m * n) < 2 ^ 64 - 16 ->
  st_JustificationsRoots s = vote_keys m ->
  st_JustificationsValidators s = encode_bits (vote_bits (vote_keys m) m) ->
  load_justifications s = m.
Proof.
  intros Hn Hcap0 Hall Hcap Hroots Hvals. unfold load_justifications, numValidators_of.
  rewrite Hn, u64_small, Nat2Z.id, Hroots, Hvals by (unfold is_u64; lia).
  set (ks := vote_keys m).
  assert (Hks : Forall (fun r => length (default [] (m !! r)) = n) ks).
  { apply list.Forall_forall. intros r Hr%elem_of_vote_keys. destruct Hr as [vs Hr].
    rewrite Hr. simpl. by apply (Hall r). }
  assert (Hf : forall i r, ks !! i = Some r -> m !! r = Some
      (map (fun v => GetBit (encode_bits (vote_bits ks m)) (u64 (u64 (Z.of_nat i * Z.of_nat n) + Z.of_nat v))) (seq 0 n))).
  { intros i r Hi. assert (Hr : r ∈ ks) by (by eapply list_elem_of_lookup_2).
    apply elem_of_vote_keys in Hr as [vs Hr]. rewrite Hr. f_equal.
    assert (Hvs : length vs = n) by (by apply (Hall r)).
    assert (Hi' : (i < size m)%nat) by (rewrite <- length_vote_keys; by eapply lookup_lt_Some).
    assert (Hin : (i * n + n <= size m * n)%nat) by nia.
    apply list_eq_same_length with n; [by rewrite length_map, length_seq|done|].
    intros v x y Hv Hx Hy. rewrite list_lookup_fmap, lookup_seq_lt in Hy by done. injection Hy as <-.
    rewrite (u64_small (Z.of_nat i * _)), u64_small by (unfold is_u64; lia).
    replace (Z.of_nat i * Z.of_nat n + Z.of_nat v) with (Z.of_nat (i * n + v)) by lia.
    symmetry. apply GetBit_encode_lt. unfold vote_bits.
    rewrite (lookup_concat_uniform n _ i vs); [done| | |done].
    - by rewrite List.Forall_map.
    - rewrite list_lookup_fmap, Hi. simpl. by rewrite Hr. }
  apply map_eq. intros r.
  pose proof (foldl_insert_lookup (fun i => map (fun v => GetBit (encode_bits (vote_bits ks m))
     (u64 (u64 (Z.of_nat i * Z.of_nat n) + Z.of_nat v))) (seq 0 n)) m ks 0 ∅ Hf r) as HL.
  etransitivity; [exact HL|]. destruct (decide (r ∈ ks)) as [|Hn']; [done|].
  rewrite lookup_empty. symmetry. apply eq_None_not_Some. intros Hs. by apply Hn', elem_of_vote_keys.
Qed.

(** * ProcessAttestations implements the rule *)

(** The ledger a state stores. *)
Record StateRep (s : State) (L : ledger) : Prop := {
  sr_roots : st_JustificationsRoots s = vote_keys (lg_votes L);
  sr_votes : st_JustificationsValidators s = encode_bits (vote_bits (vote_keys (lg_votes L)) (lg_votes L));
  sr_bits : st_JustifiedSlots s = encode_bits (lg_justified L);
  sr_J : st_LatestJustified s = lg_J L;
  sr_F : st_LatestFinalized s = lg_F L;
  sr_wf : wf_ledger (length (st_Validators s)) (st_HistoricalBlockHashes s) L }.

(** The votes of a full history fit in uint64 bit positions. *)
Definition in_capacity (s : State) : Prop :=
  Z.of_nat (length (st_Validators s)) < 2 ^ 62 /\
  Z.of_nat (length (st_HistoricalBlockHashes s) * length (st_Validators s)) < 2 ^ 64 - 16.

(** Slot [t] is justified in [s]: the test the code makes before reading a bit. *)
Definition slot_justified (s : State) (t : nat) : Prop :=
  Z.of_nat t < BitlistLen (st_JustifiedSlots s) /\ GetBit (st_JustifiedSlots s) (Z.of_nat t) = true.

(** Validator [v] has an open vote for [r] stored in [s]. *)
Definition vote_stored (s : State) (r : root) (v : nat) : Prop :=
  exists vs, load_justifications s !! r = Some vs /\ vs !! v = Some true.

Section Main.
Context {MR : MapRange}.

Lemma open_votes_bound n hist L : wf_ledger n hist L -> (size (lg_votes L) <= length hist)%nat.
Proof.
  intros HL. rewrite <- length_vote_keys. apply submseteq_length, NoDup_submseteq.
  - unfold vote_keys. rewrite sort_arrays_perm. apply NoDup_fst_map_to_list.
  - intros r [vs Hr]%elem_of_vote_keys. by apply (wl_votes _ _ _ HL) in Hr as [_ ?].
Qed.

Lemma open_votes_capacity s L :
  wf_ledger (length (st_Validators s)) (st_HistoricalBlockHashes s) L -> in_capacity s ->
  Z.of_nat (size (lg_votes L) * length (st_Validators s)) < 2 ^ 64 - 16.
Proof.
  intros HL [_ Hcap]. apply open_votes_bound in HL.
  assert (size (lg_votes L) * length (st_Validators s) <=
          length (st_HistoricalBlockHashes s) * length (st_Validators s))%nat
    by (apply Nat.mul_le_mono_r; done). lia.
Qed.

Lemma ledger_votes_lengths n hist L :
  wf_ledger n hist L -> map_Forall (fun _ vs => length vs = n) (lg_votes L).
Proof. intros HL r vs Hr. by apply (wl_votes _ _ _ HL) in Hr as [? _]. Qed.

Lemma load_justifications_rep s L :
  StateRep s L -> in_capacity s -> load_justifications s = lg_votes L.
Proof.
  intros HR Hcap. eapply load_justifications_spec; [done|apply Hcap| | |apply HR|apply HR].
  - eapply ledger_votes_lengths, HR.
  - eapply open_votes_capacity; [apply HR|done].
Qed.

Lemma slot_justified_rep s L t :
  StateRep s L -> slot_justified s t <-> lg_justified L !! t = Some true.
Proof.
  intros HR. unfold slot_justified. rewrite (sr_bits _ _ HR), BitlistLen_encode. split.
  - intros [Hlt Hb]. destruct (lookup_lt_is_Some_2 (lg_justified L) t) as [b Hl]; [lia|].
    by rewrite (GetBit_encode_lt _ _ _ Hl) in Hb; subst.
  - intros Hl. split; [apply lookup_lt_Some in Hl; lia|by apply GetBit_encode_lt].
Qed.

Lemma vote_stored_rep s L r v :
  StateRep s L -> in_capacity s -> vote_stored s r v <-> voted L r v.
Proof. intros HR Hcap. unfold vote_stored, voted. by rewrite (load_justifications_rep s L). Qed.

(** The fields a block's votes do not touch. *)
Definition same_frame (s s' : State) : Prop :=
  st_Config s' = st_Config s /\ st_Slot s' = st_Slot s /\
  st_LatestBlockHeader s' = st_LatestBlockHeader s /\
  st_HistoricalBlockHashes s' = st_HistoricalBlockHashes s /\
  st_Validators s' = st_Validators s.

(** ProcessAttestations returns, and its result stores the ledger reached by the rule. *)
Lemma ProcessAttestations_run s L atts :
  StateRep s L -> in_capacity s -> Forall wf_Attestation atts ->
  exists s' L', ProcessAttestations s atts = Ok s' /\
    vote_run (length (st_Validators s)) (st_HistoricalBlockHashes s)
      (cp_Slot (st_LatestFinalized s)) L atts L' /\
    StateRep s' L' /\ same_frame s s'.
Proof.
  intros HR Hcap Hatts. set (n := length (st_Validators s)).
  destruct (process_attestations_refine n (st_HistoricalBlockHashes s)
              (cp_Slot (st_LatestFinalized s)) L atts) as (L' & E & Hrun);
    [apply Hcap|apply HR|done|].
  pose proof (vote_run_wf _ _ _ _ _ _ Hrun (sr_wf _ _ HR)) as HL'.
  unfold ProcessAttestations, numValidators_of. fold n.
  rewrite u64_small by (destruct Hcap; unfold is_u64; fold n; lia).
  rewrite CloneBitlist_id, (load_justifications_rep s L HR Hcap), Copy_id.
  rewrite (sr_bits _ _ HR), (sr_J _ _ HR), (sr_F _ _ HR) in *.
  fold (attst_of L). rewrite E. cbn [mbind outcome_bind].
  eexists _, L'. split; [reflexivity|]. split; [done|]. split; [|done].
  constructor; cbn [st_JustificationsRoots st_JustificationsValidators st_JustifiedSlots
    st_LatestJustified st_LatestFinalized st_Validators st_HistoricalBlockHashes attst_of
    as_justifications as_justifiedSlots as_latestJustified as_latestFinalized]; try done.
  - apply sortedJustificationRoots_keys.
  - rewrite sortedJustificationRoots_keys. apply flattenVotes_spec.
    + apply list.Forall_forall. intros r [vs Hr]%elem_of_vote_keys. rewrite Hr.
      by apply (ledger_votes_lengths _ _ _ HL' r).
    + rewrite length_vote_keys. by eapply open_votes_capacity.
Qed.
End Main.

(** * The properties *)

Section Properties.
Context {MR : MapRange}.

(** C3: ProcessAttestations always returns (no panic, no endless loop), and what it computes is
    the 3SF-mini rule applied to the votes in order: the ledger stored in the result is the one
    the step relation reaches, every other field is unchanged, and the result is again in
    canonical form. *)
Theorem ProcessAttestations_refines (s : State) (L : ledger) (atts : list Attestation) :
  StateRep s L -> in_capacity s -> Forall wf_Attestation atts ->
  exists s' L', ProcessAttestations s atts = Ok s' /\
    vote_run (length (st_Validators s)) (st_HistoricalBlockHashes s)
      (cp_Slot (st_LatestFinalized s)) L atts L' /\
    StateRep s' L' /\ same_frame s s'.
Proof. apply ProcessAttestations_run. Qed.

(** C19: safety of justification. A slot that becomes justified has a block root in the history
    and a set of distinct registered validators, at least two thirds of them all, each of
    which had a stored vote for that root or votes for it in this block. *)
Theorem justification_needs_quorum (s s' : State) (L : ledger) (atts : list Attestation) (t : nat) :
  StateRep s L -> in_capacity s -> Forall wf_Attestation atts ->
  ProcessAttestations s atts = Ok s' -> ~ slot_justified s t -> slot_justified s' t ->
  exists r V, st_HistoricalBlockHashes s !! t = Some r /\
    NoDup V /\ (2 * length (st_Validators s) <= 3 * length V)%nat /\
    forall v, v ∈ V -> (v < length (st_Validators s))%nat /\
      (vote_stored s r v \/
       exists a, a ∈ atts /\ cp_Root (ad_Target (att_Data a)) = r /\ Z.to_nat (att_ValidatorID a) = v).
Proof.
  intros HR Hcap Hatts Hok Hno Hyes.
  destruct (ProcessAttestations_run s L atts HR Hcap Hatts) as (s1 & L1 & E & Hrun & HR1 & _).
  rewrite Hok in E. injection E as <-.
  rewrite (slot_justified_rep _ _ _ HR) in Hno. rewrite (slot_justified_rep _ _ _ HR1) in Hyes.
  destruct (vote_run_quorum _ _ _ _ _ _ _ Hrun (sr_wf _ _ HR) Hno Hyes)
    as (r & V & Hh & Hnd & Hsz & Hall).
  exists r, V. split_and!; try done. intros v Hv. destruct (Hall v Hv) as [Hn Hor].
  split; [done|]. by rewrite (vote_stored_rep s L).
Qed.

(** A justified slot is never unjustified by later votes. *)
Theorem justified_slots_persist (s s' : State) (L : ledger) (atts : list Attestation) (t : nat) :
  StateRep s L -> in_capacity s -> Forall wf_Attestation atts ->
  ProcessAttestations s atts = Ok s' -> slot_justified s t -> slot_justified s' t.
Proof.
  intros HR Hcap Hatts Hok Ht.
  destruct (ProcessAttestations_run s L atts HR Hcap Hatts) as (s1 & L1 & E & Hrun & HR1 & _).
  rewrite Hok in E. injection E as <-.
  rewrite (slot_justified_rep _ _ _ HR) in Ht. rewrite (slot_justified_rep _ _ _ HR1).
  by eapply vote_run_justified_mono.
Qed.

Lemma finalized_run s s' L atts :
  StateRep s L -> in_capacity s -> Forall wf_Attestation atts ->
  is_u64 (cp_Slot (st_LatestFinalized s)) ->
  (st_HistoricalBlockHashes s <> [] -> slot_justified s (Z.to_nat (cp_Slot (st_LatestFinalized s)))) ->
  ProcessAttestations s atts = Ok s' ->
  st_LatestFinalized s' = st_LatestFinalized s \/
  (cp_Slot (st_LatestFinalized s) <= cp_Slot (st_LatestFinalized s') /\
   is_u64 (cp_Slot (st_LatestFinalized s')) /\
   slot_justified s' (Z.to_nat (cp_Slot (st_LatestFinalized s'))) /\
   st_HistoricalBlockHashes s' !! Z.to_nat (cp_Slot (st_LatestFinalized s'))
     = Some (cp_Root (st_LatestFinalized s'))).
Proof.
  intros HR Hcap Hatts HF Hgen Hok.
  destruct (ProcessAttestations_run s L atts HR Hcap Hatts) as (s1 & L1 & E & Hrun & HR1 & Hframe).
  rewrite Hok in E. injection E as <-.
  rewrite (slot_justified_rep _ _ _ HR) in Hgen.
  destruct (vote_run_finalized _ _ _ _ _ _ Hrun HF (sr_wf _ _ HR) Hgen)
    as [EF|(a & Ha & EF & Hge & Hj & Hh)]; rewrite (sr_F _ _ HR1), EF.
  - left. by rewrite (sr_F _ _ HR).
  - right. rewrite list.Forall_forall in Hatts. destruct (Hatts a Ha) as (_ & _ & _ & _ & Hs).
    unfold wf_Checkpoint, is_u64 in Hs, HF. rewrite (slot_justified_rep _ _ _ HR1).
    destruct Hframe as (_ & _ & _ & -> & _). unfold src_slot, src_root in *.
    split_and!; try done; unfold is_u64; lia.
Qed.

(** the finalized checkpoint of the post-state is never older than that of the pre-state;
    when it moves, it moves to a justified slot of the chain's own history. *)
Theorem finalized_never_reverts (s s' : State) (L : ledger) (atts : list Attestation) :
  StateRep s L -> in_capacity s -> Forall wf_Attestation atts ->
  is_u64 (cp_Slot (st_LatestFinalized s)) ->
  (st_HistoricalBlockHashes s <> [] -> slot_justified s (Z.to_nat (cp_Slot (st_LatestFinalized s)))) ->
  ProcessAttestations s atts = Ok s' ->
  cp_Slot (st_LatestFinalized s) <= cp_Slot (st_LatestFinalized s') /\
  (st_LatestFinalized s' = st_LatestFinalized s \/
   (slot_justified s' (Z.to_nat (cp_Slot (st_LatestFinalized s'))) /\
    st_HistoricalBlockHashes s' !! Z.to_nat (cp_Slot (st_LatestFinalized s'))
      = Some (cp_Root (st_LatestFinalized s')))).
Proof.
  intros HR Hcap Hatts HF Hgen Hok.
  destruct (finalized_run s s' L atts) as [E|(Hge & _ & Hj & Hh)]; try done.
  - rewrite E. split; [lia|by left].
  - split; [done|by right].
Qed.

(** The votes survive serialization: loading the two SSZ fields written from a working map
    gives the map back, whatever the iteration order used to write it. *)
Theorem votes_roundtrip (s : State) (n : nat) (m : gmap root (list bool)) :
  length (st_Validators s) = n -> Z.of_nat n < 2 ^ 62 ->
  map_Forall (fun _ vs => length vs = n) m -> Z.of_nat (size m * n) < 2 ^ 64 - 16 ->
  st_JustificationsRoots s = sortedJustificationRoots m ->
  st_JustificationsValidators s = flattenVotes (sortedJustificationRoots m) m (Z.of_nat n) ->
  load_justifications s = m.
Proof.
  intros Hn Hcap0 Hall Hcap Hroots Hvals.
  rewrite sortedJustificationRoots_keys in Hroots, Hvals.
  eapply load_justifications_spec; try done. rewrite Hvals. apply flattenVotes_spec.
  - apply list.Forall_forall. intros r [vs Hr]%elem_of_vote_keys. rewrite Hr. by apply (Hall r).
  - by rewrite length_vote_keys.
Qed.
End Properties.

(** * A concrete run *)

(** Four validators; slots 0 and 1 have blocks; slot 0 is justified; validator 0 has voted
    for the block of slot 1. *)
Definition ex_root (k : Z) : root := vec_of 32 [Byte.x01; Z_byte k].
Definition ex_validators (n : nat) : list Validator :=
  map (fun i => mkValidator (vreplicate 52 Byte.x00) (Z.of_nat i)) (seq 0 n).
Definition ex_checkpoint (k : Z) : Checkpoint := mkCheckpoint (ex_root k) k.
Definition ex_vote (v src tgt : Z) : Attestation :=
  mkAttestation v (mkAttestationData tgt (ex_checkpoint tgt) (ex_checkpoint tgt) (ex_checkpoint src)).

Definition ex_ledger : ledger :=
  mkLedger {[ex_root 1 := [true; false; false; false]]} [true; false] (ex_checkpoint 0) (ex_checkpoint 0).
Definition ex_state : State :=
  {| st_Config := mkConfig 0; st_Slot := 2;
     st_LatestBlockHeader := mkBlockHeader 2 2 (ex_root 1) ZeroHash (ex_root 9);
     st_LatestJustified := ex_checkpoint 0; st_LatestFinalized := ex_checkpoint 0;
     st_HistoricalBlockHashes := [ex_root 0; ex_root 1];
     st_JustifiedSlots := encode_bits [true; false];
     st_Validators := ex_validators 4;
     st_JustificationsRoots := [ex_root 1];
     st_JustificationsValidators := encode_bits [true; false; false; false] |}.
Definition ex_atts : list Attestation := [ex_vote 1 0 1; ex_vote 1 0 1; ex_vote 7 0 1; ex_vote 3 0 1].
Definition ex_post : State :=
  {| st_Config := mkConfig 0; st_Slot := 2;
     st_LatestBlockHeader := mkBlockHeader 2 2 (ex_root 1) ZeroHash (ex_root 9);
     st_LatestJustified := ex_checkpoint 1; st_LatestFinalized := ex_checkpoint 0;
     st_HistoricalBlockHashes := [ex_root 0; ex_root 1];
     st_JustifiedSlots := encode_bits [true; true];
     st_Validators := ex_validators 4;
     st_JustificationsRoots := [];
     st_JustificationsValidators := [Byte.x01] |}.

Lemma ex_state_rep : StateRep ex_state ex_ledger.
Proof.
  constructor; try (vm_compute; reflexivity). constructor; [vm_compute; reflexivity|].
  intros r vs Hr. unfold ex_ledger in Hr. cbn [lg_votes] in Hr.
  apply lookup_singleton_Some in Hr as [<- <-].
  split; [vm_compute; reflexivity|]. right. left.
Qed.

Lemma ex_capacity : in_capacity ex_state.
Proof. split; vm_compute; reflexivity. Qed.

Lemma ex_atts_wf : Forall wf_Attestation ex_atts.
Proof. repeat constructor; vm_compute; done. Qed.

Lemma ex_run : @ProcessAttestations canonical_range ex_state ex_atts = Ok ex_post.
Proof. vm_compute. reflexivity. Qed.

Lemma ProcessAttestations_refines_witness :
  StateRep ex_state ex_ledger /\
  exists s' L', @ProcessAttestations canonical_range ex_state ex_atts = Ok s' /\
    vote_run (length (st_Validators ex_state)) (st_HistoricalBlockHashes ex_state)
      (cp_Slot (st_LatestFinalized ex_state)) ex_ledger ex_atts L' /\
    StateRep s' L' /\ same_frame ex_state s'.
Proof.
  split; [apply ex_state_rep|].
  apply (@ProcessAttestations_refines canonical_range ex_state ex_ledger ex_atts
           ex_state_rep ex_capacity ex_atts_wf).
Defined.

Lemma ex_slot1_new : ~ slot_justified ex_state 1 /\ slot_justified ex_post 1.
Proof. split; [intros [_ H]; vm_compute in H; discriminate|split; vm_compute; reflexivity]. Qed.

Lemma justification_needs_quorum_witness :
  (~ slot_justified ex_state 1 /\ slot_justified ex_post 1) /\
  exists r V, st_HistoricalBlockHashes ex_state !! 1%nat = Some r /\
    NoDup V /\ (2 * length (st_Validators ex_state) <= 3 * length V)%nat /\
    forall v, v ∈ V -> (v < length (st_Validators ex_state))%nat /\
      (vote_stored ex_state r v \/
       exists a, a ∈ ex_atts /\ cp_Root (ad_Target (att_Data a)) = r /\ Z.to_nat (att_ValidatorID a) = v).
Proof.
  split; [apply ex_slot1_new|].
  apply (@justification_needs_quorum canonical_range ex_state ex_post ex_ledger ex_atts 1
           ex_state_rep ex_capacity ex_atts_wf ex_run); apply ex_slot1_new.
Defined.

Lemma justified_slots_persist_witness : slot_justified ex_state 0 /\ slot_justified ex_post 0.
Proof.
  assert (H : slot_justified ex_state 0) by (split; vm_compute; reflexivity).
  split; [exact H|].
  apply (@justified_slots_persist canonical_range ex_state ex_post ex_ledger ex_atts 0
           ex_state_rep ex_capacity ex_atts_wf ex_run H).
Defined.


Lemma finalized_never_reverts_witness :
  cp_Slot (st_LatestFinalized ex_state) <= cp_Slot (st_LatestFinalized ex_post) /\
  (st_LatestFinalized ex_post = st_LatestFinalized ex_state \/
   (slot_justified ex_post (Z.to_nat (cp_Slot (st_LatestFinalized ex_post))) /\
    st_HistoricalBlockHashes ex_post !! Z.to_nat (cp_Slot (st_LatestFinalized ex_post))
      = Some (cp_Root (st_LatestFinalized ex_post)))).
Proof.
  apply (@finalized_never_reverts canonical_range ex_state ex_post ex_ledger ex_atts
           ex_state_rep ex_capacity ex_atts_wf).
  - unfold is_u64; vm_compute; split; [discriminate|reflexivity].
  - intros _. split; vm_compute; reflexivity.
  - exact ex_run.
Defined.

Lemma votes_roundtrip_witness :
  load_justifications ex_state = {[ex_root 1 := [true; false; false; false]]}.
Proof.
  apply (@votes_roundtrip canonical_range ex_state 4); try (vm_compute; reflexivity).
  intros r vs Hr. by apply lookup_singleton_Some in Hr as [_ <-].
Defined.
