(* ===== verification/Transition.v ===== *)
(** chain/statetransition: genesis.go, proposer.go, transition.go.

    The state transition function over the hasher interface of Hash.v, the invariant
    [wf_state] of the states it produces, and its correctness: slot advancement, header
    validation, the chain of roots, and the preservation of the invariant.  The metrics the
    code updates on the way are not modelled. *)
From S2P Require Import Prelude Slot Bitlist Types Hash Concrete GoStd VoteRule Attestations.
Local Open Scope Z_scope.

Section Code.
Context {HW : HashWalker} {MR : MapRange}.

(** GenerateGenesis *)
Definition GenerateGenesis (genesisTime : Z) (validators : list Validator) : State :=
  let emptyBody := mkBlockBody [] in
  let '(bodyRoot, _) := BlockBody_HashTreeRoot emptyBody in
  {| st_Config := mkConfig genesisTime;
     st_Slot := 0;
     st_LatestBlockHeader :=
       {| bh_Slot := 0; bh_ProposerIndex := 0; bh_ParentRoot := ZeroHash;
          bh_StateRoot := ZeroHash; bh_BodyRoot := bodyRoot |};
     st_LatestJustified := mkCheckpoint ZeroHash 0;
     st_LatestFinalized := mkCheckpoint ZeroHash 0;
     st_HistoricalBlockHashes := [];
     st_JustifiedSlots := [Byte.x01];
     st_Validators := validators;
     st_JustificationsRoots := [];
     st_JustificationsValidators := [Byte.x01] |}.

(** IsProposer *)
Definition IsProposer (validatorIndex slot numValidators : Z) : outcome bool :=
  if numValidators =? 0 then Panic "numValidators must be > 0"
  else Ok (slot mod numValidators =? validatorIndex).

(** ProcessSlot *)
Definition ProcessSlot (state : State) : State :=
  if decide (bh_StateRoot (st_LatestBlockHeader state) = ZeroHash) then
    let '(stateRoot, _) := State_HashTreeRoot state in
    let out := Copy state in
    set_LatestBlockHeader out (set_StateRoot (st_LatestBlockHeader out) stateRoot)
  else state.

(** ProcessSlots: the loop advances one slot per round. *)
Definition ProcessSlots (state : State) (targetSlot : Z) : outcome State :=
  if targetSlot <=? st_Slot state
  then Err (Errorf "target slot %d must be after current slot %d" [Num targetSlot; Num (st_Slot state)])
  else
    loop (S (Z.to_nat (targetSlot - st_Slot state)))
      (fun s => if st_Slot s <? targetSlot
                then let s := ProcessSlot s in
                     Ok (inl (set_Slot (Copy s) (u64 (st_Slot s + 1))))
                else Ok (inr s)) state.

(** ProcessBlockHeader *)
Definition ProcessBlockHeader (state : State) (block : Block) : outcome State :=
  let header := st_LatestBlockHeader state in
  fail_if (negb (b_Slot block =? st_Slot state))
    (Errorf "block slot %d != state slot %d" [Num (b_Slot block); Num (st_Slot state)])
  (fail_if (b_Slot block <=? bh_Slot header)
    (Errorf "block slot %d <= latest header slot %d" [Num (b_Slot block); Num (bh_Slot header)])
  (proposer ← IsProposer (b_ProposerIndex block) (st_Slot state) (numValidators_of state);
   fail_if (negb proposer)
    (Errorf "validator %d is not proposer for slot %d" [Num (b_ProposerIndex block); Num (st_Slot state)])
  (let '(expectedParent, _) := BlockHeader_HashTreeRoot header in
   fail_if (negb (bool_decide (b_ParentRoot block = expectedParent)))
    (Errorf "parent root mismatch" [])
  (let out := Copy state in
   let parentRoot := b_ParentRoot block in
   let '(latestJustified, latestFinalized) :=
     if bh_Slot header =? 0
     then (mkCheckpoint parentRoot (cp_Slot (st_LatestJustified state)),
           mkCheckpoint parentRoot (cp_Slot (st_LatestFinalized state)))
     else (st_LatestJustified out, st_LatestFinalized out) in
   let hashes := st_HistoricalBlockHashes out ++ [parentRoot] in
   let bits := AppendBit (st_JustifiedSlots out) (bh_Slot header =? 0) in
   let numEmpty := u64 (u64 (b_Slot block - bh_Slot header) - 1) in
   let '(hashes, bits) :=
     for_range (Z.to_nat numEmpty)
       (fun _ '(hashes, bits) => (hashes ++ [ZeroHash], AppendBit bits false)) (hashes, bits) in
   let '(bodyRoot, _) := BlockBody_HashTreeRoot (b_Body block) in
   Ok {| st_Config := st_Config out; st_Slot := st_Slot out;
         st_LatestBlockHeader :=
           {| bh_Slot := b_Slot block; bh_ProposerIndex := b_ProposerIndex block;
              bh_ParentRoot := b_ParentRoot block; bh_StateRoot := ZeroHash;
              bh_BodyRoot := bodyRoot |};
         st_LatestJustified := latestJustified; st_LatestFinalized := latestFinalized;
         st_HistoricalBlockHashes := hashes; st_JustifiedSlots := bits;
         st_Validators := st_Validators out;
         st_JustificationsRoots := st_JustificationsRoots out;
         st_JustificationsValidators := st_JustificationsValidators out |})))).

(** ProcessBlock *)
Definition ProcessBlock (state : State) (block : Block) : outcome State :=
  s ← ProcessBlockHeader state block;
  ProcessAttestations s (bb_Attestations (b_Body block)).

(** StateTransition *)
Definition StateTransition (state : State) (block : Block) : outcome State :=
  s ← map_err (Wrapf "process_slots: %w" []) (ProcessSlots state (b_Slot block));
  s ← map_err (Wrapf "process_block: %w" []) (ProcessBlock s block);
  let '(computedRoot, _) := State_HashTreeRoot s in
  fail_if (negb (bool_decide (b_StateRoot block = computedRoot)))
    (Errorf "invalid state root: expected %x, got %x" [Hex computedRoot; Hex (b_StateRoot block)])
  (Ok s).
End Code.

(** * Proposer selection *)

(** Round robin: for a non-empty registry every slot has exactly one proposer among the
    registered indices, and no registry at all is a panic. *)
Theorem unique_proposer (slot n : Z) :
  is_u64 slot -> 0 <= n ->
  (n = 0 -> forall v, IsProposer v slot n = Panic "numValidators must be > 0") /\
  (0 < n -> exists v, 0 <= v < n /\ forall w, IsProposer w slot n = Ok (bool_decide (w = v))).
Proof.
  intros Hs Hn. unfold IsProposer. split.
  - intros -> v. done.
  - intros Hpos. exists (slot mod n). split; [apply Z.mod_pos_bound; lia|]. intros w.
    rewrite (proj2 (Z.eqb_neq n 0)) by lia. f_equal.
    destruct (Z.eqb_spec (slot mod n) w) as [->|Hne]; [by rewrite bool_decide_eq_true_2|].
    by rewrite bool_decide_eq_false_2.
Qed.

Lemma unique_proposer_witness :
  IsProposer 3 11 4 = Ok true /\
  ((4 = 0 -> forall v, IsProposer v 11 4 = Panic "numValidators must be > 0") /\
   (0 < 4 -> exists v, 0 <= v < 4 /\ forall w, IsProposer w 11 4 = Ok (bool_decide (w = v)))).
Proof. split; [reflexivity|]. apply (unique_proposer 11 4); [unfold is_u64|]; lia. Defined.

(** * Advancing slots *)

Section Slots.
Context {HW : HashWalker}.

Lemma ProcessSlot_slot s : st_Slot (ProcessSlot s) = st_Slot s.
Proof.
  unfold ProcessSlot. case_decide; [|done]. destruct (State_HashTreeRoot s). by rewrite Copy_id.
Qed.

(** The header's state root is filled in, or the state is left alone. *)
Definition fill_state_root (s : State) (r : root) : State :=
  set_LatestBlockHeader s (set_StateRoot (st_LatestBlockHeader s) r).

Lemma ProcessSlot_cases s :
  ProcessSlot s = s \/ ProcessSlot s = fill_state_root s (State_HashTreeRoot s).1.
Proof.
  unfold ProcessSlot. case_decide; [right|by left].
  destruct (State_HashTreeRoot s) eqn:E. by rewrite Copy_id.
Qed.

Lemma ProcessSlot_filled s :
  bh_StateRoot (st_LatestBlockHeader s) <> ZeroHash -> ProcessSlot s = s.
Proof. intros H. unfold ProcessSlot. by rewrite decide_False. Qed.

Definition slots_body (target : Z) (s : State) : outcome (State + State) :=
  if st_Slot s <? target
  then let s := ProcessSlot s in Ok (inl (set_Slot (Copy s) (u64 (st_Slot s + 1))))
  else Ok (inr s).

Lemma set_Slot_set s a b : set_Slot (set_Slot s a) b = set_Slot s b.
Proof. done. Qed.

Lemma slots_body_lt target s :
  0 <= st_Slot s < target -> target < 2 ^ 64 ->
  slots_body target s = Ok (inl (set_Slot (ProcessSlot s) (st_Slot s + 1))).
Proof.
  intros Hs Ht. unfold slots_body. rewrite (proj2 (Z.ltb_lt _ _)) by lia.
  cbv zeta. by rewrite Copy_id, ProcessSlot_slot, u64_small by (unfold is_u64; lia).
Qed.

Lemma slots_body_ge target s : target <= st_Slot s -> slots_body target s = Ok (inr s).
Proof. intros Hs. unfold slots_body. by rewrite (proj2 (Z.ltb_ge _ _)). Qed.

(** Once the header is filled, only the slot number moves. *)
Lemma slots_loop_filled fuel target s :
  bh_StateRoot (st_LatestBlockHeader s) <> ZeroHash ->
  0 <= st_Slot s <= target -> target < 2 ^ 64 -> (Z.to_nat (target - st_Slot s) < fuel)%nat ->
  loop fuel (slots_body target) s = Ok (set_Slot s target).
Proof.
  revert s; induction fuel as [|fuel IH]; intros s Hf Hs Ht Hfuel; [lia|].
  cbn [loop]. destruct (Z.ltb_spec (st_Slot s) target) as [Hlt|Hge].
  - rewrite slots_body_lt by lia. cbn [mbind outcome_bind]. rewrite ProcessSlot_filled by done.
    rewrite IH; [done|done|simpl; lia|done|simpl; lia].
  - rewrite slots_body_ge by lia. cbn [mbind outcome_bind]. assert (target = st_Slot s) as -> by lia. by destruct s.
Qed.

(** In any case the loop stops, at the target slot. *)
Lemma slots_loop_total fuel target s (P : State -> Prop) :
  (forall s, P s -> P (ProcessSlot s)) -> (forall s x, P s -> P (set_Slot s x)) ->
  P s -> 0 <= st_Slot s <= target -> target < 2 ^ 64 ->
  (Z.to_nat (target - st_Slot s) < fuel)%nat ->
  exists s', loop fuel (slots_body target) s = Ok s' /\ st_Slot s' = target /\ P s'.
Proof.
  intros HP1 HP2. revert s; induction fuel as [|fuel IH]; intros s HP Hs Ht Hfuel; [lia|].
  cbn [loop]. destruct (Z.ltb_spec (st_Slot s) target) as [Hlt|Hge].
  - rewrite slots_body_lt by lia. cbn [mbind outcome_bind].
    apply IH; [auto|simpl; lia|done|simpl; lia].
  - rewrite slots_body_ge by lia. cbn [mbind outcome_bind]. exists s. split; [done|]. split; [lia|done].
Qed.

Lemma ProcessSlots_total s target (P : State -> Prop) :
  (forall s, P s -> P (ProcessSlot s)) -> (forall s x, P s -> P (set_Slot s x)) ->
  P s -> is_u64 (st_Slot s) -> is_u64 target -> st_Slot s < target ->
  exists s', ProcessSlots s target = Ok s' /\ st_Slot s' = target /\ P s'.
Proof.
  intros HP1 HP2 HP Hs Ht Hlt. unfold ProcessSlots. rewrite (proj2 (Z.leb_gt _ _)) by lia.
  unfold is_u64 in *. apply (slots_loop_total _ _ _ P); try done; lia.
Qed.

(** With a non-zero state root the whole call is: fill the header once, then set the slot. *)
Lemma ProcessSlots_closed s target :
  is_u64 (st_Slot s) -> is_u64 target -> st_Slot s < target ->
  bh_StateRoot (st_LatestBlockHeader (ProcessSlot s)) <> ZeroHash ->
  ProcessSlots s target = Ok (set_Slot (ProcessSlot s) target).
Proof.
  intros Hs Ht Hlt Hfill. unfold ProcessSlots, is_u64 in *. rewrite (proj2 (Z.leb_gt _ _)) by lia.
  change (loop (S (Z.to_nat (target - st_Slot s))) (slots_body target) s
          = Ok (set_Slot (ProcessSlot s) target)).
  cbn [loop]. rewrite slots_body_lt by lia. cbn [mbind outcome_bind].
  rewrite slots_loop_filled; [by rewrite set_Slot_set|done|simpl; lia|lia|simpl; lia].
Qed.

(** Running to a later slot: the header's state root is filled, the slot is the target. *)
Lemma ProcessSlots_run s target :
  is_u64 (st_Slot s) -> is_u64 target -> st_Slot s < target ->
  exists r, ProcessSlots s target = Ok (set_Slot (fill_state_root s r) target) /\
    (bh_StateRoot (st_LatestBlockHeader s) <> ZeroHash -> r = bh_StateRoot (st_LatestBlockHeader s)) /\
    (bh_StateRoot (st_LatestBlockHeader s) = ZeroHash -> (State_HashTreeRoot s).1 <> ZeroHash ->
     r = (State_HashTreeRoot s).1).
Proof.
  intros Hs Ht Hlt.
  destruct (decide (bh_StateRoot (st_LatestBlockHeader (ProcessSlot s)) = ZeroHash)) as [Hz|Hnz].
  - destruct (ProcessSlots_total s target (fun s' => exists r x, s' = set_Slot (fill_state_root s r) x))
      as (s' & E & Hslot & r & x & ->); try done.
    + intros s0 (r & x & ->). destruct (ProcessSlot_cases (set_Slot (fill_state_root s r) x)) as [E|E];
        rewrite E; [by exists r, x|]. eexists _, x. reflexivity.
    + intros s0 y (r & x & ->). by exists r, y.
    + exists (bh_StateRoot (st_LatestBlockHeader s)), (st_Slot s). by destruct s as [? ? [] ? ? ? ? ? ? ?].
    + simpl in Hslot. subst x. exists r. split; [done|]. split.
      * intros Hne. by rewrite (ProcessSlot_filled s Hne) in Hz.
      * intros H0 Hne. unfold ProcessSlot in Hz. rewrite decide_True in Hz by done.
        destruct (State_HashTreeRoot s). rewrite Copy_id in Hz. done.
  - exists (bh_StateRoot (st_LatestBlockHeader (ProcessSlot s))).
    rewrite ProcessSlots_closed by done.
    assert (Hfill : ProcessSlot s = fill_state_root s (bh_StateRoot (st_LatestBlockHeader (ProcessSlot s)))).
    { destruct (ProcessSlot_cases s) as [E|E]; rewrite E; [|done]. by destruct s as [? ? [] ? ? ? ? ? ? ?]. }
    split; [by rewrite <- Hfill|]. split.
    + intros Hne. by rewrite ProcessSlot_filled.
    + intros H0 Hne. unfold ProcessSlot. rewrite decide_True by done.
      destruct (State_HashTreeRoot s). by rewrite Copy_id.
Qed.

Lemma ProcessSlots_past s target :
  target <= st_Slot s ->
  ProcessSlots s target =
    Err (Errorf "target slot %d must be after current slot %d" [Num target; Num (st_Slot s)]).
Proof. intros Hle. unfold ProcessSlots. by rewrite (proj2 (Z.leb_le _ _)). Qed.

(** ProcessSlots rejects a target that is not in the future and otherwise always stops at
    exactly the target slot, leaving every field but the slot and the header's state root as
    it was, never touching a state root that is already set. *)
Theorem ProcessSlots_spec (s : State) (target : Z) :
  is_u64 (st_Slot s) -> is_u64 target ->
  (target <= st_Slot s ->
     ProcessSlots s target = Err (Errorf "target slot %d must be after current slot %d" [Num target; Num (st_Slot s)])) /\
  (st_Slot s < target ->
     exists r, ProcessSlots s target = Ok (set_Slot (fill_state_root s r) target) /\
       (bh_StateRoot (st_LatestBlockHeader s) <> ZeroHash -> r = bh_StateRoot (st_LatestBlockHeader s)) /\
       (bh_StateRoot (st_LatestBlockHeader s) = ZeroHash -> (State_HashTreeRoot s).1 <> ZeroHash ->
        r = (State_HashTreeRoot s).1)).
Proof. intros Hs Ht. split; [apply ProcessSlots_past|by apply ProcessSlots_run]. Qed.
End Slots.

Lemma ProcessSlots_spec_witness :
  let s := ex_state in
  ProcessSlots (HW:=toy_walker) s 5 = Ok (set_Slot (fill_state_root s (State_HashTreeRoot s).1) 5) /\
  ((5 <= st_Slot s ->
     ProcessSlots s 5 = Err (Errorf "target slot %d must be after current slot %d" [Num 5; Num (st_Slot s)])) /\
  (st_Slot s < 5 ->
     exists r, ProcessSlots s 5 = Ok (set_Slot (fill_state_root s r) 5) /\
       (bh_StateRoot (st_LatestBlockHeader s) <> ZeroHash -> r = bh_StateRoot (st_LatestBlockHeader s)) /\
       (bh_StateRoot (st_LatestBlockHeader s) = ZeroHash -> (State_HashTreeRoot s).1 <> ZeroHash ->
        r = (State_HashTreeRoot s).1))).
Proof.
  split; [vm_compute; reflexivity|].
  apply (ProcessSlots_spec (HW:=toy_walker) ex_state 5); unfold is_u64; vm_compute; split; done.
Defined.

(** * Block headers *)

Section Header.
Context {HW : HashWalker}.

(** The conditions the header is checked for. *)
Record header_accepts (s : State) (b : Block) : Prop := {
  ha_slot : b_Slot b = st_Slot s;
  ha_later : bh_Slot (st_LatestBlockHeader s) < b_Slot b;
  ha_registry : numValidators_of s <> 0;
  ha_proposer : st_Slot s mod numValidators_of s = b_ProposerIndex b;
  ha_parent : b_ParentRoot b = (BlockHeader_HashTreeRoot (st_LatestBlockHeader s)).1 }.

(** The number of slots skipped between the parent and the block. *)
Definition empty_slots (s : State) (b : Block) : nat :=
  Z.to_nat (b_Slot b - bh_Slot (st_LatestBlockHeader s) - 1).

(** The state after an accepted header; [l] is the list of justified bits before it. *)
Definition header_post (s : State) (b : Block) (l : list bool) : State :=
  let first := bh_Slot (st_LatestBlockHeader s) =? 0 in
  {| st_Config := st_Config s; st_Slot := st_Slot s;
     st_LatestBlockHeader :=
       {| bh_Slot := b_Slot b; bh_ProposerIndex := b_ProposerIndex b;
          bh_ParentRoot := b_ParentRoot b; bh_StateRoot := ZeroHash;
          bh_BodyRoot := (BlockBody_HashTreeRoot (b_Body b)).1 |};
     st_LatestJustified :=
       if first then mkCheckpoint (b_ParentRoot b) (cp_Slot (st_LatestJustified s)) else st_LatestJustified s;
     st_LatestFinalized :=
       if first then mkCheckpoint (b_ParentRoot b) (cp_Slot (st_LatestFinalized s)) else st_LatestFinalized s;
     st_HistoricalBlockHashes :=
       st_HistoricalBlockHashes s ++ b_ParentRoot b :: replicate (empty_slots s b) ZeroHash;
     st_JustifiedSlots := encode_bits (l ++ first :: replicate (empty_slots s b) false);
     st_Validators := st_Validators s;
     st_JustificationsRoots := st_JustificationsRoots s;
     st_JustificationsValidators := st_JustificationsValidators s |}.

Lemma fill_empty_slots k hashes l :
  for_range k (fun _ '(hashes, bits) => (hashes ++ [ZeroHash], AppendBit bits false)) (hashes, encode_bits l)
  = (hashes ++ replicate k ZeroHash, encode_bits (l ++ replicate k false)).
Proof.
  apply (for_range_ind (fun k st => st = (hashes ++ replicate k ZeroHash, encode_bits (l ++ replicate k false)))).
  - by rewrite !app_nil_r.
  - intros i st _ ->. rewrite AppendBit_encode. f_equal; rewrite <- app_assoc; f_equal.
    + by rewrite <- replicate_S_end.
    + by rewrite <- replicate_S_end.
Qed.

Lemma header_accepts_ok s b l :
  is_u64 (st_Slot s) -> 0 <= bh_Slot (st_LatestBlockHeader s) ->
  st_JustifiedSlots s = encode_bits l -> header_accepts s b ->
  ProcessBlockHeader s b = Ok (header_post s b l).
Proof.
  intros Hs Hh Hl [Hslot Hlater Hreg Hprop Hparent]. unfold is_u64 in Hs.
  unfold ProcessBlockHeader, fail_if, IsProposer, header_post.
  rewrite Copy_id, Hl, Hslot, Z.eqb_refl. cbn [negb].
  rewrite (proj2 (Z.leb_gt _ _)) by lia.
  rewrite (proj2 (Z.eqb_neq (numValidators_of s) 0)) by done. cbn [mbind outcome_bind].
  rewrite (proj2 (Z.eqb_eq (st_Slot s mod _) _)) by done. cbn [negb].
  destruct (BlockHeader_HashTreeRoot _) as [r e] eqn:E. simpl in Hparent.
  rewrite bool_decide_eq_true_2 by done. cbn [negb].
  rewrite (u64_small (st_Slot s - _)), u64_small by (unfold is_u64; lia).
  fold (empty_slots s b). assert (empty_slots s b = Z.to_nat (st_Slot s - bh_Slot (st_LatestBlockHeader s) - 1)) as <-
    by (unfold empty_slots; by rewrite Hslot).
  rewrite AppendBit_encode, fill_empty_slots, <- !app_assoc. cbn [app].
  destruct (BlockBody_HashTreeRoot (b_Body b)) as [br be]. by destruct (_ =? 0).
Qed.

Lemma header_ok_accepts s b s' : ProcessBlockHeader s b = Ok s' -> header_accepts s b.
Proof.
  unfold ProcessBlockHeader, fail_if, IsProposer. intros H.
  destruct (Z.eqb_spec (b_Slot b) (st_Slot s)) as [Hslot|]; [|done]. cbn [negb] in H.
  destruct (Z.leb_spec (b_Slot b) (bh_Slot (st_LatestBlockHeader s))); [done|].
  destruct (Z.eqb_spec (numValidators_of s) 0); [done|]. cbn [mbind outcome_bind] in H.
  destruct (Z.eqb_spec (st_Slot s mod numValidators_of s) (b_ProposerIndex b)); [|done]. cbn [negb] in H.
  destruct (BlockHeader_HashTreeRoot _) as [r err] eqn:E.
  case_bool_decide; [|done]. constructor; try done. by rewrite E.
Qed.

Lemma ProcessBlockHeader_iff s b l s' :
  is_u64 (st_Slot s) -> 0 <= bh_Slot (st_LatestBlockHeader s) ->
  st_JustifiedSlots s = encode_bits l ->
  ProcessBlockHeader s b = Ok s' <-> header_accepts s b /\ s' = header_post s b l.
Proof.
  intros Hs Hh Hl. split.
  - intros E. pose proof (header_ok_accepts _ _ _ E) as Ha. split; [done|].
    rewrite (header_accepts_ok s b l) in E by done. by injection E.
  - intros [Ha ->]. by apply header_accepts_ok.
Qed.

(** ProcessBlockHeader accepts a block exactly when it is for the state's slot, that slot is
    after the latest header's, the registry is not empty, the proposer is the slot's, and the
    parent root is the root of the latest header; the resulting state is then [header_post]:
    history and justified bits extended over the skipped slots, the checkpoints re-rooted on
    the first block after genesis, and a header waiting for its state root. *)
Theorem ProcessBlockHeader_spec (s : State) (b : Block) (l : list bool) :
  is_u64 (st_Slot s) -> 0 <= bh_Slot (st_LatestBlockHeader s) ->
  st_JustifiedSlots s = encode_bits l ->
  forall s', ProcessBlockHeader s b = Ok s' <-> header_accepts s b /\ s' = header_post s b l.
Proof. intros Hs Hh Hl s'. by apply ProcessBlockHeader_iff. Qed.

(** An empty registry makes the proposer check panic rather than return an error. *)
Lemma ProcessBlockHeader_empty_registry s b :
  b_Slot b = st_Slot s -> bh_Slot (st_LatestBlockHeader s) < b_Slot b -> numValidators_of s = 0 ->
  ProcessBlockHeader s b = Panic "numValidators must be > 0".
Proof.
  intros Hslot Hl Hn. unfold ProcessBlockHeader, fail_if, IsProposer.
  rewrite Hn, Hslot, Z.eqb_refl. cbn [negb]. by rewrite (proj2 (Z.leb_gt _ _)) by lia.
Qed.
End Header.

(** A block at slot 5 whose parent is the header of slot 2 of [ex_state]. *)
Definition ex_child (W : HashWalker) (s : State) (slot : Z) (sr : root) (atts : list Attestation) : Block :=
  {| b_Slot := slot; b_ProposerIndex := slot mod 4;
     b_ParentRoot := (BlockHeader_HashTreeRoot (HW:=W) (st_LatestBlockHeader s)).1;
     b_StateRoot := sr; b_Body := mkBlockBody atts |}.

Lemma ex_child_accepted :
  is_ok (ProcessBlockHeader (HW:=toy_walker) (set_Slot ex_state 5)
           (ex_child toy_walker (set_Slot ex_state 5) 5 ZeroHash [])) = true.
Proof. vm_compute. reflexivity. Qed.

Lemma ProcessBlockHeader_spec_witness :
  exists s', ProcessBlockHeader (HW:=toy_walker) (set_Slot ex_state 5)
               (ex_child toy_walker (set_Slot ex_state 5) 5 ZeroHash []) = Ok s' /\
    header_accepts (HW:=toy_walker) (set_Slot ex_state 5)
      (ex_child toy_walker (set_Slot ex_state 5) 5 ZeroHash []) /\
    s' = header_post (HW:=toy_walker) (set_Slot ex_state 5)
           (ex_child toy_walker (set_Slot ex_state 5) 5 ZeroHash []) [true; false].
Proof.
  pose proof ex_child_accepted as Hok.
  destruct (ProcessBlockHeader (HW:=toy_walker) (set_Slot ex_state 5) _) as [s'| | |] eqn:E;
    [|discriminate Hok..].
  exists s'. split; [reflexivity|].
  apply (ProcessBlockHeader_spec (HW:=toy_walker) (set_Slot ex_state 5)
           (ex_child toy_walker (set_Slot ex_state 5) 5 ZeroHash []) [true; false]); [..|exact E].
  - unfold is_u64. vm_compute. split; done.
  - vm_compute. done.
  - vm_compute. reflexivity.
Defined.
