(* ===== verification/Chain.v ===== *)
(** Chains of blocks: the invariant of the states the transition function produces, and what
    their history records.

    [wf_state] is the invariant: the history has one root per slot before the latest header,
    the justified bits follow the history, the votes are in canonical form, and the two
    checkpoints point to justified slots of the history.  [reachable] is the chain of states
    grown from a genesis state by StateTransition. *)
From S2P Require Import Prelude Slot Bitlist Types Hash Concrete GoStd VoteRule Attestations Transition.
Local Open Scope Z_scope.

(** * The invariant *)

(** A checkpoint that points to a justified slot of the history; trivial at genesis. *)
Definition anchored (s : State) (c : Checkpoint) : Prop :=
  st_HistoricalBlockHashes s <> [] ->
  slot_justified s (Z.to_nat (cp_Slot c)) /\
  st_HistoricalBlockHashes s !! Z.to_nat (cp_Slot c) = Some (cp_Root c).

Record wf_state (s : State) : Prop := {
  ws_genesis_time : is_u64 (cfg_GenesisTime (st_Config s));
  ws_slot : is_u64 (st_Slot s);
  ws_header : wf_BlockHeader (st_LatestBlockHeader s);
  ws_header_slot : bh_Slot (st_LatestBlockHeader s) <= st_Slot s;
  ws_history : Z.of_nat (length (st_HistoricalBlockHashes s)) = bh_Slot (st_LatestBlockHeader s);
  ws_validators : Forall wf_Validator (st_Validators s);
  ws_ledger : exists L, StateRep s L /\ no_quorum_open (length (st_Validators s)) L;
  ws_J : is_u64 (cp_Slot (st_LatestJustified s));
  ws_F : is_u64 (cp_Slot (st_LatestFinalized s));
  ws_J_anchored : anchored s (st_LatestJustified s);
  ws_F_anchored : anchored s (st_LatestFinalized s);
  ws_at_genesis : st_HistoricalBlockHashes s = [] ->
    cp_Slot (st_LatestJustified s) = 0 /\ cp_Slot (st_LatestFinalized s) = 0 }.

(** The registry times the chain length stays within uint64 bit positions.  The SSZ limits of
    the state, 2^12 validators and 2^18 roots, are far inside it. *)
Definition roomy (s : State) (slot : Z) : Prop :=
  Z.of_nat (length (st_Validators s)) < 2 ^ 62 /\
  slot * Z.of_nat (length (st_Validators s)) < 2 ^ 64 - 16.

Lemma ssz_limits_roomy s slot :
  Z.of_nat (length (st_Validators s)) <= ValidatorRegistryLimit ->
  0 <= slot <= HistoricalRootsLimit -> roomy s slot.
Proof.
  change ValidatorRegistryLimit with 4096. change HistoricalRootsLimit with 262144.
  intros Hv Hs. split; [lia|].
  assert (slot * Z.of_nat (length (st_Validators s)) <= 262144 * 4096)
    by (apply Z.mul_le_mono_nonneg; lia). lia.
Qed.

Section Preservation.
Context {HW : HashWalker} {MR : MapRange}.

Lemma genesis_wf t vs :
  is_u64 t -> Forall wf_Validator vs -> wf_state (GenerateGenesis t vs).
Proof.
  intros Ht Hvs. unfold GenerateGenesis.
  destruct (BlockBody_HashTreeRoot _) as [r e].
  assert (is_u64 0) by done.
  constructor; cbn; try done.
  exists (mkLedger ∅ [] (mkCheckpoint ZeroHash 0) (mkCheckpoint ZeroHash 0)).
  split; [constructor; done|]. intros r' ws Hw. cbn in Hw. by rewrite lookup_empty in Hw.
Qed.

(** Filling the state root and moving the slot forward. *)
Lemma wf_state_advance s r target :
  wf_state s -> is_u64 target -> st_Slot s <= target ->
  wf_state (set_Slot (fill_state_root s r) target).
Proof.
  intros [] Ht Hle. constructor; cbn; try done; [lia|].
  destruct ws_ledger0 as (L & [] & HQ). exists L. split; [by constructor|exact HQ].
Qed.

(** The justified bits and the history after a header. *)
Lemma header_post_rep s b L :
  wf_state s -> header_accepts s b -> StateRep s L ->
  StateRep (header_post s b (lg_justified L))
    (mkLedger (lg_votes L)
       (lg_justified L ++ (bh_Slot (st_LatestBlockHeader s) =? 0) :: replicate (empty_slots s b) false)
       (st_LatestJustified (header_post s b (lg_justified L)))
       (st_LatestFinalized (header_post s b (lg_justified L)))).
Proof.
  intros Hs Ha [Hr Hv Hb HJ HF HL]. constructor; try done.
  constructor; cbn [lg_justified lg_votes header_post st_HistoricalBlockHashes st_Validators].
  - rewrite !length_app, !length_cons, !length_replicate. by rewrite (wl_bits _ _ _ HL).
  - intros r vs Hl. destruct (wl_votes _ _ _ HL _ _ Hl) as [Hlen Hin].
    split; [done|]. apply elem_of_app. by left.
Qed.

Lemma header_slot_zero s :
  wf_state s -> bh_Slot (st_LatestBlockHeader s) = 0 <-> st_HistoricalBlockHashes s = [].
Proof.
  intros Hs. pose proof (ws_history _ Hs). split.
  - intros H0. apply length_zero_iff_nil. lia.
  - intros E. rewrite E in *. simpl in *. lia.
Qed.

(** A checkpoint of the pre-state, re-rooted when the block is the first one. *)
Definition reroot (s : State) (b : Block) (c : Checkpoint) : Checkpoint :=
  if bh_Slot (st_LatestBlockHeader s) =? 0 then mkCheckpoint (b_ParentRoot b) (cp_Slot c) else c.

Lemma header_post_anchored s b L c :
  wf_state s -> header_accepts s b -> StateRep s L ->
  anchored s c -> (st_HistoricalBlockHashes s = [] -> cp_Slot c = 0) ->
  anchored (header_post s b (lg_justified L)) (reroot s b c).
Proof.
  intros Hs Ha HR Hc H0 _. unfold reroot.
  rewrite (slot_justified_rep _ _ _ (header_post_rep _ _ _ Hs Ha HR)).
  cbn [lg_justified header_post st_HistoricalBlockHashes].
  pose proof (wl_bits _ _ _ (sr_wf _ _ HR)) as Hlen.
  destruct (Z.eqb_spec (bh_Slot (st_LatestBlockHeader s)) 0) as [E|E].
  - apply header_slot_zero in E as Enil; [|done]. rewrite Enil in *. simpl in Hlen.
    apply length_zero_iff_nil in Hlen as ->. cbn [cp_Slot cp_Root]. by rewrite H0.
  - rewrite header_slot_zero in E by done. destruct (Hc E) as [Hj Hh].
    rewrite (slot_justified_rep _ _ _ HR) in Hj. split; [by apply lookup_app_l_Some|].
    by apply lookup_app_l_Some.
Qed.

Lemma header_post_wf s b L :
  wf_state s -> wf_Block b -> header_accepts s b -> StateRep s L -> no_quorum_open (length (st_Validators s)) L ->
  wf_state (header_post s b (lg_justified L)).
Proof.
  intros Hs (Hbs & Hbp & _) Ha HR HQ. pose proof Ha as [Hslot Hlater _ _ _].
  constructor; try apply Hs; cbn [header_post st_LatestBlockHeader bh_Slot st_Slot].
  - by split.
  - lia.
  - cbn [st_HistoricalBlockHashes header_post]. rewrite length_app, length_cons, length_replicate.
    pose proof (ws_history _ Hs). unfold empty_slots. lia.
  - eexists. split; [by apply header_post_rep|exact HQ].
  - cbn [st_LatestJustified header_post]. case_match; apply Hs.
  - cbn [st_LatestFinalized header_post]. case_match; apply Hs.
  - apply (header_post_anchored s b L); try done; [apply Hs|]. intros E. by apply (ws_at_genesis _ Hs).
  - apply (header_post_anchored s b L); try done; [apply Hs|]. intros E. by apply (ws_at_genesis _ Hs).
  - intros E. by apply app_nil in E as [_ ?].
Qed.

(** What a block's votes leave of the invariant's ingredients. *)
Lemma votes_checkpoint s s' L L' atts c c' :
  vote_run (length (st_Validators s)) (st_HistoricalBlockHashes s) (cp_Slot (st_LatestFinalized s)) L atts L' ->
  StateRep s L -> StateRep s' L' -> same_frame s s' -> Forall wf_Attestation atts ->
  is_u64 (cp_Slot c) -> anchored s c -> (st_HistoricalBlockHashes s = [] -> cp_Slot c = 0) ->
  (c' = c \/ exists a, a ∈ atts /\ (c' = ad_Target (att_Data a) \/ c' = ad_Source (att_Data a)) /\
     lg_justified L' !! Z.to_nat (cp_Slot c') = Some true /\
     st_HistoricalBlockHashes s !! Z.to_nat (cp_Slot c') = Some (cp_Root c')) ->
  is_u64 (cp_Slot c') /\ anchored s' c' /\ (st_HistoricalBlockHashes s' = [] -> cp_Slot c' = 0).
Proof.
  intros Hrun HR HR' (_ & _ & _ & Hhist & _) Hatts Hc Ha H0 [->|(a & Hin & Hca & Hj & Hh)].
  - split; [done|]. split; [|by rewrite Hhist]. intros Hne. rewrite Hhist in *.
    destruct (Ha Hne) as [Hj Hh]. split; [|done]. rewrite (slot_justified_rep _ _ _ HR').
    rewrite (slot_justified_rep _ _ _ HR) in Hj. by eapply vote_run_justified_mono.
  - split; [|split].
    + rewrite list.Forall_forall in Hatts. destruct (Hatts a Hin) as (_ & _ & _ & Ht & Hs).
      by destruct Hca as [->| ->].
    + intros _. rewrite (slot_justified_rep _ _ _ HR'), Hhist. done.
    + intros E. rewrite Hhist in E. rewrite E, lookup_nil in Hh. done.
Qed.

Lemma ProcessAttestations_wf s atts :
  wf_state s -> in_capacity s -> Forall wf_Attestation atts ->
  exists s', ProcessAttestations s atts = Ok s' /\ wf_state s' /\ same_frame s s' /\
    cp_Slot (st_LatestFinalized s) <= cp_Slot (st_LatestFinalized s').
Proof.
  intros Hs Hcap Hatts. destruct (ws_ledger _ Hs) as (L & HR & HQ).
  destruct (ProcessAttestations_run s L atts HR Hcap Hatts) as (s' & L' & E & Hrun & HR' & Hfr).
  exists s'. split; [done|].
  assert (HFj : st_HistoricalBlockHashes s <> [] ->
    lg_justified L !! Z.to_nat (cp_Slot (st_LatestFinalized s)) = Some true).
  { intros Hne. rewrite <- (slot_justified_rep _ _ _ HR). by apply (ws_F_anchored _ Hs). }
  pose proof (vote_run_finalized _ _ _ _ _ _ Hrun (ws_F _ Hs) (sr_wf _ _ HR) HFj) as HF.
  pose proof (vote_run_latest _ _ _ _ _ _ Hrun (sr_wf _ _ HR)) as HJ.
  rewrite <- (sr_F _ _ HR), <- (sr_F _ _ HR') in HF. rewrite <- (sr_J _ _ HR), <- (sr_J _ _ HR') in HJ.
  destruct (votes_checkpoint s s' L L' atts (st_LatestFinalized s) (st_LatestFinalized s'))
    as (HF1 & HF2 & HF3); [done..|apply ws_F, Hs|apply ws_F_anchored, Hs
      |intros En; by apply (ws_at_genesis _ Hs)| |].
  { destruct HF as [|(a & Ha & Ea & _ & Hrest)]; [by left|]. right. exists a. rewrite Ea. auto. }
  destruct (votes_checkpoint s s' L L' atts (st_LatestJustified s) (st_LatestJustified s'))
    as (HJ1 & HJ2 & HJ3); [done..|apply ws_J, Hs|apply ws_J_anchored, Hs
      |intros En; by apply (ws_at_genesis _ Hs)| |].
  { destruct HJ as [|(a & Ha & Ea & Hrest)]; [by left|]. right. exists a. rewrite Ea. auto. }
  pose proof Hfr as (Hcfg & Hslot & Hhdr & Hhist & Hvals).
  split; [|split; [done|]].
  - constructor; try done; rewrite ?Hcfg, ?Hslot, ?Hhdr, ?Hhist, ?Hvals; try apply Hs.
    + exists L'. split; [done|]. by eapply run_no_quorum.
    + intros En. split; [apply HJ3|apply HF3]; by rewrite Hhist.
  - destruct HF as [->|(a & _ & Ea & Hge & _)]; [lia|]. pose proof (ws_F _ Hs) as Hu.
    rewrite Ea in *. unfold src_slot, is_u64 in *. lia.
Qed.
End Preservation.

(** * The state transition *)

Section Transition.
Context {HW : HashWalker} {MR : MapRange}.

(** What an accepted block does to the state; [r] is the state root the header of [s] is
    completed with. *)
Record accepted (s : State) (b : Block) (r : root) (s' : State) : Prop := {
  ac_slot : st_Slot s < b_Slot b;
  ac_root : (bh_StateRoot (st_LatestBlockHeader s) <> ZeroHash ->
              r = bh_StateRoot (st_LatestBlockHeader s)) /\
            (bh_StateRoot (st_LatestBlockHeader s) = ZeroHash ->
             (State_HashTreeRoot s).1 <> ZeroHash -> r = (State_HashTreeRoot s).1);
  ac_parent : b_ParentRoot b = (BlockHeader_HashTreeRoot (set_StateRoot (st_LatestBlockHeader s) r)).1;
  ac_registry : numValidators_of s <> 0;
  ac_proposer : b_Slot b mod numValidators_of s = b_ProposerIndex b;
  ac_post_slot : st_Slot s' = b_Slot b;
  ac_header : st_LatestBlockHeader s' =
    set_StateRoot (header_of_block b (BlockBody_HashTreeRoot (b_Body b)).1) ZeroHash;
  ac_history : st_HistoricalBlockHashes s' =
    st_HistoricalBlockHashes s ++ b_ParentRoot b ::
      replicate (Z.to_nat (b_Slot b - bh_Slot (st_LatestBlockHeader s) - 1)) ZeroHash;
  ac_validators : st_Validators s' = st_Validators s;
  ac_config : st_Config s' = st_Config s;
  ac_state_root : (State_HashTreeRoot s').1 = b_StateRoot b;
  ac_finalized : cp_Slot (st_LatestFinalized s) <= cp_Slot (st_LatestFinalized s') }.

Lemma header_post_capacity s b l :
  wf_state s -> b_Slot b = st_Slot s -> bh_Slot (st_LatestBlockHeader s) < b_Slot b ->
  roomy s (b_Slot b) -> in_capacity (header_post s b l).
Proof.
  intros Hs Hslot Hlt [Hv Hr]. pose proof (ws_history _ Hs) as Hh.
  split; cbn [header_post st_Validators st_HistoricalBlockHashes]; [done|].
  rewrite length_app, length_cons, length_replicate, Nat2Z.inj_mul.
  eapply Z.le_lt_trans; [|exact Hr]. apply Z.mul_le_mono_nonneg_r; [lia|]. unfold empty_slots. lia.
Qed.

(** ProcessBlock on a state at the block's slot: no panic, no divergence, and its result. *)
Lemma ApplyBlock_run s b :
  wf_state s -> wf_Block b -> numValidators_of s <> 0 -> roomy s (b_Slot b) ->
  total (ProcessBlock s b)
    (fun s' => wf_state s' /\ header_accepts s b /\
       exists l, same_frame (header_post s b l) s' /\
         cp_Slot (st_LatestFinalized s) <= cp_Slot (st_LatestFinalized s'))
    (fun _ => ~ header_accepts s b).
Proof.
  intros Hs Hb Hn Hroom. destruct (ws_ledger _ Hs) as (L & HR & HQ).
  assert (Hh0 : 0 <= bh_Slot (st_LatestBlockHeader s)) by apply (ws_header _ Hs).
  unfold ProcessBlock.
  destruct (ProcessBlockHeader s b) as [s1|e|w|] eqn:E; cbn [mbind outcome_bind total].
  - apply (ProcessBlockHeader_iff s b (lg_justified L)) in E as [Ha ->]; [|apply Hs|done|apply HR].
    destruct (ProcessAttestations_wf (header_post s b (lg_justified L)) (bb_Attestations (b_Body b)))
      as (s' & E & Hs' & Hfr & HF).
    + by apply header_post_wf.
    + apply header_post_capacity; try done; apply Ha.
    + apply Hb.
    + rewrite E. cbn [total]. split; [done|]. split; [done|]. exists (lg_justified L).
      split; [done|]. etrans; [|exact HF]. cbn [header_post st_LatestFinalized]. by case_match.
  - intros Ha. by rewrite (header_accepts_ok s b (lg_justified L)) in E by (done || apply Hs || apply HR).
  - revert E. unfold ProcessBlockHeader, fail_if, IsProposer.
    rewrite (proj2 (Z.eqb_neq (numValidators_of s) 0)) by done.
    destruct (BlockHeader_HashTreeRoot _), (BlockBody_HashTreeRoot _). cbn [mbind outcome_bind].
    repeat case_match; done.
  - revert E. unfold ProcessBlockHeader, fail_if, IsProposer.
    rewrite (proj2 (Z.eqb_neq (numValidators_of s) 0)) by done.
    destruct (BlockHeader_HashTreeRoot _), (BlockBody_HashTreeRoot _). cbn [mbind outcome_bind].
    repeat case_match; done.
Qed.

Lemma StateTransition_run s b :
  wf_state s -> wf_Block b -> numValidators_of s <> 0 -> roomy s (b_Slot b) ->
  total (StateTransition s b)
    (fun s' => wf_state s' /\ exists r, accepted s b r s') (fun _ => True).
Proof.
  intros Hs Hb Hn Hroom. unfold StateTransition.
  destruct (Z.le_gt_cases (b_Slot b) (st_Slot s)) as [Hle|Hlt]; [by rewrite ProcessSlots_past|].
  destruct (ProcessSlots_run s (b_Slot b)) as (r & -> & Hr); [apply Hs|apply Hb|done|].
  cbn [map_err mbind outcome_bind]. set (s1 := set_Slot _ _).
  pose proof (ApplyBlock_run s1 b) as HB. destruct (ProcessBlock s1 b) as [s'|e|w|];
    cbn [total map_err mbind outcome_bind] in *; try done.
  2, 3: apply HB; try done; apply wf_state_advance; [done|apply Hb|lia].
  destruct HB as (Hs' & [Ha1 Ha2 Ha3 Ha4 Ha5] & l & (Hcfg & Hslot & Hhdr & Hhist & Hvals) & HF); try done.
  { apply wf_state_advance; [done|apply Hb|lia]. }
  destruct (State_HashTreeRoot s') as [root err] eqn:E. unfold fail_if.
  case_bool_decide as Hroot; cbn [negb total]; [|done].
  split; [done|]. exists r. constructor; try done; by rewrite E.
Qed.
End Transition.

(** * Chains from a genesis state *)

Section Chains.
Context {HW : HashWalker} {MR : MapRange}.

(** The states reached from [g], with the blocks that led there, latest first. *)
Inductive reachable (g : State) : list Block -> State -> Prop :=
| reach_genesis : reachable g [] g
| reach_block bs s b s' :
    reachable g bs s -> wf_Block b -> roomy s (b_Slot b) ->
    StateTransition s b = Ok s' -> reachable g (b :: bs) s'.

Lemma reachable_inv g bs s :
  wf_state g -> numValidators_of g <> 0 -> reachable g bs s ->
  wf_state s /\ st_Validators s = st_Validators g /\ st_Config s = st_Config g /\
  cp_Slot (st_LatestFinalized g) <= cp_Slot (st_LatestFinalized s).
Proof.
  intros Hg Hn. induction 1 as [|bs s b s' Hr IH Hb Hroom E]; [split_and!; done|].
  destruct IH as (Hs & Hv & Hc & HF).
  assert (numValidators_of s <> 0) by (unfold numValidators_of in *; by rewrite Hv).
  pose proof (StateTransition_run s b Hs Hb ltac:(done) Hroom) as HT. rewrite E in HT.
  destruct HT as (Hs' & r & Ha). split; [done|]. rewrite (ac_validators _ _ _ _ Ha), (ac_config _ _ _ _ Ha).
  split_and!; try done. etrans; [done|]. apply Ha.
Qed.

Lemma reachable_accepted g bs s b s' :
  wf_state g -> numValidators_of g <> 0 -> reachable g bs s -> wf_Block b -> roomy s (b_Slot b) ->
  StateTransition s b = Ok s' -> exists r, accepted s b r s'.
Proof.
  intros Hg Hn Hr Hb Hroom E. destruct (reachable_inv _ _ _ Hg Hn Hr) as (Hs & Hv & _).
  pose proof (StateTransition_run s b Hs Hb) as HT. rewrite E in HT. apply HT; [|done].
  unfold numValidators_of in *. by rewrite Hv.
Qed.

(** The root a chain is extended from, and the slot it was last extended at. *)
Definition tip_root (g : State) (bs : list Block) : root :=
  match bs with
  | [] => (BlockHeader_HashTreeRoot (set_StateRoot (st_LatestBlockHeader g) (State_HashTreeRoot g).1)).1
  | b :: _ => (Block_HashTreeRoot b).1
  end.
Definition tip_slot (bs : list Block) : Z :=
  match bs with [] => 0 | b :: _ => b_Slot b end.

(** The history a chain of blocks should have: the root of each block at its slot, the zero
    hash at the slots without a block. *)
Fixpoint history_of (g : State) (bs : list Block) : list root :=
  match bs with
  | [] => []
  | b :: bs' => history_of g bs' ++ tip_root g bs' ::
                  replicate (Z.to_nat (b_Slot b - tip_slot bs' - 1)) ZeroHash
  end.

(** Blocks whose roots are defined: the body is within its limits, the state root is not the
    zero hash. *)
Definition rooted (b : Block) : Prop :=
  (BlockBody_HashTreeRoot (b_Body b)).2 = None /\ b_StateRoot b <> ZeroHash.

Lemma reachable_tip {HWL : HashWalkerLaws HW} g bs s :
  wf_state g -> numValidators_of g <> 0 -> reachable g bs s ->
  bh_Slot (st_LatestBlockHeader g) = 0 -> st_HistoricalBlockHashes g = [] ->
  bh_StateRoot (st_LatestBlockHeader g) = ZeroHash -> (State_HashTreeRoot g).1 <> ZeroHash ->
  Forall rooted bs ->
  st_HistoricalBlockHashes s = history_of g bs /\
  bh_Slot (st_LatestBlockHeader s) = tip_slot bs /\
  bh_StateRoot (st_LatestBlockHeader s) = ZeroHash /\ (State_HashTreeRoot s).1 <> ZeroHash /\
  (BlockHeader_HashTreeRoot (set_StateRoot (st_LatestBlockHeader s) (State_HashTreeRoot s).1)).1
    = tip_root g bs.
Proof.
  intros Hg Hn Hr Hg0 Hgh Hgz Hgr. induction Hr as [|bs s b s' Hr IH Hb Hroom E]; intros HF.
  { split_and!; done. }
  apply list.Forall_cons in HF as [[Hbody Hsr] HF]. destruct (IH HF) as (Hh & Hslot & Hz & Hne & Htip).
  destruct (reachable_accepted _ _ _ _ _ Hg Hn Hr Hb Hroom E) as [r Ha].
  assert (r = (State_HashTreeRoot s).1) as -> by (apply (ac_root _ _ _ _ Ha); done).
  pose proof (ac_state_root _ _ _ _ Ha) as Hroot. rewrite Hroot.
  rewrite (ac_history _ _ _ _ Ha), (ac_header _ _ _ _ Ha), Hh, Hslot, (ac_parent _ _ _ _ Ha), Htip.
  split_and!; try done. cbn [tip_root].
  destruct (BlockBody_HashTreeRoot (b_Body b)) as [br e] eqn:EB. simpl in Hbody. subst e.
  by rewrite <- (header_root_block_root b br EB).
Qed.

(** A genesis state of the client satisfies what [reachable_tip] asks of the root of a chain. *)
Lemma genesis_start t vs :
  let g := GenerateGenesis t vs in
  bh_Slot (st_LatestBlockHeader g) = 0 /\ st_HistoricalBlockHashes g = [] /\
  bh_StateRoot (st_LatestBlockHeader g) = ZeroHash /\ st_Validators g = vs.
Proof. unfold GenerateGenesis. by destruct (BlockBody_HashTreeRoot _). Qed.

Lemma GenerateGenesis_numValidators t vs :
  0 < Z.of_nat (length vs) < 2 ^ 62 -> numValidators_of (GenerateGenesis t vs) <> 0.
Proof.
  intros Hv. unfold numValidators_of. destruct (genesis_start t vs) as (_ & _ & _ & ->).
  rewrite u64_small by (unfold is_u64; lia). lia.
Qed.
End Chains.

(** * A concrete chain *)

Section Example.
#[local] Existing Instance toy_walker.
#[local] Existing Instance canonical_range.

Definition ex_genesis : State := GenerateGenesis 1000 (ex_validators 3).

(** The block a proposer would build on [s]: the parent root and the state root computed. *)
Definition ex_block (s : State) (slot : Z) (atts : list Attestation) : Block :=
  let draft sr := {| b_Slot := slot; b_ProposerIndex := slot mod 3;
     b_ParentRoot := match ProcessSlots s slot with
                     | Ok s1 => (BlockHeader_HashTreeRoot (st_LatestBlockHeader s1)).1
                     | _ => ZeroHash end;
     b_StateRoot := sr; b_Body := mkBlockBody atts |} in
  draft (match ProcessSlots s slot ≫= fun s1 => ProcessBlock s1 (draft ZeroHash) with
         | Ok s2 => (State_HashTreeRoot s2).1
         | _ => ZeroHash end).
Definition ex_next (s : State) (b : Block) : State :=
  match StateTransition s b with Ok s' => s' | _ => s end.
Definition ex_att (v : Z) (src tgt : Checkpoint) : Attestation :=
  mkAttestation v (mkAttestationData (cp_Slot tgt) tgt tgt src).

(** Slot 1, with a block on it; then slot 2, with two votes for the block of slot 1. *)
Definition ex_b1 : Block := Eval vm_compute in ex_block ex_genesis 1 [].
Definition ex_s1 : State := Eval vm_compute in ex_next ex_genesis ex_b1.
Definition ex_cp0 : Checkpoint := Eval vm_compute in mkCheckpoint (b_ParentRoot ex_b1) 0.
Definition ex_cp1 : Checkpoint := Eval vm_compute in mkCheckpoint (Block_HashTreeRoot ex_b1).1 1.
Definition ex_b2 : Block := Eval vm_compute in ex_block ex_s1 2 [ex_att 0 ex_cp0 ex_cp1; ex_att 2 ex_cp0 ex_cp1].
Definition ex_s2 : State := Eval vm_compute in ex_next ex_s1 ex_b2.
End Example.

(** * The properties *)

Section Properties.
Context {HW : HashWalker} {MR : MapRange}.

(** On a well-formed state with a registry, StateTransition always returns: a state or an
    error, never a panic and never an endless loop, whatever the block. *)
Theorem StateTransition_total (s : State) (b : Block) :
  wf_state s -> wf_Block b -> numValidators_of s <> 0 -> roomy s (b_Slot b) ->
  (exists s', StateTransition s b = Ok s') \/ (exists e, StateTransition s b = Err e).
Proof.
  intros Hs Hb Hn Hr. pose proof (StateTransition_run s b Hs Hb Hn Hr) as H.
  destruct (StateTransition s b); [left; eauto|right; eauto|done|done].
Qed.

(** C26: the state invariant is preserved: a genesis state satisfies it, and every block the
    transition function accepts leads from a well-formed state to a well-formed state. *)
Theorem wf_state_invariant (t : Z) (vs : list Validator) :
  is_u64 t -> Forall wf_Validator vs ->
  wf_state (GenerateGenesis t vs) /\
  forall s b s', wf_state s -> wf_Block b -> numValidators_of s <> 0 -> roomy s (b_Slot b) ->
    StateTransition s b = Ok s' -> wf_state s'.
Proof.
  intros Ht Hvs. split; [by apply genesis_wf|]. intros s b s' Hs Hb Hn Hr E.
  pose proof (StateTransition_run s b Hs Hb Hn Hr) as H. rewrite E in H. apply H.
Qed.

(** C10: an accepted block is in the future of the state, proposed by the validator of its slot,
    a child of the latest header completed with its state root, and commits to the root of
    the state it leads to; that state has the block's slot and header, the history extended
    by the parent and a zero hash per skipped slot, the same registry, and a finalized
    checkpoint that has not moved back. *)
Theorem StateTransition_accepted (s : State) (b : Block) (s' : State) :
  wf_state s -> wf_Block b -> numValidators_of s <> 0 -> roomy s (b_Slot b) ->
  StateTransition s b = Ok s' -> exists r, accepted s b r s'.
Proof.
  intros Hs Hb Hn Hr E. pose proof (StateTransition_run s b Hs Hb Hn Hr) as H.
  rewrite E in H. apply H.
Qed.

(** Along any chain grown from a well-formed state the finalized slot never decreases and
    the registry never changes. *)
Theorem chain_finality_monotone (g : State) (bs : list Block) (s : State) :
  wf_state g -> numValidators_of g <> 0 -> reachable g bs s ->
  cp_Slot (st_LatestFinalized g) <= cp_Slot (st_LatestFinalized s) /\
  st_Validators s = st_Validators g.
Proof. intros Hg Hn Hr. by destruct (reachable_inv _ _ _ Hg Hn Hr) as (_ & ? & _ & ?). Qed.

(** C28: the historical block hashes of a state reached from genesis are exactly the chain that
    led to it: at the slot of each block its root, at slot 0 the root of the genesis header,
    and the zero hash at every skipped slot. *)
Theorem chain_history {HWL : HashWalkerLaws HW} (t : Z) (vs : list Validator) (bs : list Block) (s : State) :
  let g := GenerateGenesis t vs in
  is_u64 t -> Forall wf_Validator vs -> 0 < Z.of_nat (length vs) < 2 ^ 62 ->
  (State_HashTreeRoot g).1 <> ZeroHash -> Forall rooted bs -> reachable g bs s ->
  st_HistoricalBlockHashes s = history_of g bs.
Proof.
  intros g Ht Hvs Hn Hg Hbs Hr. destruct (genesis_start t vs) as (H1 & H2 & H3 & H4).
  by apply (reachable_tip g bs s); try done; [apply genesis_wf|apply GenerateGenesis_numValidators].
Qed.

(** Blocks of a chain are linked: the parent root of an accepted block is the hash tree root
    of the block before it, whatever the number of slots skipped in between. *)
Theorem chain_linked {HWL : HashWalkerLaws HW} (t : Z) (vs : list Validator)
    (bs : list Block) (s s' : State) (parent child : Block) :
  let g := GenerateGenesis t vs in
  is_u64 t -> Forall wf_Validator vs -> 0 < Z.of_nat (length vs) < 2 ^ 62 ->
  (State_HashTreeRoot g).1 <> ZeroHash -> Forall rooted (parent :: bs) ->
  reachable g (parent :: bs) s -> wf_Block child -> roomy s (b_Slot child) ->
  StateTransition s child = Ok s' ->
  b_Slot parent < b_Slot child /\ b_ParentRoot child = (Block_HashTreeRoot parent).1.
Proof.
  intros g Ht Hvs Hn Hg Hbs Hr Hc Hroom E. destruct (genesis_start t vs) as (H1 & H2 & H3 & H4).
  assert (Hwf : wf_state g) by by apply genesis_wf.
  assert (Hnum : numValidators_of g <> 0) by by apply GenerateGenesis_numValidators.
  destruct (reachable_tip g (parent :: bs) s) as (_ & Hslot & Hz & Hne & Htip); try done.
  destruct (reachable_accepted _ _ _ _ _ Hwf Hnum Hr Hc Hroom E) as [r Ha].
  destruct (reachable_inv _ _ _ Hwf Hnum Hr) as [Hs _].
  pose proof (ws_header_slot _ Hs). pose proof (ac_slot _ _ _ _ Ha). cbn [tip_slot] in Hslot.
  split; [lia|]. rewrite (ac_parent _ _ _ _ Ha).
  by rewrite (proj2 (ac_root _ _ _ _ Ha) Hz Hne).
Qed.
End Properties.

(** ** Witnesses on the concrete chain *)

Lemma ex_genesis_wf : wf_state ex_genesis.
Proof. apply genesis_wf; [done|]. repeat constructor; done. Qed.
Lemma ex_b1_wf : wf_Block ex_b1.
Proof. split_and!; [split; done..|constructor]. Qed.
Lemma ex_t1 : @StateTransition toy_walker canonical_range ex_genesis ex_b1 = Ok ex_s1.
Proof. vm_compute. reflexivity. Qed.
Lemma ex_b2_wf : wf_Block ex_b2.
Proof. split_and!; [split; vm_compute; done..|]. repeat constructor; vm_compute; done. Qed.
Lemma ex_t2 : @StateTransition toy_walker canonical_range ex_s1 ex_b2 = Ok ex_s2.
Proof. vm_compute. reflexivity. Qed.
Lemma ex_roomy_g slot : 0 <= slot < 1000 -> roomy ex_genesis slot.
Proof. split; [vm_compute; reflexivity|]. change (length (st_Validators ex_genesis)) with 3%nat. lia. Qed.
Lemma ex_s1_validators : length (st_Validators ex_s1) = 3%nat.
Proof. vm_compute. reflexivity. Qed.
Lemma ex_roomy_1 slot : 0 <= slot < 1000 -> roomy ex_s1 slot.
Proof. split; rewrite ex_s1_validators; lia. Qed.
Lemma ex_reach1 : @reachable toy_walker canonical_range ex_genesis [ex_b1] ex_s1.
Proof.
  econstructor; [constructor|apply ex_b1_wf|apply ex_roomy_g; vm_compute; done|apply ex_t1].
Qed.
Lemma ex_reach2 : @reachable toy_walker canonical_range ex_genesis [ex_b2; ex_b1] ex_s2.
Proof.
  econstructor; [apply ex_reach1|apply ex_b2_wf|apply ex_roomy_1; vm_compute; done|apply ex_t2].
Qed.
Lemma ex_rooted : Forall (rooted (HW:=toy_walker)) [ex_b2; ex_b1].
Proof. repeat constructor; vm_compute; done. Qed.

Lemma StateTransition_total_witness :
  (exists s', @StateTransition toy_walker canonical_range ex_genesis ex_b1 = Ok s') \/
  (exists e, @StateTransition toy_walker canonical_range ex_genesis ex_b1 = Err e).
Proof.
  apply (@StateTransition_total toy_walker canonical_range ex_genesis ex_b1 ex_genesis_wf ex_b1_wf).
  - vm_compute. done.
  - apply ex_roomy_g. vm_compute. done.
Defined.

Lemma wf_state_invariant_witness : wf_state ex_genesis /\ wf_state ex_s1.
Proof.
  destruct (@wf_state_invariant toy_walker canonical_range 1000 (ex_validators 3)) as [Hg Hstep];
    [done|repeat constructor; done|].
  split; [exact Hg|]. apply (Hstep ex_genesis ex_b1); try assumption.
  - apply ex_b1_wf.
  - vm_compute. done.
  - apply ex_roomy_g. vm_compute. done.
  - apply ex_t1.
Defined.

Lemma StateTransition_accepted_witness : exists r, accepted (HW:=toy_walker) ex_genesis ex_b1 r ex_s1.
Proof.
  apply (@StateTransition_accepted toy_walker canonical_range ex_genesis ex_b1 ex_s1 ex_genesis_wf ex_b1_wf).
  - vm_compute. done.
  - apply ex_roomy_g. vm_compute. done.
  - apply ex_t1.
Defined.

Lemma chain_finality_monotone_witness :
  cp_Slot (st_LatestFinalized ex_genesis) <= cp_Slot (st_LatestFinalized ex_s2) /\
  st_Validators ex_s2 = st_Validators ex_genesis.
Proof.
  apply (@chain_finality_monotone toy_walker canonical_range ex_genesis [ex_b2; ex_b1] ex_s2 ex_genesis_wf).
  - vm_compute. done.
  - apply ex_reach2.
Defined.

Lemma chain_history_witness :
  st_HistoricalBlockHashes ex_s2 = history_of (HW:=toy_walker) ex_genesis [ex_b2; ex_b1].
Proof.
  apply (@chain_history toy_walker canonical_range toy_walker_laws 1000 (ex_validators 3)).
  - done.
  - repeat constructor; done.
  - vm_compute. done.
  - vm_compute. done.
  - apply ex_rooted.
  - apply ex_reach2.
Defined.

Lemma chain_linked_witness :
  b_Slot ex_b1 < b_Slot ex_b2 /\ b_ParentRoot ex_b2 = (Block_HashTreeRoot (HW:=toy_walker) ex_b1).1.
Proof.
  apply (@chain_linked toy_walker canonical_range toy_walker_laws 1000 (ex_validators 3) [] ex_s1 ex_s2).
  - done.
  - repeat constructor; done.
  - vm_compute. done.
  - vm_compute. done.
  - repeat constructor; vm_compute; done.
  - apply ex_reach1.
  - apply ex_b2_wf.
  - apply ex_roomy_1. vm_compute. done.
  - apply ex_t2.
Defined.

(** ** Two behaviours of the vote rule, on concrete chains *)

(** The block of slot 2 skips slot 1; its votes have slot 1 and the zero hash as their target. *)
Definition ex_skip : Block :=
  Eval vm_compute in ex_block ex_genesis 2
    [ex_att 0 ex_cp0 (mkCheckpoint ZeroHash 1); ex_att 2 ex_cp0 (mkCheckpoint ZeroHash 1)].

(** a slot without a block can be justified: two thirds of the registry voting for the zero
    hash at a skipped slot make it the latest justified checkpoint, and no block has that
    root. *)
Theorem empty_slot_justified :
  exists s', @StateTransition toy_walker canonical_range ex_genesis ex_skip = Ok s' /\
    st_LatestJustified s' = mkCheckpoint ZeroHash 1 /\ slot_justified s' 1.
Proof.
  exists (ex_next ex_genesis ex_skip).
  split; [vm_compute; reflexivity|]. split; [vm_compute; reflexivity|split; vm_compute; reflexivity].
Qed.

(** Slots 1 and 2 with blocks; the block of slot 3 justifies slot 2, that of slot 4 slot 1. *)
Definition ex_c2 : Block := Eval vm_compute in ex_block ex_s1 2 [].
Definition ex_d2 : State := Eval vm_compute in ex_next ex_s1 ex_c2.
Definition ex_cp2 : Checkpoint := Eval vm_compute in mkCheckpoint (Block_HashTreeRoot (HW:=toy_walker) ex_c2).1 2.
Definition ex_c3 : Block := Eval vm_compute in ex_block ex_d2 3 [ex_att 0 ex_cp0 ex_cp2; ex_att 1 ex_cp0 ex_cp2].
Definition ex_d3 : State := Eval vm_compute in ex_next ex_d2 ex_c3.
Definition ex_c4 : Block := Eval vm_compute in ex_block ex_d3 4 [ex_att 0 ex_cp0 ex_cp1; ex_att 1 ex_cp0 ex_cp1].
Definition ex_d4 : State := Eval vm_compute in ex_next ex_d3 ex_c4.

Lemma ex_reach_d3 : @reachable toy_walker canonical_range ex_genesis [ex_c3; ex_c2; ex_b1] ex_d3.
Proof.
  assert (Hv : length (st_Validators ex_d2) = 3%nat) by (vm_compute; reflexivity).
  assert (H2 : wf_Block ex_c2) by (split_and!; [split; vm_compute; done..|constructor]).
  assert (H3 : wf_Block ex_c3)
    by (split_and!; [split; vm_compute; done..|]; repeat constructor; vm_compute; done).
  assert (Hr2 : @reachable toy_walker canonical_range ex_genesis [ex_c2; ex_b1] ex_d2).
  { apply (reach_block ex_genesis [ex_b1] ex_s1 ex_c2 ex_d2); [apply ex_reach1|exact H2|..].
    - apply ex_roomy_1. split; vm_compute; [discriminate|reflexivity].
    - vm_compute. reflexivity. }
  apply (reach_block ex_genesis [ex_c2; ex_b1] ex_d2 ex_c3 ex_d3); [exact Hr2|exact H3|..].
  - split; rewrite Hv; vm_compute; reflexivity.
  - vm_compute. reflexivity.
Qed.

(** The latest justified checkpoint of the state, unlike the finalized one, can go back: it is
    the last one justified, not the one of the highest slot, so late votes for an older target
    lower it although the younger slot stays justified. *)
Theorem latest_justified_regresses :
  exists s s' b, @StateTransition toy_walker canonical_range s b = Ok s' /\
    (exists bs, @reachable toy_walker canonical_range ex_genesis bs s) /\
    cp_Slot (st_LatestJustified s) = 2 /\ cp_Slot (st_LatestJustified s') = 1 /\
    slot_justified s' 2 /\ slot_justified s' 1.
Proof.
  exists ex_d3, ex_d4, ex_c4. split; [vm_compute; reflexivity|].
  split; [exists [ex_c3; ex_c2; ex_b1]; apply ex_reach_d3|].
  split; [vm_compute; reflexivity|]. split; [vm_compute; reflexivity|].
  split; split; vm_compute; reflexivity.
Qed.
