(* ===== verification/Finality.v ===== *)
(** Finality across forks: what two chains grown from one genesis can disagree on, and who is to
    blame.

    [accounted] traces every bit of a state back to votes in the blocks of its chain, through the
    step relation of VoteRule.v and the transition function of Transition.v.  Two chains are then
    compared by the intersection of their quorums: they justify different blocks at one slot, or
    one passes a supermajority link of the other, only if a third of the validators committed an
    [offence].  The last part is about what the code finalizes: votes for one target count
    together whatever their sources, so a checkpoint can be finalized by a single vote. *)
From S2P Require Import Prelude Slot Bitlist Types Hash Concrete GoStd VoteRule Attestations Transition Chain.
Local Open Scope Z_scope.

(** * Votes that counted *)

Section Accounts.
Context (n : nat).

(** The vote [a] is one the rule accepts on the history [hist] with the justified slots [J]. *)
Record sound (hist : list root) (J : nat -> Prop) (a : Attestation) : Prop := {
  so_order : (src_slot a < tgt_slot a)%nat;
  so_source : J (src_slot a);
  so_src_root : hist !! src_slot a = Some (src_root a);
  so_tgt_root : hist !! tgt_slot a = Some (tgt_root a);
  so_voter : (voter a < n)%nat }.

(** Two thirds of the validators, each with a sound vote in [A] that satisfies [P]. *)
Definition quorum_of (hist : list root) (J : nat -> Prop) (A : list Attestation)
    (P : Attestation -> Prop) (V : list nat) : Prop :=
  NoDup V /\ (2 * n <= 3 * length V)%nat /\
  forall v, v ∈ V -> exists a, a ∈ A /\ sound hist J a /\ voter a = v /\ P a.

Definition justified_in (L : ledger) (t : nat) : Prop := lg_justified L !! t = Some true.

(** Every open vote and every justified slot comes from votes in [A]; slot 0 is the genesis. *)
Record accounted (hist : list root) (L : ledger) (A : list Attestation) : Prop := {
  at_votes r v : voted L r v ->
    exists a, a ∈ A /\ sound hist (justified_in L) a /\ voter a = v /\ tgt_root a = r;
  at_justified t : justified_in L t ->
    t = 0%nat \/ exists r V, hist !! t = Some r /\
      quorum_of hist (justified_in L) A (fun a => tgt_root a = r) V }.

Lemma sound_mono hist hist' (J J' : nat -> Prop) a :
  (forall i r, hist !! i = Some r -> hist' !! i = Some r) -> (forall i, J i -> J' i) ->
  sound hist J a -> sound hist' J' a.
Proof. intros Hh Hj []. constructor; auto. Qed.

Lemma quorum_of_mono hist hist' (J J' : nat -> Prop) A A' P V :
  (forall i r, hist !! i = Some r -> hist' !! i = Some r) -> (forall i, J i -> J' i) -> A ⊆ A' ->
  quorum_of hist J A P V -> quorum_of hist' J' A' P V.
Proof.
  intros Hh Hj HA (? & ? & Hall). split; [done|]. split; [done|]. intros v Hv.
  destruct (Hall v Hv) as (a & ? & ? & ?). exists a. eauto using sound_mono.
Qed.

(** A longer history, more votes, and new slots that are not justified. *)
Lemma accounted_extend hist hist' L js' J F A A' :
  accounted hist L A -> (forall i r, hist !! i = Some r -> hist' !! i = Some r) -> A ⊆ A' ->
  let L' := mkLedger (lg_votes L) js' J F in
  (forall i, justified_in L' i -> justified_in L i \/ i = 0%nat) ->
  (forall i, justified_in L i -> justified_in L' i) -> accounted hist' L' A'.
Proof.
  intros [Hv Hj] Hh HA L' Hjs Hjs'. constructor.
  - intros r v Hvt. destruct (Hv r v Hvt) as (a & ? & ? & ?). exists a. eauto using sound_mono.
  - intros t Ht. destruct (Hjs t Ht) as [Ht'| ->]; [|by left].
    destruct (Hj t Ht') as [->|(r & V & Hr & HV)]; [by left|]. right. exists r, V.
    eauto using quorum_of_mono.
Qed.

Section Step.
Context (hist : list root) (F0 : Z) (A : list Attestation).

Lemma acceptable_sound L a : acceptable n hist F0 L a -> sound hist (justified_in L) a.
Proof. intros []. by constructor. Qed.

Lemma vote_step_accounted L a L' :
  vote_step n hist F0 L a L' -> a ∈ A -> wf_ledger n hist L -> accounted hist L A -> accounted hist L' A.
Proof.
  intros Hs Ha HL [Hv Hj].
  assert (Hjs : forall i, justified_in L i -> justified_in L' i)
    by (intros i; by eapply vote_step_justified_mono).
  assert (Hold : forall r v, voted L r v -> exists b, b ∈ A /\ sound hist (justified_in L') b /\ voter b = v /\ tgt_root b = r).
  { intros r v Hvt. destruct (Hv r v Hvt) as (b & ? & ? & ?). exists b. eauto using sound_mono. }
  assert (Hnew : acceptable n hist F0 L a -> sound hist (justified_in L') a)
    by (intros; eapply sound_mono; [done|exact Hjs|by apply acceptable_sound]).
  constructor.
  - intros r v Hvt. destruct (vote_step_voted _ _ _ _ _ _ _ _ Hs Hvt) as [|[-> ->]]; [by apply Hold|].
    assert (Hc : voted L (tgt_root a) (voter a) \/ acceptable n hist F0 L a) by (destruct Hs; auto).
    destruct Hc; [by apply Hold|]. exists a. auto.
  - intros t Ht. destruct (decide (lg_justified L !! t = Some true)) as [Hb|Hb].
    { destruct (Hj t Hb) as [|(r & V & ? & ?)]; [by left|]. right. exists r, V. eauto using quorum_of_mono. }
    right. assert (Hc : acceptable n hist F0 L a /\ t = tgt_slot a /\ supermajority n (new_tally n L a)).
    { unfold justified_in in Ht. destruct Hs; simpl in Ht; try done;
        (destruct (decide (t = tgt_slot a)) as [->|]; [done|by rewrite list_lookup_insert_ne in Ht]). }
    destruct Hc as (Hacc & -> & Hsm). exists (tgt_root a), (supporters (new_tally n L a)).
    split; [apply Hacc|]. split; [apply NoDup_supporters|]. split; [exact Hsm|].
    intros v [->|Hvt]%elem_of_supporters%new_tally_voted; [exists a; auto|by apply Hold].
Qed.

Lemma vote_run_accounted L atts L' :
  vote_run n hist F0 L atts L' -> atts ⊆ A -> wf_ledger n hist L -> accounted hist L A -> accounted hist L' A.
Proof.
  induction 1 as [|L a L1 atts L2 Hs Hr IH]; intros HA HL HLA; [done|].
  apply IH; [set_solver|by eapply vote_step_wf|]. eapply vote_step_accounted; [done|set_solver|done..].
Qed.

(** Where the finalized checkpoint comes from: the source of the vote that justified its target. *)
Lemma vote_run_finalized_by L atts L' :
  vote_run n hist F0 L atts L' -> wf_ledger n hist L ->
  lg_F L' = lg_F L \/
  exists a, a ∈ atts /\ lg_F L' = ad_Source (att_Data a) /\ sound hist (justified_in L') a /\
    justified_in L' (tgt_slot a) /\ ~ gap F0 a.
Proof.
  induction 1 as [|L a L1 atts L2 Hs Hr IH]; intros HL; [by left|].
  assert (Hm1 : forall i, justified_in L i -> justified_in L1 i) by (intros i; by eapply vote_step_justified_mono).
  assert (Hm2 : forall i, justified_in L1 i -> justified_in L2 i) by (intros i; by eapply vote_run_justified_mono).
  destruct (IH (vote_step_wf _ _ _ _ _ _ Hs HL)) as [E|(b & Hb & Hrest)].
  2: { right. exists b. split; [by right|done]. }
  assert (Hc : lg_F L1 = lg_F L \/ (lg_F L1 = ad_Source (att_Data a) /\ acceptable n hist F0 L a /\
    justified_in L1 (tgt_slot a) /\ ~ gap F0 a)).
  { destruct Hs as [| | | |Hacc]; try by left. right. split_and!; try done. apply list_lookup_insert_eq.
    rewrite (wl_bits _ _ _ HL). eapply lookup_lt_Some, acc_tgt_root, Hacc. }
  destruct Hc as [E'|(E' & Hacc & Hj & Hg)]; [left; congruence|]. right. exists a.
  split_and!; [left|congruence| |by apply Hm2|done].
  eapply sound_mono; [done|intros i Hi; by apply Hm2, Hm1|by apply acceptable_sound].
Qed.
End Step.
End Accounts.

(** * The votes of a chain *)

Definition chain_votes (bs : list Block) : list Attestation :=
  concat (map (fun b => bb_Attestations (b_Body b)) bs).

Section Chains.
Context {HW : HashWalker} {MR : MapRange}.

(** The ledger StateTransition leaves is reached by the votes of the block from the ledger of the
    state, extended by the slots up to the block. *)
Lemma StateTransition_ledger s b s' L :
  wf_state s -> wf_Block b -> numValidators_of s <> 0 -> roomy s (b_Slot b) ->
  StateTransition s b = Ok s' -> StateRep s L ->
  exists L1 L', StateRep s' L' /\ st_Validators s' = st_Validators s /\
    lg_votes L1 = lg_votes L /\
    lg_justified L1 = lg_justified L ++ (bh_Slot (st_LatestBlockHeader s) =? 0)
      :: replicate (Z.to_nat (b_Slot b - bh_Slot (st_LatestBlockHeader s) - 1)) false /\
    st_HistoricalBlockHashes s' = st_HistoricalBlockHashes s ++ b_ParentRoot b
      :: replicate (Z.to_nat (b_Slot b - bh_Slot (st_LatestBlockHeader s) - 1)) ZeroHash /\
    cp_Slot (lg_F L1) = cp_Slot (st_LatestFinalized s) /\
    wf_ledger (length (st_Validators s)) (st_HistoricalBlockHashes s') L1 /\
    vote_run (length (st_Validators s)) (st_HistoricalBlockHashes s') (cp_Slot (lg_F L1)) L1
      (bb_Attestations (b_Body b)) L'.
Proof.
  intros Hs Hb Hn Hroom E HR. unfold StateTransition in E.
  destruct (Z.le_gt_cases (b_Slot b) (st_Slot s)) as [Hle|Hlt]; [by rewrite ProcessSlots_past in E|].
  destruct (ProcessSlots_run s (b_Slot b)) as (r & Er & Hr); [apply Hs|apply Hb|done|].
  rewrite Er in E. cbn [map_err mbind outcome_bind] in E. set (s1 := set_Slot _ _) in E.
  assert (Hs1 : wf_state s1) by (apply wf_state_advance; [done|apply Hb|lia]).
  assert (HR1 : StateRep s1 L) by (destruct HR; by constructor).
  unfold ProcessBlock in E.
  destruct (ProcessBlockHeader s1 b) as [s2| | |] eqn:EH; cbn [map_err mbind outcome_bind] in E; try done.
  apply (ProcessBlockHeader_iff s1 b (lg_justified L)) in EH as [Ha ->]; [|apply Hs1|apply Hs1|apply HR1].
  pose proof (header_post_rep s1 b L Hs1 Ha HR1) as HR2.
  destruct (ProcessAttestations_run (header_post s1 b (lg_justified L)) _ (bb_Attestations (b_Body b)) HR2)
    as (s3 & L' & E3 & Hrun & HR3 & (_ & _ & _ & Hhist & Hvals)); [by apply header_post_capacity; try done; apply Ha|apply Hb|].
  rewrite E3 in E. cbn [map_err mbind outcome_bind] in E. destruct (State_HashTreeRoot s3) as [root err].
  unfold fail_if in E. case_bool_decide; cbn [negb] in E; [|done]. apply Ok_inj in E as <-.
  lazymatch type of HR2 with StateRep _ ?L1 => exists L1, L' end.
  split; [exact HR3|]. rewrite Hhist, Hvals. do 4 (split; [done|]).
  split; [cbn [lg_F header_post st_LatestFinalized]; by case_match|].
  split; [exact (sr_wf _ _ HR2)|exact Hrun].
Qed.

Lemma reachable_accounted g bs s :
  wf_state g -> numValidators_of g <> 0 -> st_HistoricalBlockHashes g = [] ->
  StateRep g (mkLedger ∅ [] (st_LatestJustified g) (st_LatestFinalized g)) -> reachable g bs s ->
  exists L, StateRep s L /\ accounted (length (st_Validators g)) (st_HistoricalBlockHashes s) L (chain_votes bs).
Proof.
  intros Hg Hn Hh HRg. induction 1 as [|bs s b s' Hr IH Hb Hroom E].
  { eexists. split; [exact HRg|]. constructor; [|by intros t Ht].
    intros r v (vs & Hvs & _). cbn in Hvs. by rewrite lookup_empty in Hvs. }
  destruct IH as (L & HR & HA). destruct (reachable_inv _ _ _ Hg Hn Hr) as (Hs & Hv & _).
  assert (Hns : numValidators_of s <> 0) by (unfold numValidators_of in *; by rewrite Hv).
  destruct (StateTransition_ledger s b s' L Hs Hb Hns Hroom E HR)
    as (L1 & L' & HR' & Hv' & HL1v & HL1j & Hhist & _ & Hwf & Hrun).
  rewrite Hv in Hwf, Hrun. exists L'. split; [done|]. eapply vote_run_accounted; [exact Hrun| |done|].
  { intros a Ha. apply elem_of_app. by left. }
  destruct L1 as [vts js J F]. cbn in HL1v, HL1j. subst vts js.
  eapply accounted_extend; [exact HA| | | |].
  - intros i r Hi. rewrite Hhist. by apply lookup_app_l_Some.
  - intros a Ha. apply elem_of_app. by right.
  - unfold justified_in. cbn. intros i Hi. apply lookup_app_Some in Hi as [Hi|[Hi1 Hi2]]; [by left|]. right.
    destruct (i - length (lg_justified L))%nat as [|k] eqn:Ek.
    + cbn in Hi2. injection Hi2 as Hz%Z.eqb_eq. apply header_slot_zero in Hz; [|done].
      pose proof (wl_bits _ _ _ (sr_wf _ _ HR)) as Hlen. rewrite Hz in Hlen. cbn in Hlen. lia.
    + cbn in Hi2. by apply lookup_replicate in Hi2 as [? _].
  - unfold justified_in. cbn. intros i Hi. by apply lookup_app_l_Some.
Qed.
End Chains.

(** * Roots along one chain and across two *)

Section Histories.
Context {HW : HashWalker} (g : State).

(** Each block's parent root is the root of the block below it, at an earlier slot. *)
Inductive linked : list Block -> Prop :=
| linked_nil : linked []
| linked_cons b bs :
    linked bs -> b_ParentRoot b = tip_root g bs -> tip_slot bs < b_Slot b -> linked (b :: bs).

(** Different blocks of [bs] have different roots, none of them that of the genesis header. *)
Definition collision_free (bs : list Block) : Prop :=
  (forall b c, b ∈ bs -> c ∈ bs -> (Block_HashTreeRoot b).1 = (Block_HashTreeRoot c).1 -> b = c) /\
  (forall b, b ∈ bs -> (Block_HashTreeRoot b).1 <> tip_root g []).

Lemma linked_suffix xs ys : linked (xs ++ ys) -> linked ys.
Proof. induction xs as [|x xs IH]; [done|]. inversion 1; auto. Qed.

Lemma tip_slot_nonneg bs : linked bs -> 0 <= tip_slot bs.
Proof. induction 1; cbn [tip_slot]; lia. Qed.

Lemma length_history bs : linked bs -> Z.of_nat (length (history_of g bs)) = tip_slot bs.
Proof.
  induction 1 as [|b bs H IH Hp Hs]; [done|]. cbn [history_of]. pose proof (tip_slot_nonneg _ H).
  rewrite length_app, length_cons, length_replicate. cbn [tip_slot]. lia.
Qed.

Lemma history_app xs ys : history_of g ys `prefix_of` history_of g (xs ++ ys).
Proof.
  induction xs as [|x xs IH]; [done|]. cbn [app history_of]. by apply prefix_app_r.
Qed.

(** A root other than the zero hash is that of a block of the chain, at its slot. *)
Lemma history_lookup bs t r :
  linked bs -> history_of g bs !! t = Some r -> r <> ZeroHash ->
  exists xs x ys, bs = xs ++ x :: ys /\ r = tip_root g ys /\ Z.of_nat t = tip_slot ys.
Proof.
  induction 1 as [|b bs H IH Hp Hs]; intros Ht Hr; [done|]. cbn [history_of] in Ht.
  apply lookup_app_Some in Ht as [Ht|[Hge Ht]].
  - destruct (IH Ht Hr) as (xs & x & ys & -> & ? & ?). by exists (b :: xs), x, ys.
  - destruct (t - length (history_of g bs))%nat as [|k] eqn:Ek; cbn in Ht.
    + injection Ht as <-. exists [], b, bs. pose proof (length_history _ H). split_and!; [done..|lia].
    + by apply lookup_replicate in Ht as [-> _].
Qed.

(** Equal roots are the roots of equal chains. *)
Lemma tip_root_inj bs xs ys :
  collision_free bs -> linked xs -> linked ys -> xs ⊆ bs -> ys ⊆ bs -> tip_root g xs = tip_root g ys -> xs = ys.
Proof.
  intros [Hinj Hgen]. intros Hxs. revert ys. induction Hxs as [|b xs Hxs IH Hp Hs]; intros ys Hys Hsx Hsy Heq.
  - destruct Hys as [|c ys]; [done|]. exfalso. apply (Hgen c); [apply Hsy; by left|done].
  - destruct Hys as [|c ys Hys Hpc Hsc]; [exfalso; apply (Hgen b); [apply Hsx; by left|done]|].
    cbn in Heq. apply Hinj in Heq as <-; [|apply Hsx; by left|apply Hsy; by left].
    f_equal. apply IH; [done| | |congruence]; intros d Hd; [apply Hsx|apply Hsy]; by right.
Qed.

Section Two.
Context (bs1 bs2 : list Block).
Context (H1 : linked bs1) (H2 : linked bs2) (Hfree : collision_free (bs1 ++ bs2)).

Lemma below_subseteq (bs xs ys : list Block) x : bs = xs ++ x :: ys -> ys ⊆ bs.
Proof. intros -> b Hb. apply elem_of_app. right. by right. Qed.
Lemma below_linked bs xs ys x : linked bs -> bs = xs ++ x :: ys -> linked ys.
Proof. intros H ->. apply linked_suffix in H. by inversion H. Qed.

(** A root in both histories is at one slot, and the histories agree up to it. *)
Lemma common_root t1 t2 r :
  r <> ZeroHash -> history_of g bs1 !! t1 = Some r -> history_of g bs2 !! t2 = Some r ->
  t1 = t2 /\ forall k, (k <= t1)%nat -> history_of g bs1 !! k = history_of g bs2 !! k.
Proof.
  intros Hr Hl1 Hl2.
  destruct (history_lookup _ _ _ H1 Hl1 Hr) as (xs1 & x1 & ys1 & E1 & -> & Ht1).
  destruct (history_lookup _ _ _ H2 Hl2 Hr) as (xs2 & x2 & ys2 & E2 & Heq & Ht2).
  pose proof (below_linked _ _ _ _ H1 E1) as Hw1. pose proof (below_linked _ _ _ _ H2 E2) as Hw2.
  assert (ys1 = ys2) as <-.
  { apply (tip_root_inj (bs1 ++ bs2)); [done..| | |done].
    - etrans; [exact (below_subseteq _ _ _ _ E1)|]. intros b ?. apply elem_of_app. by left.
    - etrans; [exact (below_subseteq _ _ _ _ E2)|]. intros b ?. apply elem_of_app. by right. }
  assert (t1 = t2) as <- by lia. split; [done|]. intros k Hk.
  destruct (decide (k = t1)) as [->|]; [congruence|].
  pose proof (length_history _ Hw1) as Hlen.
  assert (Hpre : forall bs xs x, bs = xs ++ x :: ys1 -> history_of g bs !! k = history_of g ys1 !! k).
  { intros bs xs x ->. destruct (history_app (xs ++ [x]) ys1) as [z Hz].
    rewrite <- app_assoc in Hz. cbn in Hz. rewrite Hz. apply lookup_app_l. lia. }
  by rewrite (Hpre _ _ _ E1), (Hpre _ _ _ E2).
Qed.
End Two.

Lemma collision_free_mono bs bs' : bs ⊆ bs' -> collision_free bs' -> collision_free bs.
Proof. intros Hs [H1 H2]. split; eauto. Qed.

Lemma root_slot bs t t' r :
  linked bs -> collision_free bs -> r <> ZeroHash ->
  history_of g bs !! t = Some r -> history_of g bs !! t' = Some r -> t = t'.
Proof.
  intros Hl Hf Hr Ht Ht'. destruct (common_root bs bs Hl Hl) with t t' r as [? _]; try done.
  eapply collision_free_mono; [|done]. intros b. by intros [|]%elem_of_app.
Qed.
End Histories.

(** * Offences *)

(** What a validator can be blamed for, given the votes it cast anywhere: two votes for different
    blocks at one target slot, a vote that surrounds another, or a vote for an empty slot. *)
Inductive offence (A : list Attestation) (v : nat) : Prop :=
| double_vote a1 a2 :
    a1 ∈ A -> a2 ∈ A -> voter a1 = v -> voter a2 = v ->
    tgt_slot a1 = tgt_slot a2 -> tgt_root a1 <> tgt_root a2 -> offence A v
| surround_vote a1 a2 :
    a1 ∈ A -> a2 ∈ A -> voter a1 = v -> voter a2 = v ->
    (src_slot a2 < src_slot a1)%nat -> (tgt_slot a1 < tgt_slot a2)%nat -> offence A v
| empty_vote a : a ∈ A -> voter a = v -> tgt_root a = ZeroHash -> offence A v.

Definition conflict (a1 a2 : Attestation) : bool :=
  bool_decide (voter a1 = voter a2) &&
  ((bool_decide (tgt_slot a1 = tgt_slot a2) && bool_decide (tgt_root a1 <> tgt_root a2)) ||
   ((src_slot a2 <? src_slot a1)%nat && (tgt_slot a1 <? tgt_slot a2)%nat)).

(** No vote of [A] is for an empty slot and no two are in conflict. *)
Definition blameless (A : list Attestation) : bool :=
  forallb (fun a => bool_decide (tgt_root a <> ZeroHash) && forallb (fun b => negb (conflict a b)) A) A.

Lemma blameless_spec A v : blameless A = true -> ~ offence A v.
Proof.
  unfold blameless. rewrite forallb_forall. intros H.
  assert (Hc : forall a b, a ∈ A -> b ∈ A -> conflict a b = false).
  { intros a b Ha%list_elem_of_In Hb%list_elem_of_In. specialize (H a Ha). apply andb_prop in H as [_ H].
    rewrite forallb_forall in H. by apply negb_true_iff, H. }
  destruct 1 as [a1 a2 Ha1 Ha2 <- Hv Ht Hr|a1 a2 Ha1 Ha2 <- Hv Hs Ht|a Ha _ Hz].
  - specialize (Hc a1 a2 Ha1 Ha2). unfold conflict in Hc.
    rewrite bool_decide_eq_true_2, (bool_decide_eq_true_2 (tgt_slot a1 = tgt_slot a2)), bool_decide_eq_true_2 in Hc by done.
    discriminate.
  - specialize (Hc a1 a2 Ha1 Ha2). unfold conflict in Hc. rewrite bool_decide_eq_true_2 in Hc by done.
    rewrite (proj2 (Nat.ltb_lt _ _) Hs), (proj2 (Nat.ltb_lt _ _) Ht), orb_true_r in Hc. discriminate.
  - apply list_elem_of_In in Ha. specialize (H a Ha). apply andb_prop in H as [H%bool_decide_eq_true _]. done.
Qed.

(** A third of the [n] validators committed an offence with votes in [A]. *)
Definition third_offends (n : nat) (A : list Attestation) : Prop :=
  exists W, NoDup W /\ (n <= 3 * length W)%nat /\ forall v, v ∈ W -> (v < n)%nat /\ offence A v.

(** Two quorums have a third of the validators in common. *)
Lemma quorums_meet (n : nat) (V1 V2 : list nat) :
  NoDup V1 -> NoDup V2 -> (2 * n <= 3 * length V1)%nat -> (2 * n <= 3 * length V2)%nat ->
  (forall v, v ∈ V1 -> (v < n)%nat) -> (forall v, v ∈ V2 -> (v < n)%nat) ->
  exists W, NoDup W /\ (n <= 3 * length W)%nat /\ forall v, v ∈ W -> v ∈ V1 /\ v ∈ V2.
Proof.
  intros Hn1 Hn2 Hl1 Hl2 Hr1 Hr2. exists (filter (fun v => v ∈ V2) V1).
  split; [by apply list.NoDup_filter|]. split; [|intros v; rewrite list_elem_of_filter; tauto].
  assert (Hu : (length (filter (fun v => v ∉ V2) V1 ++ V2) <= length (seq 0 n))%nat).
  { apply submseteq_length, NoDup_submseteq.
    - apply list.NoDup_app. split; [by apply list.NoDup_filter|]. split; [|done].
      intros v Hv. by apply list_elem_of_filter in Hv as [? _].
    - intros v Hv. apply elem_of_seq. apply elem_of_app in Hv as [Hv|Hv];
        [apply list_elem_of_filter in Hv as [_ Hv]; specialize (Hr1 v Hv)|specialize (Hr2 v Hv)]; lia. }
  rewrite length_app, length_seq in Hu.
  assert (Hsplit : length V1 = (length (filter (fun v => v ∈ V2) V1) + length (filter (fun v => v ∉ V2) V1))%nat).
  { clear. induction V1 as [|v V1 IH]; [done|]. rewrite !filter_cons. repeat case_decide; cbn [length]; try tauto; lia. }
  lia.
Qed.

(** * Two chains of one genesis *)

Section Forks.
Context {HW : HashWalker} {HWL : HashWalkerLaws HW} {MR : MapRange} (t0 : Z) (vs : list Validator).
#[local] Abbreviation g := (GenerateGenesis t0 vs).
#[local] Abbreviation n := (length vs).

Record genesis_ok : Prop := {
  go_time : is_u64 t0;
  go_registry : Forall wf_Validator vs;
  go_number : 0 < Z.of_nat n < 2 ^ 62;
  go_root : (State_HashTreeRoot g).1 <> ZeroHash }.

(** The chain of accepted blocks [bs], latest first, and the state it leads to. *)
Definition chain (bs : list Block) (s : State) : Prop := reachable g bs s /\ Forall rooted bs.

(** Two thirds of the validators voted for the link from [src] to [tgt] in [bs]. *)
Definition supermajority_link (s : State) (bs : list Block) (src tgt : Checkpoint) : Prop :=
  exists V, quorum_of n (st_HistoricalBlockHashes s) (slot_justified s) (chain_votes bs)
    (fun a => ad_Source (att_Data a) = src /\ ad_Target (att_Data a) = tgt) V.

Context (Hok : genesis_ok).

Lemma genesis_chain_ok : wf_state g /\ numValidators_of g <> 0 /\ st_HistoricalBlockHashes g = [] /\
  st_Validators g = vs.
Proof.
  destruct Hok. destruct (genesis_start t0 vs) as (_ & ? & _ & ?).
  split; [by apply genesis_wf|]. split; [by apply GenerateGenesis_numValidators|done].
Qed.

Lemma chain_linked_all bs s : chain bs s ->
  linked g bs /\ st_HistoricalBlockHashes s = history_of g bs.
Proof.
  destruct genesis_chain_ok as (Hg & Hn & Hh & _). destruct (genesis_start t0 vs) as (H1 & H2 & H3 & _).
  intros [Hr HF]. split; [|by apply (reachable_tip g bs s); try done; apply Hok].
  induction Hr as [|bs s b s' Hr IH Hb Hroom E]; [constructor|].
  pose proof HF as [_ HF']%list.Forall_cons.
  destruct (reachable_tip g bs s) as (_ & Hslot & Hz & Hne & Htip); try done; [apply Hok|].
  destruct (reachable_accepted _ _ _ _ _ Hg Hn Hr Hb Hroom E) as [r Ha].
  destruct (reachable_inv _ _ _ Hg Hn Hr) as [Hs _].
  pose proof (ws_header_slot _ Hs). pose proof (ac_slot _ _ _ _ Ha).
  constructor; [by apply IH| |lia]. rewrite (ac_parent _ _ _ _ Ha).
  by rewrite (proj2 (ac_root _ _ _ _ Ha) Hz Hne).
Qed.

(** A justified slot of a chain has a quorum of votes in the blocks of that chain. *)
Lemma chain_justified bs s k : chain bs s -> slot_justified s k ->
  k = 0%nat \/ exists r V, st_HistoricalBlockHashes s !! k = Some r /\
    quorum_of n (st_HistoricalBlockHashes s) (slot_justified s) (chain_votes bs) (fun a => tgt_root a = r) V.
Proof.
  destruct genesis_chain_ok as (Hg & Hn & Hh & Hv). intros [Hr _] Hk.
  destruct (reachable_accounted g bs s Hg Hn Hh) as (L & HR & HA); [|done|].
  { unfold GenerateGenesis. destruct (BlockBody_HashTreeRoot _). constructor; done. }
  rewrite Hv in HA. destruct (at_justified _ _ _ _ HA k) as [|(r & V & Hl & HV)]; [|by left|].
  { by apply (slot_justified_rep s L). }
  right. exists r, V. split; [done|]. eapply quorum_of_mono; [done| |done|exact HV].
  intros i. by apply (slot_justified_rep s L).
Qed.

Lemma justified_in_history bs s k : chain bs s -> slot_justified s k ->
  (k < length (st_HistoricalBlockHashes s))%nat.
Proof.
  destruct genesis_chain_ok as (Hg & Hn & _). intros [Hr _] Hk.
  destruct (reachable_inv _ _ _ Hg Hn Hr) as [Hs _]. destruct (ws_ledger _ Hs) as (L & HR & _).
  apply (slot_justified_rep s L) in Hk; [|done]. rewrite <- (wl_bits _ _ _ (sr_wf _ _ HR)).
  by eapply lookup_lt_Some.
Qed.

Lemma quorum_members hist J A P V v : quorum_of n hist J A P V -> v ∈ V -> (v < n)%nat.
Proof. intros (_ & _ & Hall) Hv. destruct (Hall v Hv) as (a & _ & Ha & <- & _). apply Ha. Qed.

Lemma quorum_nonempty hist J A P V : quorum_of n hist J A P V ->
  exists a, a ∈ A /\ sound n hist J a /\ P a.
Proof.
  intros (_ & Hsz & Hall). destruct V as [|v V]; [destruct Hok; cbn in Hsz; lia|].
  destruct (Hall v) as (a & ? & ? & _ & ?); [by left|eauto].
Qed.

(** Two quorums whose common members are all guilty. *)
Lemma quorums_offend hist1 hist2 J1 J2 A1 A2 P1 P2 V1 V2 A :
  quorum_of n hist1 J1 A1 P1 V1 -> quorum_of n hist2 J2 A2 P2 V2 ->
  (forall a1 a2, a1 ∈ A1 -> a2 ∈ A2 -> sound n hist1 J1 a1 -> sound n hist2 J2 a2 -> P1 a1 -> P2 a2 ->
     voter a1 = voter a2 -> offence A (voter a1)) ->
  third_offends n A.
Proof.
  intros HQ1 HQ2 Hoff. pose proof HQ1 as (Hn1 & Hs1 & Ha1). pose proof HQ2 as (Hn2 & Hs2 & Ha2).
  destruct (quorums_meet n V1 V2) as (W & HW1 & HW2 & HW3); try done;
    [by intros v; eapply quorum_members|by intros v; eapply quorum_members|].
  exists W. split; [done|]. split; [done|]. intros v Hv. destruct (HW3 v Hv) as [Hv1 Hv2].
  split; [by eapply quorum_members|].
  destruct (Ha1 v Hv1) as (a1 & ? & ? & <- & ?). destruct (Ha2 _ Hv2) as (a2 & ? & ? & ? & ?). eauto.
Qed.

(** A quorum for the zero hash is a quorum of offenders. *)
Lemma zero_quorum_offends hist J A P V A' :
  quorum_of n hist J A P V -> (forall a, P a -> tgt_root a = ZeroHash) -> A ⊆ A' -> third_offends n A'.
Proof.
  intros HQ HP HA. eapply quorums_offend; [exact HQ|exact HQ|]. intros a1 _ ? _ _ _ ? _ _.
  eapply empty_vote; eauto.
Qed.

Section Pair.
Context (bs1 bs2 : list Block) (s1 s2 : State).
Context (H1 : chain bs1 s1) (H2 : chain bs2 s2) (Hfree : collision_free g (bs1 ++ bs2)).
#[local] Abbreviation hist1 := (st_HistoricalBlockHashes s1).
#[local] Abbreviation hist2 := (st_HistoricalBlockHashes s2).
#[local] Abbreviation votes := (chain_votes (bs1 ++ bs2)).

Lemma votes_left : chain_votes bs1 ⊆ votes.
Proof. unfold chain_votes. rewrite map_app, concat_app. intros a Ha. apply elem_of_app. by left. Qed.
Lemma votes_right : chain_votes bs2 ⊆ votes.
Proof. unfold chain_votes. rewrite map_app, concat_app. intros a Ha. apply elem_of_app. by right. Qed.

Lemma target_slot_left a r k : sound n hist1 (slot_justified s1) a -> tgt_root a = r -> r <> ZeroHash ->
  hist1 !! k = Some r -> tgt_slot a = k.
Proof.
  intros Ha <- Hr Hk. destruct (chain_linked_all _ _ H1) as [Hl Hh]. pose proof (so_tgt_root _ _ _ _ Ha) as Ht.
  rewrite Hh in *. eapply root_slot; try done. eapply collision_free_mono; [|done]. intros b ?. apply elem_of_app. by left.
Qed.
Lemma target_slot_right a r k : sound n hist2 (slot_justified s2) a -> tgt_root a = r -> r <> ZeroHash ->
  hist2 !! k = Some r -> tgt_slot a = k.
Proof.
  intros Ha <- Hr Hk. destruct (chain_linked_all _ _ H2) as [Hl Hh]. pose proof (so_tgt_root _ _ _ _ Ha) as Ht.
  rewrite Hh in *. eapply root_slot; try done. eapply collision_free_mono; [|done]. intros b ?. apply elem_of_app. by right.
Qed.

(** Both chains start at the genesis header. *)
Lemma slot_zero_agrees : (0 < length hist1)%nat -> (0 < length hist2)%nat -> hist1 !! 0%nat = hist2 !! 0%nat.
Proof.
  destruct (chain_linked_all _ _ H1) as [Hl1 ->], (chain_linked_all _ _ H2) as [Hl2 ->].
  assert (Hz : forall bs, linked g bs -> (0 < length (history_of g bs))%nat -> history_of g bs !! 0%nat = Some (tip_root g [])).
  { intros bs. induction 1 as [|b bs Hl IH Hp Hs]; cbn [history_of]; [cbn; lia|]. intros _.
    destruct bs as [|c bs]; [done|]. apply lookup_app_l_Some, IH.
    pose proof (length_history _ _ Hl). inversion Hl; subst. pose proof (tip_slot_nonneg g bs ltac:(done)).
    cbn [tip_slot] in *. lia. }
  intros Hn1 Hn2. by rewrite !Hz.
Qed.

(** The two chains justify the same block at a slot, or a third of the validators is guilty. *)
Lemma same_slot k : slot_justified s1 k -> slot_justified s2 k ->
  hist1 !! k = hist2 !! k \/ third_offends n votes.
Proof.
  intros Hk1 Hk2.
  destruct (chain_justified bs1 s1 k H1 Hk1) as [->|(r1 & V1 & Hr1 & HV1)].
  { left. apply slot_zero_agrees; [by eapply justified_in_history in Hk1|by eapply justified_in_history in Hk2]. }
  destruct (chain_justified bs2 s2 k H2 Hk2) as [->|(r2 & V2 & Hr2 & HV2)].
  { left. apply slot_zero_agrees; [by eapply justified_in_history in Hk1|by eapply justified_in_history in Hk2]. }
  destruct (decide (r1 = r2)) as [->|Hne]; [left; congruence|right].
  destruct (decide (r1 = ZeroHash)) as [->|Hz1]; [by eapply zero_quorum_offends; [exact HV1| |apply votes_left]|].
  destruct (decide (r2 = ZeroHash)) as [->|Hz2]; [by eapply zero_quorum_offends; [exact HV2| |apply votes_right]|].
  eapply quorums_offend; [exact HV1|exact HV2|]. intros a1 a2 Hi1 Hi2 Hs1 Hs2 Ht1 Ht2 Hvt.
  apply (double_vote _ _ a1 a2); [by apply votes_left|by apply votes_right|done|done| |congruence].
  by rewrite (target_slot_left a1 r1 k), (target_slot_right a2 r2 k).
Qed.

Lemma least_justified (s : State) (k m : nat) : slot_justified s k -> (m <= k)%nat ->
  exists j, (m <= j)%nat /\ slot_justified s j /\ forall i, (m <= i < j)%nat -> ~ slot_justified s i.
Proof.
  revert k. induction k as [k IH] using lt_wf_ind. intros Hk Hm.
  destruct (decide (Exists (fun i => m <= i < k /\ slot_justified s i)%nat (seq 0 k))) as [Hex|Hno].
  - apply list.Exists_exists in Hex as (i & _ & [Hi1 Hi2] & Hi3). by apply (IH i).
  - exists k. split; [done|]. split; [done|]. intros i Hi Hj. apply Hno, list.Exists_exists.
    exists i. split; [apply elem_of_seq; lia|]. split; [lia|done].
Qed.

(** A supermajority link of one chain is respected by the other. *)
Lemma link_respected src tgt k :
  supermajority_link s1 bs1 src tgt -> slot_justified s2 k -> (Z.to_nat (cp_Slot src) <= k)%nat ->
  (forall j, (Z.to_nat (cp_Slot src) < j < Z.to_nat (cp_Slot tgt))%nat -> ~ slot_justified s2 j) ->
  hist2 !! Z.to_nat (cp_Slot src) = Some (cp_Root src) \/ third_offends n votes.
Proof.
  intros [V HV] Hk Hle Hbetween.
  destruct (quorum_nonempty _ _ _ _ _ HV) as (a0 & Hi0 & Ha0 & Esrc & Etgt).
  assert (Hsrc : forall a, ad_Source (att_Data a) = src -> src_slot a = Z.to_nat (cp_Slot src) /\ src_root a = cp_Root src)
    by (intros a <-; done).
  assert (Htgt : forall a, ad_Target (att_Data a) = tgt -> tgt_slot a = Z.to_nat (cp_Slot tgt) /\ tgt_root a = cp_Root tgt)
    by (intros a <-; done).
  destruct (Hsrc a0 Esrc) as [Es Er], (Htgt a0 Etgt) as [Et Etr].
  destruct Ha0 as [Ho Hj0 Hhs Hht _]. rewrite Es in Ho, Hj0, Hhs. rewrite Et in Ho, Hht. rewrite Er in Hhs. rewrite Etr in Hht.
  destruct (least_justified s2 k _ Hk Hle) as (T & HT & HjT & Hleast).
  destruct (decide (T = Z.to_nat (cp_Slot src))) as [->|HneT].
  { destruct (same_slot _ Hj0 HjT) as [E|]; [left; congruence|by right]. }
  assert (HTt : (Z.to_nat (cp_Slot tgt) <= T)%nat).
  { destruct (decide (Z.to_nat (cp_Slot tgt) <= T)%nat); [done|]. exfalso. apply (Hbetween T); [lia|done]. }
  destruct (chain_justified bs2 s2 T H2 HjT) as [->|(r & V2 & Hr & HV2)]; [lia|].
  destruct (decide (cp_Root tgt = ZeroHash)) as [Hz|Hz].
  { right. eapply zero_quorum_offends; [exact HV| |apply votes_left]. intros a [_ Ha]. rewrite <- Hz. by apply Htgt. }
  destruct (decide (r = ZeroHash)) as [->|Hz2].
  { right. by eapply zero_quorum_offends; [exact HV2| |apply votes_right]. }
  destruct (decide (r = cp_Root tgt)) as [->|Hne].
  { left. destruct (chain_linked_all _ _ H1) as [Hl1 Eh1], (chain_linked_all _ _ H2) as [Hl2 Eh2].
    rewrite Eh1 in *. rewrite Eh2 in *. destruct (common_root g bs1 bs2 Hl1 Hl2 Hfree _ _ _ Hz Hht Hr) as [_ Hag].
    by rewrite <- Hag by lia. }
  right. eapply quorums_offend; [exact HV|exact HV2|]. intros a1 a2 Hi1 Hi2 Hs1 Hs2 [Hp1 Hp1'] Hp2 Hvt.
  destruct (Hsrc a1 Hp1) as [Ea _], (Htgt a1 Hp1') as [Eb Ec].
  assert (Hts : tgt_slot a2 = T) by by apply (target_slot_right a2 r T).
  destruct (decide (T = Z.to_nat (cp_Slot tgt))) as [HeT|HeT].
  - apply (double_vote _ _ a1 a2); [by apply votes_left|by apply votes_right|done|done|congruence|congruence].
  - apply (surround_vote _ _ a1 a2); [by apply votes_left|by apply votes_right|done|done| |lia].
    rewrite Ea. pose proof (so_order _ _ _ _ Hs2).
    destruct (decide (src_slot a2 < Z.to_nat (cp_Slot src))%nat); [done|exfalso].
    apply (Hleast (src_slot a2)); [lia|apply Hs2].
Qed.
End Pair.
End Forks.

(** * The properties *)

Section Properties.
Context {HW : HashWalker} {HWL : HashWalkerLaws HW} {MR : MapRange}.

(** C13: Accountable safety.  Let two thirds of the validators vote for the link from [src] to [tgt] in
    one chain, and let another chain of the same genesis justify a slot from [src] on, none of them
    between the two ends of the link.  Then the other chain has the block of [src] in its history,
    or a third of the validators committed an offence that the blocks of the two chains prove: two
    votes for one target slot, a vote around another, or a vote for an empty slot. *)
Theorem accountable_safety (t0 : Z) (vs : list Validator) (bs1 bs2 : list Block) (s1 s2 : State)
    (src tgt : Checkpoint) (k : nat) :
  genesis_ok t0 vs -> chain t0 vs bs1 s1 -> chain t0 vs bs2 s2 ->
  collision_free (GenerateGenesis t0 vs) (bs1 ++ bs2) ->
  supermajority_link vs s1 bs1 src tgt ->
  slot_justified s2 k -> (Z.to_nat (cp_Slot src) <= k)%nat ->
  (forall j, (Z.to_nat (cp_Slot src) < j < Z.to_nat (cp_Slot tgt))%nat -> ~ slot_justified s2 j) ->
  st_HistoricalBlockHashes s2 !! Z.to_nat (cp_Slot src) = Some (cp_Root src) \/
  third_offends (length vs) (chain_votes (bs1 ++ bs2)).
Proof. intros Hok H1 H2 Hfree. by apply (link_respected t0 vs Hok). Qed.

(** Two chains of one genesis that both justify a slot justify the same block there, unless a third
    of the validators committed an offence. *)
Theorem justified_blocks_agree (t0 : Z) (vs : list Validator) (bs1 bs2 : list Block) (s1 s2 : State) (k : nat) :
  genesis_ok t0 vs -> chain t0 vs bs1 s1 -> chain t0 vs bs2 s2 ->
  collision_free (GenerateGenesis t0 vs) (bs1 ++ bs2) -> slot_justified s1 k -> slot_justified s2 k ->
  st_HistoricalBlockHashes s1 !! k = st_HistoricalBlockHashes s2 !! k \/
  third_offends (length vs) (chain_votes (bs1 ++ bs2)).
Proof. intros Hok H1 H2 Hfree. by apply (same_slot t0 vs Hok). Qed.

(** What moves the finalized slot of a chain: a vote in the block, from the new checkpoint to a
    target that is justified then, no slot in between being justifiable; two thirds of the
    validators voted for that target in the blocks of the chain. *)
Theorem finalization_evidence (t0 : Z) (vs : list Validator) (b : Block) (bs : list Block) (s s' : State) :
  genesis_ok t0 vs -> chain t0 vs bs s -> chain t0 vs (b :: bs) s' -> StateTransition s b = Ok s' ->
  cp_Slot (st_LatestFinalized s') = cp_Slot (st_LatestFinalized s) \/
  exists a, a ∈ bb_Attestations (b_Body b) /\ st_LatestFinalized s' = ad_Source (att_Data a) /\
    sound (length vs) (st_HistoricalBlockHashes s') (slot_justified s') a /\ slot_justified s' (tgt_slot a) /\
    ~ gap (cp_Slot (st_LatestFinalized s)) a /\
    exists V, quorum_of (length vs) (st_HistoricalBlockHashes s') (slot_justified s') (chain_votes (b :: bs))
                (fun a' => tgt_root a' = tgt_root a) V.
Proof.
  intros Hok H1 H2 E. destruct (genesis_chain_ok t0 vs Hok) as (Hg & Hn & Hh & Hv).
  pose proof H1 as [Hr1 _]. destruct (reachable_inv _ _ _ Hg Hn Hr1) as (Hs & Hvs & _).
  assert (Hb : wf_Block b /\ roomy s (b_Slot b)).
  { destruct H2 as [Hr2 _]. inversion Hr2 as [|? s0 ? ? Hr0 Hb Hroom E0]; subst. split; [done|].
    destruct (reachable_inv _ _ _ Hg Hn Hr0) as (_ & Hvs0 & _). unfold roomy in *. by rewrite Hvs, <- Hvs0. }
  destruct Hb as [Hb Hroom]. destruct (ws_ledger _ Hs) as (L & HR & _).
  assert (Hns : numValidators_of s <> 0) by (unfold numValidators_of in *; by rewrite Hvs).
  destruct (StateTransition_ledger s b s' L Hs Hb Hns Hroom E HR)
    as (L1 & L' & HR' & Hv' & _ & _ & _ & HF & Hwf & Hrun).
  rewrite HF in Hrun. rewrite Hvs, Hv in Hwf, Hrun.
  destruct (vote_run_finalized_by _ _ _ _ _ _ Hrun Hwf) as [EF|(a & Ha & EF & Hso & Hj & Hgap)].
  { left. by rewrite (sr_F _ _ HR'), EF, HF. }
  right. exists a. rewrite (sr_F _ _ HR').
  assert (Hj' : slot_justified s' (tgt_slot a)) by by apply (slot_justified_rep s' L').
  split_and!; [done|done| |done|done|].
  - eapply sound_mono; [done| |exact Hso]. intros i. by apply (slot_justified_rep s' L').
  - destruct (chain_justified t0 vs Hok (b :: bs) s' _ H2 Hj') as [Hz|(r & V & Hr & HV)].
    + destruct Hso as [Ho _ _ _ _]. lia.
    + exists V. destruct Hso as [_ _ _ Ht _]. rewrite Hr in Ht. injection Ht as ->. exact HV.
Qed.
End Properties.

(** * Concrete chains *)

(** One more block on a concrete chain, by a lemma such as [fk_grow] below. *)
Ltac wf_block := split_and!; [split; vm_compute; done..|repeat constructor; vm_compute; done].
Ltac grow_with lem H :=
  eapply lem; [exact H|wf_block|vm_compute; reflexivity|vm_compute; done|split; vm_compute; done|vm_compute; reflexivity].

Section Example.
#[local] Existing Instance toy_walker.
#[local] Existing Instance canonical_range.

(** From one genesis of three validators: slots 1, 2 and 3 in one chain, slots 3, 4 and 5 in the
    other.  Blocks and states are evaluated as they are defined, each from the one before. *)
Definition cp_of (b : Block) : Checkpoint := mkCheckpoint (Block_HashTreeRoot b).1 (b_Slot b).
Definition fk_a1 : Block := Eval vm_compute in ex_block ex_genesis 1 [].
Definition fk_s1 : State := Eval vm_compute in ex_next ex_genesis fk_a1.
Definition fk_a2 : Block := Eval vm_compute in ex_block fk_s1 2 [ex_att 0 ex_cp0 (cp_of fk_a1); ex_att 1 ex_cp0 (cp_of fk_a1)].
Definition fk_s2 : State := Eval vm_compute in ex_next fk_s1 fk_a2.
Definition fk_a3 : Block :=
  Eval vm_compute in ex_block fk_s2 3 [ex_att 0 ex_cp0 (cp_of fk_a2); ex_att 1 (cp_of fk_a1) (cp_of fk_a2)].
Definition fk_s3 : State := Eval vm_compute in ex_next fk_s2 fk_a3.

Definition fk_b3 : Block := Eval vm_compute in ex_block ex_genesis 3 [].
Definition fk_t3 : State := Eval vm_compute in ex_next ex_genesis fk_b3.
Definition fk_b4 : Block := Eval vm_compute in ex_block fk_t3 4 [ex_att 0 ex_cp0 (cp_of fk_b3); ex_att 2 ex_cp0 (cp_of fk_b3)].
Definition fk_t4 : State := Eval vm_compute in ex_next fk_t3 fk_b4.
Definition fk_b5 : Block :=
  Eval vm_compute in ex_block fk_t4 5 [ex_att 0 (cp_of fk_b3) (cp_of fk_b4); ex_att 2 (cp_of fk_b3) (cp_of fk_b4)].
Definition fk_t5 : State := Eval vm_compute in ex_next fk_t4 fk_b5.

(** The first chain with both votes for slot 2 from slot 1. *)
Definition fk_c3 : Block :=
  Eval vm_compute in ex_block fk_s2 3 [ex_att 0 (cp_of fk_a1) (cp_of fk_a2); ex_att 1 (cp_of fk_a1) (cp_of fk_a2)].
Definition fk_u3 : State := Eval vm_compute in ex_next fk_s2 fk_c3.

#[local] Abbreviation fk_chain := (chain 1000 (ex_validators 3)).

Lemma fk_genesis : genesis_ok 1000 (ex_validators 3).
Proof. constructor; [done|repeat constructor; done|done|vm_compute; done]. Qed.

Lemma fk_start : fk_chain [] ex_genesis.
Proof. split; constructor. Qed.

Lemma fk_grow bs s b s' :
  fk_chain bs s -> wf_Block b -> length (st_Validators s) = 3%nat -> b_Slot b <= 1000 -> rooted b ->
  StateTransition s b = Ok s' -> fk_chain (b :: bs) s'.
Proof.
  intros [Hr HF] Hb Hv Hs Hro E. split; [|by constructor]. econstructor; [done..| |done].
  split; rewrite Hv; [done|]. lia.
Qed.

Ltac grow H := grow_with fk_grow H.

Lemma fk_chain1 : fk_chain [fk_a1] fk_s1. Proof. grow fk_start. Qed.
Lemma fk_chain2 : fk_chain [fk_a2; fk_a1] fk_s2. Proof. grow fk_chain1. Qed.
Lemma fk_chain3 : fk_chain [fk_a3; fk_a2; fk_a1] fk_s3. Proof. grow fk_chain2. Qed.
Lemma fk_chain_c3 : fk_chain [fk_c3; fk_a2; fk_a1] fk_u3. Proof. grow fk_chain2. Qed.
Lemma fk_fork3 : fk_chain [fk_b3] fk_t3. Proof. grow fk_start. Qed.
Lemma fk_fork4 : fk_chain [fk_b4; fk_b3] fk_t4. Proof. grow fk_fork3. Qed.
Lemma fk_fork5 : fk_chain [fk_b5; fk_b4; fk_b3] fk_t5. Proof. grow fk_fork4. Qed.

(** Distinct roots, checked. *)
Lemma distinct_roots g bs :
  NoDup (tip_root g [] :: map (fun b => (Block_HashTreeRoot b).1) bs) -> collision_free g bs.
Proof.
  intros [Hg Hnd]%list.NoDup_cons. split.
  - intros b c Hb Hc E. apply list_elem_of_lookup in Hb as [i Hi], Hc as [j Hj].
    assert (i = j) as <-; [|congruence]. eapply NoDup_lookup; [exact Hnd|by rewrite list_lookup_fmap, Hi|].
    rewrite list_lookup_fmap, Hj. exact (f_equal Some (eq_sym E)).
  - intros b Hb E. apply Hg. rewrite <- E. apply list_elem_of_fmap. by exists b.
Qed.

Lemma fk_free : collision_free ex_genesis ([fk_a3; fk_a2; fk_a1] ++ [fk_b5; fk_b4; fk_b3]).
Proof. apply distinct_roots. apply (bool_decide_unpack _). vm_compute. exact I. Qed.
Lemma fk_free_c : collision_free ex_genesis ([fk_c3; fk_a2; fk_a1] ++ [fk_b5; fk_b4; fk_b3]).
Proof. apply distinct_roots. apply (bool_decide_unpack _). vm_compute. exact I. Qed.

(** C33: Pooled votes.  The votes for a target count together whatever their sources, and the last one
    decides what is finalized: with three validators, two chains of one genesis finalize
    conflicting checkpoints although no validator voted twice for a slot, around another of its
    votes, or for an empty slot. *)
Theorem finality_conflict_possible :
  exists bs1 bs2 s1 s2, fk_chain bs1 s1 /\ fk_chain bs2 s2 /\ collision_free ex_genesis (bs1 ++ bs2) /\
    cp_Slot (st_LatestFinalized s1) = 1 /\ cp_Slot (st_LatestFinalized s2) = 3 /\
    st_HistoricalBlockHashes s2 !! 1%nat <> Some (cp_Root (st_LatestFinalized s1)) /\
    forall v, ~ offence (chain_votes (bs1 ++ bs2)) v.
Proof.
  exists [fk_a3; fk_a2; fk_a1], [fk_b5; fk_b4; fk_b3], fk_s3, fk_t5.
  split; [exact fk_chain3|]. split; [exact fk_fork5|]. split; [exact fk_free|].
  split; [vm_compute; reflexivity|]. split; [vm_compute; reflexivity|].
  split; [vm_compute; discriminate|]. intros v. apply blameless_spec. vm_compute. reflexivity.
Qed.

Lemma fk_link : supermajority_link (ex_validators 3) fk_u3 [fk_c3; fk_a2; fk_a1] (cp_of fk_a1) (cp_of fk_a2).
Proof.
  exists [0; 1]%nat. split; [apply (bool_decide_unpack _); vm_compute; exact I|].
  split; [vm_compute; lia|]. intros v Hv.
  exists (ex_att (Z.of_nat v) (cp_of fk_a1) (cp_of fk_a2)).
  apply elem_of_cons in Hv as [->|[->|Hv%elem_of_nil]%elem_of_cons]; [..|done];
    (split; [apply (bool_decide_unpack _); vm_compute; exact I|]; split; [|split; [reflexivity|split; reflexivity]];
     constructor; vm_compute; try reflexivity; try lia; by split).
Qed.
Lemma fk_no_slot j : (Z.to_nat (cp_Slot (cp_of fk_a1)) < j < Z.to_nat (cp_Slot (cp_of fk_a2)))%nat -> ~ slot_justified fk_t5 j.
Proof. change (Z.to_nat (cp_Slot (cp_of fk_a1))) with 1%nat. change (Z.to_nat (cp_Slot (cp_of fk_a2))) with 2%nat. lia. Qed.

(** Had both votes for slot 2 come from slot 1, the fork could not have passed it unpunished. *)
Lemma accountable_safety_witness :
  third_offends 3 (chain_votes ([fk_c3; fk_a2; fk_a1] ++ [fk_b5; fk_b4; fk_b3])).
Proof.
  destruct (accountable_safety 1000 (ex_validators 3) [fk_c3; fk_a2; fk_a1] [fk_b5; fk_b4; fk_b3] fk_u3 fk_t5
              (cp_of fk_a1) (cp_of fk_a2) 3 fk_genesis fk_chain_c3 fk_fork5 fk_free_c fk_link) as [H|H].
  - split; vm_compute; reflexivity.
  - apply Nat.leb_le. vm_compute. reflexivity.
  - exact fk_no_slot.
  - vm_compute in H. discriminate H.
  - exact H.
Defined.

Lemma justified_blocks_agree_witness :
  st_HistoricalBlockHashes fk_s2 !! 1%nat = st_HistoricalBlockHashes fk_s3 !! 1%nat \/
  third_offends 3 (chain_votes ([fk_a2; fk_a1] ++ [fk_a3; fk_a2; fk_a1])).
Proof.
  apply (justified_blocks_agree 1000 (ex_validators 3) [fk_a2; fk_a1] [fk_a3; fk_a2; fk_a1] fk_s2 fk_s3 1
           fk_genesis fk_chain2 fk_chain3).
  - eapply collision_free_mono; [|exact fk_free]. intros b Hb. apply elem_of_app. left.
    apply elem_of_app in Hb as [Hb|Hb]; [by right|done].
  - split; vm_compute; reflexivity.
  - split; vm_compute; reflexivity.
Defined.

Lemma finalization_evidence_witness :
  exists a, a ∈ bb_Attestations (b_Body fk_a3) /\ st_LatestFinalized fk_s3 = ad_Source (att_Data a).
Proof.
  destruct (finalization_evidence 1000 (ex_validators 3) fk_a3 [fk_a2; fk_a1] fk_s2 fk_s3
              fk_genesis fk_chain2 fk_chain3) as [H|(a & Ha & E & _)].
  - vm_compute. reflexivity.
  - vm_compute in H. discriminate H.
  - exists a. split; [exact Ha|exact E].
Defined.
End Example.
