(* ===== verification/Progress.v ===== *)
(** The other half of the voting rule: votes that arrive in time are not lost, and two thirds of
    the validators suffice.

    Finality.v shows that a justified slot has a quorum of votes behind it.  Here the converse:
    once two thirds of the validators each have a timely vote for a block in the blocks of a
    chain, its slot is justified, whichever blocks carry the votes and whatever else they carry;
    and a block whose votes all link one checkpoint to the next finalizes. *)
From S2P Require Import Prelude Slot Bitlist Types Hash Concrete GoStd VoteRule Attestations Transition Chain Finality.
Local Open Scope Z_scope.

Section Rule.
Context (n : nat).

(** The vote [a] would count if its target were not justified yet. *)
Definition timely (hist : list root) (F0 : Z) (J : nat -> Prop) (a : Attestation) : Prop :=
  sound n hist J a /\ IsJustifiableAfter (Z.of_nat (tgt_slot a)) F0 = true.

(** The vote of [v] for the block [r] of slot [t] is recorded, or no longer needed. *)
Definition settled (L : ledger) (r : root) (t v : nat) : Prop := justified_in L t \/ voted L r v.

Section Step.
Context (hist : list root) (F0 : Z).

Lemma timely_acceptable L a : timely hist F0 (justified_in L) a -> ~ justified_in L (tgt_slot a) ->
  acceptable n hist F0 L a.
Proof. intros [[] Hja] Hno. by constructor. Qed.

Context (r : root) (t : nat) (Hone : forall k, hist !! k = Some r -> k = t).

Lemma acceptable_slot L a : acceptable n hist F0 L a -> tgt_root a = r -> tgt_slot a = t.
Proof. intros Ha E. apply Hone. rewrite <- E. apply Ha. Qed.

Lemma justify_slot L a F' : wf_ledger n hist L -> acceptable n hist F0 L a -> tgt_root a = r ->
  justified_in (justify L a F') t.
Proof.
  intros HL Ha E. unfold justified_in. cbn. rewrite (acceptable_slot L a Ha E). apply list_lookup_insert_eq.
  rewrite (wl_bits _ _ _ HL). rewrite <- (acceptable_slot L a Ha E). eapply lookup_lt_Some, Ha.
Qed.

Lemma record_voted L a v : wf_ledger n hist L -> acceptable n hist F0 L a -> voted L (tgt_root a) v \/ v = voter a ->
  new_tally n L a !! v = Some true.
Proof.
  intros HL Ha Hv. unfold new_tally. pose proof (length_tally _ _ L (tgt_root a) HL) as Hlen.
  destruct (decide (v = voter a)) as [->|Hne].
  - apply list_lookup_insert_eq. rewrite Hlen. apply Ha.
  - rewrite list_lookup_insert_ne by done. destruct Hv as [(ws & Hw & Hv)| ->]; [|done]. unfold tally. by rewrite Hw.
Qed.

Lemma step_settled L a L' v : vote_step n hist F0 L a L' -> wf_ledger n hist L ->
  settled L r t v -> settled L' r t v.
Proof.
  intros Hs HL [Hj|Hv]; [left; by eapply vote_step_justified_mono|].
  destruct Hs as [| |Ha Hnv Hsm|Ha|Ha]; try (by right).
  - right. destruct (decide (tgt_root a = r)) as [E|E].
    + exists (new_tally n L a). cbn. rewrite E, lookup_insert_eq. split; [done|].
      apply record_voted; [done|done|]. left. by rewrite E.
    + destruct Hv as (ws & Hw & Hv). exists ws. cbn. by rewrite lookup_insert_ne.
  - destruct (decide (tgt_root a = r)) as [E|E]; [left; by apply justify_slot|right].
    destruct Hv as (ws & Hw & Hv). exists ws. cbn. by rewrite lookup_delete_ne.
  - destruct (decide (tgt_root a = r)) as [E|E]; [left; by apply justify_slot|right].
    destruct Hv as (ws & Hw & Hv). exists ws. cbn. by rewrite lookup_delete_ne.
Qed.

Lemma step_counts L a L' : vote_step n hist F0 L a L' -> wf_ledger n hist L ->
  timely hist F0 (justified_in L) a -> tgt_root a = r -> settled L' r t (voter a).
Proof.
  intros Hs HL Ht E. destruct (decide (lg_justified L !! t = Some true)) as [Hj|Hj].
  { left. by eapply vote_step_justified_mono. }
  assert (Hacc : acceptable n hist F0 L a).
  { apply timely_acceptable; [done|]. replace (tgt_slot a) with t; [done|]. symmetry. apply Hone.
    rewrite <- E. apply Ht. }
  destruct Hs as [| |Ha Hnv Hsm|Ha|Ha]; [done|right; by rewrite <- E| |left; by apply justify_slot..].
  right. exists (new_tally n L a). cbn. rewrite E, lookup_insert_eq. split; [done|]. apply record_voted; auto.
Qed.

Lemma run_settled L atts L' v : vote_run n hist F0 L atts L' -> wf_ledger n hist L ->
  settled L r t v -> settled L' r t v.
Proof. induction 1; eauto using step_settled, vote_step_wf. Qed.

Lemma run_counts L atts L' a : vote_run n hist F0 L atts L' -> wf_ledger n hist L -> a ∈ atts ->
  timely hist F0 (justified_in L) a -> tgt_root a = r -> settled L' r t (voter a).
Proof.
  intros Hr HL Ha Ht E. induction Hr as [|L b L1 atts L2 Hs Hr IH]; [by apply elem_of_nil in Ha|].
  pose proof (vote_step_wf _ _ _ _ _ _ Hs HL) as HL1. apply elem_of_cons in Ha as [<-|Ha].
  - eapply run_settled; [exact Hr|done|]. by eapply step_counts.
  - apply IH; [done|done|]. destruct Ht as [Hso Hja]. split; [|done].
    eapply sound_mono; [done| |exact Hso]. intros i. by eapply vote_step_justified_mono.
Qed.
End Step.

Lemma settled_quorum L r t V : (0 < n)%nat -> no_quorum_open n L -> NoDup V -> (2 * n <= 3 * length V)%nat ->
  (forall v, v ∈ V -> settled L r t v) -> justified_in L t.
Proof.
  intros Hn HL Hnd Hsz Hall. destruct (decide (lg_justified L !! t = Some true)) as [|Hno]; [done|exfalso].
  destruct V as [|v0 V]; [cbn in Hsz; lia|].
  destruct (Hall v0 ltac:(left)) as [|(ws & Hw & _)]; [done|]. apply (HL r ws Hw). unfold supermajority.
  etrans; [exact Hsz|]. apply Nat.mul_le_mono_l, submseteq_length, NoDup_submseteq; [done|].
  intros v Hv. apply elem_of_supporters. destruct (Hall v Hv) as [|(ws' & Hw' & Hv')]; [done|]. congruence.
Qed.
End Rule.

(** A block whose votes all link [src] to [tgt]. *)
Section Link.
Context (n : nat) (hist : list root) (F0 : Z) (src tgt : Checkpoint).
#[local] Abbreviation t := (Z.to_nat (cp_Slot tgt)).

Definition for_link (a : Attestation) : Prop := ad_Source (att_Data a) = src /\ ad_Target (att_Data a) = tgt.

Lemma link_slots a : for_link a -> src_slot a = Z.to_nat (cp_Slot src) /\ tgt_slot a = t.
Proof. unfold src_slot, tgt_slot. by intros [-> ->]. Qed.

Lemma run_link_done L atts L' : vote_run n hist F0 L atts L' -> Forall for_link atts -> justified_in L t -> L' = L.
Proof.
  induction 1 as [|L a L1 atts L2 Hs Hr IH]; intros Hl Hj; [done|]. apply list.Forall_cons in Hl as [Ha Hl].
  apply link_slots in Ha as [_ Ht]. assert (L1 = L) as ->; [|by apply IH].
  destruct Hs as [| |Hacc|Hacc|Hacc]; try done; exfalso; apply (acc_target _ _ _ _ _ Hacc); by rewrite Ht.
Qed.

Lemma run_link L atts L' : vote_run n hist F0 L atts L' -> Forall for_link atts ->
  (forall a, for_link a -> ~ gap F0 a) -> ~ justified_in L t -> justified_in L' t -> lg_J L' = tgt /\ lg_F L' = src.
Proof.
  intros Hr Hl Hg. induction Hr as [|L a L1 atts L2 Hs Hr IH]; intros Hno Hyes; [done|].
  pose proof Hl as [Ha Hl']%list.Forall_cons. destruct (decide (lg_justified L1 !! t = Some true)) as [Hj|Hj].
  - rewrite (run_link_done _ _ _ Hr Hl' Hj). destruct Hs as [| | |Hacc Hnv Hsm Hgap|Hacc]; try done.
    + by apply Hg in Hgap.
    + cbn. by destruct Ha as [-> ->].
  - by apply IH.
Qed.
End Link.

(** * Chains *)

Section Chains.
Context {HW : HashWalker} {HWL : HashWalkerLaws HW} {MR : MapRange} (t0 : Z) (vs : list Validator).
#[local] Abbreviation g := (GenerateGenesis t0 vs).
#[local] Abbreviation n := (length vs).

(** Validator [v] has a timely vote for the block [r] in a block of the chain. *)
Definition timely_vote (s s' : State) (b : Block) (r : root) (v : nat) : Prop :=
  exists a, a ∈ bb_Attestations (b_Body b) /\ voter a = v /\ tgt_root a = r /\
    timely n (st_HistoricalBlockHashes s') (cp_Slot (st_LatestFinalized s)) (slot_justified s) a.

Inductive supports (r : root) (v : nat) : list Block -> Prop :=
| supports_here b bs s s' :
    reachable g bs s -> StateTransition s b = Ok s' -> timely_vote s s' b r v -> supports r v (b :: bs)
| supports_below b bs : supports r v bs -> supports r v (b :: bs).

Lemma reachable_det bs s s' : reachable g bs s -> reachable g bs s' -> s = s'.
Proof.
  intros H. revert s'. induction H as [|bs s b s1 H IH Hb Hroom E]; intros s' H';
    inversion H' as [|? s0 ? ? H0 Hb0 Hroom0 E0]; subst; [done|].
  rewrite <- (IH _ H0) in E0. congruence.
Qed.

Lemma last_block bs b s s' : reachable g bs s -> reachable g (b :: bs) s' -> wf_Block b /\ roomy s (b_Slot b).
Proof.
  intros Hr H. inversion H as [|? s0 ? ? Hr0 Hb Hroom E0]; subst. by rewrite (reachable_det _ _ _ Hr Hr0).
Qed.

(** A state before a block it has room for has room for its own votes. *)
Lemma roomy_capacity s slot : wf_state s -> roomy s slot -> st_Slot s <= slot -> in_capacity s.
Proof.
  intros Hs [H1 H2] Hle. split; [done|]. pose proof (ws_history _ Hs). pose proof (ws_header_slot _ Hs).
  rewrite Nat2Z.inj_mul. eapply Z.le_lt_trans; [|exact H2]. apply Z.mul_le_mono_nonneg_r; lia.
Qed.

(** One more block: what was settled stays settled, and its timely votes are. *)
Lemma block_settles s s' b L (r : root) (t : nat) :
  0 < Z.of_nat n < 2 ^ 62 -> wf_state s -> st_Validators s = vs -> wf_Block b -> roomy s (b_Slot b) -> StateTransition s b = Ok s' ->
  StateRep s L -> no_quorum_open n L -> (forall k, st_HistoricalBlockHashes s' !! k = Some r -> k = t) ->
  exists L', StateRep s' L' /\ no_quorum_open n L' /\
    (forall v, settled L r t v -> settled L' r t v) /\ (forall v, timely_vote s s' b r v -> settled L' r t v).
Proof.
  intros Hpos Hs Hv Hb Hroom E HR HQ Hone.
  assert (Hn : numValidators_of s <> 0).
  { unfold numValidators_of. rewrite Hv, u64_small by (unfold is_u64; lia). lia. }
  destruct (StateTransition_ledger s b s' L Hs Hb Hn Hroom E HR)
    as (L1 & L' & HR' & _ & HL1v & HL1j & _ & HF & Hwf & Hrun).
  rewrite Hv in Hwf, Hrun. rewrite HF in Hrun. exists L'. split; [done|].
  assert (Hjust : forall k, justified_in L k -> justified_in L1 k)
    by (unfold justified_in; rewrite HL1j; intros k; apply lookup_app_l_Some).
  split; [|split].
  - eapply run_no_quorum; [exact Hrun|]. intros r' ws. rewrite HL1v. apply HQ.
  - intros v Hset. eapply run_settled; [exact Hone|exact Hrun|done|].
    destruct Hset as [Hj|(ws & Hw & Hvt)]; [left; by apply Hjust|right]. exists ws. by rewrite HL1v.
  - intros v (a & Ha & <- & Er & [Hso Hja]). eapply run_counts; [exact Hone|exact Hrun|done|done| |done].
    split; [|done]. eapply sound_mono; [done| |exact Hso]. intros k Hk. apply Hjust.
    by apply (slot_justified_rep s L).
Qed.

(** Two thirds of the validators, each with an open vote in the state or a timely vote in the block. *)
Lemma block_quorum s s' b (r : root) (t : nat) V :
  0 < Z.of_nat n < 2 ^ 62 -> wf_state s -> st_Validators s = vs -> wf_Block b -> roomy s (b_Slot b) ->
  StateTransition s b = Ok s' -> (forall k, st_HistoricalBlockHashes s' !! k = Some r -> k = t) ->
  NoDup V -> (2 * n <= 3 * length V)%nat ->
  (forall v, v ∈ V -> vote_stored s r v \/ timely_vote s s' b r v) -> slot_justified s' t.
Proof.
  intros Hpos Hs Hv Hb Hroom E Hone Hnd Hsz Hall.
  assert (Hlt : st_Slot s < b_Slot b).
  { destruct (Z.le_gt_cases (b_Slot b) (st_Slot s)) as [Hle|]; [|lia]. unfold StateTransition in E. by rewrite ProcessSlots_past in E. }
  destruct (ws_ledger _ Hs) as (L & HR & HQ). rewrite Hv in HQ.
  destruct (block_settles s s' b L r t Hpos Hs Hv Hb Hroom E HR HQ Hone) as (L' & HR' & HQ' & Hold & Hnew).
  apply (slot_justified_rep _ _ _ HR'), (settled_quorum n L' r t V); try done; [lia|].
  intros v Hin. destruct (Hall v Hin) as [Hst|Ht]; [|by apply Hnew]. apply Hold. right.
  apply (vote_stored_rep s L); [done|apply (roomy_capacity s (b_Slot b)); [done|done|lia]|done].
Qed.

Context (Hok : genesis_ok t0 vs).

Lemma chain_settled bs s (r : root) (t : nat) : reachable g bs s ->
  (forall k, st_HistoricalBlockHashes s !! k = Some r -> k = t) ->
  exists L, StateRep s L /\ no_quorum_open n L /\ forall v, supports r v bs -> settled L r t v.
Proof.
  destruct (genesis_chain_ok t0 vs Hok) as (Hg & Hn & Hh & Hv).
  induction 1 as [|bs s b s' Hr IH Hb Hroom E]; intros Hone.
  - exists (mkLedger ∅ [] (st_LatestJustified g) (st_LatestFinalized g)). split_and!.
    + unfold GenerateGenesis. destruct (BlockBody_HashTreeRoot _). constructor; done.
    + intros r' ws Hw. cbn in Hw. by rewrite lookup_empty in Hw.
    + intros v Hs. inversion Hs.
  - destruct (reachable_inv _ _ _ Hg Hn Hr) as (Hs & Hvs & _). rewrite Hv in Hvs.
    destruct (reachable_accepted _ _ _ _ _ Hg Hn Hr Hb Hroom E) as [r' Ha].
    destruct IH as (L & HR & HQ & Hset).
    { intros k Hk. apply Hone. rewrite (ac_history _ _ _ _ Ha). by apply lookup_app_l_Some. }
    destruct (block_settles s s' b L r t (go_number _ _ Hok) Hs Hvs Hb Hroom E HR HQ Hone) as (L' & HR' & HQ' & Hold & Hnew).
    exists L'. split_and!; [done..|]. intros v Hsup.
    inversion Hsup as [b' bs' s0 s0' Hr0 E0 Ht|b' bs' Hsup']; subst; [|by apply Hold, Hset].
    rewrite <- (reachable_det _ _ _ Hr Hr0) in *. rewrite E in E0. apply Ok_inj in E0 as <-. by apply Hnew.
Qed.

(** A root other than the zero hash is at one slot of a chain without collisions. *)
Lemma chain_root_slot bs s r t : chain t0 vs bs s -> collision_free g bs -> r <> ZeroHash ->
  st_HistoricalBlockHashes s !! t = Some r -> forall k, st_HistoricalBlockHashes s !! k = Some r -> k = t.
Proof.
  intros Hc Hf Hr Ht k Hk. destruct (chain_linked_all t0 vs Hok _ _ Hc) as [Hl Hh]. rewrite Hh in *.
  by eapply root_slot.
Qed.

Lemma quorum_settles bs s r t V : chain t0 vs bs s -> collision_free g bs -> r <> ZeroHash ->
  st_HistoricalBlockHashes s !! t = Some r -> NoDup V -> (2 * n <= 3 * length V)%nat ->
  (forall v, v ∈ V -> supports r v bs) -> slot_justified s t.
Proof.
  intros Hc Hf Hr Ht Hnd Hsz Hall.
  destruct (chain_settled bs s r t (proj1 Hc) (chain_root_slot bs s r t Hc Hf Hr Ht)) as (L & HR & HQ & Hset).
  apply (slot_justified_rep _ _ _ HR), (settled_quorum n L r t V); try done; [pose proof (go_number _ _ Hok); lia|auto].
Qed.
End Chains.

(** * Theorems *)

Section Properties.
Context {HW : HashWalker} {HWL : HashWalkerLaws HW} {MR : MapRange}.

(** C20: Two thirds suffice.  Once two thirds of the validators each have a vote for the block
    [r] in some block of the chain, in time (the source justified and the slot of [r]
    justifiable after the slot finalized, both in the state before that block), the slot of [r] is
    justified, whatever other votes the blocks carry and in whatever order. *)
Theorem supermajority_justifies (t0 : Z) (vs : list Validator) (bs : list Block) (s : State)
    (r : root) (t : nat) (V : list nat) :
  genesis_ok t0 vs -> chain t0 vs bs s -> collision_free (GenerateGenesis t0 vs) bs -> r <> ZeroHash ->
  st_HistoricalBlockHashes s !! t = Some r -> NoDup V -> (2 * length vs <= 3 * length V)%nat ->
  (forall v, v ∈ V -> supports t0 vs r v bs) -> slot_justified s t.
Proof. intros Hok. by apply quorum_settles. Qed.

(** C11: Progress of finality.  A block whose votes are all for one link, from a justified
    checkpoint to a later slot that is not justified yet, with no justifiable slot in between and
    two thirds of the validators voting, makes the target the latest justified checkpoint
    and finalizes the source. *)
Theorem supermajority_finalizes (t0 : Z) (vs : list Validator) (b : Block) (bs : list Block) (s s' : State)
    (src tgt : Checkpoint) (V : list nat) :
  genesis_ok t0 vs -> chain t0 vs (b :: bs) s' -> reachable (GenerateGenesis t0 vs) bs s ->
  collision_free (GenerateGenesis t0 vs) (b :: bs) -> cp_Root tgt <> ZeroHash ->
  StateTransition s b = Ok s' -> Forall (for_link src tgt) (bb_Attestations (b_Body b)) ->
  ~ slot_justified s (Z.to_nat (cp_Slot tgt)) ->
  (forall k : nat, (Z.to_nat (cp_Slot src) < k < Z.to_nat (cp_Slot tgt))%nat ->
     IsJustifiableAfter (Z.of_nat k) (cp_Slot (st_LatestFinalized s)) = false) ->
  NoDup V -> (2 * length vs <= 3 * length V)%nat ->
  (forall v, v ∈ V -> timely_vote vs s s' b (cp_Root tgt) v) ->
  slot_justified s' (Z.to_nat (cp_Slot tgt)) /\ st_LatestJustified s' = tgt /\ st_LatestFinalized s' = src.
Proof.
  intros Hok Hc Hr Hf Hz E Hl Hno Hgap Hnd Hsz Hall. destruct (genesis_chain_ok t0 vs Hok) as (Hg & Hn & Hh & Hv).
  destruct (reachable_inv _ _ _ Hg Hn Hr) as (Hs & Hvs & _). rewrite Hv in Hvs.
  destruct (last_block t0 vs bs b s s' Hr (proj1 Hc)) as [Hb Hroom]. destruct (ws_ledger _ Hs) as (L & HR & _).
  assert (Hns : numValidators_of s <> 0) by (unfold numValidators_of in *; by rewrite Hvs, <- Hv).
  assert (Htgt : (0 < Z.to_nat (cp_Slot tgt))%nat /\
    st_HistoricalBlockHashes s' !! Z.to_nat (cp_Slot tgt) = Some (cp_Root tgt)).
  { destruct V as [|v0 V]; [pose proof (go_number _ _ Hok); cbn in Hsz; lia|].
    destruct (Hall v0 ltac:(left)) as (a & Ha & _ & Er & [Hso _]).
    pose proof (so_tgt_root _ _ _ _ Hso) as Ht. rewrite Er in Ht.
    pose proof (proj1 (list.Forall_forall _ _) Hl a Ha) as Hla. pose proof (so_order _ _ _ _ Hso) as Ho.
    rewrite (proj2 (link_slots src tgt a Hla)) in *. split; [lia|done]. }
  destruct Htgt as [Hpos Ht]. assert (Hyes : slot_justified s' (Z.to_nat (cp_Slot tgt))).
  { eapply (quorum_settles t0 vs Hok (b :: bs)); try done. intros v Hin. by eapply supports_here, Hall. }
  split; [done|].
  destruct (StateTransition_ledger s b s' L Hs Hb Hns Hroom E HR)
    as (L1 & L' & HR' & _ & _ & HL1j & _ & HF & _ & Hrun). rewrite HF in Hrun.
  rewrite (sr_J _ _ HR'), (sr_F _ _ HR'). eapply run_link; [exact Hrun|done| | |by apply (slot_justified_rep _ _ _ HR')].
  - intros a [Hsrc Htgt]%link_slots (k & Hk & Hja). rewrite Hsrc, Htgt in Hk. by rewrite Hgap in Hja.
  - unfold justified_in. rewrite HL1j. intros [Hj|[Hge Hj]]%lookup_app_Some.
    + apply Hno. by apply (slot_justified_rep _ _ _ HR).
    + destruct (_ - _)%nat as [|k] eqn:Ek; cbn in Hj; [|by apply lookup_replicate in Hj as [? _]].
      injection Hj as Hj%Z.eqb_eq. apply header_slot_zero in Hj; [|done].
      pose proof (wl_bits _ _ _ (sr_wf _ _ HR)) as Hlen. rewrite Hj in Hlen. cbn in Hlen.
      lia.
Qed.
End Properties.

(** * Two votes in two blocks, and a link in one *)

Section Example.
#[local] Existing Instance toy_walker.
#[local] Existing Instance canonical_range.
#[local] Abbreviation fk_chain := (chain 1000 (ex_validators 3)).

(** After [fk_a1], the votes for slot 1 arrive one block apart. *)
Definition pg_b2 : Block := Eval vm_compute in ex_block fk_s1 2 [ex_att 0 ex_cp0 (cp_of fk_a1)].
Definition pg_s2 : State := Eval vm_compute in ex_next fk_s1 pg_b2.
Definition pg_b3 : Block := Eval vm_compute in ex_block pg_s2 3 [ex_att 2 ex_cp0 (cp_of fk_a1)].
Definition pg_s3 : State := Eval vm_compute in ex_next pg_s2 pg_b3.

Lemma pg_chain2 : fk_chain [pg_b2; fk_a1] pg_s2. Proof. grow_with fk_grow fk_chain1. Qed.
Lemma pg_chain3 : fk_chain [pg_b3; pg_b2; fk_a1] pg_s3. Proof. grow_with fk_grow pg_chain2. Qed.

Lemma pg_free : collision_free ex_genesis [pg_b3; pg_b2; fk_a1].
Proof. apply distinct_roots. apply (bool_decide_unpack _). vm_compute. exact I. Qed.
Lemma fk_free_link : collision_free ex_genesis [fk_c3; fk_a2; fk_a1].
Proof. apply distinct_roots. apply (bool_decide_unpack _). vm_compute. exact I. Qed.

(** A vote is timely: every condition is evaluated. *)
Ltac timely_by att :=
  exists att; split; [apply (bool_decide_unpack _); vm_compute; exact I|];
  split; [reflexivity|]; split; [vm_compute; reflexivity|];
  split; [constructor; vm_compute; try reflexivity; try lia; by split|vm_compute; reflexivity].

Lemma pg_timely2 : timely_vote (ex_validators 3) fk_s1 pg_s2 pg_b2 (cp_Root (cp_of fk_a1)) 0.
Proof. timely_by (ex_att 0 ex_cp0 (cp_of fk_a1)). Qed.
Lemma pg_timely3 : timely_vote (ex_validators 3) pg_s2 pg_s3 pg_b3 (cp_Root (cp_of fk_a1)) 2.
Proof. timely_by (ex_att 2 ex_cp0 (cp_of fk_a1)). Qed.
Lemma fk_timely v : v ∈ [0; 1]%nat -> timely_vote (ex_validators 3) fk_s2 fk_u3 fk_c3 (cp_Root (cp_of fk_a2)) v.
Proof.
  intros [->|[->|Hv%elem_of_nil]%elem_of_cons]%elem_of_cons; [..|done].
  - timely_by (ex_att 0 (cp_of fk_a1) (cp_of fk_a2)).
  - timely_by (ex_att 1 (cp_of fk_a1) (cp_of fk_a2)).
Qed.

Lemma pg_supports v : v ∈ [0; 2]%nat ->
  supports 1000 (ex_validators 3) (cp_Root (cp_of fk_a1)) v [pg_b3; pg_b2; fk_a1].
Proof.
  intros [->|[->|Hv%elem_of_nil]%elem_of_cons]%elem_of_cons; [..|done].
  - apply supports_below. eapply supports_here; [exact (proj1 fk_chain1)| |exact pg_timely2]. vm_compute. reflexivity.
  - eapply supports_here; [exact (proj1 pg_chain2)| |exact pg_timely3]. vm_compute. reflexivity.
Qed.

Lemma supermajority_justifies_witness : slot_justified pg_s3 1 /\ ~ slot_justified pg_s2 1.
Proof.
  split.
  - apply (supermajority_justifies 1000 (ex_validators 3) [pg_b3; pg_b2; fk_a1] pg_s3 (cp_Root (cp_of fk_a1)) 1 [0; 2]%nat
      fk_genesis pg_chain3 pg_free).
    + vm_compute. discriminate.
    + vm_compute. reflexivity.
    + apply (bool_decide_unpack _). vm_compute. exact I.
    + apply Nat.leb_le. vm_compute. reflexivity.
    + exact pg_supports.
  - intros [_ H]. vm_compute in H. discriminate H.
Defined.

Lemma supermajority_finalizes_witness :
  slot_justified fk_u3 2 /\ st_LatestJustified fk_u3 = cp_of fk_a2 /\ st_LatestFinalized fk_u3 = cp_of fk_a1.
Proof.
  apply (supermajority_finalizes 1000 (ex_validators 3) fk_c3 [fk_a2; fk_a1] fk_s2 fk_u3 (cp_of fk_a1) (cp_of fk_a2)
    [0; 1]%nat fk_genesis fk_chain_c3 (proj1 fk_chain2) fk_free_link).
  - vm_compute. discriminate.
  - vm_compute. reflexivity.
  - repeat constructor.
  - intros [H _]. vm_compute in H. discriminate H.
  - intros k Hk. exfalso. revert Hk. change (Z.to_nat (cp_Slot (cp_of fk_a1))) with 1%nat.
    change (Z.to_nat (cp_Slot (cp_of fk_a2))) with 2%nat. lia.
  - apply (bool_decide_unpack _). vm_compute. exact I.
  - apply Nat.leb_le. vm_compute. reflexivity.
  - exact fk_timely.
Defined.
End Example.
