(* ===== verification/Storage.v ===== *)
(** storage/interface.go and storage/memory/memory.go: the block and state store.

    [StorageOps] is the Go interface and [StorageLaws] what its clients rely on; the fork
    choice is developed against the two classes, and the in-memory implementation at the end
    is one instance.  Stored values are never mutated by the code after they are put, so a
    stored pointer is its value; the locks make every operation atomic. *)
From S2P Require Import Prelude Types GoStd.

(** * The interface *)

Class StorageOps (T : Type) := {
  GetBlock : T -> root -> option Block;
  PutBlock : T -> root -> Block -> T;
  GetSignedBlock : T -> root -> option SignedBlockWithAttestation;
  PutSignedBlock : T -> root -> SignedBlockWithAttestation -> T;
  GetState : T -> root -> option State;
  PutState : T -> root -> State -> T;
  GetAllBlocks : T -> gmap root Block;
  GetAllStates : T -> gmap root State }.

Class StorageLaws (T : Type) {OPS : StorageOps T} : Prop := {
  GetBlock_PutBlock t r b r' :
    GetBlock (PutBlock t r b) r' = if decide (r = r') then Some b else GetBlock t r';
  GetBlock_PutSignedBlock t r sb r' : GetBlock (PutSignedBlock t r sb) r' = GetBlock t r';
  GetBlock_PutState t r s r' : GetBlock (PutState t r s) r' = GetBlock t r';
  GetSignedBlock_PutSignedBlock t r sb r' :
    GetSignedBlock (PutSignedBlock t r sb) r' = if decide (r = r') then Some sb else GetSignedBlock t r';
  GetSignedBlock_PutBlock t r b r' : GetSignedBlock (PutBlock t r b) r' = GetSignedBlock t r';
  GetSignedBlock_PutState t r s r' : GetSignedBlock (PutState t r s) r' = GetSignedBlock t r';
  GetState_PutState t r s r' :
    GetState (PutState t r s) r' = if decide (r = r') then Some s else GetState t r';
  GetState_PutBlock t r b r' : GetState (PutBlock t r b) r' = GetState t r';
  GetState_PutSignedBlock t r sb r' : GetState (PutSignedBlock t r sb) r' = GetState t r';
  GetAllBlocks_lookup t r : GetAllBlocks t !! r = GetBlock t r;
  GetAllStates_lookup t r : GetAllStates t !! r = GetState t r }.

Create Rewrite HintDb storage.
#[export] Hint Rewrite @GetBlock_PutBlock @GetBlock_PutSignedBlock @GetBlock_PutState
  @GetSignedBlock_PutSignedBlock @GetSignedBlock_PutBlock @GetSignedBlock_PutState
  @GetState_PutState @GetState_PutBlock @GetState_PutSignedBlock
  @GetAllBlocks_lookup @GetAllStates_lookup using typeclasses eauto : storage.

Section Derived.
Context {T : Type} `{StorageLaws T}.

Lemma GetAllBlocks_PutBlock t r b : GetAllBlocks (PutBlock t r b) = <[r := b]> (GetAllBlocks t).
Proof.
  apply map_eq. intros r'. autorewrite with storage.
  case_decide; simplify_map_eq; by autorewrite with storage.
Qed.
Lemma GetAllBlocks_PutSignedBlock t r sb : GetAllBlocks (PutSignedBlock t r sb) = GetAllBlocks t.
Proof. apply map_eq. intros r'. by autorewrite with storage. Qed.
Lemma GetAllBlocks_PutState t r s : GetAllBlocks (PutState t r s) = GetAllBlocks t.
Proof. apply map_eq. intros r'. by autorewrite with storage. Qed.

(** Storing a block, its envelope and its post-state: what the three readers see. *)
Definition store_all (t : T) (r : root) (b : Block) (sb : SignedBlockWithAttestation) (s : State) : T :=
  PutState (PutSignedBlock (PutBlock t r b) r sb) r s.

Lemma GetBlock_store_all t r b sb s r' :
  GetBlock (store_all t r b sb s) r' = if decide (r = r') then Some b else GetBlock t r'.
Proof. unfold store_all. by autorewrite with storage. Qed.
Lemma GetState_store_all t r b sb s r' :
  GetState (store_all t r b sb s) r' = if decide (r = r') then Some s else GetState t r'.
Proof. unfold store_all. by autorewrite with storage. Qed.
Lemma GetSignedBlock_store_all t r b sb s r' :
  GetSignedBlock (store_all t r b sb s) r' = if decide (r = r') then Some sb else GetSignedBlock t r'.
Proof. unfold store_all. by autorewrite with storage. Qed.
Lemma GetAllBlocks_store_all t r b sb s :
  GetAllBlocks (store_all t r b sb s) = <[r := b]> (GetAllBlocks t).
Proof.
  unfold store_all. by rewrite GetAllBlocks_PutState, GetAllBlocks_PutSignedBlock, GetAllBlocks_PutBlock.
Qed.
End Derived.

(** * The in-memory implementation *)

Module memory.
Record Store := mkStore {
  blocks : gmap root Block;
  signedBlocks : gmap root SignedBlockWithAttestation;
  states : gmap root State }.

Definition New : Store := mkStore ∅ ∅ ∅.
Definition getBlock (m : Store) (r : root) : option Block := blocks m !! r.
Definition putBlock (m : Store) (r : root) (b : Block) : Store :=
  mkStore (<[r := b]> (blocks m)) (signedBlocks m) (states m).
Definition getSignedBlock (m : Store) (r : root) : option SignedBlockWithAttestation :=
  signedBlocks m !! r.
Definition putSignedBlock (m : Store) (r : root) (sb : SignedBlockWithAttestation) : Store :=
  mkStore (blocks m) (<[r := sb]> (signedBlocks m)) (states m).
Definition getState (m : Store) (r : root) : option State := states m !! r.
Definition putState (m : Store) (r : root) (s : State) : Store :=
  mkStore (blocks m) (signedBlocks m) (<[r := s]> (states m)).

Section Copies.
Context {MR : MapRange}.

(** [cp := make(map); for k, v := range m { cp[k] = v }] *)
Definition copy_map {V} (m : gmap root V) : gmap root V :=
  foldl (fun cp '(k, v) => <[k := v]> cp) ∅ (range 0 m).
Definition getAllBlocks (m : Store) : gmap root Block := copy_map (blocks m).
Definition getAllStates (m : Store) : gmap root State := copy_map (states m).

(** Whatever the order, the copy is the map. *)
Lemma copy_map_id {V} (m : gmap root V) : copy_map m = m.
Proof.
  unfold copy_map. rewrite <- (list_to_map_range 0 m) at 2.
  pose proof (NoDup_range_keys 0 m) as Hnd. revert Hnd. generalize (range 0 m) as l. intros l.
  assert (Hgen : forall acc : gmap root V, NoDup l.*1 -> (forall k, k ∈ l.*1 -> acc !! k = None) ->
            foldl (fun cp '(k, v) => <[k := v]> cp) acc l = acc ∪ (list_to_map l : gmap root V)).
  { induction l as [|[k v] l IH]; intros acc Hnd Hacc; simpl in *; [by rewrite (right_id ∅ (∪))|].
    apply list.NoDup_cons in Hnd as [Hk Hnd]. rewrite IH; [|done|].
    - by rewrite <- insert_union_l, insert_union_r by (apply Hacc; by left).
    - intros k' Hk'. rewrite lookup_insert_ne by (intros ->; done). apply Hacc. by right. }
  intros Hnd. rewrite Hgen; [by rewrite (left_id ∅ (∪))|done|]. intros k _. apply lookup_empty.
Qed.

#[global] Instance ops : StorageOps Store := {
  GetBlock := getBlock; PutBlock := putBlock;
  GetSignedBlock := getSignedBlock; PutSignedBlock := putSignedBlock;
  GetState := getState; PutState := putState;
  GetAllBlocks := getAllBlocks; GetAllStates := getAllStates }.

#[global] Instance laws : StorageLaws Store.
Proof.
  split; intros; cbn; unfold getAllBlocks, getAllStates; rewrite ?copy_map_id; try done;
    apply lookup_insert.
Qed.
End Copies.
End memory.
