(* ===== verification/Ghost.v ===== *)
(** chain/forkchoice/ghost.go: the LMD GHOST rule.

    The first section is the code.  The specification is the relation [ghost]: from the
    start block, go to the child that beats its siblings (most votes, then highest slot, then
    largest hash) until there is none; a vote counts for every block on the chain of its head.
    The code is shown to compute it for every block tree whose parents are older than their
    children, in particular to terminate and not to depend on the order of Go's maps. *)
From S2P Require Import Prelude Slot Bitlist Types GoStd VoteRule Storage Attestations.
Local Open Scope Z_scope.

(** * The code *)

(** The loop over the 32 positions of hashGreater. *)
Fixpoint hash_greater_from (a b : bytes) : bool :=
  match a, b with
  | x :: a', y :: b' =>
      if byte_Z y <? byte_Z x then true
      else if byte_Z x <? byte_Z y then false
      else hash_greater_from a' b'
  | _, _ => false
  end.
Definition hashGreater (a b : root) : bool := hash_greater_from a b.

Definition votes_for (vw : gmap root Z) (h : root) : Z := default 0 (vw !! h).

(** [for { b, exists := blocks[blockHash]; ... }]: one more vote for every block from the head
    of a vote down to the start. *)
Definition count_vote (blocks : gmap root Block) (rootSlot : Z) (vw : gmap root Z) (h : root)
  : outcome (gmap root Z) :=
  loop (S (size blocks))
    (fun '(vw, h) =>
       match blocks !! h with
       | None => Ok (inr vw)
       | Some b =>
           if b_Slot b <=? rootSlot then Ok (inr vw)
           else Ok (inl (<[h := votes_for vw h + 1]> vw, b_ParentRoot b))
       end) (vw, h).

(** One round of the loop over the latest attestations. *)
Definition tally_attestation (blocks : gmap root Block) (rootSlot : Z) (vw : gmap root Z)
    (kv : Z * SignedAttestation) : outcome (gmap root Z) :=
  let headRoot := cp_Root (ad_Head (sa_Message kv.2)) in
  match blocks !! headRoot with
  | None => Ok vw
  | Some _ => count_vote blocks rootSlot vw headRoot
  end.

(** [if b.Slot < minSlot { minSlot = b.Slot; earliest = h }] *)
Definition earliest_step (acc : root * Z) (kv : root * Block) : root * Z :=
  if b_Slot kv.2 <? acc.2 then (kv.1, b_Slot kv.2) else acc.

(** [childrenMap[block.ParentRoot] = append(childrenMap[block.ParentRoot], blockHash)] *)
Definition children_step (vw : gmap root Z) (minScore : Z)
    (cm : gmap root (list root)) (kv : root * Block) : gmap root (list root) :=
  if minScore <=? votes_for vw kv.1
  then <[b_ParentRoot kv.2 := default [] (cm !! b_ParentRoot kv.2) ++ [kv.1]]> cm
  else cm.

(** [blocks\[c\].Slot]; the children are keys of [blocks]. *)
Definition slot_at (blocks : gmap root Block) (c : root) : Z :=
  match blocks !! c with Some b => b_Slot b | None => 0 end.

(** The comparison that replaces [best] by [c]. *)
Definition better (w s : Z) (c : root) (bestWeight bestSlot : Z) (best : root) : bool :=
  (bestWeight <? w) || ((w =? bestWeight) && (bestSlot <? s)) ||
  ((w =? bestWeight) && (s =? bestSlot) && hashGreater c best).

Definition pick_step (blocks : gmap root Block) (vw : gmap root Z) (acc : root * Z * Z) (c : root)
  : root * Z * Z :=
  let '(best, bestWeight, bestSlot) := acc in
  let w := votes_for vw c in
  let s := slot_at blocks c in
  if better w s c bestWeight bestSlot best then (c, w, s) else (best, bestWeight, bestSlot).
Definition pick_best (blocks : gmap root Block) (vw : gmap root Z) (first : root) (rest : list root) : root :=
  (foldl (pick_step blocks vw) (first, votes_for vw first, slot_at blocks first) rest).1.1.

Section Code.
Context {MR : MapRange} {T : Type} {OPS : StorageOps T}.

Definition GetForkChoiceHead (store : T) (r : root) (latestAttestations : gmap Z SignedAttestation)
    (minScore : Z) : outcome root :=
  let blocks := GetAllBlocks store in
  let r := if decide (r = ZeroHash)
           then (foldl earliest_step (ZeroHash, 2 ^ 64 - 1) (range 0 blocks)).1
           else r in
  match blocks !! r with
  | None => Ok r
  | Some rootBlock =>
      let rootSlot := b_Slot rootBlock in
      voteWeights ← foldM (tally_attestation blocks rootSlot) ∅ (range 1 latestAttestations);
      let childrenMap := foldl (children_step voteWeights minScore) ∅ (range 2 blocks) in
      loop (S (size blocks))
        (fun current =>
           match default [] (childrenMap !! current) with
           | [] => Ok (inr current)
           | first :: rest => Ok (inl (pick_best blocks voteWeights first rest))
           end) r
  end.
End Code.

(** * The specification *)

(** Parents are older than their children. *)
Definition wf_tree (blocks : gmap root Block) : Prop :=
  forall h b p, blocks !! h = Some b -> blocks !! b_ParentRoot b = Some p -> b_Slot p < b_Slot b.

(** [x] is on the chain that ends in [h]. *)
Inductive on_chain (blocks : gmap root Block) : root -> root -> Prop :=
| on_here h b : blocks !! h = Some b -> on_chain blocks h h
| on_parent h b x :
    blocks !! h = Some b -> on_chain blocks (b_ParentRoot b) x -> on_chain blocks h x.

(** The same as a list, computed. *)
Fixpoint chain_from (blocks : gmap root Block) (fuel : nat) (h : root) : list root :=
  match fuel with
  | O => []
  | S fuel' => match blocks !! h with
               | None => []
               | Some b => h :: chain_from blocks fuel' (b_ParentRoot b)
               end
  end.
Definition chain_of (blocks : gmap root Block) (h : root) : list root :=
  chain_from blocks (size blocks) h.

(** Votes whose head is [h] or a descendant of it; blocks not after the start have none. *)
Definition backs (blocks : gmap root Block) (h : root) (kv : Z * SignedAttestation) : Prop :=
  h ∈ chain_of blocks (cp_Root (ad_Head (sa_Message kv.2))).
#[export] Instance backs_dec blocks h kv : Decision (backs blocks h kv).
Proof. unfold backs; apply _. Defined.

Definition weight_in (blocks : gmap root Block) (rootSlot : Z) (votes : list (Z * SignedAttestation))
    (h : root) : Z :=
  if rootSlot <? slot_at blocks h
  then Z.of_nat (length (filter (backs blocks h) votes))
  else 0.
Definition weight (blocks : gmap root Block) (rootSlot : Z) (votes : gmap Z SignedAttestation)
    (h : root) : Z := weight_in blocks rootSlot (map_to_list votes) h.

Section Rule.
Context (blocks : gmap root Block) (w : root -> Z) (minScore : Z).

Definition is_child (p c : root) : Prop :=
  exists b, blocks !! c = Some b /\ b_ParentRoot b = p /\ minScore <= w c.

Definition beats (c d : root) : Prop :=
  better (w c) (slot_at blocks c) c (w d) (slot_at blocks d) d = true.

Definition best_child (p c : root) : Prop :=
  is_child p c /\ forall d, is_child p d -> d = c \/ beats c d.

Inductive ghost (current : root) : root -> Prop :=
| ghost_leaf : (forall c, ~ is_child current c) -> ghost current current
| ghost_child c h : best_child current c -> ghost c h -> ghost current h.
End Rule.

(** * Measures on a block tree *)

Section Tree.
Context (blocks : gmap root Block).

(** The number of blocks that are not after [h]: what a walk towards the root consumes. *)
Definition older (h : root) : nat :=
  match blocks !! h with
  | None => 0
  | Some b => size (filter (fun kv : root * Block => b_Slot kv.2 <= b_Slot b) blocks)
  end.
(** The number of blocks after [h]: what a walk away from the root consumes. *)
Definition younger (h : root) : nat :=
  size (filter (fun kv : root * Block => slot_at blocks h < b_Slot kv.2) blocks).

Lemma size_filter_lt (P Q : root * Block -> Prop)
    `{!forall x, Decision (P x), !forall x, Decision (Q x)} h b :
  (forall kv, P kv -> Q kv) -> blocks !! h = Some b -> Q (h, b) -> ~ P (h, b) ->
  (size (filter P blocks) < size (filter Q blocks))%nat.
Proof.
  intros HPQ Hh HQ HP. apply map_subset_size, strict_spec. split.
  - apply map_subseteq_spec. intros k v. rewrite !map_lookup_filter_Some. intros []; auto.
  - intros Hsub. rewrite map_subseteq_spec in Hsub.
    specialize (Hsub h b). rewrite !map_lookup_filter_Some in Hsub. by destruct (Hsub (conj Hh HQ)).
Qed.

Lemma older_le h : (older h <= size blocks)%nat.
Proof.
  unfold older. destruct (blocks !! h); [|lia]. apply map_subseteq_size, map_filter_subseteq.
Qed.
Lemma younger_le h : (younger h <= size blocks)%nat.
Proof. apply map_subseteq_size, map_filter_subseteq. Qed.

Lemma older_parent h b :
  wf_tree blocks -> blocks !! h = Some b -> (older (b_ParentRoot b) < older h)%nat.
Proof.
  intros Hwf Hh. unfold older. rewrite Hh. destruct (blocks !! b_ParentRoot b) as [p|] eqn:Hp.
  - pose proof (Hwf _ _ _ Hh Hp). apply (size_filter_lt _ _ h b); simpl; [|done|lia|lia].
    intros kv ?. lia.
  - destruct (size _) eqn:E; [|lia]. apply map_size_empty_inv in E.
    assert (Hl : filter (fun kv : root * Block => b_Slot kv.2 <= b_Slot b) blocks !! h = Some b)
      by (apply map_lookup_filter_Some; split; [done|simpl; lia]).
    by rewrite E, lookup_empty in Hl.
Qed.

Lemma younger_child h c b pb :
  wf_tree blocks -> blocks !! c = Some b -> b_ParentRoot b = h -> blocks !! h = Some pb ->
  (younger c < younger h)%nat.
Proof.
  intros Hwf Hc Hp Hh. assert (b_Slot pb < b_Slot b) by (apply (Hwf c); [done|by rewrite Hp]).
  unfold younger, slot_at. rewrite Hc, Hh. apply (size_filter_lt _ _ c b); simpl; [|done|lia|lia].
  intros kv ?. lia.
Qed.

(** * Chains *)

Lemma on_chain_slot h x b :
  wf_tree blocks -> on_chain blocks h x -> blocks !! h = Some b ->
  x = h \/ exists bx, blocks !! x = Some bx /\ b_Slot bx < b_Slot b.
Proof.
  intros Hwf Hx. revert b. induction Hx as [h b' Hh|h b' x Hh Hx IH]; intros b Hb; [by left|].
  right. assert (b' = b) as -> by congruence. destruct (blocks !! b_ParentRoot b) as [p|] eqn:Hp.
  - pose proof (Hwf _ _ _ Hb Hp). destruct (IH p eq_refl) as [->|(bx & Hbx & Hlt)].
    + by exists p.
    + exists bx. split; [done|lia].
  - inversion Hx; simplify_eq.
Qed.

Lemma on_chain_start h x : on_chain blocks h x -> is_Some (blocks !! h).
Proof. by intros []. Qed.
Lemma on_chain_end h x : on_chain blocks h x -> is_Some (blocks !! x).
Proof. by induction 1. Qed.
Lemma on_chain_trans h x y : on_chain blocks h x -> on_chain blocks x y -> on_chain blocks h y.
Proof. induction 1; eauto using on_chain. Qed.

(** Two blocks on one chain are on one another's chains. *)
Lemma on_chain_linear h x y :
  on_chain blocks h x -> on_chain blocks h y -> on_chain blocks x y \/ on_chain blocks y x.
Proof.
  intros Hx. revert y. induction Hx as [h b Hh|h b x Hh Hx IH]; intros y Hy; [by left|].
  inversion Hy as [? b' Hh'|? b' ? Hh' Hy']; simplify_eq; [right; by eapply on_parent|auto].
Qed.

Lemma elem_of_chain_from n h x :
  wf_tree blocks -> (older h <= n)%nat -> x ∈ chain_from blocks n h <-> on_chain blocks h x.
Proof.
  intros Hwf. revert h. induction n as [|n IH]; intros h Hn; cbn [chain_from].
  - split; [by intros ?%elem_of_nil|]. intros [b Hh]%on_chain_start.
    pose proof (older_parent _ _ Hwf Hh). lia.
  - destruct (blocks !! h) as [b|] eqn:Hh.
    + pose proof (older_parent _ _ Hwf Hh). rewrite elem_of_cons, IH by lia. split.
      * intros [->|Hx]; [by eapply on_here|by eapply on_parent].
      * intros Hx. destruct Hx as [h b' Hb|h b' x Hb Hx]; [by left|].
        right. by assert (b' = b) as -> by congruence.
    + split; [by intros ?%elem_of_nil|]. intros [b Hb]%on_chain_start. congruence.
Qed.

Lemma elem_of_chain h x : wf_tree blocks -> x ∈ chain_of blocks h <-> on_chain blocks h x.
Proof. intros Hwf. apply elem_of_chain_from; [done|apply older_le]. Qed.

#[local] Instance on_chain_dec_wf (Hwf : wf_tree blocks) h x : Decision (on_chain blocks h x).
Proof.
  destruct (decide (x ∈ chain_of blocks h)); [left|right]; by rewrite <- (elem_of_chain h x Hwf).
Defined.

(** * Counting votes *)

(** The contribution of a vote for [h] to the weight of [x]. *)
Definition share (rootSlot : Z) (h x : root) : Z :=
  if bool_decide (x ∈ chain_of blocks h) && (rootSlot <? slot_at blocks x) then 1 else 0.

Lemma share_none rootSlot h x :
  wf_tree blocks -> (forall b, blocks !! h = Some b -> b_Slot b <= rootSlot) -> share rootSlot h x = 0.
Proof.
  intros Hwf Hh. unfold share. case_bool_decide as Hx; [|done].
  apply elem_of_chain in Hx; [|done]. destruct (on_chain_start _ _ Hx) as [b Hb].
  specialize (Hh b Hb). assert (slot_at blocks x <= rootSlot) as Hle.
  { unfold slot_at. destruct (on_chain_slot _ _ _ Hwf Hx Hb) as [->|(bx & Hbx & Hlt)];
      [by rewrite Hb|rewrite Hbx; lia]. }
  cbn [andb]. by rewrite (proj2 (Z.ltb_ge _ _)).
Qed.

Lemma share_step rootSlot h b x :
  wf_tree blocks -> blocks !! h = Some b -> rootSlot < b_Slot b ->
  share rootSlot h x = (if decide (x = h) then 1 else 0) + share rootSlot (b_ParentRoot b) x.
Proof.
  intros Hwf Hh Hlt. unfold share. destruct (decide (x = h)) as [->|Hne].
  - rewrite bool_decide_eq_true_2 by (apply elem_of_chain; [done|by eapply on_here]).
    rewrite bool_decide_eq_false_2.
    + unfold slot_at. rewrite Hh. cbn [andb]. by rewrite (proj2 (Z.ltb_lt _ _)).
    + rewrite elem_of_chain by done. intros Hx.
      destruct (on_chain_start _ _ Hx) as [p Hp]. pose proof (Hwf _ _ _ Hh Hp).
      destruct (on_chain_slot _ _ _ Hwf Hx Hp) as [E|(bx & Hbx & ?)]; [|simplify_eq; lia].
      rewrite <- E in Hp. simplify_eq. lia.
  - rewrite Z.add_0_l. erewrite bool_decide_ext; [done|]. rewrite !elem_of_chain by done. split.
    + intros Hx. destruct Hx as [h b' Hb|h b' x Hb Hx]; [done|].
      by assert (b' = b) as -> by congruence.
    + intros Hx. by eapply on_parent.
Qed.

Lemma votes_for_insert vw h n x :
  votes_for (<[h := n]> vw) x = if decide (x = h) then n else votes_for vw x.
Proof.
  unfold votes_for. case_decide; subst; [by rewrite lookup_insert_eq|by rewrite lookup_insert_ne].
Qed.

Lemma count_vote_loop rootSlot fuel vw h :
  wf_tree blocks -> (older h < fuel)%nat ->
  exists vw', loop fuel
    (fun '(vw, h) => match blocks !! h with
       | None => Ok (inr vw)
       | Some b => if b_Slot b <=? rootSlot then Ok (inr vw)
                   else Ok (inl (<[h := votes_for vw h + 1]> vw, b_ParentRoot b)) end) (vw, h) = Ok vw' /\
    forall x, votes_for vw' x = votes_for vw x + share rootSlot h x.
Proof.
  intros Hwf. revert vw h. induction fuel as [|fuel IH]; intros vw h Hf; [lia|].
  cbn [loop]. destruct (blocks !! h) as [b|] eqn:Hh; cbn [mbind outcome_bind].
  2: { exists vw. split; [done|]. intros x. rewrite share_none; [lia|done|]. by intros b'; rewrite Hh. }
  destruct (Z.leb_spec (b_Slot b) rootSlot) as [Hle|Hlt]; cbn [mbind outcome_bind].
  - exists vw. split; [done|]. intros x. rewrite share_none; [lia|done|]. intros b' E. by simplify_eq.
  - pose proof (older_parent _ _ Hwf Hh).
    destruct (IH (<[h := votes_for vw h + 1]> vw) (b_ParentRoot b)) as (vw' & E & Hvw'); [lia|].
    exists vw'. split; [exact E|]. intros x.
    rewrite Hvw', (share_step _ _ _ _ Hwf Hh) by done. rewrite votes_for_insert.
    destruct (decide (x = h)) as [->|]; lia.
Qed.

Lemma count_vote_spec rootSlot vw h :
  wf_tree blocks ->
  exists vw', count_vote blocks rootSlot vw h = Ok vw' /\
    forall x, votes_for vw' x = votes_for vw x + share rootSlot h x.
Proof.
  intros Hwf. apply count_vote_loop; [done|]. pose proof (older_le h). lia.
Qed.

Lemma weight_in_cons rootSlot kv l x :
  weight_in blocks rootSlot (kv :: l) x =
  share rootSlot (cp_Root (ad_Head (sa_Message kv.2))) x + weight_in blocks rootSlot l x.
Proof.
  unfold weight_in, share. rewrite filter_cons. unfold backs at 1.
  destruct (rootSlot <? slot_at blocks x); [|by rewrite andb_false_r]. rewrite andb_true_r.
  case_decide as Hx; [rewrite bool_decide_eq_true_2 by done|rewrite bool_decide_eq_false_2 by done];
    cbn [length]; lia.
Qed.

Lemma count_votes_one rootSlot vw kv :
  wf_tree blocks ->
  exists vw', tally_attestation blocks rootSlot vw kv = Ok vw' /\
    forall x, votes_for vw' x = votes_for vw x + share rootSlot (cp_Root (ad_Head (sa_Message kv.2))) x.
Proof.
  intros Hwf. unfold tally_attestation.
  destruct (blocks !! cp_Root (ad_Head (sa_Message kv.2))) as [b|] eqn:Hb; [by apply count_vote_spec|].
  exists vw. split; [done|]. intros x. rewrite share_none; [lia|done|]. by intros b; rewrite Hb.
Qed.

Lemma count_votes_list rootSlot l vw :
  wf_tree blocks ->
  exists vw', foldM (tally_attestation blocks rootSlot) vw l = Ok vw' /\
    forall x, votes_for vw' x = votes_for vw x + weight_in blocks rootSlot l x.
Proof.
  intros Hwf. revert vw. induction l as [|kv l IH]; intros vw.
  { exists vw. split; [done|]. intros x. unfold weight_in. case_match; simpl; lia. }
  destruct (count_votes_one rootSlot vw kv Hwf) as (vw1 & E1 & Hvw1).
  destruct (IH vw1) as (vw' & E' & Hvw'). exists vw'. cbn [foldM]. rewrite E1. split; [exact E'|].
  intros x. rewrite Hvw', Hvw1, weight_in_cons. lia.
Qed.

Lemma weight_in_perm rootSlot l l' x :
  l ≡ₚ l' -> weight_in blocks rootSlot l x = weight_in blocks rootSlot l' x.
Proof. intros Hp. unfold weight_in. by rewrite Hp. Qed.
End Tree.

(** * The order on children *)

Lemma hash_greater_bytes a b : length a = length b -> hash_greater_from a b = bytes_ltb b a.
Proof.
  revert b; induction a as [|x a IH]; intros [|y b]; simpl; try done; try lia.
  intros Hlen. by rewrite IH by lia.
Qed.

Lemma hashGreater_ltb (a b : root) : hashGreater a b = bytes_ltb b a.
Proof. apply hash_greater_bytes. by rewrite !length_vec_to_list. Qed.

Section Order.
Context (blocks : gmap root Block) (w : root -> Z) (minScore : Z).

Lemma beats_spec c d :
  beats blocks w c d <->
  w d < w c \/ (w c = w d /\ (slot_at blocks d < slot_at blocks c \/
    (slot_at blocks c = slot_at blocks d /\ bytes_ltb d c = true))).
Proof.
  unfold beats, better. rewrite hashGreater_ltb, !orb_true_iff, !andb_true_iff, !Z.ltb_lt, !Z.eqb_eq. tauto.
Qed.

Lemma beats_irrefl c : ~ beats blocks w c c.
Proof. rewrite beats_spec, bytes_ltb_irrefl. intros [|[_ [|[_ ?]]]]; (lia || done). Qed.

Lemma beats_trans c d e : beats blocks w c d -> beats blocks w d e -> beats blocks w c e.
Proof.
  rewrite !beats_spec. intros [H1|(E1 & [H1|(F1 & G1)])] [H2|(E2 & [H2|(F2 & G2)])];
    try (left; lia); right; split; try lia; try (left; lia).
  right. split; [lia|]. by eapply bytes_ltb_trans.
Qed.

Lemma beats_total c d : c = d \/ beats blocks w c d \/ beats blocks w d c.
Proof.
  rewrite !beats_spec. destruct (Z.lt_trichotomy (w c) (w d)) as [|[Ew|]]; [tauto| |tauto].
  destruct (Z.lt_trichotomy (slot_at blocks c) (slot_at blocks d)) as [|[Es|]]; [naive_solver| |naive_solver].
  destruct (bytes_ltb c d) eqn:E1; [right; right; right; split; [done|]; right; by rewrite Es|].
  destruct (bytes_ltb d c) eqn:E2; [right; left; right; split; [done|]; right; by rewrite Es|].
  left. by apply vec_to_list_inj2, bytes_ltb_antisym.
Qed.

Lemma best_child_unique p c d : best_child blocks w minScore p c -> best_child blocks w minScore p d -> c = d.
Proof.
  intros [Hc Hbc] [Hd Hbd]. destruct (Hbc d Hd) as [|Hcd]; [done|].
  destruct (Hbd c Hc) as [|Hdc]; [done|]. destruct (beats_irrefl c). by eapply beats_trans.
Qed.

(** The rule selects one block. *)
Lemma ghost_det s h h' : ghost blocks w minScore s h -> ghost blocks w minScore s h' -> h = h'.
Proof.
  intros H. revert h'. induction H as [s Hleaf|s c h Hb H IH]; intros h' H'.
  - inversion H' as [|c h'' Hb]; [done|]. by destruct (Hleaf c), Hb.
  - inversion H' as [Hleaf|c' h'' Hb' Hg]; [subst; by destruct (Hleaf c), Hb|].
    rewrite (best_child_unique _ _ _ Hb' Hb) in Hg. auto.
Qed.
End Order.

(** * The code computes the rule *)

Section Refinement.
Context (blocks : gmap root Block) (vw : gmap root Z) (minScore : Z).
#[local] Abbreviation w := (votes_for vw).

Lemma children_fold l cm p c :
  c ∈ default [] (foldl (children_step vw minScore) cm l !! p) <->
  c ∈ default [] (cm !! p) \/ exists b, (c, b) ∈ l /\ b_ParentRoot b = p /\ minScore <= w c.
Proof.
  revert cm. induction l as [|[h b] l IH]; intros cm; cbn [foldl].
  { split; [by left|]. intros [|(b & Hb & _)]; [done|]. by apply elem_of_nil in Hb. }
  rewrite IH. unfold children_step; cbn [fst snd].
  assert (Hin : forall b', (c, b') ∈ (h, b) :: l <-> (c = h /\ b' = b) \/ (c, b') ∈ l)
    by (intros b'; rewrite elem_of_cons, pair_equal_spec; tauto).
  setoid_rewrite Hin. destruct (Z.leb_spec minScore (votes_for vw h)) as [Hle|Hlt].
  - destruct (decide (b_ParentRoot b = p)) as [<-|Hne].
    + rewrite lookup_insert_eq. cbn [default from_option id]. rewrite elem_of_app, list_elem_of_singleton. split.
      * intros [[Hc| ->]|(b' & Hb' & Hp & Hm)]; [by left|right; exists b; auto|right; exists b'; auto].
      * intros [Hc|(b' & [[-> ->]|Hb'] & Hp & Hm)]; [by left; left|by left; right|right; by exists b'].
    + rewrite lookup_insert_ne by done. split.
      * intros [Hc|(b' & Hb' & Hp & Hm)]; [by left|right; exists b'; auto].
      * intros [Hc|(b' & [[-> ->]|Hb'] & Hp & Hm)]; [by left|done|right; by exists b'].
  - split; [intros [Hc|(b' & Hb' & Hp & Hm)]; [by left|right; exists b'; auto]|].
    intros [|(b' & [[-> ->]|] & Hp & Hm)]; [by left|lia|].
    right. by exists b'.
Qed.

Lemma pick_best_in first rest :
  forall acc, acc.1.1 ∈ first :: rest -> acc = (acc.1.1, w acc.1.1, slot_at blocks acc.1.1) ->
  forall l, (forall c, c ∈ l -> c ∈ first :: rest) ->
  let res := foldl (pick_step blocks vw) acc l in
  res.1.1 ∈ first :: rest /\
  (res.1.1 = acc.1.1 \/ beats blocks w res.1.1 acc.1.1) /\
  forall c, c ∈ l -> c = res.1.1 \/ beats blocks w res.1.1 c.
Proof.
  intros acc Hacc Eacc l. revert acc Hacc Eacc. induction l as [|x l IH]; intros acc Hacc Eacc Hl; cbn [foldl].
  { split; [done|]. split; [by left|]. intros c Hc. by apply elem_of_nil in Hc. }
  destruct acc as [[a aw] as_]; cbn [fst snd] in *. injection Eacc as -> ->.
  assert (pick_step blocks vw (a, w a, slot_at blocks a) x =
          if better (w x) (slot_at blocks x) x (w a) (slot_at blocks a) a
          then (x, w x, slot_at blocks x) else (a, w a, slot_at blocks a)) as -> by done.
  destruct (better (votes_for vw x) (slot_at blocks x) x (w a) (slot_at blocks a) a) eqn:E.
  - destruct (IH (x, w x, slot_at blocks x)) as (H1 & H2 & H3);
      [by apply Hl; left|done|intros c Hc; apply Hl; by right|].
    split; [exact H1|]. assert (beats blocks w x a) by exact E. split.
    + right. destruct H2 as [->|H2]; [done|]. by eapply beats_trans.
    + intros c [->|Hc]%elem_of_cons; [|by apply H3]. destruct H2 as [H2|H2]; [left; by rewrite H2|by right].
  - destruct (IH (a, w a, slot_at blocks a)) as (H1 & H2 & H3);
      [done|done|intros c Hc; apply Hl; by right|].
    split; [exact H1|]. split; [exact H2|]. intros c [->|Hc]%elem_of_cons; [|by apply H3].
    destruct (beats_total blocks w x a) as [->|[Hb|Hb]].
    + destruct H2 as [H2|H2]; [left; by rewrite H2|by right].
    + unfold beats in Hb. congruence.
    + right. destruct H2 as [->|H2]; [done|]. by eapply beats_trans.
Qed.

Lemma pick_best_spec first rest :
  pick_best blocks vw first rest ∈ first :: rest /\
  forall c, c ∈ first :: rest ->
    c = pick_best blocks vw first rest \/ beats blocks w (pick_best blocks vw first rest) c.
Proof.
  destruct (pick_best_in first rest (first, w first, slot_at blocks first)) with (l := rest)
    as (H1 & H2 & H3); [by left|done|by right|]. cbn [fst] in H2. fold (pick_best blocks vw first rest) in *.
  split; [exact H1|]. intros c [->|Hc]%elem_of_cons; [|by apply H3].
  destruct H2 as [H2|H2]; [left; by rewrite H2|by right].
Qed.

(** The walk from a present block, with the children map of a list of all blocks. *)
Lemma walk_ghost l fuel current :
  wf_tree blocks -> (forall h b, (h, b) ∈ l <-> blocks !! h = Some b) ->
  is_Some (blocks !! current) -> (younger blocks current < fuel)%nat ->
  exists h, loop fuel (fun current =>
      match default [] (foldl (children_step vw minScore) ∅ l !! current) with
      | [] => Ok (inr current)
      | first :: rest => Ok (inl (pick_best blocks vw first rest))
      end) current = Ok h /\ ghost blocks w minScore current h.
Proof.
  intros Hwf Hl. revert current. induction fuel as [|fuel IH]; intros current [pb Hpb] Hf; [lia|].
  cbn [loop].
  assert (Hch : forall c, c ∈ default [] (foldl (children_step vw minScore) ∅ l !! current)
                          <-> is_child blocks w minScore current c).
  { intros c. rewrite children_fold. rewrite lookup_empty. cbn [default]. unfold is_child.
    setoid_rewrite Hl. split; [intros [?%elem_of_nil|]; done|by right]. }
  destruct (default [] _) as [|first rest]; cbn [mbind outcome_bind].
  - exists current. split; [done|]. apply ghost_leaf. intros c Hc. apply Hch in Hc. by apply elem_of_nil in Hc.
  - destruct (pick_best_spec first rest) as [Hin Hbest]. set (best := pick_best _ _ _ _) in *.
    apply Hch in Hin as (b & Hb & Hp & Hw).
    pose proof (younger_child _ _ _ _ _ Hwf Hb Hp Hpb).
    destruct (IH best) as (h & E & Hg); [by exists b|lia|].
    exists h. split; [exact E|]. eapply ghost_child; [|exact Hg]. split; [by exists b|].
    intros d Hd. by apply Hbest, Hch.
Qed.
End Refinement.

(** * The head *)

Lemma ghost_ext blocks w w' minScore s h :
  (forall x, w x = w' x) -> ghost blocks w minScore s h -> ghost blocks w' minScore s h.
Proof.
  intros Hw. assert (Hc : forall p c, is_child blocks w minScore p c <-> is_child blocks w' minScore p c)
    by (intros p c; unfold is_child; by rewrite Hw).
  induction 1 as [s Hleaf|s c h [Hb Hbest] H IH].
  - apply ghost_leaf. intros c. by rewrite <- Hc.
  - eapply ghost_child; [|exact IH]. split; [by apply Hc|]. intros d Hd%Hc.
    destruct (Hbest d Hd) as [|Hb']; [by left|right]. unfold beats in *. by rewrite <- !Hw.
Qed.

Section Head.
Context {MR : MapRange} {T : Type} `{StorageLaws T}.

(** Where the walk starts: the given root, or some block of the lowest slot. *)
Definition start_at (blocks : gmap root Block) (r r0 : root) : Prop :=
  (r <> ZeroHash /\ r0 = r) \/
  (r = ZeroHash /\ exists b, blocks !! r0 = Some b /\
     forall h b', blocks !! h = Some b' -> b_Slot b <= b_Slot b').

Lemma earliest_fold (l : list (root * Block)) acc :
  let res := foldl earliest_step acc l in
  (res = acc \/ exists b, (res.1, b) ∈ l /\ b_Slot b = res.2) /\ res.2 <= acc.2 /\
  forall h b, (h, b) ∈ l -> res.2 <= b_Slot b.
Proof.
  revert acc. induction l as [|[h b] l IH]; intros acc; cbn [foldl].
  { split; [by left|]. split; [lia|]. intros h b Hb. by apply elem_of_nil in Hb. }
  destruct (IH (earliest_step acc (h, b))) as (H1 & H2 & H3). set (res := foldl _ _ _) in *.
  unfold earliest_step in H1, H2; cbn [fst snd] in *.
  destruct (Z.ltb_spec (b_Slot b) acc.2) as [Hlt|Hge]; cbn [fst snd] in *.
  - split; [right; destruct H1 as [->|(b' & Hb' & E)]; [exists b; split; [by left|done]|exists b'; split; [by right|done]]|].
    split; [lia|]. intros h' b' [[= -> ->]|Hin]%elem_of_cons; [lia|by eapply H3].
  - split; [destruct H1 as [->|(b' & Hb' & E)]; [by left|right; exists b'; split; [by right|done]]|].
    split; [lia|]. intros h' b' [[= -> ->]|Hin]%elem_of_cons; [lia|by eapply H3].
Qed.

Lemma earliest_start (blocks : gmap root Block) h0 b0 :
  blocks !! h0 = Some b0 -> b_Slot b0 < 2 ^ 64 - 1 ->
  start_at blocks ZeroHash (foldl earliest_step (ZeroHash, 2 ^ 64 - 1) (range 0 blocks)).1.
Proof.
  intros Hh Hs. right. split; [done|].
  destruct (earliest_fold (range 0 blocks) (ZeroHash, 2 ^ 64 - 1)) as (H1 & H2 & H3).
  set (res := foldl _ _ _) in *. destruct H1 as [E|(b & Hb & E)].
  - apply (proj2 (elem_of_range 0 blocks h0 b0)) in Hh. apply H3 in Hh. rewrite E in Hh. simpl in Hh. lia.
  - exists b. apply elem_of_range in Hb. split; [done|]. intros h b' Hb'.
    rewrite E. eapply H3. by apply elem_of_range.
Qed.

Lemma head_run (t : T) r votes minScore rb :
  wf_tree (GetAllBlocks t) -> r <> ZeroHash -> GetBlock t r = Some rb ->
  exists h, GetForkChoiceHead t r votes minScore = Ok h /\
    ghost (GetAllBlocks t) (weight (GetAllBlocks t) (b_Slot rb) votes) minScore r h.
Proof.
  intros Hwf Hr Hrb. unfold GetForkChoiceHead. rewrite decide_False by done.
  rewrite GetAllBlocks_lookup, Hrb.
  destruct (count_votes_list (GetAllBlocks t) (b_Slot rb) (range 1 votes) ∅ Hwf) as (vw & -> & Hvw).
  cbn [mbind outcome_bind].
  destruct (walk_ghost (GetAllBlocks t) vw minScore (range 2 (GetAllBlocks t)) (S (size (GetAllBlocks t))) r)
    as (h & E & Hg); [done|intros; apply elem_of_range|rewrite GetAllBlocks_lookup; by exists rb| |].
  { pose proof (younger_le (GetAllBlocks t) r). lia. }
  exists h. split; [exact E|]. eapply ghost_ext; [|exact Hg]. intros x. rewrite Hvw.
  unfold weight. rewrite (weight_in_perm _ _ _ _ x (range_perm 1 votes)).
  unfold votes_for. rewrite lookup_empty. done.
Qed.

Lemma head_unknown (t : T) r votes minScore :
  r <> ZeroHash -> GetBlock t r = None -> GetForkChoiceHead t r votes minScore = Ok r.
Proof.
  intros Hr Hn. unfold GetForkChoiceHead. rewrite decide_False by done. by rewrite GetAllBlocks_lookup, Hn.
Qed.
End Head.

(** The selected block descends from the start, and passed the score on the way. *)
Lemma ghost_descends blocks w minScore s h :
  is_Some (blocks !! s) -> ghost blocks w minScore s h ->
  on_chain blocks h s /\ (h = s \/ minScore <= w h).
Proof.
  intros [b Hb] Hg. revert b Hb. induction Hg as [s Hleaf|s c h [(bc & Hbc & Hp & Hw) _] Hg IH]; intros b Hb.
  - split; [by eapply on_here|by left].
  - destruct (IH bc Hbc) as [Hch Hor]. split.
    + eapply on_chain_trans; [exact Hch|]. eapply on_parent; [exact Hbc|]. rewrite Hp. by eapply on_here.
    + right. destruct Hor as [->|]; done.
Qed.

Lemma ghost_stops blocks w minScore s h : ghost blocks w minScore s h -> forall c, ~ is_child blocks w minScore h c.
Proof. by induction 1. Qed.

(** Two predicates that together hold more often than the list is long share an element. *)
Lemma filter_overlap {A} (P Q : A -> Prop) `{!forall x, Decision (P x), !forall x, Decision (Q x)} (l : list A) :
  (length l < length (filter P l) + length (filter Q l))%nat -> exists x, x ∈ l /\ P x /\ Q x.
Proof.
  induction l as [|x l IH]; cbn [length]; [simpl; lia|]. rewrite !filter_cons.
  intros Hlen. destruct (decide (P x)) as [HP|], (decide (Q x)) as [HQ|]; cbn [length] in Hlen;
    try (destruct IH as (y & Hy & ? & ?); [lia|exists y; split; [by right|done]]).
  exists x. split; [by left|done].
Qed.

Lemma weight_overlap blocks rootSlot votes x y :
  wf_tree blocks -> Z.of_nat (size votes) < weight blocks rootSlot votes x + weight blocks rootSlot votes y ->
  on_chain blocks x y \/ on_chain blocks y x.
Proof.
  intros Hwf Hlt. unfold weight, weight_in in Hlt. rewrite <- length_map_to_list in Hlt.
  assert (Hle : forall z, (length (filter (backs blocks z) (map_to_list votes)) <= length (map_to_list votes))%nat)
    by (intros z; apply list.length_filter).
  pose proof (Hle x). pose proof (Hle y).
  destruct (rootSlot <? slot_at blocks x), (rootSlot <? slot_at blocks y); try lia.
  destruct (filter_overlap (backs blocks x) (backs blocks y) (map_to_list votes)) as (kv & _ & Hx & Hy); [lia|].
  unfold backs in Hx, Hy. rewrite elem_of_chain in Hx, Hy by done. by eapply on_chain_linear.
Qed.

(** * The properties *)

(** C2: refinement: on every block tree whose parents are older than their children,
    GetForkChoiceHead stops and returns the block the LMD GHOST rule selects from the root:
    heaviest child first, then highest slot, then largest hash, a vote counting for every
    block on the chain of its head. *)
Theorem GetForkChoiceHead_refines {MR : MapRange} {T : Type} `{StorageLaws T}
    (t : T) (r : root) (votes : gmap Z SignedAttestation) (minScore : Z) (rb : Block) :
  wf_tree (GetAllBlocks t) -> r <> ZeroHash -> GetBlock t r = Some rb ->
  exists h, GetForkChoiceHead t r votes minScore = Ok h /\
    ghost (GetAllBlocks t) (weight (GetAllBlocks t) (b_Slot rb) votes) minScore r h.
Proof. apply head_run. Qed.

(** C27: the head does not depend on the iteration order of Go's maps: two executions, with any
    two orders for each range statement, select the same block. *)
Theorem head_order_independent {T : Type} `{StorageLaws T} (MR1 MR2 : MapRange)
    (t : T) (r : root) (votes : gmap Z SignedAttestation) (minScore : Z) :
  wf_tree (GetAllBlocks t) -> r <> ZeroHash ->
  @GetForkChoiceHead MR1 T _ t r votes minScore = @GetForkChoiceHead MR2 T _ t r votes minScore.
Proof.
  intros Hwf Hr. destruct (GetBlock t r) as [rb|] eqn:Hrb; [|by rewrite !head_unknown].
  destruct (@head_run MR1 T _ _ t r votes minScore rb Hwf Hr Hrb) as (h1 & -> & H1).
  destruct (@head_run MR2 T _ _ t r votes minScore rb Hwf Hr Hrb) as (h2 & -> & H2).
  f_equal. eapply ghost_det; [exact H1|exact H2].
Qed.

(** The head is a known descendant of the root it was computed from, it has no child that
    reaches the minimal score, and it is the root itself or reaches that score. *)
Theorem head_is_leaf_descendant {MR : MapRange} {T : Type} `{StorageLaws T}
    (t : T) (r h : root) (votes : gmap Z SignedAttestation) (minScore : Z) (rb : Block) :
  wf_tree (GetAllBlocks t) -> r <> ZeroHash -> GetBlock t r = Some rb ->
  GetForkChoiceHead t r votes minScore = Ok h ->
  on_chain (GetAllBlocks t) h r /\
  (h = r \/ minScore <= weight (GetAllBlocks t) (b_Slot rb) votes h) /\
  forall c b, GetBlock t c = Some b -> b_ParentRoot b = h ->
    weight (GetAllBlocks t) (b_Slot rb) votes c < minScore.
Proof.
  intros Hwf Hr Hrb E. destruct (head_run t r votes minScore rb Hwf Hr Hrb) as (h' & E' & Hg).
  rewrite E in E'. injection E' as <-.
  destruct (ghost_descends _ _ _ _ _ ltac:(rewrite GetAllBlocks_lookup; by exists rb) Hg) as [Hc Hor].
  split; [done|]. split; [done|]. intros c b Hb Hp.
  destruct (Z.lt_ge_cases (weight (GetAllBlocks t) (b_Slot rb) votes c) minScore) as [|Hge]; [done|].
  destruct (ghost_stops _ _ _ _ _ Hg c). exists b. by rewrite GetAllBlocks_lookup.
Qed.

(** two blocks that each gather enough votes for the two shares to overlap are on one
    chain: with a score above half of the votes, heads computed from the same votes, such as
    the safe target at two thirds, never lie on different forks. *)
Theorem heavy_blocks_on_one_chain (blocks : gmap root Block) (rootSlot : Z)
    (votes : gmap Z SignedAttestation) (minScore : Z) (x y : root) :
  wf_tree blocks -> Z.of_nat (size votes) < 2 * minScore ->
  minScore <= weight blocks rootSlot votes x -> minScore <= weight blocks rootSlot votes y ->
  on_chain blocks x y \/ on_chain blocks y x.
Proof. intros Hwf Hs Hx Hy. apply (weight_overlap blocks rootSlot votes); [done|lia]. Qed.

(** Without a justified root the walk starts from a stored block of the lowest slot. *)
Theorem head_from_zero_root {MR : MapRange} {T : Type} `{StorageLaws T}
    (t : T) (votes : gmap Z SignedAttestation) (minScore : Z) (h0 : root) (b0 : Block) :
  wf_tree (GetAllBlocks t) -> GetBlock t ZeroHash = None ->
  GetBlock t h0 = Some b0 -> b_Slot b0 < 2 ^ 64 - 1 ->
  exists r0 rb h, start_at (GetAllBlocks t) ZeroHash r0 /\ GetBlock t r0 = Some rb /\
    GetForkChoiceHead t ZeroHash votes minScore = Ok h /\
    ghost (GetAllBlocks t) (weight (GetAllBlocks t) (b_Slot rb) votes) minScore r0 h.
Proof.
  intros Hwf Hz Hh0 Hs0.
  pose proof (earliest_start (GetAllBlocks t) h0 b0 ltac:(by rewrite GetAllBlocks_lookup) Hs0) as Hst.
  set (r0 := (foldl earliest_step _ _).1) in Hst.
  destruct Hst as [[Hne _]|[_ Hr0]]; [done|]. pose proof Hr0 as (rb & Hrb & Hmin).
  rewrite GetAllBlocks_lookup in Hrb.
  assert (Hnz : r0 <> ZeroHash) by (intros E; rewrite E in Hrb; congruence).
  destruct (head_run t r0 votes minScore rb Hwf Hnz Hrb) as (h & E & Hg).
  exists r0, rb, h. split; [by right|]. split; [done|]. split; [|done].
  unfold GetForkChoiceHead in *. rewrite decide_True by done. by rewrite decide_False in E.
Qed.

(** ** Witnesses: a fork after the root, three votes *)

Definition ex_blk (slot : Z) (parent : root) : Block :=
  mkBlock slot 0 parent ZeroHash (mkBlockBody []).
(** Root 10 at slot 0; 11 and 12 on it at slots 1 and 2; 13 on 12 at slot 3. *)
Definition ex_tree : memory.Store :=
  {| memory.blocks := <[ex_root 10 := ex_blk 0 (ex_root 99)]>
       (<[ex_root 11 := ex_blk 1 (ex_root 10)]> (<[ex_root 12 := ex_blk 2 (ex_root 10)]>
       {[ex_root 13 := ex_blk 3 (ex_root 12)]}));
     memory.signedBlocks := ∅; memory.states := ∅ |}.
Definition ex_sa (v : Z) (head : root) (slot : Z) : SignedAttestation :=
  mkSignedAttestation v (mkAttestationData slot (mkCheckpoint head slot) (mkCheckpoint head slot)
    (mkCheckpoint (ex_root 10) 0)) (vreplicate _ Byte.x00).
Definition ex_votes : gmap Z SignedAttestation :=
  <[0 := ex_sa 0 (ex_root 11) 4]> (<[1 := ex_sa 1 (ex_root 12) 4]> {[2 := ex_sa 2 (ex_root 13) 4]}).

#[local] Existing Instance canonical_range.

(** A decision procedure for [wf_tree]. *)
Lemma wf_tree_check (blocks : gmap root Block) :
  forallb (fun kv : root * Block => match blocks !! b_ParentRoot kv.2 with
             | Some p => b_Slot p <? b_Slot kv.2 | None => true end) (map_to_list blocks) = true ->
  wf_tree blocks.
Proof.
  intros Hall h b p Hh Hp. rewrite forallb_forall in Hall.
  specialize (Hall (h, b)). rewrite <- list_elem_of_In in Hall.
  specialize (Hall (proj2 (elem_of_map_to_list blocks h b) Hh)). simpl in Hall.
  rewrite Hp in Hall. by apply Z.ltb_lt.
Qed.

Lemma ex_tree_wf : wf_tree (GetAllBlocks ex_tree).
Proof. apply wf_tree_check. vm_compute. reflexivity. Qed.

Lemma ex_head : GetForkChoiceHead ex_tree (ex_root 10) ex_votes 0 = Ok (ex_root 13).
Proof. vm_compute. reflexivity. Qed.

Lemma ex_root_not_zero k : ex_root k <> ZeroHash.
Proof. intros E. apply (f_equal (fun v => vec_to_list v !! 0%nat)) in E. done. Qed.

Lemma ex_tree_root : GetBlock ex_tree (ex_root 10) = Some (ex_blk 0 (ex_root 99)).
Proof. vm_compute. reflexivity. Qed.

Lemma GetForkChoiceHead_refines_witness :
  exists h, GetForkChoiceHead ex_tree (ex_root 10) ex_votes 2 = Ok h /\
    ghost (GetAllBlocks ex_tree) (weight (GetAllBlocks ex_tree) 0 ex_votes) 2 (ex_root 10) h.
Proof.
  apply (GetForkChoiceHead_refines ex_tree (ex_root 10) ex_votes 2 (ex_blk 0 (ex_root 99))
           ex_tree_wf (ex_root_not_zero 10) ex_tree_root).
Defined.

Lemma head_order_independent_witness :
  @GetForkChoiceHead canonical_range _ _ ex_tree (ex_root 10) ex_votes 0 =
  @GetForkChoiceHead reversed_range _ _ ex_tree (ex_root 10) ex_votes 0.
Proof.
  apply (head_order_independent canonical_range reversed_range ex_tree (ex_root 10) ex_votes 0
           ex_tree_wf (ex_root_not_zero 10)).
Defined.

Lemma head_is_leaf_descendant_witness :
  on_chain (GetAllBlocks ex_tree) (ex_root 13) (ex_root 10) /\
  (ex_root 13 = ex_root 10 \/ 0 <= weight (GetAllBlocks ex_tree) 0 ex_votes (ex_root 13)) /\
  forall c b, GetBlock ex_tree c = Some b -> b_ParentRoot b = ex_root 13 ->
    weight (GetAllBlocks ex_tree) 0 ex_votes c < 0.
Proof.
  apply (head_is_leaf_descendant ex_tree (ex_root 10) (ex_root 13) ex_votes 0 (ex_blk 0 (ex_root 99))
           ex_tree_wf (ex_root_not_zero 10) ex_tree_root ex_head).
Defined.

Definition ex_votes2 : gmap Z SignedAttestation := <[1 := ex_sa 1 (ex_root 13) 4]> ex_votes.

Lemma heavy_blocks_on_one_chain_witness :
  on_chain (GetAllBlocks ex_tree) (ex_root 12) (ex_root 13) \/
  on_chain (GetAllBlocks ex_tree) (ex_root 13) (ex_root 12).
Proof.
  apply (heavy_blocks_on_one_chain (GetAllBlocks ex_tree) 0 ex_votes2 2 _ _ ex_tree_wf);
    vm_compute; [reflexivity|discriminate|discriminate].
Defined.

Lemma head_from_zero_root_witness :
  exists r0 rb h, start_at (GetAllBlocks ex_tree) ZeroHash r0 /\ GetBlock ex_tree r0 = Some rb /\
    GetForkChoiceHead ex_tree ZeroHash ex_votes 0 = Ok h /\
    ghost (GetAllBlocks ex_tree) (weight (GetAllBlocks ex_tree) (b_Slot rb) ex_votes) 0 r0 h.
Proof.
  apply (head_from_zero_root ex_tree ex_votes 0 (ex_root 10) (ex_blk 0 (ex_root 99)) ex_tree_wf).
  - vm_compute. reflexivity.
  - exact ex_tree_root.
  - vm_compute. reflexivity.
Defined.
