(* ===== verification/Leansig.v ===== *)
(** xmss/leansig/leansig.go: the Go side of the XMSS signature binding.

    The Go code calls a C interface: its functions are the class [LeansigFFI], each returning the
    C result code.  What is modelled here is the wrapper: the handle that becomes nil after Free,
    the checks made before the call, and the mapping of result codes to errors.  The other side of
    the interface, xmss/leansig-ffi, is Ffi.v, whose instance has the laws stated here. *)
From S2P Require Import Prelude Types.
Local Open Scope Z_scope.

Definition ResultOK : Z := 0.
Definition ResultVerificationFailed : Z := 5.

Class LeansigFFI := {
  LeansigKeypair : Type;
  leansig_keypair_generate : Z -> Z -> Z -> Z * LeansigKeypair;
  leansig_keypair_restore : bytes -> bytes -> Z * LeansigKeypair;
  leansig_pubkey_serialize : LeansigKeypair -> Z * bytes;
  leansig_seckey_serialize : LeansigKeypair -> Z * bytes;
  leansig_sk_activation_start : LeansigKeypair -> Z;
  leansig_sk_activation_end : LeansigKeypair -> Z;
  leansig_sk_prepared_start : LeansigKeypair -> Z;
  leansig_sk_prepared_end : LeansigKeypair -> Z;
  leansig_sk_advance_preparation : LeansigKeypair -> Z * LeansigKeypair;
  leansig_sign : LeansigKeypair -> Z -> root -> Z * bytes;
  leansig_verify : bytes -> Z -> root -> bytes -> Z;
  leansig_verify_with_keypair : LeansigKeypair -> Z -> root -> bytes -> Z }.

Section Code.
Context {FFI : LeansigFFI}.

(** Keypair: the handle, [None] when it is nil. *)
Record Keypair := mkKeypair { kp_ptr : option LeansigKeypair }.

Definition code_error (fmt : string) (result : Z) : error := Errorf fmt [Num result].

Definition GenerateKeypair (seed activationEpoch numActiveEpochs : Z) : outcome Keypair :=
  let '(result, ptr) := leansig_keypair_generate seed activationEpoch numActiveEpochs in
  fail_if (negb (result =? ResultOK)) (code_error "leansig_keypair_generate failed with code %d" result)
    (Ok (mkKeypair (Some ptr))).

Definition RestoreKeypair (pkBytes skBytes : bytes) : outcome Keypair :=
  fail_if (length pkBytes =? 0)%nat (Errorf "public key bytes are empty" [])
  (fail_if (length skBytes =? 0)%nat (Errorf "secret key bytes are empty" [])
  (let '(result, ptr) := leansig_keypair_restore pkBytes skBytes in
   fail_if (negb (result =? ResultOK)) (code_error "leansig_keypair_restore failed with code %d" result)
     (Ok (mkKeypair (Some ptr))))).

Definition Free (kp : Keypair) : Keypair :=
  match kp_ptr kp with Some _ => mkKeypair None | None => kp end.

(** [if kp.ptr == nil { return nil, "keypair is nil" }] *)
Definition with_ptr {A} (kp : Keypair) (f : LeansigKeypair -> outcome A) : outcome A :=
  match kp_ptr kp with Some p => f p | None => Err (Errorf "keypair is nil" []) end.

Definition PublicKeyBytes (kp : Keypair) : outcome bytes :=
  with_ptr kp (fun p =>
    let '(result, data) := leansig_pubkey_serialize p in
    fail_if (negb (result =? ResultOK)) (code_error "leansig_pubkey_serialize failed with code %d" result)
      (Ok data)).
Definition SecretKeyBytes (kp : Keypair) : outcome bytes :=
  with_ptr kp (fun p =>
    let '(result, data) := leansig_seckey_serialize p in
    fail_if (negb (result =? ResultOK)) (code_error "leansig_seckey_serialize failed with code %d" result)
      (Ok data)).

Definition ActivationStart (kp : Keypair) : Z :=
  match kp_ptr kp with Some p => leansig_sk_activation_start p | None => 0 end.
Definition ActivationEnd (kp : Keypair) : Z :=
  match kp_ptr kp with Some p => leansig_sk_activation_end p | None => 0 end.
Definition PreparedStart (kp : Keypair) : Z :=
  match kp_ptr kp with Some p => leansig_sk_prepared_start p | None => 0 end.
Definition PreparedEnd (kp : Keypair) : Z :=
  match kp_ptr kp with Some p => leansig_sk_prepared_end p | None => 0 end.

(** The library updates the key behind the handle. *)
Definition AdvancePreparation (kp : Keypair) : outcome Keypair :=
  with_ptr kp (fun p =>
    let '(result, p') := leansig_sk_advance_preparation p in
    fail_if (negb (result =? ResultOK))
      (code_error "leansig_sk_advance_preparation failed with code %d" result)
      (Ok (mkKeypair (Some p')))).

Definition Sign (kp : Keypair) (epoch : Z) (message : root) : outcome bytes :=
  with_ptr kp (fun p =>
    let '(result, sig) := leansig_sign p epoch message in
    fail_if (negb (result =? ResultOK)) (code_error "leansig_sign failed with code %d" result) (Ok sig)).

(** Verify: nil ([Ok]) for a valid signature. *)
Definition Verify (pubkeyBytes : bytes) (epoch : Z) (message : root) (sigBytes : bytes) : outcome () :=
  fail_if ((length pubkeyBytes =? 0)%nat || (length sigBytes =? 0)%nat)
    (Errorf "empty pubkey or signature bytes" [])
  (let result := leansig_verify pubkeyBytes epoch message sigBytes in
   if result =? ResultOK then Ok ()
   else if result =? ResultVerificationFailed then Err (Errorf "signature verification failed" [])
   else Err (code_error "leansig_verify failed with code %d" result)).

Definition VerifyWithKeypair (kp : Keypair) (epoch : Z) (message : root) (sigBytes : bytes) : outcome () :=
  with_ptr kp (fun p =>
    fail_if (length sigBytes =? 0)%nat (Errorf "empty signature bytes" [])
    (let result := leansig_verify_with_keypair p epoch message sigBytes in
     if result =? ResultOK then Ok ()
     else if result =? ResultVerificationFailed then Err (Errorf "signature verification failed" [])
     else Err (code_error "leansig_verify_with_keypair failed with code %d" result))).
End Code.

(** The handles whose two keys belong together: those of generated keypairs, also after they were
    prepared further or restored from their own serializations.  A restore pairs any two keys. *)
Inductive genuine {FFI : LeansigFFI} : LeansigKeypair -> Prop :=
| genuine_generated seed start n p : leansig_keypair_generate seed start n = (ResultOK, p) -> genuine p
| genuine_advanced p p' : genuine p -> leansig_sk_advance_preparation p = (ResultOK, p') -> genuine p'
| genuine_restored p pk sk p' : genuine p -> leansig_pubkey_serialize p = (ResultOK, pk) ->
    leansig_seckey_serialize p = (ResultOK, sk) -> leansig_keypair_restore pk sk = (ResultOK, p') -> genuine p'.

(** Signatures made by such a key verify under its serialized public key. *)
Class LeansigLaws (FFI : LeansigFFI) : Prop := {
  sign_verify : forall p epoch message pk sig, genuine p ->
    leansig_pubkey_serialize p = (ResultOK, pk) -> leansig_sign p epoch message = (ResultOK, sig) ->
    pk <> [] /\ sig <> [] /\ leansig_verify pk epoch message sig = ResultOK }.

(** A keypair with such a handle. *)
Definition genuine_keypair {FFI : LeansigFFI} (kp : Keypair) : Prop := exists p, kp_ptr kp = Some p /\ genuine p.

Section Properties.
Context {FFI : LeansigFFI} {LAWS : LeansigLaws FFI}.

(** A valid signature is exactly a result code 0 on non-empty inputs. *)
Lemma Verify_ok pk epoch message sig :
  Verify pk epoch message sig = Ok () <->
  pk <> [] /\ sig <> [] /\ leansig_verify pk epoch message sig = ResultOK.
Proof.
  unfold Verify, fail_if. destruct pk as [|p pk], sig as [|q sig]; cbn [length Nat.eqb orb];
    try (split; [done|by intros (? & ? & _)]).
  destruct (Z.eqb_spec (leansig_verify (p :: pk) epoch message (q :: sig)) ResultOK); [by split|].
  case_match; (split; [done|by intros (_ & _ & ?)]).
Qed.

(** what a generated keypair signs, the verifier accepts under the keypair's public key bytes, and a
    freed keypair signs nothing. *)
Theorem Sign_Verify (kp : Keypair) (epoch : Z) (message : root) (pk sig : bytes) :
  genuine_keypair kp -> PublicKeyBytes kp = Ok pk -> Sign kp epoch message = Ok sig ->
  Verify pk epoch message sig = Ok () /\
  Sign (Free kp) epoch message = Err (Errorf "keypair is nil" []).
Proof.
  intros (p & Ep & Hp). unfold PublicKeyBytes, Sign, Free, with_ptr, fail_if. rewrite Ep.
  destruct (leansig_pubkey_serialize p) as [r1 pk'] eqn:E1, (leansig_sign p epoch message) as [r2 sig'] eqn:E2.
  destruct (Z.eqb_spec r1 ResultOK) as [->|], (Z.eqb_spec r2 ResultOK) as [->|]; try done.
  intros [= ->] [= ->]. split; [|done]. apply Verify_ok. by eapply sign_verify.
Qed.
End Properties.

(** ** A concrete scheme for the witnesses: a signature repeats what it signs *)

Definition toy_body (pk : bytes) (epoch : Z) (message : root) : bytes :=
  take XMSSSignatureSize (pk ++ le_bytes 4 epoch ++ vec_to_list message ++ replicate XMSSSignatureSize Byte.x00).
Lemma length_toy_body pk e m : length (toy_body pk e m) = XMSSSignatureSize.
Proof.
  unfold toy_body. rewrite length_take, !length_app, length_replicate. lia.
Qed.

#[export] Instance toy_ffi : LeansigFFI := {
  LeansigKeypair := Z;
  leansig_keypair_generate seed _ _ := (0, seed);
  leansig_keypair_restore pk sk := (0, le_Z pk);
  leansig_pubkey_serialize k := (0, le_bytes 52 k);
  leansig_seckey_serialize k := (0, le_bytes 52 k);
  leansig_sk_activation_start _ := 0;
  leansig_sk_activation_end _ := 2 ^ 32;
  leansig_sk_prepared_start _ := 0;
  leansig_sk_prepared_end _ := 2 ^ 32;
  leansig_sk_advance_preparation k := (0, k);
  leansig_sign k epoch message := (0, toy_body (le_bytes 52 k) epoch message);
  leansig_verify pk epoch message sig := if decide (sig = toy_body pk epoch message) then 0 else 5;
  leansig_verify_with_keypair k epoch message sig :=
    if decide (sig = toy_body (le_bytes 52 k) epoch message) then 0 else 5 }.

#[export] Instance toy_ffi_laws : LeansigLaws toy_ffi.
Proof.
  split. cbn. intros p epoch message pk sig _ [= <-] [= <-]. split; [done|]. split; [done|].
  by rewrite decide_True.
Qed.

Definition ex_keypair : @Keypair toy_ffi := @mkKeypair toy_ffi (@Some Z 7).

Lemma Sign_Verify_witness :
  exists pk sig, PublicKeyBytes ex_keypair = Ok pk /\ Sign ex_keypair 3 ZeroHash = Ok sig /\
    Verify pk 3 ZeroHash sig = Ok () /\
    Sign (Free ex_keypair) 3 ZeroHash = Err (Errorf "keypair is nil" []).
Proof.
  eexists _, _. split; [reflexivity|]. split; [reflexivity|].
  apply (Sign_Verify ex_keypair 3 ZeroHash); [|reflexivity..].
  exists 7. split; [reflexivity|]. exact (genuine_generated 7 0 256 7 eq_refl).
Defined.
