(* ===== verification/Ssz.v ===== *)
(** types/*_encoding.go: the SSZ encoders, decoders and size functions of the consensus
    containers, as the generator wrote them.

    The runtime they call (github.com/ferranbt/fastssz) is the class [SszRuntime]; [SszLaws]
    states its documented behaviour.  A method [MarshalSSZTo] appends to the slice it is given.
    The encoder of [BlockWithAttestation] also writes to its receiver (it replaces a nil proposer
    attestation by a zero one), so it and its caller return the receiver with the bytes.  A
    decoder that succeeds overwrites every field of its receiver, except the two bitlists of
    [State], which it appends to; only [State_UnmarshalSSZ] therefore takes the receiver. *)
From S2P Require Import Prelude Types Hash Bitlist.
Local Open Scope Z_scope.

Class SszRuntime := {
  MarshalUint64 : bytes -> Z -> bytes;
  UnmarshallUint64 : bytes -> Z;
  WriteOffset : bytes -> Z -> bytes;
  ReadOffset : bytes -> Z;
  (** number of elements, or an error *)
  DivideInt2 : Z -> Z -> Z -> Z + error;
  ValidateBitlist : bytes -> Z -> option error;
  ErrListTooBigFn : string -> Z -> Z -> error;
  ErrBytesLengthFn : string -> Z -> Z -> error;
  (** ssz.MarshalSSZ on a value, given by its SizeSSZ and its MarshalSSZTo; the encoder also
      returns the receiver as it leaves it *)
  MarshalSSZ : forall {A : Type}, Z -> (bytes -> outcome (bytes * A)) -> outcome (bytes * A) }.

(** What the encoders rely on: little-endian integers of fixed width, [DivideInt2 a b max] the
    exact quotient up to [max], bitlists checked for their sentinel and their length, and a
    MarshalSSZ that encodes into a fresh buffer. *)
Class SszLaws (RT : SszRuntime) : Prop := {
  marshal_uint64 dst v : is_u64 v -> MarshalUint64 dst v = dst ++ le_bytes 8 v;
  unmarshal_uint64 b : length b = 8%nat -> UnmarshallUint64 b = le_Z b;
  write_offset dst o : 0 <= o < 2 ^ 32 -> WriteOffset dst o = dst ++ le_bytes 4 o;
  read_offset b : length b = 4%nat -> ReadOffset b = le_Z b;
  divide_exact n b max : 0 <= n <= max -> 0 < b -> DivideInt2 (n * b) b max = inl n;
  divide_error a b max : 0 <= a -> 0 < b -> (forall n, n <= max -> a <> n * b) ->
    exists e, DivideInt2 a b max = inr e;
  validate_bitlist b limit : ValidateBitlist b limit = None <->
    exists l, b = encode_bits l /\ Z.of_nat (length l) <= limit;
  marshal_fresh {A} size (m : bytes -> outcome (bytes * A)) : MarshalSSZ size m = m [] }.

Definition len {A} (l : list A) : Z := Z.of_nat (length l).

(** [buf\[lo:hi\]].  Go bounds [hi] by the capacity; the decoders never pass the length. *)
Definition slice (buf : bytes) (lo hi : Z) : outcome bytes :=
  if (0 <=? lo) && (lo <=? hi) && (hi <=? len buf)
  then Ok (take (Z.to_nat (hi - lo)) (drop (Z.to_nat lo) buf))
  else Panic "slice bounds out of range".

Section Code.
Context {RT : SszRuntime}.

Definition ErrSize : error := ErrLib "ErrSize".
Definition ErrOffset : error := ErrLib "ErrOffset".
Definition ErrInvalidVariableOffset : error := ErrLib "ErrInvalidVariableOffset".

Definition read_uint64 (buf : bytes) (lo hi : Z) : outcome Z :=
  b ← slice buf lo hi; Ok (UnmarshallUint64 b).
(** [copy(x\[:\], buf\[lo:hi\])] on an array of [n] bytes. *)
Definition read_array (n : nat) (buf : bytes) (lo hi : Z) : outcome (vec byte n) :=
  b ← slice buf lo hi; Ok (vec_of n b).
Definition read_offset_at (buf : bytes) (lo hi : Z) : outcome Z :=
  b ← slice buf lo hi; Ok (ReadOffset b).

(** [for ii := 0; ii < num; ii++ { ... buf\[ii*w:(ii+1)*w\] ... }] *)
Definition decode_list {A} (dec : bytes -> outcome A) (w : Z) (buf : bytes) (num : Z) : outcome (list A) :=
  foldM (fun acc ii => b ← slice buf (Z.of_nat ii * w) ((Z.of_nat ii + 1) * w);
                       x ← dec b; Ok (acc ++ [x])) [] (seq 0 (Z.to_nat num)).
(** A list field: the number of elements first, then the elements. *)
Definition read_list {A} (dec : bytes -> outcome A) (w limit : Z) (buf : bytes) : outcome (list A) :=
  match DivideInt2 (len buf) w limit with
  | inr e => Err e
  | inl num => decode_list dec w buf num
  end.
Definition copy_array (n : nat) (b : bytes) : outcome (vec byte n) := Ok (vec_of n b).

(** ** config_encoding.go, checkpoint_encoding.go *)

Definition Config_MarshalSSZTo (c : Config) (dst : bytes) : outcome bytes :=
  Ok (MarshalUint64 dst (cfg_GenesisTime c)).
Definition Config_UnmarshalSSZ (buf : bytes) : outcome Config :=
  if negb (len buf =? 8) then Err ErrSize
  else t ← read_uint64 buf 0 8; Ok (mkConfig t).
Definition Config_SizeSSZ (c : Config) : Z := 8.

Definition Checkpoint_MarshalSSZTo (c : Checkpoint) (dst : bytes) : outcome bytes :=
  let dst := dst ++ vec_to_list (cp_Root c) in
  Ok (MarshalUint64 dst (cp_Slot c)).
Definition Checkpoint_UnmarshalSSZ (buf : bytes) : outcome Checkpoint :=
  if negb (len buf =? 40) then Err ErrSize
  else
    r ← read_array 32 buf 0 32;
    s ← read_uint64 buf 32 40;
    Ok (mkCheckpoint r s).
Definition Checkpoint_SizeSSZ (c : Checkpoint) : Z := 40.

(** ** vote_encoding.go *)

Definition AttestationData_MarshalSSZTo (a : AttestationData) (dst : bytes) : outcome bytes :=
  let dst := MarshalUint64 dst (ad_Slot a) in
  dst ← Checkpoint_MarshalSSZTo (ad_Head a) dst;
  dst ← Checkpoint_MarshalSSZTo (ad_Target a) dst;
  Checkpoint_MarshalSSZTo (ad_Source a) dst.
Definition AttestationData_UnmarshalSSZ (buf : bytes) : outcome AttestationData :=
  if negb (len buf =? 128) then Err ErrSize
  else
    slot ← read_uint64 buf 0 8;
    b ← slice buf 8 48; h ← Checkpoint_UnmarshalSSZ b;
    b ← slice buf 48 88; t ← Checkpoint_UnmarshalSSZ b;
    b ← slice buf 88 128; s ← Checkpoint_UnmarshalSSZ b;
    Ok (mkAttestationData slot h t s).
Definition AttestationData_SizeSSZ (a : AttestationData) : Z := 128.

Definition Attestation_MarshalSSZTo (a : Attestation) (dst : bytes) : outcome bytes :=
  let dst := MarshalUint64 dst (att_ValidatorID a) in
  AttestationData_MarshalSSZTo (att_Data a) dst.
Definition Attestation_UnmarshalSSZ (buf : bytes) : outcome Attestation :=
  if negb (len buf =? 136) then Err ErrSize
  else
    v ← read_uint64 buf 0 8;
    b ← slice buf 8 136; d ← AttestationData_UnmarshalSSZ b;
    Ok (mkAttestation v d).
Definition Attestation_SizeSSZ (a : Attestation) : Z := 136.

Definition SignedAttestation_MarshalSSZTo (s : SignedAttestation) (dst : bytes) : outcome bytes :=
  let dst := MarshalUint64 dst (sa_ValidatorID s) in
  dst ← AttestationData_MarshalSSZTo (sa_Message s) dst;
  Ok (dst ++ vec_to_list (sa_Signature s)).
Definition SignedAttestation_UnmarshalSSZ (buf : bytes) : outcome SignedAttestation :=
  if negb (len buf =? 3248) then Err ErrSize
  else
    v ← read_uint64 buf 0 8;
    b ← slice buf 8 136; d ← AttestationData_UnmarshalSSZ b;
    sig ← read_array XMSSSignatureSize buf 136 3248;
    Ok (mkSignedAttestation v d sig).
Definition SignedAttestation_SizeSSZ (s : SignedAttestation) : Z := 3248.

(** ** block_encoding.go *)

Definition BlockHeader_MarshalSSZTo (b : BlockHeader) (dst : bytes) : outcome bytes :=
  let dst := MarshalUint64 dst (bh_Slot b) in
  let dst := MarshalUint64 dst (bh_ProposerIndex b) in
  let dst := dst ++ vec_to_list (bh_ParentRoot b) in
  let dst := dst ++ vec_to_list (bh_StateRoot b) in
  Ok (dst ++ vec_to_list (bh_BodyRoot b)).
Definition BlockHeader_UnmarshalSSZ (buf : bytes) : outcome BlockHeader :=
  if negb (len buf =? 112) then Err ErrSize
  else
    slot ← read_uint64 buf 0 8;
    p ← read_uint64 buf 8 16;
    parent ← read_array 32 buf 16 48;
    state ← read_array 32 buf 48 80;
    body ← read_array 32 buf 80 112;
    Ok (mkBlockHeader slot p parent state body).
Definition BlockHeader_SizeSSZ (b : BlockHeader) : Z := 112.

Definition BlockBody_MarshalSSZTo (b : BlockBody) (dst : bytes) : outcome bytes :=
  let dst := WriteOffset dst 4 in
  let size := len (bb_Attestations b) in
  if 4096 <? size then Err (ErrListTooBigFn "BlockBody.Attestations" size 4096)
  else foldM (fun dst a => Attestation_MarshalSSZTo a dst) dst (bb_Attestations b).
Definition BlockBody_UnmarshalSSZ (buf : bytes) : outcome BlockBody :=
  let size := len buf in
  if size <? 4 then Err ErrSize
  else
    o0 ← read_offset_at buf 0 4;
    if size <? o0 then Err ErrOffset
    else if negb (o0 =? 4) then Err ErrInvalidVariableOffset
    else
      buf ← slice buf o0 size;
      atts ← read_list Attestation_UnmarshalSSZ 136 4096 buf;
      Ok (mkBlockBody atts).
Definition BlockBody_SizeSSZ (b : BlockBody) : Z := 4 + len (bb_Attestations b) * 136.

Definition Block_MarshalSSZTo (b : Block) (dst : bytes) : outcome bytes :=
  let dst := MarshalUint64 dst (b_Slot b) in
  let dst := MarshalUint64 dst (b_ProposerIndex b) in
  let dst := dst ++ vec_to_list (b_ParentRoot b) in
  let dst := dst ++ vec_to_list (b_StateRoot b) in
  let dst := WriteOffset dst 84 in
  BlockBody_MarshalSSZTo (b_Body b) dst.
Definition Block_UnmarshalSSZ (buf : bytes) : outcome Block :=
  let size := len buf in
  if size <? 84 then Err ErrSize
  else
    slot ← read_uint64 buf 0 8;
    p ← read_uint64 buf 8 16;
    parent ← read_array 32 buf 16 48;
    state ← read_array 32 buf 48 80;
    o4 ← read_offset_at buf 80 84;
    if size <? o4 then Err ErrOffset
    else if negb (o4 =? 84) then Err ErrInvalidVariableOffset
    else
      buf ← slice buf o4 size;
      body ← BlockBody_UnmarshalSSZ buf;
      Ok (mkBlock slot p parent state body).
Definition Block_SizeSSZ (b : Block) : Z := 84 + BlockBody_SizeSSZ (b_Body b).

Definition BlockWithAttestation_MarshalSSZTo (b : BlockWithAttestation) (dst : bytes)
  : outcome (bytes * BlockWithAttestation) :=
  let dst := WriteOffset dst 140 in
  let b := match ba_ProposerAttestation b with
           | None => mkBlockWithAttestation (ba_Block b) (Some zero_Attestation)
           | Some _ => b
           end in
  match ba_ProposerAttestation b with
  | None => Panic "nil pointer dereference"
  | Some a =>
      dst ← Attestation_MarshalSSZTo a dst;
      dst ← Block_MarshalSSZTo (ba_Block b) dst;
      Ok (dst, b)
  end.
Definition BlockWithAttestation_UnmarshalSSZ (buf : bytes) : outcome BlockWithAttestation :=
  let size := len buf in
  if size <? 140 then Err ErrSize
  else
    o0 ← read_offset_at buf 0 4;
    if size <? o0 then Err ErrOffset
    else if negb (o0 =? 140) then Err ErrInvalidVariableOffset
    else
      b ← slice buf 4 140; a ← Attestation_UnmarshalSSZ b;
      buf ← slice buf o0 size;
      block ← Block_UnmarshalSSZ buf;
      Ok (mkBlockWithAttestation block (Some a)).
Definition BlockWithAttestation_SizeSSZ (b : BlockWithAttestation) : Z := 140 + Block_SizeSSZ (ba_Block b).

Definition SignedBlock_SizeSSZ (s : SignedBlockWithAttestation) : Z :=
  8 + BlockWithAttestation_SizeSSZ (sb_Message s) + len (sb_Signature s) * 3112.
Definition SignedBlock_MarshalSSZTo (s : SignedBlockWithAttestation) (dst : bytes)
  : outcome (bytes * SignedBlockWithAttestation) :=
  let offset := 8 in
  let dst := WriteOffset dst offset in
  let offset := offset + BlockWithAttestation_SizeSSZ (sb_Message s) in
  let dst := WriteOffset dst offset in
  '(dst, message) ← BlockWithAttestation_MarshalSSZTo (sb_Message s) dst;
  let size := len (sb_Signature s) in
  if 4096 <? size then Err (ErrListTooBigFn "SignedBlockWithAttestation.Signature" size 4096)
  else Ok (foldl (fun dst sig => dst ++ vec_to_list sig) dst (sb_Signature s),
           mkSignedBlock message (sb_Signature s)).
Definition SignedBlock_UnmarshalSSZ (buf : bytes) : outcome SignedBlockWithAttestation :=
  let size := len buf in
  if size <? 8 then Err ErrSize
  else
    o0 ← read_offset_at buf 0 4;
    if size <? o0 then Err ErrOffset
    else if negb (o0 =? 8) then Err ErrInvalidVariableOffset
    else
      o1 ← read_offset_at buf 4 8;
      if (size <? o1) || (o1 <? o0) then Err ErrOffset
      else
        b ← slice buf o0 o1; message ← BlockWithAttestation_UnmarshalSSZ b;
        b ← slice buf o1 size;
        sigs ← read_list (copy_array XMSSSignatureSize) 3112 4096 b;
        Ok (mkSignedBlock message sigs).
Definition SignedBlock_MarshalSSZ (s : SignedBlockWithAttestation)
  : outcome (bytes * SignedBlockWithAttestation) :=
  MarshalSSZ (SignedBlock_SizeSSZ s) (SignedBlock_MarshalSSZTo s).
Definition SignedAttestation_MarshalSSZ (s : SignedAttestation) : outcome bytes :=
  '(dst, _) ← MarshalSSZ (SignedAttestation_SizeSSZ s)
                (fun dst => dst ← SignedAttestation_MarshalSSZTo s dst; Ok (dst, s));
  Ok dst.

(** ** state_encoding.go *)

Definition Validator_MarshalSSZTo (v : Validator) (dst : bytes) : outcome bytes :=
  let dst := dst ++ vec_to_list (v_Pubkey v) in
  Ok (MarshalUint64 dst (v_Index v)).
Definition Validator_UnmarshalSSZ (buf : bytes) : outcome Validator :=
  if negb (len buf =? 60) then Err ErrSize
  else
    pk ← read_array 52 buf 0 52;
    i ← read_uint64 buf 52 60;
    Ok (mkValidator pk i).
Definition Validator_SizeSSZ (v : Validator) : Z := 60.

Definition append_arrays {n} (dst : bytes) (l : list (vec byte n)) : bytes :=
  foldl (fun dst x => dst ++ vec_to_list x) dst l.

Definition State_MarshalSSZTo (s : State) (dst : bytes) : outcome bytes :=
  let offset := 228 in
  dst ← Config_MarshalSSZTo (st_Config s) dst;
  let dst := MarshalUint64 dst (st_Slot s) in
  dst ← BlockHeader_MarshalSSZTo (st_LatestBlockHeader s) dst;
  dst ← Checkpoint_MarshalSSZTo (st_LatestJustified s) dst;
  dst ← Checkpoint_MarshalSSZTo (st_LatestFinalized s) dst;
  let dst := WriteOffset dst offset in
  let offset := offset + len (st_HistoricalBlockHashes s) * 32 in
  let dst := WriteOffset dst offset in
  let offset := offset + len (st_JustifiedSlots s) in
  let dst := WriteOffset dst offset in
  let offset := offset + len (st_Validators s) * 60 in
  let dst := WriteOffset dst offset in
  let offset := offset + len (st_JustificationsRoots s) * 32 in
  let dst := WriteOffset dst offset in
  let size := len (st_HistoricalBlockHashes s) in
  if 262144 <? size then Err (ErrListTooBigFn "State.HistoricalBlockHashes" size 262144) else
  let dst := append_arrays dst (st_HistoricalBlockHashes s) in
  let size := len (st_JustifiedSlots s) in
  if 262144 <? size then Err (ErrBytesLengthFn "State.JustifiedSlots" size 262144) else
  let dst := dst ++ st_JustifiedSlots s in
  let size := len (st_Validators s) in
  if 4096 <? size then Err (ErrListTooBigFn "State.Validators" size 4096) else
  dst ← foldM (fun dst v => Validator_MarshalSSZTo v dst) dst (st_Validators s);
  let size := len (st_JustificationsRoots s) in
  if 262144 <? size then Err (ErrListTooBigFn "State.JustificationsRoots" size 262144) else
  let dst := append_arrays dst (st_JustificationsRoots s) in
  let size := len (st_JustificationsValidators s) in
  if 1073741824 <? size then Err (ErrBytesLengthFn "State.JustificationsValidators" size 1073741824) else
  Ok (dst ++ st_JustificationsValidators s).

(** [if err = ssz.ValidateBitlist(buf, limit); err != nil { return err }] *)
Definition read_bitlist (buf : bytes) (limit : Z) : outcome bytes :=
  match ValidateBitlist buf limit with Some e => Err e | None => Ok buf end.

(** The offsets o5..o9 of the five variable-size fields. *)
Definition State_read_offsets (buf : bytes) : outcome (Z * Z * Z * Z * Z) :=
  let size := len buf in
  o5 ← read_offset_at buf 208 212;
  if size <? o5 then Err ErrOffset
  else if negb (o5 =? 228) then Err ErrInvalidVariableOffset
  else
    o6 ← read_offset_at buf 212 216;
    if (size <? o6) || (o6 <? o5) then Err ErrOffset else
    o7 ← read_offset_at buf 216 220;
    if (size <? o7) || (o7 <? o6) then Err ErrOffset else
    o8 ← read_offset_at buf 220 224;
    if (size <? o8) || (o8 <? o7) then Err ErrOffset else
    o9 ← read_offset_at buf 224 228;
    if (size <? o9) || (o9 <? o8) then Err ErrOffset else
    Ok (o5, o6, o7, o8, o9).

Definition State_UnmarshalSSZ (s : State) (buf : bytes) : outcome State :=
  let size := len buf in
  if size <? 228 then Err ErrSize
  else
    b ← slice buf 0 8; config ← Config_UnmarshalSSZ b;
    slot ← read_uint64 buf 8 16;
    b ← slice buf 16 128; header ← BlockHeader_UnmarshalSSZ b;
    b ← slice buf 128 168; justified ← Checkpoint_UnmarshalSSZ b;
    b ← slice buf 168 208; finalized ← Checkpoint_UnmarshalSSZ b;
    '(o5, o6, o7, o8, o9) ← State_read_offsets buf;
    b ← slice buf o5 o6; hashes ← read_list (copy_array 32) 32 262144 b;
    b ← slice buf o6 o7; slots ← read_bitlist b 262144;
    b ← slice buf o7 o8; validators ← read_list Validator_UnmarshalSSZ 60 4096 b;
    b ← slice buf o8 o9; roots ← read_list (copy_array 32) 32 262144 b;
    b ← slice buf o9 size; votes ← read_bitlist b 1073741824;
    Ok {| st_Config := config; st_Slot := slot; st_LatestBlockHeader := header;
          st_LatestJustified := justified; st_LatestFinalized := finalized;
          st_HistoricalBlockHashes := hashes;
          st_JustifiedSlots := st_JustifiedSlots s ++ slots;
          st_Validators := validators; st_JustificationsRoots := roots;
          st_JustificationsValidators := st_JustificationsValidators s ++ votes |}.

Definition State_SizeSSZ (s : State) : Z :=
  228 + len (st_HistoricalBlockHashes s) * 32 + len (st_JustifiedSlots s) +
  len (st_Validators s) * 60 + len (st_JustificationsRoots s) * 32 +
  len (st_JustificationsValidators s).
Definition State_MarshalSSZ (s : State) : outcome bytes :=
  '(dst, _) ← MarshalSSZ (State_SizeSSZ s) (fun dst => dst ← State_MarshalSSZTo s dst; Ok (dst, s));
  Ok dst.

(** ** MarshalSSZ of the containers that are only sent as a part of another *)

Definition marshal_pure (size : Z) (to : bytes -> outcome bytes) : outcome bytes :=
  '(dst, _) ← MarshalSSZ size (fun dst => dst ← to dst; Ok (dst, tt)); Ok dst.
Definition Config_MarshalSSZ (c : Config) := marshal_pure (Config_SizeSSZ c) (Config_MarshalSSZTo c).
Definition Checkpoint_MarshalSSZ (c : Checkpoint) := marshal_pure (Checkpoint_SizeSSZ c) (Checkpoint_MarshalSSZTo c).
Definition Attestation_MarshalSSZ (a : Attestation) := marshal_pure (Attestation_SizeSSZ a) (Attestation_MarshalSSZTo a).
Definition BlockHeader_MarshalSSZ (b : BlockHeader) := marshal_pure (BlockHeader_SizeSSZ b) (BlockHeader_MarshalSSZTo b).
Definition BlockBody_MarshalSSZ (b : BlockBody) := marshal_pure (BlockBody_SizeSSZ b) (BlockBody_MarshalSSZTo b).
Definition Block_MarshalSSZ (b : Block) := marshal_pure (Block_SizeSSZ b) (Block_MarshalSSZTo b).
(** A nil proposer attestation is replaced in the receiver, which is returned. *)
Definition BlockWithAttestation_MarshalSSZ (b : BlockWithAttestation) : outcome (bytes * BlockWithAttestation) :=
  MarshalSSZ (BlockWithAttestation_SizeSSZ b) (BlockWithAttestation_MarshalSSZTo b).
Definition Validator_MarshalSSZ (v : Validator) := marshal_pure (Validator_SizeSSZ v) (Validator_MarshalSSZTo v).
End Code.
