(* ===== verification/SszCodec.v ===== *)
(** Codecs: what it means for an encoder and a decoder to agree, and the rules to compose them.

    [FixedCodec] is for values of a constant size: every byte string of that size is the encoding
    of exactly one value.  [Codec] is for the containers with variable parts: the decoder gives
    back what was encoded, and a byte string that encodes nothing is an error.  The instances
    follow the containers of [Ssz]. *)
From S2P Require Import Prelude Types Hash Bitlist Ssz.
Local Open Scope Z_scope.

Class FixedCodec {A} (wf : A -> Prop) (enc : A -> bytes) (dec : bytes -> outcome A) (n : nat) : Prop := {
  fixed_length x : length (enc x) = n;
  fixed_dec x : wf x -> dec (enc x) = Ok x;
  fixed_surj b : length b = n -> exists x, wf x /\ enc x = b }.

Class Codec {A} (wf : A -> Prop) (enc : A -> bytes) (dec : bytes -> outcome A) : Prop := {
  codec_dec x : wf x -> dec (enc x) = Ok x;
  codec_total b : total (dec b) (fun x => wf x /\ enc x = b) (fun _ => True) }.

(** * Pieces of a buffer *)

Lemma len_app {A} (l k : list A) : len (l ++ k) = len l + len k.
Proof. unfold len. rewrite length_app. lia. Qed.

Lemma len_le_bytes n z : len (le_bytes n z) = Z.of_nat n.
Proof. unfold len. by rewrite length_le_bytes. Qed.

(** A slice whose bounds are those of the [i]-th piece is that piece. *)
Lemma slice_piece (ls : list bytes) (i : nat) (p : bytes) lo hi :
  ls !! i = Some p -> lo = len (concat (take i ls)) -> hi = lo + len p ->
  slice (concat ls) lo hi = Ok p.
Proof.
  intros Hi -> ->.
  assert (E : concat ls = concat (take i ls) ++ p ++ concat (drop (S i) ls)).
  { rewrite <- (take_drop_middle ls i p Hi) at 1. by rewrite concat_app. }
  rewrite E. generalize (concat (take i ls)), (concat (drop (S i) ls)). intros a z.
  unfold slice. rewrite !len_app. unfold len.
  rewrite (proj2 (Z.leb_le 0 _)), (proj2 (Z.leb_le (Z.of_nat (length a)) _)), (proj2 (Z.leb_le _ (_ + (_ + _)))) by lia.
  cbn [andb]. rewrite Nat2Z.id. replace (Z.to_nat _) with (length p) by lia.
  by rewrite drop_app_length, take_app_length.
Qed.

Lemma cut_pieces (ns : list nat) (b : bytes) :
  length b = sum_list ns -> exists ls, concat ls = b /\ Forall2 (fun l n => length l = n) ls ns.
Proof.
  revert b; induction ns as [|n ns IH]; intros b Hb.
  - exists []. destruct b; [by split|done].
  - cbn in Hb. destruct (IH (drop n b)) as (ls & E & Hls).
    { rewrite length_drop. lia. }
    exists (take n b :: ls). split; [cbn; rewrite E; apply take_drop|].
    constructor; [rewrite length_take; lia|done].
Qed.

(** [cut ns H] splits a buffer of known length into pieces [p], [p0], [p1], ...; the length of
    each stays in the context. *)
Ltac cut_step H :=
  let p := fresh "p" in let n := fresh "n" in let Hp := fresh "Hlen" in let H' := fresh in
  inversion H as [|p n ? ? Hp H']; subst n; subst; clear H; rename H' into H.
Ltac cut ns H :=
  let ls := fresh "ls" in let Hls := fresh "Hls" in
  destruct (cut_pieces ns _ H) as (ls & <- & Hls); repeat cut_step Hls; inversion Hls; subst; clear Hls.

(** The same for a buffer that is at least as long; the rest is the last piece [t]. *)
Lemma cut_front (ns : list nat) (b : bytes) : Z.of_nat (sum_list ns) <= len b ->
  exists ls t, concat (ls ++ [t]) = b /\ Forall2 (fun l n => length l = n) ls ns.
Proof.
  intros Hb. destruct (cut_pieces ns (take (sum_list ns) b)) as (ls & E & Hls).
  { rewrite length_take. unfold len in Hb. lia. }
  exists ls, (drop (sum_list ns) b). split; [|done].
  rewrite concat_app, E. cbn. by rewrite app_nil_r, take_drop.
Qed.
Ltac cut_tail ns b t :=
  let ls := fresh "ls" in let Hls := fresh "Hls" in
  destruct (cut_front ns b) as (ls & t & <- & Hls); [cbn; lia|];
  repeat cut_step Hls; inversion Hls; subst; clear Hls; cbn [app] in *.

Lemma concat_last (ls ks : list bytes) : concat (ls ++ [concat ks]) = concat (ls ++ ks).
Proof. rewrite !concat_app. cbn. by rewrite app_nil_r. Qed.
Lemma cut_last (ls : list bytes) (k : Z) (t : bytes) : 0 <= k <= len t ->
  exists q r, concat (ls ++ [t]) = concat (ls ++ [q; r]) /\ len q = k /\ len t = k + len r.
Proof.
  intros Hk. exists (take (Z.to_nat k) t), (drop (Z.to_nat k) t).
  rewrite <- (concat_last ls [_; _]). cbn [concat]. rewrite app_nil_r, take_drop.
  unfold len in *. rewrite length_take, length_drop. split; [done|]. lia.
Qed.

Create Rewrite HintDb enc_len.
#[export] Hint Rewrite @length_app @length_vec_to_list length_le_bytes @length_nil : enc_len.

Ltac len_tac := cbn [take concat app length]; unfold len in *;
  repeat (autorewrite with enc_len; cbn [length Nat.add]); try lia.

(** * Integers and arrays *)

Section Codecs.
Context {RT : SszRuntime} {LAWS : SszLaws RT}.

Lemma u64_bytes v : is_u64 v -> UnmarshallUint64 (le_bytes 8 v) = v.
Proof. intros H. rewrite unmarshal_uint64 by apply length_le_bytes. by apply le_Z_le_bytes. Qed.
Lemma u64_surj b : length b = 8%nat -> exists v, is_u64 v /\ le_bytes 8 v = b.
Proof.
  intros H. exists (le_Z b). split; [|by apply le_bytes_le_Z].
  pose proof (le_Z_bounds b) as Hb. by rewrite H in Hb.
Qed.
Lemma offset_surj b : length b = 4%nat -> exists o, 0 <= o < 2 ^ 32 /\ le_bytes 4 o = b.
Proof.
  intros H. exists (le_Z b). split; [|by apply le_bytes_le_Z].
  pose proof (le_Z_bounds b) as Hb. by rewrite H in Hb.
Qed.
Lemma array_surj n (b : bytes) : length b = n -> exists v : vec byte n, vec_to_list v = b.
Proof. intros H. exists (vec_of n b). by apply vec_to_list_vec_of. Qed.

#[export] Instance array_codec n : FixedCodec (fun _ => True) (@vec_to_list byte n) (copy_array n) n.
Proof.
  split.
  - apply length_vec_to_list.
  - intros v _. unfold copy_array. by rewrite vec_of_to_list.
  - intros b Hb. destruct (array_surj n b Hb) as (v & E). by exists v.
Qed.

Lemma read_uint64_piece (ls : list bytes) i v lo hi :
  ls !! i = Some (le_bytes 8 v) -> is_u64 v -> lo = len (concat (take i ls)) -> hi = lo + 8 ->
  read_uint64 (concat ls) lo hi = Ok v.
Proof.
  intros Hi Hv Hlo Hhi. unfold read_uint64. rewrite (slice_piece ls i _ lo hi Hi Hlo) by done.
  cbn -[le_bytes]. by rewrite u64_bytes.
Qed.
Lemma read_offset_piece (ls : list bytes) i o lo hi :
  ls !! i = Some (le_bytes 4 o) -> 0 <= o < 2 ^ 32 -> lo = len (concat (take i ls)) -> hi = lo + 4 ->
  read_offset_at (concat ls) lo hi = Ok o.
Proof.
  intros Hi Hv Hlo Hhi. unfold read_offset_at. rewrite (slice_piece ls i _ lo hi Hi Hlo) by done.
  cbn -[le_bytes]. rewrite read_offset by apply length_le_bytes. by rewrite le_Z_le_bytes.
Qed.
Lemma read_array_piece (ls : list bytes) i n (v : vec byte n) lo hi :
  ls !! i = Some (vec_to_list v) -> lo = len (concat (take i ls)) -> hi = lo + Z.of_nat n ->
  read_array n (concat ls) lo hi = Ok v.
Proof.
  intros Hi Hlo Hhi. unfold read_array. rewrite (slice_piece ls i _ lo hi Hi Hlo).
  - cbn. by rewrite vec_of_to_list.
  - unfold len. by rewrite length_vec_to_list.
Qed.

(** * Lists of values of a constant size *)

Section Lists.
Context {A : Type} {wf : A -> Prop} {enc : A -> bytes} {dec : bytes -> outcome A} {n : nat}.
Context {C : FixedCodec wf enc dec n}.

Lemma length_enc_list (l : list A) : length (concat (map enc l)) = (length l * n)%nat.
Proof.
  induction l as [|x l IH]; [done|]. cbn [map concat]. rewrite length_app, IH, (fixed_length x).
  cbn [length]. lia.
Qed.

Lemma decode_list_enc (l : list A) :
  Forall wf l -> decode_list dec (Z.of_nat n) (concat (map enc l)) (len l) = Ok l.
Proof.
  intros Hl. unfold decode_list, len. rewrite Nat2Z.id.
  enough (G : forall k done rest, l = done ++ rest -> k = length done ->
    foldM (fun acc ii => b ← slice (concat (map enc l)) (Z.of_nat ii * Z.of_nat n) ((Z.of_nat ii + 1) * Z.of_nat n);
                         x ← dec b; Ok (acc ++ [x])) done (seq k (length rest)) = Ok l)
    by by apply (G 0%nat [] l).
  intros k done rest. revert k done. induction rest as [|x rest IH]; intros k done -> ->.
  - cbn. by rewrite app_nil_r.
  - cbn [seq length foldM].
    rewrite (slice_piece _ (length done) (enc x)).
    + cbn [mbind outcome_bind]. rewrite fixed_dec.
      2: { apply list.Forall_app in Hl as [_ Hl]. by inversion Hl. }
      cbn [mbind outcome_bind]. replace (done ++ x :: rest) with ((done ++ [x]) ++ rest) in * by by rewrite <- app_assoc.
      rewrite (IH (S (length done)) (done ++ [x])); [done|done|]. rewrite length_app. cbn. lia.
    + rewrite List.map_app, list.lookup_app_r; rewrite List.length_map; [|lia]. by rewrite Nat.sub_diag.
    + rewrite List.map_app, list.take_app_length' by (symmetry; apply List.length_map). unfold len. rewrite length_enc_list. lia.
    + unfold len. rewrite fixed_length. lia.
Qed.

Lemma read_list_enc (l : list A) w limit :
  w = Z.of_nat n -> 0 < w -> Forall wf l -> len l <= limit ->
  read_list dec w limit (concat (map enc l)) = Ok l.
Proof.
  intros -> Hw Hl Hle. unfold read_list. unfold len at 1. rewrite length_enc_list, Nat2Z.inj_mul.
  rewrite (divide_exact (Z.of_nat (length l))) by (unfold len in Hle; lia). by apply decode_list_enc.
Qed.

Lemma enc_list_surj (k : nat) (b : bytes) : length b = (k * n)%nat ->
  exists l, length l = k /\ Forall wf l /\ concat (map enc l) = b.
Proof.
  revert b; induction k as [|k IH]; intros b Hb.
  - exists []. destruct b; [done|discriminate].
  - destruct (IH (drop n b)) as (l & Hk & Hl & E); [rewrite length_drop; lia|].
    destruct (fixed_surj (take n b)) as (x & Hx & Ex); [rewrite length_take; lia|].
    exists (x :: l). cbn. rewrite Hk, Ex, E, take_drop. by repeat constructor.
Qed.

Lemma read_list_total (b : bytes) w limit :
  w = Z.of_nat n -> 0 < w ->
  total (read_list dec w limit b)
    (fun l => Forall wf l /\ len l <= limit /\ concat (map enc l) = b) (fun _ => True).
Proof.
  intros -> Hw.
  destruct (decide (len b mod Z.of_nat n = 0 /\ len b / Z.of_nat n <= limit)) as [[H1 H2]|Hno].
  - pose proof (Z.div_pos (len b) (Z.of_nat n) ltac:(unfold len; lia) Hw) as Hq.
    destruct (enc_list_surj (Z.to_nat (len b / Z.of_nat n)) b) as (l & Hk & Hl & <-).
    + pose proof (Z.div_mod (len b) (Z.of_nat n) ltac:(lia)) as Hd. rewrite H1 in Hd. unfold len in *. nia.
    + assert (Hle : len l <= limit) by (unfold len at 1; lia).
      rewrite read_list_enc by done. by split_and!.
  - unfold read_list.
    destruct (divide_error (len b) (Z.of_nat n) limit) as (e & ->); [unfold len; lia|done| |done].
    intros m Hm E. apply Hno. rewrite E, Z.mod_mul, Z.div_mul by lia. done.
Qed.
End Lists.
End Codecs.
