(* ===== verification/SszWire.v ===== *)
(** The SSZ wire format of every container, and the theorems that connect it to the generated
    encoders and decoders of [Ssz].

    [wire_X] is the encoding of a container as the format defines it: the fields in order, a
    list as the concatenation of its elements, a variable-size field as a 4-byte offset in the
    fixed part.  Each container has an instance of [FixedCodec] or [Codec] for its decoder, and a
    lemma that its MarshalSSZTo appends exactly [wire_X]. *)
From S2P Require Import Prelude Types Hash Bitlist Ssz SszCodec.
Local Open Scope Z_scope.

(** * The format *)

Definition wire_list {A} (enc : A -> bytes) (l : list A) : bytes := concat (map enc l).

Definition wire_Config (c : Config) : bytes := concat [le_bytes 8 (cfg_GenesisTime c)].
Definition wire_Checkpoint (c : Checkpoint) : bytes :=
  concat [vec_to_list (cp_Root c); le_bytes 8 (cp_Slot c)].
Definition wire_AttestationData (a : AttestationData) : bytes :=
  concat [le_bytes 8 (ad_Slot a); wire_Checkpoint (ad_Head a); wire_Checkpoint (ad_Target a);
          wire_Checkpoint (ad_Source a)].
Definition wire_Attestation (a : Attestation) : bytes :=
  concat [le_bytes 8 (att_ValidatorID a); wire_AttestationData (att_Data a)].
Definition wire_SignedAttestation (s : SignedAttestation) : bytes :=
  concat [le_bytes 8 (sa_ValidatorID s); wire_AttestationData (sa_Message s);
          vec_to_list (sa_Signature s)].
Definition wire_BlockHeader (b : BlockHeader) : bytes :=
  concat [le_bytes 8 (bh_Slot b); le_bytes 8 (bh_ProposerIndex b); vec_to_list (bh_ParentRoot b);
          vec_to_list (bh_StateRoot b); vec_to_list (bh_BodyRoot b)].
Definition wire_Validator (v : Validator) : bytes :=
  concat [vec_to_list (v_Pubkey v); le_bytes 8 (v_Index v)].
Definition wire_BlockBody (b : BlockBody) : bytes :=
  concat [le_bytes 4 4; wire_list wire_Attestation (bb_Attestations b)].
Definition wire_Block (b : Block) : bytes :=
  concat [le_bytes 8 (b_Slot b); le_bytes 8 (b_ProposerIndex b); vec_to_list (b_ParentRoot b);
          vec_to_list (b_StateRoot b); le_bytes 4 84; wire_BlockBody (b_Body b)].
Definition wire_BlockWithAttestation (b : BlockWithAttestation) : bytes :=
  concat [le_bytes 4 140; wire_Attestation (default zero_Attestation (ba_ProposerAttestation b));
          wire_Block (ba_Block b)].
Definition wire_SignedBlock (s : SignedBlockWithAttestation) : bytes :=
  concat [le_bytes 4 8; le_bytes 4 (8 + len (wire_BlockWithAttestation (sb_Message s)));
          wire_BlockWithAttestation (sb_Message s); wire_list vec_to_list (sb_Signature s)].

(** The offsets of the five variable-size fields of a state. *)
Definition state_o6 (s : State) : Z := 228 + len (st_HistoricalBlockHashes s) * 32.
Definition state_o7 (s : State) : Z := state_o6 s + len (st_JustifiedSlots s).
Definition state_o8 (s : State) : Z := state_o7 s + len (st_Validators s) * 60.
Definition state_o9 (s : State) : Z := state_o8 s + len (st_JustificationsRoots s) * 32.
Definition wire_State (s : State) : bytes :=
  concat [wire_Config (st_Config s); le_bytes 8 (st_Slot s); wire_BlockHeader (st_LatestBlockHeader s);
          wire_Checkpoint (st_LatestJustified s); wire_Checkpoint (st_LatestFinalized s);
          le_bytes 4 228; le_bytes 4 (state_o6 s); le_bytes 4 (state_o7 s); le_bytes 4 (state_o8 s);
          le_bytes 4 (state_o9 s);
          wire_list vec_to_list (st_HistoricalBlockHashes s); st_JustifiedSlots s;
          wire_list wire_Validator (st_Validators s); wire_list vec_to_list (st_JustificationsRoots s);
          st_JustificationsValidators s].

(** The values the format can carry: integers in range, lists within their limits. *)
Definition fits_BlockBody (b : BlockBody) : Prop :=
  Forall wf_Attestation (bb_Attestations b) /\ len (bb_Attestations b) <= 4096.
Definition fits_Block (b : Block) : Prop :=
  is_u64 (b_Slot b) /\ is_u64 (b_ProposerIndex b) /\ fits_BlockBody (b_Body b).
Definition fits_BlockWithAttestation (b : BlockWithAttestation) : Prop :=
  fits_Block (ba_Block b) /\
  match ba_ProposerAttestation b with Some a => wf_Attestation a | None => False end.
Definition fits_SignedBlock (s : SignedBlockWithAttestation) : Prop :=
  fits_BlockWithAttestation (sb_Message s) /\ len (sb_Signature s) <= 4096.

(** A canonical bitlist of at most [limit] bits. *)
Definition is_bitlist (b : bytes) (limit : Z) : Prop := exists l, b = encode_bits l /\ len l <= limit.
Record fits_State (s : State) : Prop := {
  fits_genesis : is_u64 (cfg_GenesisTime (st_Config s));
  fits_slot : is_u64 (st_Slot s);
  fits_header : wf_BlockHeader (st_LatestBlockHeader s);
  fits_justified : wf_Checkpoint (st_LatestJustified s);
  fits_finalized : wf_Checkpoint (st_LatestFinalized s);
  fits_hashes : len (st_HistoricalBlockHashes s) <= 262144;
  fits_slots : is_bitlist (st_JustifiedSlots s) 262144;
  fits_validators : Forall wf_Validator (st_Validators s);
  fits_registry : len (st_Validators s) <= 4096;
  fits_roots : len (st_JustificationsRoots s) <= 262144;
  fits_votes : is_bitlist (st_JustificationsValidators s) 1073741824 }.

(** * Sizes *)

(** The constant sizes. *)
Ltac fixed_size := intros; unfold wire_Config, wire_Checkpoint, wire_AttestationData, wire_Attestation,
  wire_SignedAttestation, wire_BlockHeader, wire_Validator; len_tac.
Lemma length_wire_Config c : length (wire_Config c) = 8%nat.
Proof. fixed_size. Qed.
#[export] Hint Rewrite length_wire_Config : enc_len.
Lemma length_wire_Checkpoint c : length (wire_Checkpoint c) = 40%nat.
Proof. fixed_size. Qed.
#[export] Hint Rewrite length_wire_Checkpoint : enc_len.
Lemma length_wire_AttestationData a : length (wire_AttestationData a) = 128%nat.
Proof. fixed_size. Qed.
#[export] Hint Rewrite length_wire_AttestationData : enc_len.
Lemma length_wire_Attestation a : length (wire_Attestation a) = 136%nat.
Proof. fixed_size. Qed.
#[export] Hint Rewrite length_wire_Attestation : enc_len.
Lemma length_wire_SignedAttestation s : length (wire_SignedAttestation s) = 3248%nat.
Proof. fixed_size. reflexivity. Qed.
#[export] Hint Rewrite length_wire_SignedAttestation : enc_len.
Lemma length_wire_BlockHeader b : length (wire_BlockHeader b) = 112%nat.
Proof. fixed_size. Qed.
#[export] Hint Rewrite length_wire_BlockHeader : enc_len.
Lemma length_wire_Validator v : length (wire_Validator v) = 60%nat.
Proof. fixed_size. Qed.
#[export] Hint Rewrite length_wire_Validator : enc_len.

Lemma len_wire_list {A} (enc : A -> bytes) n (l : list A) :
  (forall x, length (enc x) = n) -> len (wire_list enc l) = len l * Z.of_nat n.
Proof.
  intros H. unfold len, wire_list. induction l as [|x l IH]; [done|]. cbn [map concat length].
  rewrite length_app, H. lia.
Qed.
Lemma len_wire_arrays {n} (l : list (vec byte n)) : len (wire_list vec_to_list l) = len l * Z.of_nat n.
Proof. apply len_wire_list, length_vec_to_list. Qed.
Lemma len_wire_Attestations l : len (wire_list wire_Attestation l) = len l * 136.
Proof. apply (len_wire_list _ 136), length_wire_Attestation. Qed.
Lemma len_wire_Validators l : len (wire_list wire_Validator l) = len l * 60.
Proof. apply (len_wire_list _ 60), length_wire_Validator. Qed.

(** * Decoders of constant size *)

(** The bounds of a field that follows the lists. *)
Ltac state_side :=
  cbn [take concat app]; rewrite ?len_app, ?len_le_bytes, ?len_wire_arrays, ?len_wire_Validators;
  unfold state_o9, state_o8, state_o7, state_o6, len; autorewrite with enc_len; cbn [length]; lia.
Ltac piece_side := first [assumption | reflexivity | by len_tac | lia | state_side].

(** Read field [i] of a buffer given as the concatenation of its fields. *)
Ltac field_of m i :=
  lazymatch m with
  | read_uint64 (concat ?ls) ?lo ?hi => rewrite (read_uint64_piece ls i _ lo hi eq_refl)
  | read_offset_at (concat ?ls) ?lo ?hi => rewrite (read_offset_piece ls i _ lo hi eq_refl)
  | read_array ?n (concat ?ls) ?lo ?hi => rewrite (read_array_piece ls i n _ lo hi eq_refl)
  | slice (concat ?ls) ?lo ?hi => rewrite (slice_piece ls i _ lo hi eq_refl)
  end; [cbn [mbind outcome_bind] | piece_side ..].
Ltac field i :=
  lazymatch goal with
  | |- mbind _ ?m = _ => field_of m i
  | |- total (mbind _ ?m) _ _ => field_of m i
  end.
(** Run the decoder of a nested container of constant size on its own encoding. *)
Ltac subfield :=
  lazymatch goal with
  | |- mbind _ (?dec (?enc ?x)) = _ => rewrite (fixed_dec (dec:=dec) x) by assumption; cbn [mbind outcome_bind]
  | |- total (mbind _ (?dec (?enc ?x))) _ _ => rewrite (fixed_dec (dec:=dec) x) by assumption; cbn [mbind outcome_bind]
  end.
(** The length test at the start of a decoder of constant size. *)
Ltac right_size := rewrite (proj2 (Z.eqb_eq _ _)) by (by len_tac); cbn [negb].
(** A piece of the right length is the encoding of an integer, an array or a nested container. *)
Ltac as_u64 p x := let Hx := fresh "Hwf" in
  match goal with H : length p = _ |- _ => destruct (u64_surj p H) as (x & Hx & <-) end.
Ltac as_array p x :=
  match goal with H : length p = ?n |- _ => destruct (array_surj n p H) as (x & <-) end.
Ltac as_value p x := let Hx := fresh "Hwf" in
  match goal with H : length p = _ |- _ => destruct (fixed_surj p H) as (x & Hx & <-) end.

(** A test of the code that fails by arithmetic on the lengths, one that holds, and one that
    sends the decoder to an error. *)
Ltac test_false := rewrite (proj2 (Z.ltb_ge _ _)) by (by len_tac); cbn [orb].
Ltac test_eq := rewrite Z.eqb_refl; cbn [negb].
Ltac test_lt a b := destruct (Z.ltb_spec a b); cbn [orb]; [done|].
Ltac test_offset o k := destruct (Z.eqb_spec o k) as [->|]; cbn [negb]; [|done].
Ltac as_offset p o := let Ho := fresh "Hoff" in
  match goal with H : length p = _ |- _ => destruct (offset_surj p H) as (o & Ho & <-) end.
(** The decoded value fits, and the buffer is its encoding. *)
Ltac done_value := cbn [total]; split; [repeat (split; [assumption|]); assumption|reflexivity].
(** The decoder of a nested variable-size container: its value, or its error. *)
Ltac nested x H := apply total_bind; eapply total_mono; [apply codec_total| |done]; intros x _ H.

Section Fixed.
Context {RT : SszRuntime} {LAWS : SszLaws RT}.

#[export] Instance Config_codec :
  FixedCodec (fun c => is_u64 (cfg_GenesisTime c)) wire_Config Config_UnmarshalSSZ 8.
Proof.
  split.
  - apply length_wire_Config.
  - intros [t] Ht. unfold Config_UnmarshalSSZ, wire_Config; cbn [cfg_GenesisTime] in *. right_size.
    by field 0%nat.
  - intros b Hb. cut [8]%nat Hb. as_u64 p t. by exists (mkConfig t).
Qed.

#[export] Instance Checkpoint_codec : FixedCodec wf_Checkpoint wire_Checkpoint Checkpoint_UnmarshalSSZ 40.
Proof.
  split.
  - apply length_wire_Checkpoint.
  - intros [r s] Hs. unfold wf_Checkpoint in Hs. unfold Checkpoint_UnmarshalSSZ, wire_Checkpoint.
    cbn [cp_Root cp_Slot] in *. right_size. field 0%nat. by field 1%nat.
  - intros b Hb. cut [32; 8]%nat Hb. as_array p r. as_u64 p0 s. by exists (mkCheckpoint r s).
Qed.

#[export] Instance AttestationData_codec :
  FixedCodec wf_AttestationData wire_AttestationData AttestationData_UnmarshalSSZ 128.
Proof.
  split.
  - apply length_wire_AttestationData.
  - intros [slot h t s] (Hs & Hh & Ht & Hr). unfold AttestationData_UnmarshalSSZ, wire_AttestationData.
    cbn [ad_Slot ad_Head ad_Target ad_Source] in *. right_size. field 0%nat.
    field 1%nat. subfield. field 2%nat. subfield. field 3%nat. by subfield.
  - intros b Hb. cut [8; 40; 40; 40]%nat Hb.
    as_u64 p slot. as_value p0 h. as_value p1 t. as_value p2 r.
    by exists (mkAttestationData slot h t r).
Qed.

#[export] Instance Attestation_codec :
  FixedCodec wf_Attestation wire_Attestation Attestation_UnmarshalSSZ 136.
Proof.
  split.
  - apply length_wire_Attestation.
  - intros [v d] [Hv Hd]. unfold Attestation_UnmarshalSSZ, wire_Attestation.
    cbn [att_ValidatorID att_Data] in *. right_size. field 0%nat. field 1%nat. by subfield.
  - intros b Hb. cut [8; 128]%nat Hb. as_u64 p v. as_value p0 d. by exists (mkAttestation v d).
Qed.

#[export] Instance SignedAttestation_codec :
  FixedCodec wf_SignedAttestation wire_SignedAttestation SignedAttestation_UnmarshalSSZ 3248.
Proof.
  split.
  - apply length_wire_SignedAttestation.
  - intros [v d sig] [Hv Hd]. unfold SignedAttestation_UnmarshalSSZ, wire_SignedAttestation.
    cbn [sa_ValidatorID sa_Message sa_Signature] in *. right_size.
    field 0%nat. field 1%nat. subfield. by field 2%nat.
  - intros b Hb. cut [8; 128; XMSSSignatureSize]%nat Hb. as_u64 p v. as_value p0 d. as_array p1 sg.
    by exists (mkSignedAttestation v d sg).
Qed.

#[export] Instance BlockHeader_codec : FixedCodec wf_BlockHeader wire_BlockHeader BlockHeader_UnmarshalSSZ 112.
Proof.
  split.
  - apply length_wire_BlockHeader.
  - intros [slot pi pr sr br] [Hs Hp]. unfold BlockHeader_UnmarshalSSZ, wire_BlockHeader.
    cbn [bh_Slot bh_ProposerIndex bh_ParentRoot bh_StateRoot bh_BodyRoot] in *. right_size.
    field 0%nat. field 1%nat. field 2%nat. field 3%nat. by field 4%nat.
  - intros b Hb. cut [8; 8; 32; 32; 32]%nat Hb. as_u64 p slot. as_u64 p0 pi.
    as_array p1 pr. as_array p2 sr. as_array p3 br. by exists (mkBlockHeader slot pi pr sr br).
Qed.

#[export] Instance Validator_codec : FixedCodec wf_Validator wire_Validator Validator_UnmarshalSSZ 60.
Proof.
  split.
  - apply length_wire_Validator.
  - intros [pk i] Hi. unfold wf_Validator in Hi. unfold Validator_UnmarshalSSZ, wire_Validator.
    cbn [v_Pubkey v_Index] in *. right_size. field 0%nat. by field 1%nat.
  - intros b Hb. cut [52; 8]%nat Hb. as_array p pk. as_u64 p0 i. by exists (mkValidator pk i).
Qed.

(** ** Encoders of constant size *)

Ltac same_bytes := cbn [concat]; rewrite ?app_nil_r, <- ?app_assoc; reflexivity.
Ltac marshal := repeat (rewrite marshal_uint64 by assumption); same_bytes.

Lemma marshal_Config c dst : is_u64 (cfg_GenesisTime c) ->
  Config_MarshalSSZTo c dst = Ok (dst ++ wire_Config c).
Proof. intros H. unfold Config_MarshalSSZTo, wire_Config. marshal. Qed.
Lemma marshal_Checkpoint c dst : wf_Checkpoint c ->
  Checkpoint_MarshalSSZTo c dst = Ok (dst ++ wire_Checkpoint c).
Proof. intros H. unfold Checkpoint_MarshalSSZTo, wire_Checkpoint. marshal. Qed.
Lemma marshal_AttestationData a dst : wf_AttestationData a ->
  AttestationData_MarshalSSZTo a dst = Ok (dst ++ wire_AttestationData a).
Proof.
  intros (Hs & Hh & Ht & Hr). unfold AttestationData_MarshalSSZTo, wire_AttestationData.
  do 2 (rewrite marshal_Checkpoint by assumption; cbn [mbind outcome_bind]).
  rewrite marshal_Checkpoint by assumption. marshal.
Qed.
Lemma marshal_Attestation a dst : wf_Attestation a ->
  Attestation_MarshalSSZTo a dst = Ok (dst ++ wire_Attestation a).
Proof.
  intros [Hv Hd]. unfold Attestation_MarshalSSZTo, wire_Attestation.
  rewrite marshal_AttestationData by assumption. marshal.
Qed.
Lemma marshal_SignedAttestation s dst : wf_SignedAttestation s ->
  SignedAttestation_MarshalSSZTo s dst = Ok (dst ++ wire_SignedAttestation s).
Proof.
  intros [Hv Hd]. unfold SignedAttestation_MarshalSSZTo, wire_SignedAttestation.
  rewrite marshal_AttestationData by assumption. cbn [mbind outcome_bind]. marshal.
Qed.
Lemma marshal_BlockHeader b dst : wf_BlockHeader b ->
  BlockHeader_MarshalSSZTo b dst = Ok (dst ++ wire_BlockHeader b).
Proof. intros [Hs Hp]. unfold BlockHeader_MarshalSSZTo, wire_BlockHeader. marshal. Qed.
Lemma marshal_Validator v dst : wf_Validator v ->
  Validator_MarshalSSZTo v dst = Ok (dst ++ wire_Validator v).
Proof. intros H. unfold Validator_MarshalSSZTo, wire_Validator. marshal. Qed.

Lemma marshal_list {A} (wf : A -> Prop) (enc : A -> bytes) (m : A -> bytes -> outcome bytes) (l : list A) dst :
  (forall x dst, wf x -> m x dst = Ok (dst ++ enc x)) -> Forall wf l ->
  foldM (fun dst x => m x dst) dst l = Ok (dst ++ wire_list enc l).
Proof.
  intros Hm Hl. revert dst. induction Hl as [|x l Hx Hl IH]; intros dst; unfold wire_list in *.
  - cbn. by rewrite app_nil_r.
  - cbn [foldM map concat]. rewrite Hm by done. cbn [mbind outcome_bind].
    rewrite IH. by rewrite app_assoc.
Qed.
Lemma append_arrays_wire {n} (l : list (vec byte n)) dst :
  append_arrays dst l = dst ++ wire_list vec_to_list l.
Proof.
  unfold append_arrays, wire_list. revert dst. induction l as [|x l IH]; intros dst; cbn.
  - by rewrite app_nil_r.
  - by rewrite IH, app_assoc.
Qed.

(** * Blocks *)

Lemma marshal_BlockBody b dst : fits_BlockBody b -> BlockBody_MarshalSSZTo b dst = Ok (dst ++ wire_BlockBody b).
Proof.
  intros [Ha Hl]. unfold BlockBody_MarshalSSZTo, wire_BlockBody. rewrite (proj2 (Z.ltb_ge _ _)) by done.
  rewrite (marshal_list wf_Attestation wire_Attestation) by (apply marshal_Attestation || done).
  rewrite write_offset by done. same_bytes.
Qed.
Lemma marshal_Block b dst : fits_Block b -> Block_MarshalSSZTo b dst = Ok (dst ++ wire_Block b).
Proof.
  intros (Hs & Hp & Hb). unfold Block_MarshalSSZTo, wire_Block.
  rewrite marshal_BlockBody by assumption. rewrite write_offset by done. marshal.
Qed.

#[export] Instance BlockBody_codec : Codec fits_BlockBody wire_BlockBody BlockBody_UnmarshalSSZ.
Proof.
  split.
  - intros [atts] [Ha Hl]. unfold BlockBody_UnmarshalSSZ, wire_BlockBody. cbn [bb_Attestations] in *.
    test_false. field 0%nat. test_false. test_eq. field 1%nat.
    unfold wire_list. by rewrite read_list_enc.
  - intros b. unfold BlockBody_UnmarshalSSZ. test_lt (len b) 4.
    cut_tail [4]%nat b t. as_offset p o.
    field 0%nat. test_lt (len (concat [le_bytes 4 o; t])) o. test_offset o 4. field 1%nat.
    apply total_bind. eapply total_mono; [by apply (read_list_total (enc:=wire_Attestation))| |done].
    intros l _ (Hl & Hle & <-). by split.
Qed.

#[export] Instance Block_codec : Codec fits_Block wire_Block Block_UnmarshalSSZ.
Proof.
  split.
  - intros [slot pi pr sr body] (Hs & Hp & Hb). unfold Block_UnmarshalSSZ, wire_Block.
    cbn [b_Slot b_ProposerIndex b_ParentRoot b_StateRoot b_Body] in *.
    test_false. field 0%nat. field 1%nat. field 2%nat. field 3%nat. field 4%nat.
    test_false. test_eq. field 5%nat. by rewrite codec_dec.
  - intros b. unfold Block_UnmarshalSSZ. test_lt (len b) 84.
    cut_tail [8; 8; 32; 32; 4]%nat b t.
    as_u64 p slot. as_u64 p0 pi. as_array p1 pr. as_array p2 sr. as_offset p3 o.
    field 0%nat. field 1%nat. field 2%nat. field 3%nat. field 4%nat.
    match goal with |- context [?a <? o] => test_lt a o end. test_offset o 84. field 5%nat.
    nested body Hb. destruct Hb as [Hb <-]. done_value.
Qed.

#[export] Instance BlockWithAttestation_codec :
  Codec fits_BlockWithAttestation wire_BlockWithAttestation BlockWithAttestation_UnmarshalSSZ.
Proof.
  split.
  - intros [block [a|]] [Hb Ha]; [|done]. unfold BlockWithAttestation_UnmarshalSSZ, wire_BlockWithAttestation.
    cbn [ba_Block ba_ProposerAttestation default] in *.
    test_false. field 0%nat. test_false. test_eq. field 1%nat. subfield. field 2%nat.
    by rewrite codec_dec.
  - intros b. unfold BlockWithAttestation_UnmarshalSSZ. test_lt (len b) 140.
    cut_tail [4; 136]%nat b t. as_offset p o. as_value p0 a.
    field 0%nat. match goal with |- context [?x <? o] => test_lt x o end. test_offset o 140.
    field 1%nat. subfield. field 2%nat.
    nested blk Hb. destruct Hb as [Hb <-]. done_value.
Qed.

(** The length of an encoding, as SizeSSZ counts it. *)
Lemma len_wire_Block b : len (wire_Block b) = Block_SizeSSZ b.
Proof.
  unfold wire_Block, Block_SizeSSZ, BlockBody_SizeSSZ, wire_BlockBody. cbn [concat].
  rewrite !len_app, len_wire_Attestations. len_tac.
Qed.
Lemma len_wire_BlockWithAttestation b :
  len (wire_BlockWithAttestation b) = BlockWithAttestation_SizeSSZ b.
Proof.
  unfold wire_BlockWithAttestation, BlockWithAttestation_SizeSSZ. cbn [concat].
  rewrite !len_app, len_wire_Block. len_tac.
Qed.

Lemma size_bound b : fits_BlockWithAttestation b ->
  0 <= BlockWithAttestation_SizeSSZ b <= 228 + 136 * 4096.
Proof.
  intros [(_ & _ & _ & Hl) _].
  unfold BlockWithAttestation_SizeSSZ, Block_SizeSSZ, BlockBody_SizeSSZ. unfold len in *. lia.
Qed.

#[export] Instance SignedBlock_codec : Codec fits_SignedBlock wire_SignedBlock SignedBlock_UnmarshalSSZ.
Proof.
  split.
  - intros [m sigs] [Hm Hs]. unfold SignedBlock_UnmarshalSSZ, wire_SignedBlock.
    cbn [sb_Message sb_Signature] in *. pose proof (size_bound m Hm) as Hsz.
    rewrite <- len_wire_BlockWithAttestation in Hsz.
    test_false. field 0%nat. test_false. test_eq. field 1%nat.
    do 2 test_false. field 2%nat. rewrite codec_dec by done. cbn [mbind outcome_bind]. field 3%nat.
    unfold wire_list. by rewrite (read_list_enc (C:=array_codec XMSSSignatureSize)) by (done || by apply Forall_true).
  - intros b. unfold SignedBlock_UnmarshalSSZ. test_lt (len b) 8.
    cut_tail [4; 4]%nat b t. as_offset p o. as_offset p0 o1.
    field 0%nat. match goal with |- context [?x <? o] => test_lt x o end. test_offset o 8.
    field 1%nat. match goal with |- context [?x <? o1] => test_lt x o1 end.
    match goal with |- context [o1 <? ?x] => test_lt o1 x end.
    destruct (cut_last [le_bytes 4 8; le_bytes 4 o1] (o1 - 8) t) as (q & r & E & Hq & _).
    { revert H1. cbn [concat]. rewrite !len_app, !len_le_bytes. unfold len. cbn [length]. lia. }
    cbn [app] in E. rewrite E. clear E. field 2%nat.
    nested m Hm. destruct Hm as [Hm <-]. field 3%nat.
    apply total_bind. eapply total_mono;
      [by apply (read_list_total (C:=array_codec XMSSSignatureSize))| |done].
    intros sigs _ (_ & Hl & <-). cbn [total]. split; [by split|].
    unfold wire_SignedBlock. cbn [sb_Message sb_Signature]. rewrite Hq. do 3 f_equal. f_equal. lia.
Qed.

(** * States *)

Lemma read_bitlist_ok b limit : is_bitlist b limit -> read_bitlist b limit = Ok b.
Proof. intros H. unfold read_bitlist. by rewrite (proj2 (validate_bitlist b limit) H). Qed.
Lemma read_bitlist_total b limit :
  total (read_bitlist b limit) (fun x => x = b /\ is_bitlist b limit) (fun _ => True).
Proof.
  unfold read_bitlist. destruct (ValidateBitlist b limit) eqn:E; [done|].
  cbn. split; [done|]. by apply validate_bitlist in E.
Qed.
Lemma len_bitlist b limit : is_bitlist b limit -> 0 < len b <= limit / 8 + 1.
Proof.
  intros (l & -> & Hl). unfold len in *. rewrite length_encode_bits.
  pose proof (Z.div_mod limit 8 ltac:(lia)). pose proof (Z.mod_pos_bound limit 8 ltac:(lia)).
  pose proof (Nat.div_mod (length l) 8 ltac:(lia)). pose proof (Nat.mod_upper_bound (length l) 8 ltac:(lia)). lia.
Qed.

Lemma state_offsets_bound s : fits_State s ->
  228 <= state_o6 s <= state_o7 s /\ state_o7 s <= state_o8 s <= state_o9 s /\
  state_o9 s + len (st_JustificationsValidators s) < 2 ^ 32.
Proof.
  intros Hs. pose proof (len_bitlist _ _ (fits_slots s Hs)) as H1. pose proof (len_bitlist _ _ (fits_votes s Hs)) as H2.
  change (262144 / 8) with 32768 in H1. change (1073741824 / 8) with 134217728 in H2.
  pose proof (fits_hashes s Hs). pose proof (fits_registry s Hs). pose proof (fits_roots s Hs).
  unfold state_o9, state_o8, state_o7, state_o6. unfold len in *. lia.
Qed.

(** The offsets of a buffer of 208 bytes, five offsets and a tail: in order and within the
    buffer, or an error. *)
Definition ordered_offsets (o5 o6 o7 o8 o9 size : Z) : Prop :=
  o5 = 228 /\ o5 <= o6 <= o7 /\ o7 <= o8 <= o9 /\ o9 <= size.
Ltac offset_test :=
  match goal with
  | |- total (if ?a <? ?b then _ else _) _ _ =>
      destruct (Z.ltb_spec a b); [cbn [total]; unfold ordered_offsets; lia|]
  | |- total (if (?a <? ?b) || (?c <? ?d) then _ else _) _ _ =>
      destruct (Z.ltb_spec a b); cbn [orb]; [cbn [total]; unfold ordered_offsets; lia|];
      destruct (Z.ltb_spec c d); [cbn [total]; unfold ordered_offsets; lia|]
  end.
Lemma read_offsets_total (h1 h2 h3 h4 h5 : bytes) (o5 o6 o7 o8 o9 : Z) (ts : list bytes) :
  length h1 = 8%nat -> length h2 = 8%nat -> length h3 = 112%nat -> length h4 = 40%nat -> length h5 = 40%nat ->
  0 <= o5 < 2 ^ 32 -> 0 <= o6 < 2 ^ 32 -> 0 <= o7 < 2 ^ 32 -> 0 <= o8 < 2 ^ 32 -> 0 <= o9 < 2 ^ 32 ->
  let buf := concat ([h1; h2; h3; h4; h5; le_bytes 4 o5; le_bytes 4 o6; le_bytes 4 o7; le_bytes 4 o8;
                      le_bytes 4 o9] ++ ts) in
  total (State_read_offsets buf)
    (fun os => os = (o5, o6, o7, o8, o9) /\ ordered_offsets o5 o6 o7 o8 o9 (len buf))
    (fun _ => ~ ordered_offsets o5 o6 o7 o8 o9 (len buf)).
Proof.
  intros H1 H2 H3 H4 H5 L5 L6 L7 L8 L9. intros buf. cbn [app] in buf. unfold State_read_offsets.
  subst buf. field 5%nat. offset_test.
  destruct (Z.eqb_spec o5 228); cbn [negb]; [|cbn [total]; unfold ordered_offsets; lia].
  field 6%nat. offset_test. field 7%nat. offset_test. field 8%nat. offset_test. field 9%nat. offset_test.
  cbn [total]. split; [done|]. unfold ordered_offsets. lia.
Qed.
Lemma read_offsets_ok h1 h2 h3 h4 h5 o5 o6 o7 o8 o9 ts :
  length h1 = 8%nat -> length h2 = 8%nat -> length h3 = 112%nat -> length h4 = 40%nat -> length h5 = 40%nat ->
  0 <= o5 < 2 ^ 32 -> 0 <= o6 < 2 ^ 32 -> 0 <= o7 < 2 ^ 32 -> 0 <= o8 < 2 ^ 32 -> 0 <= o9 < 2 ^ 32 ->
  let buf := concat ([h1; h2; h3; h4; h5; le_bytes 4 o5; le_bytes 4 o6; le_bytes 4 o7; le_bytes 4 o8;
                      le_bytes 4 o9] ++ ts) in
  ordered_offsets o5 o6 o7 o8 o9 (len buf) -> State_read_offsets buf = Ok (o5, o6, o7, o8, o9).
Proof.
  intros H1 H2 H3 H4 H5 L5 L6 L7 L8 L9 buf Ho.
  pose proof (read_offsets_total h1 h2 h3 h4 h5 o5 o6 o7 o8 o9 ts H1 H2 H3 H4 H5 L5 L6 L7 L8 L9) as H.
  cbv zeta in H. fold buf in H. destruct (State_read_offsets buf); cbn [total] in H.
  - by destruct H as [-> _].
  - by destruct H.
  - done.
  - done.
Qed.

(** What decoding [s] into the receiver [r] leaves in it. *)
Definition onto (r s : State) : State :=
  {| st_Config := st_Config s; st_Slot := st_Slot s; st_LatestBlockHeader := st_LatestBlockHeader s;
     st_LatestJustified := st_LatestJustified s; st_LatestFinalized := st_LatestFinalized s;
     st_HistoricalBlockHashes := st_HistoricalBlockHashes s;
     st_JustifiedSlots := st_JustifiedSlots r ++ st_JustifiedSlots s;
     st_Validators := st_Validators s; st_JustificationsRoots := st_JustificationsRoots s;
     st_JustificationsValidators := st_JustificationsValidators r ++ st_JustificationsValidators s |}.

Lemma read_wire_list {A} {wf : A -> Prop} {enc dec n} {C : FixedCodec wf enc dec n} (l : list A) w limit :
  w = Z.of_nat n -> 0 < w -> Forall wf l -> len l <= limit -> read_list dec w limit (wire_list enc l) = Ok l.
Proof. apply (read_list_enc (C:=C)). Qed.
Lemma read_wire_arrays {n} (l : list (vec byte n)) w limit :
  w = Z.of_nat n -> 0 < w -> len l <= limit -> read_list (copy_array n) w limit (wire_list vec_to_list l) = Ok l.
Proof. intros Hw H0 Hl. apply (read_wire_list (C:=array_codec n)); try done. by apply Forall_true. Qed.

Lemma len_wire_State s : len (wire_State s) = State_SizeSSZ s.
Proof. unfold wire_State, State_SizeSSZ. state_side. Qed.

Lemma State_decode (r s : State) : fits_State s -> State_UnmarshalSSZ r (wire_State s) = Ok (onto r s).
Proof.
  intros Hs. pose proof (state_offsets_bound s Hs) as (B1 & B2 & B3).
  pose proof (len_wire_State s) as Hlen. destruct Hs as [Hg Hsl Hh Hj Hf Hhs Hbs Hv Hr Hrs Hbv].
  assert (Hsize : State_SizeSSZ s = state_o9 s + len (st_JustificationsValidators s))
    by (unfold State_SizeSSZ, state_o9, state_o8, state_o7, state_o6; lia).
  assert (Hpos : 0 <= len (st_JustificationsValidators s)) by (unfold len; lia).
  unfold State_UnmarshalSSZ. rewrite Hlen. rewrite (proj2 (Z.ltb_ge _ _)) by lia.
  unfold wire_State. field 0%nat. subfield. field 1%nat. field 2%nat. subfield. field 3%nat. subfield.
  field 4%nat. subfield.
  pose proof (read_offsets_ok (wire_Config (st_Config s)) (le_bytes 8 (st_Slot s))
    (wire_BlockHeader (st_LatestBlockHeader s)) (wire_Checkpoint (st_LatestJustified s))
    (wire_Checkpoint (st_LatestFinalized s)) 228 (state_o6 s) (state_o7 s) (state_o8 s) (state_o9 s)
    [wire_list vec_to_list (st_HistoricalBlockHashes s); st_JustifiedSlots s;
     wire_list wire_Validator (st_Validators s); wire_list vec_to_list (st_JustificationsRoots s);
     st_JustificationsValidators s]) as Ho.
  cbv zeta in Ho. cbn [app] in Ho. fold (wire_State s) in Ho. rewrite Hlen in Ho. unfold wire_State in Ho.
  rewrite Ho by (apply length_wire_Config || apply length_le_bytes || apply length_wire_BlockHeader ||
                 apply length_wire_Checkpoint || (unfold ordered_offsets; lia) || lia).
  cbn [mbind outcome_bind].
  field 10%nat. rewrite read_wire_arrays by done. cbn [mbind outcome_bind].
  field 11%nat. rewrite read_bitlist_ok by done. cbn [mbind outcome_bind].
  field 12%nat. rewrite (read_wire_list (C:=Validator_codec)) by done. cbn [mbind outcome_bind].
  field 13%nat. rewrite read_wire_arrays by done. cbn [mbind outcome_bind].
  field 14%nat. by rewrite read_bitlist_ok.
Qed.

(** Five ordered offsets cut the tail of a state into its five variable-size fields. *)
Lemma cut_tail5 (ls : list bytes) (t : bytes) o6 o7 o8 o9 size :
  len t = size - 228 -> ordered_offsets 228 o6 o7 o8 o9 size ->
  exists v1 v2 v3 v4 v5, concat (ls ++ [t]) = concat (ls ++ [v1; v2; v3; v4; v5]) /\
    len v1 = o6 - 228 /\ len v2 = o7 - o6 /\ len v3 = o8 - o7 /\ len v4 = o9 - o8 /\ len v5 = size - o9.
Proof.
  intros Ht (_ & H1 & H2 & H3).
  destruct (cut_last ls (o6 - 228) t) as (v1 & t1 & E1 & L1 & T1); [lia|].
  destruct (cut_last (ls ++ [v1]) (o7 - o6) t1) as (v2 & t2 & E2 & L2 & T2); [lia|].
  destruct (cut_last (ls ++ [v1; v2]) (o8 - o7) t2) as (v3 & t3 & E3 & L3 & T3); [lia|].
  destruct (cut_last (ls ++ [v1; v2; v3]) (o9 - o8) t3) as (v4 & v5 & E4 & L4 & T4); [lia|].
  exists v1, v2, v3, v4, v5. rewrite <- !app_assoc in E2, E3, E4. cbn [app] in E2, E3, E4.
  rewrite E1, E2, E3, E4. split_and!; [done|lia..].
Qed.

(** A list field of a buffer, and a bitlist field. *)
Ltac list_field C l :=
  apply total_bind; eapply total_mono; [by apply (read_list_total (C:=C))| |done];
  intros l _ (? & ? & <-).
Ltac bitlist_field := apply total_bind; eapply total_mono; [apply read_bitlist_total| |done]; intros ? _ [-> ?].

(** A state read from pieces of the right lengths is encoded by these pieces. *)
Lemma wire_State_pieces cfg slot h j f hashes slots vals roots votes o6 o7 o8 o9 :
  len (wire_list vec_to_list hashes) = o6 - 228 -> len slots = o7 - o6 ->
  len (wire_list wire_Validator vals) = o8 - o7 -> len (wire_list vec_to_list roots) = o9 - o8 ->
  wire_State (mkState cfg slot h j f hashes slots vals roots votes) =
  concat [wire_Config cfg; le_bytes 8 slot; wire_BlockHeader h; wire_Checkpoint j; wire_Checkpoint f;
          le_bytes 4 228; le_bytes 4 o6; le_bytes 4 o7; le_bytes 4 o8; le_bytes 4 o9;
          wire_list vec_to_list hashes; slots; wire_list wire_Validator vals;
          wire_list vec_to_list roots; votes].
Proof.
  rewrite !len_wire_arrays, len_wire_Validators. intros L1 L2 L3 L4.
  replace o6 with (state_o6 (mkState cfg slot h j f hashes slots vals roots votes)) by (unfold state_o6; cbn; lia).
  replace o7 with (state_o7 (mkState cfg slot h j f hashes slots vals roots votes))
    by (unfold state_o7, state_o6; cbn; lia).
  replace o8 with (state_o8 (mkState cfg slot h j f hashes slots vals roots votes))
    by (unfold state_o8, state_o7, state_o6; cbn; lia).
  replace o9 with (state_o9 (mkState cfg slot h j f hashes slots vals roots votes))
    by (unfold state_o9, state_o8, state_o7, state_o6; cbn; lia).
  reflexivity.
Qed.

Lemma State_decode_total (r : State) (b : bytes) :
  total (State_UnmarshalSSZ r b) (fun x => exists s, fits_State s /\ x = onto r s /\ wire_State s = b) (fun _ => True).
Proof.
  unfold State_UnmarshalSSZ. test_lt (len b) 228.
  cut_tail [8; 8; 112; 40; 40; 4; 4; 4; 4; 4]%nat b t.
  as_value p cfg. as_u64 p0 slot. as_value p1 h. as_value p2 j. as_value p3 f.
  as_offset p4 o5. as_offset p5 o6. as_offset p6 o7. as_offset p7 o8. as_offset p8 o9.
  field 0%nat. subfield. field 1%nat. field 2%nat. subfield. field 3%nat. subfield. field 4%nat. subfield.
  apply total_bind. eapply total_mono;
    [by apply (read_offsets_total (wire_Config cfg) (le_bytes 8 slot) (wire_BlockHeader h) (wire_Checkpoint j)
        (wire_Checkpoint f) o5 o6 o7 o8 o9 [t])| |done].
  cbn [app]. intros os _ [-> Ho].
  assert (o5 = 228) as -> by apply Ho.
  match type of Ho with ordered_offsets _ _ _ _ _ (len (concat [?a; ?b; ?c; ?d; ?e; ?f; ?g; ?h; ?i; ?j; _])) =>
    destruct (fun H => cut_tail5 [a; b; c; d; e; f; g; h; i; j] t _ _ _ _ _ H Ho) as
      (v1 & v2 & v3 & v4 & v5 & E & L1 & L2 & L3 & L4 & L5)
  end; [state_side|].
  cbn [app] in E. rewrite E in Ho, L5 |- *. clear E H Hlen0 Hlen1 Hlen2 Hlen3 Hlen4 Hlen5 Hlen6 Hlen7 Hlen8.
  field 10%nat. list_field (array_codec 32) hashes.
  field 11%nat. bitlist_field.
  field 12%nat. list_field Validator_codec vals.
  field 13%nat. list_field (array_codec 32) roots.
  field 14%nat. bitlist_field.
  cbn [total]. exists (mkState cfg slot h j f hashes v2 vals roots v5).
  split; [by constructor|]. split; [reflexivity|]. by apply wire_State_pieces.
Qed.

(** * Encoders of the variable-size containers *)

(** The receiver after MarshalSSZTo: a nil proposer attestation has become a zero one. *)
Definition filled (b : BlockWithAttestation) : BlockWithAttestation :=
  mkBlockWithAttestation (ba_Block b) (Some (default zero_Attestation (ba_ProposerAttestation b))).
Definition filled_envelope (s : SignedBlockWithAttestation) : SignedBlockWithAttestation :=
  mkSignedBlock (filled (sb_Message s)) (sb_Signature s).

Lemma wire_filled b : wire_BlockWithAttestation (filled b) = wire_BlockWithAttestation b.
Proof. done. Qed.
Lemma filled_idem b : fits_BlockWithAttestation b -> filled b = b.
Proof. destruct b as [block [a|]]; [done|by intros [_ []]]. Qed.
Lemma zero_Attestation_wf : wf_Attestation zero_Attestation.
Proof. by apply (bool_decide_unpack (wf_Attestation zero_Attestation)); vm_compute. Qed.

Lemma marshal_BlockWithAttestation b dst : fits_BlockWithAttestation (filled b) ->
  BlockWithAttestation_MarshalSSZTo b dst = Ok (dst ++ wire_BlockWithAttestation b, filled b).
Proof.
  destruct b as [block pa]. intros [Hb Ha]. cbn [filled ba_Block ba_ProposerAttestation] in Hb, Ha.
  unfold BlockWithAttestation_MarshalSSZTo, wire_BlockWithAttestation, filled.
  destruct pa as [a|]; cbn [ba_Block ba_ProposerAttestation default] in *;
    rewrite marshal_Attestation by assumption; cbn [mbind outcome_bind];
    rewrite marshal_Block by assumption; rewrite write_offset by done;
    cbn [mbind outcome_bind concat]; rewrite ?app_nil_r, <- ?app_assoc; reflexivity.
Qed.

Lemma foldl_arrays {n} (l : list (vec byte n)) dst :
  foldl (fun dst x => dst ++ vec_to_list x) dst l = dst ++ wire_list vec_to_list l.
Proof. apply append_arrays_wire. Qed.

Lemma marshal_SignedBlock s dst : fits_SignedBlock (filled_envelope s) ->
  SignedBlock_MarshalSSZTo s dst = Ok (dst ++ wire_SignedBlock s, filled_envelope s).
Proof.
  intros [Hm Hs]. cbn [filled_envelope sb_Message sb_Signature] in *. pose proof (size_bound _ Hm) as Hsz.
  change (BlockWithAttestation_SizeSSZ (filled _)) with (BlockWithAttestation_SizeSSZ (sb_Message s)) in Hsz.
  unfold SignedBlock_MarshalSSZTo, wire_SignedBlock. rewrite marshal_BlockWithAttestation by assumption.
  cbn [mbind outcome_bind]. rewrite (proj2 (Z.ltb_ge _ _)) by assumption.
  rewrite foldl_arrays, !write_offset by lia. rewrite len_wire_BlockWithAttestation.
  cbn [concat]. rewrite ?app_nil_r, <- ?app_assoc. reflexivity.
Qed.

Lemma len_wire_SignedBlock s : len (wire_SignedBlock s) = SignedBlock_SizeSSZ s.
Proof.
  unfold wire_SignedBlock, SignedBlock_SizeSSZ. cbn [concat].
  rewrite !len_app, !len_le_bytes, len_wire_arrays, len_wire_BlockWithAttestation.
  unfold XMSSSignatureSize. change (len (@nil byte)) with 0. lia.
Qed.

Lemma marshal_State s dst : fits_State s -> State_MarshalSSZTo s dst = Ok (dst ++ wire_State s).
Proof.
  intros Hs. pose proof (state_offsets_bound s Hs) as (B1 & B2 & B3).
  assert (Hpos : 0 <= len (st_JustificationsValidators s)) by (unfold len; lia).
  destruct Hs as [Hg Hsl Hh Hj Hf Hhs Hbs Hv Hr Hrs Hbv].
  apply len_bitlist in Hbs, Hbv. change (262144 / 8) with 32768 in Hbs. change (1073741824 / 8) with 134217728 in Hbv.
  unfold State_MarshalSSZTo. rewrite marshal_Config by assumption. cbn [mbind outcome_bind].
  rewrite marshal_uint64 by assumption. rewrite marshal_BlockHeader by assumption. cbn [mbind outcome_bind].
  do 2 (rewrite marshal_Checkpoint by assumption; cbn [mbind outcome_bind]).
  do 3 (rewrite (proj2 (Z.ltb_ge _ _)) by lia).
  rewrite (marshal_list wf_Validator wire_Validator) by (apply marshal_Validator || done). cbn [mbind outcome_bind].
  do 2 (rewrite (proj2 (Z.ltb_ge _ _)) by lia). rewrite !append_arrays_wire.
  fold (state_o6 s). fold (state_o7 s). fold (state_o8 s). fold (state_o9 s).
  rewrite !write_offset by lia. unfold wire_State. cbn [concat]. rewrite ?app_nil_r, <- ?app_assoc. reflexivity.
Qed.
End Fixed.
