(* ===== verification/ForkChoice.v ===== *)
(** chain/forkchoice: store.go, time.go, attestation.go, block.go, produce.go, helpers.go.

    The fork choice store is a record over any block storage; every exported operation is one
    definition, which runs under the store's mutex and is therefore atomic.  An operation that
    can fail after it has changed the store returns the store together with its result.

    The parameters of the section: the hasher, the map orders, the signature library, and the
    build tag that decides whether signatures are verified.  The wall clock [NowFn] is read at
    most once per call, so its value is an argument [now]; [None] is a nil [NowFn]. *)
From S2P Require Import Prelude Slot Types Hash GoStd Bitlist VoteRule Attestations Transition Storage Ghost Leansig.
Local Open Scope Z_scope.

(** * helpers.go *)

Definition containsAttestation (l : list Attestation) (att : Attestation) : bool :=
  existsb (fun existing => (att_ValidatorID existing =? att_ValidatorID att) &&
                           (ad_Slot (att_Data existing) =? ad_Slot (att_Data att))) l.

Definition ceilDiv (a b : Z) : outcome Z :=
  if b =? 0 then Panic "integer divide by zero" else Ok (u64 (u64 (a + b) - 1) / b).

(** The conversion [int(x)] of a uint64. *)
Definition int_of_u64 (x : Z) : Z := if x <? 2 ^ 63 then x else x - 2 ^ 64.

(** * store.go *)

Record Store (T : Type) := mkStore {
  fc_time : Z;
  fc_genesisTime : Z;
  fc_numValidators : Z;
  fc_head : root;
  fc_safeTarget : root;
  fc_latestJustified : Checkpoint;
  fc_latestFinalized : Checkpoint;
  fc_storage : T;
  fc_latestKnownAttestations : gmap Z SignedAttestation;
  fc_latestNewAttestations : gmap Z SignedAttestation }.
Arguments mkStore {T}.
Arguments fc_time {T} _. Arguments fc_genesisTime {T} _. Arguments fc_numValidators {T} _.
Arguments fc_head {T} _. Arguments fc_safeTarget {T} _. Arguments fc_latestJustified {T} _.
Arguments fc_latestFinalized {T} _. Arguments fc_storage {T} _.
Arguments fc_latestKnownAttestations {T} _. Arguments fc_latestNewAttestations {T} _.

(** Assignments to the fields of the store. *)
Section Setters.
Context {T : Type} (c : Store T).
Definition set_time (x : Z) : Store T :=
  mkStore x (fc_genesisTime c) (fc_numValidators c) (fc_head c) (fc_safeTarget c) (fc_latestJustified c)
    (fc_latestFinalized c) (fc_storage c) (fc_latestKnownAttestations c) (fc_latestNewAttestations c).
Definition set_head (x : root) : Store T :=
  mkStore (fc_time c) (fc_genesisTime c) (fc_numValidators c) x (fc_safeTarget c) (fc_latestJustified c)
    (fc_latestFinalized c) (fc_storage c) (fc_latestKnownAttestations c) (fc_latestNewAttestations c).
Definition set_safeTarget (x : root) : Store T :=
  mkStore (fc_time c) (fc_genesisTime c) (fc_numValidators c) (fc_head c) x (fc_latestJustified c)
    (fc_latestFinalized c) (fc_storage c) (fc_latestKnownAttestations c) (fc_latestNewAttestations c).
Definition set_checkpoints (j f : Checkpoint) : Store T :=
  mkStore (fc_time c) (fc_genesisTime c) (fc_numValidators c) (fc_head c) (fc_safeTarget c) j
    f (fc_storage c) (fc_latestKnownAttestations c) (fc_latestNewAttestations c).
Definition set_storage (x : T) : Store T :=
  mkStore (fc_time c) (fc_genesisTime c) (fc_numValidators c) (fc_head c) (fc_safeTarget c) (fc_latestJustified c)
    (fc_latestFinalized c) x (fc_latestKnownAttestations c) (fc_latestNewAttestations c).
Definition set_votes (known new : gmap Z SignedAttestation) : Store T :=
  mkStore (fc_time c) (fc_genesisTime c) (fc_numValidators c) (fc_head c) (fc_safeTarget c) (fc_latestJustified c)
    (fc_latestFinalized c) (fc_storage c) known new.
End Setters.

Record ChainStatus := mkChainStatus {
  cs_Head : root; cs_HeadSlot : Z; cs_JustifiedRoot : root; cs_JustifiedSlot : Z;
  cs_FinalizedRoot : root; cs_FinalizedSlot : Z }.

Section Code.
Context {HW : HashWalker} {MR : MapRange} {FFI : LeansigFFI} {T : Type} {OPS : StorageOps T}.
(** The build tag skip_sig_verify (sig_verify.go, sig_verify_skip.go). *)
Context (shouldVerifySignatures : bool).

Definition GetStatus (c : Store T) : ChainStatus :=
  let headSlot := match GetBlock (fc_storage c) (fc_head c) with Some hb => b_Slot hb | None => 0 end in
  {| cs_Head := fc_head c; cs_HeadSlot := headSlot;
     cs_JustifiedRoot := cp_Root (fc_latestJustified c); cs_JustifiedSlot := cp_Slot (fc_latestJustified c);
     cs_FinalizedRoot := cp_Root (fc_latestFinalized c); cs_FinalizedSlot := cp_Slot (fc_latestFinalized c) |}.

Definition NumValidators (c : Store T) : Z := fc_numValidators c.
Definition Store_GetBlock (c : Store T) (r : root) : option Block := GetBlock (fc_storage c) r.
Definition Store_GetSignedBlock (c : Store T) (r : root) : option SignedBlockWithAttestation := GetSignedBlock (fc_storage c) r.
Definition GetKnownAttestation (c : Store T) (v : Z) : option SignedAttestation :=
  fc_latestKnownAttestations c !! v.
Definition GetNewAttestation (c : Store T) (v : Z) : option SignedAttestation :=
  fc_latestNewAttestations c !! v.

Definition NewStore (state : State) (anchorBlock : Block) (store : T) : outcome (Store T) :=
  let '(stateRoot, _) := State_HashTreeRoot state in
  if negb (bool_decide (b_StateRoot anchorBlock = stateRoot))
  then Panic "anchor block state root mismatch"
  else
    let '(anchorRoot, _) := Block_HashTreeRoot anchorBlock in
    let store := PutBlock store anchorRoot anchorBlock in
    let store := PutSignedBlock store anchorRoot (mkSignedBlock (mkBlockWithAttestation anchorBlock None) []) in
    let store := PutState store anchorRoot state in
    Ok {| fc_time := u64 (b_Slot anchorBlock * SecondsPerSlot);
          fc_genesisTime := cfg_GenesisTime (st_Config state);
          fc_numValidators := u64 (Z.of_nat (length (st_Validators state)));
          fc_head := anchorRoot; fc_safeTarget := anchorRoot;
          fc_latestJustified := mkCheckpoint anchorRoot (b_Slot anchorBlock);
          fc_latestFinalized := mkCheckpoint anchorRoot (b_Slot anchorBlock);
          fc_storage := store;
          fc_latestKnownAttestations := ∅; fc_latestNewAttestations := ∅ |}.

(** node/lifecycle.go: initGenesis, on an empty store. *)
Definition genesis_block (genesisState : State) : Block :=
  let '(stateRoot, _) := State_HashTreeRoot genesisState in
  mkBlock 0 0 ZeroHash stateRoot (mkBlockBody []).
Definition initGenesis (genesisTime : Z) (validators : list Validator) (store : T) : outcome (Store T) :=
  let genesisState := GenerateGenesis genesisTime validators in
  NewStore genesisState (genesis_block genesisState) store.

(** * time.go *)

Definition updateHeadLocked (c : Store T) : outcome (Store T) :=
  h ← GetForkChoiceHead (fc_storage c) (cp_Root (fc_latestJustified c)) (fc_latestKnownAttestations c) 0;
  Ok (set_head c h).

Definition acceptNewAttestationsLocked (c : Store T) : outcome (Store T) :=
  let known := foldl (fun m '(id, sa) => <[id := sa]> m) (fc_latestKnownAttestations c)
                 (range 0 (fc_latestNewAttestations c)) in
  updateHeadLocked (set_votes c known ∅).

Definition updateSafeTargetLocked (c : Store T) : outcome (Store T) :=
  q ← ceilDiv (u64 (fc_numValidators c * 2)) 3;
  let minScore := int_of_u64 q in
  h ← GetForkChoiceHead (fc_storage c) (cp_Root (fc_latestJustified c)) (fc_latestNewAttestations c) minScore;
  Ok (set_safeTarget c h).

Definition tickIntervalLocked (c : Store T) (hasProposal : bool) : outcome (Store T) :=
  let c := set_time c (u64 (fc_time c + 1)) in
  let currentInterval := fc_time c mod IntervalsPerSlot in
  if currentInterval =? 0 then (if hasProposal then acceptNewAttestationsLocked c else Ok c)
  else if currentInterval =? 1 then Ok c
  else if currentInterval =? 2 then updateSafeTargetLocked c
  else if currentInterval =? 3 then acceptNewAttestationsLocked c
  else Ok c.

Definition advanceTimeLocked (c : Store T) (time : Z) (hasProposal : bool) : outcome (Store T) :=
  if time <=? fc_genesisTime c then Ok c
  else
    let tickInterval := u64 (time - fc_genesisTime c) / SecondsPerInterval in
    loop (S (Z.to_nat (tickInterval - fc_time c)))
      (fun c =>
         if fc_time c <? tickInterval then
           let shouldSignal := hasProposal && (u64 (fc_time c + 1) =? tickInterval) in
           c ← tickIntervalLocked c shouldSignal; Ok (inl c)
         else Ok (inr c)) c.

(** The exported forms take the mutex and call the locked ones. *)
Definition AdvanceTime := advanceTimeLocked.
Definition TickInterval := tickIntervalLocked.
Definition AcceptNewAttestations := acceptNewAttestationsLocked.
Definition UpdateSafeTarget := updateSafeTargetLocked.

(** [if c.NowFn != nil { c.advanceTimeLocked(c.NowFn(), false) }] *)
Definition catchUp (now : option Z) (c : Store T) : outcome (Store T) :=
  match now with Some t => advanceTimeLocked c t false | None => Ok c end.

(** * attestation.go *)

Definition validateAttestationData (c : Store T) (data : AttestationData) : string :=
  match GetBlock (fc_storage c) (cp_Root (ad_Source data)) with
  | None => "source block unknown"
  | Some sourceBlock =>
  match GetBlock (fc_storage c) (cp_Root (ad_Target data)) with
  | None => "target block unknown"
  | Some targetBlock =>
  match GetBlock (fc_storage c) (cp_Root (ad_Head data)) with
  | None => "head block unknown"
  | Some _ =>
    if b_Slot targetBlock <? b_Slot sourceBlock then "source slot > target slot"
    else if cp_Slot (ad_Target data) <? cp_Slot (ad_Source data) then "source slot > target slot"
    else if negb (b_Slot sourceBlock =? cp_Slot (ad_Source data)) then "source checkpoint slot mismatch"
    else if negb (b_Slot targetBlock =? cp_Slot (ad_Target data)) then "target checkpoint slot mismatch"
    else
      let currentSlot := fc_time c / IntervalsPerSlot in
      if u64 (currentSlot + 1) <? ad_Slot data then "attestation too far in future"
      else EmptyString
  end end end.

(** block.go: the signature of one attestation, against the registry of [state]. *)
Definition verifyAttestationSignatureWithState (state : State) (att : Attestation) (sig : signature) : outcome () :=
  let valID := att_ValidatorID att in
  if u64 (Z.of_nat (length (st_Validators state))) <=? valID
  then Err (Errorf "invalid validator index %d" [Num valID])
  else
    match st_Validators state !! Z.to_nat valID with
    | None => Panic "index out of range"
    | Some v =>
        let '(messageRoot, err) := Attestation_HashTreeRoot att in
        match err with
        | Some e => Err (Wrapf "failed to hash attestation message: %w" [] e)
        | None =>
            let signingSlot := u32 (ad_Slot (att_Data att)) in
            map_err (Wrapf "signature verification failed: %w" [])
              (Verify (v_Pubkey v) signingSlot messageRoot sig)
        end
    end.

Definition verifyAttestationSignature (c : Store T) (sa : SignedAttestation) : outcome () :=
  match GetState (fc_storage c) (fc_head c) with
  | None => Err (Errorf "head state not found" [])
  | Some headState =>
      verifyAttestationSignatureWithState headState (mkAttestation (sa_ValidatorID sa) (sa_Message sa)) (sa_Signature sa)
  end.

(** [existing, ok := m\[v\]; if !ok || existing.Message.Slot < slot { m\[v\] = sa }] *)
Definition put_newer (m : gmap Z SignedAttestation) (v slot : Z) (sa : SignedAttestation)
  : gmap Z SignedAttestation :=
  match m !! v with
  | None => <[v := sa]> m
  | Some existing => if ad_Slot (sa_Message existing) <? slot then <[v := sa]> m else m
  end.

Definition processAttestationLocked (c : Store T) (sa : SignedAttestation) (isFromBlock : bool)
  : outcome (Store T) :=
  let data := sa_Message sa in
  let validatorID := sa_ValidatorID sa in
  if negb (bool_decide (validateAttestationData c data = EmptyString)) then Ok c
  else
  match (if negb isFromBlock && shouldVerifySignatures then verifyAttestationSignature c sa else Ok ()) with
  | Panic w => Panic w
  | Diverges => Diverges
  | Err _ => Ok c
  | Ok _ =>
    if isFromBlock then
      let known := put_newer (fc_latestKnownAttestations c) validatorID (ad_Slot data) sa in
      let new := match fc_latestNewAttestations c !! validatorID with
                 | Some newAtt => if ad_Slot (sa_Message newAtt) <=? ad_Slot data
                                  then delete validatorID (fc_latestNewAttestations c)
                                  else fc_latestNewAttestations c
                 | None => fc_latestNewAttestations c
                 end in
      Ok (set_votes c known new)
    else
      let currentSlot := fc_time c / IntervalsPerSlot in
      if currentSlot <? ad_Slot data then Ok c
      else Ok (set_votes c (fc_latestKnownAttestations c)
                 (put_newer (fc_latestNewAttestations c) validatorID (ad_Slot data) sa))
  end.

Definition ProcessAttestation (now : option Z) (c : Store T) (sa : SignedAttestation) : outcome (Store T) :=
  c ← catchUp now c; processAttestationLocked c sa false.

(** * block.go *)

(** A call that returns an error leaves the store as it is at that point. *)
Definition catch {A B} (m : outcome A) (c : Store T) (k : A -> outcome (Store T * (error + B)))
  : outcome (Store T * (error + B)) :=
  match m with
  | Ok x => k x
  | Err e => Ok (c, inl e)
  | Panic w => Panic w
  | Diverges => Diverges
  end.

(** The number of signatures against the number of attestations. *)
Definition checkSignatureCount (envelope : SignedBlockWithAttestation) : outcome () :=
  let numBodyAtts := length (bb_Attestations (b_Body (ba_Block (sb_Message envelope)))) in
  let got := length (sb_Signature envelope) in
  match ba_ProposerAttestation (sb_Message envelope) with
  | Some _ =>
      fail_if (negb (got =? numBodyAtts + 1)%nat)
        (Errorf "signature count mismatch: got %d, want %d (body=%d + proposer=1)"
           [Num (Z.of_nat got); Num (Z.of_nat (numBodyAtts + 1)); Num (Z.of_nat numBodyAtts)]) (Ok ())
  | None =>
      fail_if (negb (got =? numBodyAtts)%nat)
        (Errorf "signature count mismatch: got %d, want %d (body=%d, no proposer)"
           [Num (Z.of_nat got); Num (Z.of_nat numBodyAtts); Num (Z.of_nat numBodyAtts)]) (Ok ())
  end.

(** [envelope.Signature\[i\]] *)
Definition signature_at (envelope : SignedBlockWithAttestation) (i : nat) : outcome signature :=
  match sb_Signature envelope !! i with
  | Some sig => Ok sig
  | None => Panic "index out of range"
  end.

Definition verifyBlockSignatures (parentState : State) (envelope : SignedBlockWithAttestation) : outcome () :=
  if shouldVerifySignatures then
    let atts := bb_Attestations (b_Body (ba_Block (sb_Message envelope))) in
    _ ← foldM (fun (_ : ()) '(i, att) =>
           sig ← signature_at envelope i;
           map_err (Wrapf "invalid body attestation signature at index %d: %w" [Num (Z.of_nat i)])
             (verifyAttestationSignatureWithState parentState att sig)) tt (imap pair atts);
    match ba_ProposerAttestation (sb_Message envelope) with
    | Some proposerAtt =>
        proposerSig ← signature_at envelope (length atts);
        map_err (Wrapf "invalid proposer attestation signature: %w" [])
          (verifyAttestationSignatureWithState parentState proposerAtt proposerSig)
    | None => Ok tt
    end
  else Ok tt.

(** The end of ProcessBlock, once the block is accepted: store it, raise the checkpoints, count
    the votes it carries, update the head, count the proposer's vote. *)
Definition importBlock (c : Store T) (envelope : SignedBlockWithAttestation) (blockHash : root) (state : State)
  : outcome (Store T) :=
  let block := ba_Block (sb_Message envelope) in
  let c := set_storage c (PutBlock (fc_storage c) blockHash block) in
  let c := set_storage c (PutSignedBlock (fc_storage c) blockHash envelope) in
  let c := set_storage c (PutState (fc_storage c) blockHash state) in
  let justified := if cp_Slot (fc_latestJustified c) <? cp_Slot (st_LatestJustified state)
                   then st_LatestJustified state else fc_latestJustified c in
  let finalized := if cp_Slot (fc_latestFinalized c) <? cp_Slot (st_LatestFinalized state)
                   then st_LatestFinalized state else fc_latestFinalized c in
  let c := set_checkpoints c justified finalized in
  let atts := bb_Attestations (b_Body block) in
  c ← foldM (fun c '(i, att) =>
        sig ← signature_at envelope i;
        processAttestationLocked c (mkSignedAttestation (att_ValidatorID att) (att_Data att) sig) true)
      c (imap pair atts);
  c ← updateHeadLocked c;
  match ba_ProposerAttestation (sb_Message envelope) with
  | Some proposerAtt =>
      sig ← signature_at envelope (length atts);
      processAttestationLocked c
        (mkSignedAttestation (att_ValidatorID proposerAtt) (att_Data proposerAtt) sig) false
  | None => Ok c
  end.

Definition ProcessBlock (now : option Z) (c : Store T) (envelope : SignedBlockWithAttestation)
  : outcome (Store T * (error + ())) :=
  c ← catchUp now c;
  let block := ba_Block (sb_Message envelope) in
  let '(blockHash, _) := Block_HashTreeRoot block in
  match GetBlock (fc_storage c) blockHash with
  | Some _ => Ok (c, inr tt)
  | None =>
  match GetState (fc_storage c) (b_ParentRoot block) with
  | None => Ok (c, inl (Errorf "parent state not found for %x" [Hex (b_ParentRoot block)]))
  | Some parentState =>
      catch (map_err (Wrapf "state_transition: %w" []) (StateTransition parentState block)) c (fun state =>
      catch (checkSignatureCount envelope) c (fun _ =>
      catch (verifyBlockSignatures parentState envelope) c (fun _ =>
      c ← importBlock c envelope blockHash state;
      Ok (c, inr tt))))
  end end.

(** * produce.go *)

Definition GetProposalHead (c : Store T) (slot : Z) : outcome (Store T * root) :=
  let slotTime := u64 (fc_genesisTime c + u64 (slot * SecondsPerSlot)) in
  c ← advanceTimeLocked c slotTime true;
  c ← acceptNewAttestationsLocked c;
  Ok (c, fc_head c).

Definition getVoteTargetLocked (c : Store T) : outcome Checkpoint :=
  let storage := fc_storage c in
  let safeBlock := GetBlock storage (fc_safeTarget c) in
  let targetRoot := for_range JustificationLookback
    (fun _ targetRoot =>
       match GetBlock storage targetRoot, safeBlock with
       | Some tBlock, Some safe =>
           if b_Slot safe <? b_Slot tBlock then b_ParentRoot tBlock else targetRoot
       | _, _ => targetRoot
       end) (fc_head c) in
  targetRoot ← loop (S (size (GetAllBlocks storage)))
    (fun targetRoot =>
       match GetBlock storage targetRoot with
       | None => Ok (inr targetRoot)
       | Some tBlock =>
           if IsJustifiableAfter (b_Slot tBlock) (cp_Slot (fc_latestFinalized c)) then Ok (inr targetRoot)
           else Ok (inl (b_ParentRoot tBlock))
       end) targetRoot;
  match GetBlock storage targetRoot with
  | None => Err (Errorf "vote target block not found" [])
  | Some tBlock =>
      let '(blockHash, _) := Block_HashTreeRoot tBlock in
      Ok (mkCheckpoint blockHash (b_Slot tBlock))
  end.
Definition GetVoteTarget := getVoteTargetLocked.

(** The body of the loop over the known attestations. *)
Definition collect_step (c : Store T) (postState : State) (attestations : list Attestation)
    (acc : list Attestation * list SignedAttestation) (kv : Z * SignedAttestation)
  : list Attestation * list SignedAttestation :=
  let sa := kv.2 in
  let data := sa_Message sa in
  match GetBlock (fc_storage c) (cp_Root (ad_Head data)) with
  | None => acc
  | Some _ =>
      if negb (bool_decide (cp_Root (ad_Source data) = cp_Root (st_LatestJustified postState))) ||
         negb (cp_Slot (ad_Source data) =? cp_Slot (st_LatestJustified postState))
      then acc
      else
        let att := mkAttestation (sa_ValidatorID sa) data in
        if negb (containsAttestation attestations att)
        then (acc.1 ++ [att], acc.2 ++ [sa])
        else acc
  end.

(** One pass over the known attestations: those not yet in the block whose source is the
    justified checkpoint of the block's post-state. *)
Definition collectPass (c : Store T) (round : nat) (postState : State) (attestations : list Attestation)
  : list Attestation * list SignedAttestation :=
  foldl (collect_step c postState attestations) ([], []) (range round (fc_latestKnownAttestations c)).

(** The fixed-point loop of ProduceBlock. *)
Definition collectAttestations (c : Store T) (advancedState : State) (slot validatorIndex : Z) (headRoot : root)
  : outcome (list Attestation * list SignedAttestation) :=
  loop (S (S (size (fc_latestKnownAttestations c))))
    (fun '(round, attestations, collectedSigned) =>
       postState ← Transition.ProcessBlock advancedState
         (mkBlock slot validatorIndex headRoot ZeroHash (mkBlockBody attestations));
       let '(newAttestations, newSigned) := collectPass c round postState attestations in
       if (length newAttestations =? 0)%nat then Ok (inr (attestations, collectedSigned))
       else Ok (inl (S round, attestations ++ newAttestations, collectedSigned ++ newSigned)))
    (0%nat, [], []).

Definition ProduceBlock (c : Store T) (slot validatorIndex : Z) (Sign : Z -> root -> outcome bytes)
  : outcome (Store T * (error + SignedBlockWithAttestation)) :=
  proposer ← IsProposer validatorIndex slot (fc_numValidators c);
  if negb proposer
  then Ok (c, inl (Errorf "validator %d is not proposer for slot %d" [Num validatorIndex; Num slot]))
  else
  let slotTime := u64 (fc_genesisTime c + u64 (slot * SecondsPerSlot)) in
  c ← advanceTimeLocked c slotTime true;
  c ← acceptNewAttestationsLocked c;
  let headRoot := fc_head c in
  match GetState (fc_storage c) headRoot with
  | None => Ok (c, inl (Errorf "head state not found" []))
  | Some headState =>
  catch (ProcessSlots headState slot) c (fun advancedState =>
  catch (collectAttestations c advancedState slot validatorIndex headRoot) c
    (fun '(attestations, collectedSigned) =>
  let finalBlock := mkBlock slot validatorIndex headRoot ZeroHash (mkBlockBody attestations) in
  catch (Transition.ProcessBlock advancedState finalBlock) c (fun finalState =>
  let '(stateRoot, _) := State_HashTreeRoot finalState in
  let finalBlock := mkBlock slot validatorIndex headRoot stateRoot (mkBlockBody attestations) in
  let '(blockHash, _) := Block_HashTreeRoot finalBlock in
  catch (map_err (Wrapf "vote target: %w" []) (getVoteTargetLocked c)) c (fun voteTarget =>
  let proposerAtt := mkAttestation validatorIndex
    (mkAttestationData slot (mkCheckpoint blockHash slot) voteTarget (fc_latestJustified c)) in
  let '(msgRoot, err) := Attestation_HashTreeRoot proposerAtt in
  match err with
  | Some e => Ok (c, inl (Wrapf "hash proposer attestation: %w" [] e))
  | None =>
  let signingSlot := u32 (ad_Slot (att_Data proposerAtt)) in
  catch (map_err (Wrapf "sign proposer attestation: %w" []) (Sign signingSlot msgRoot)) c (fun sig =>
  let envelope := mkSignedBlock (mkBlockWithAttestation finalBlock (Some proposerAtt))
                    (map sa_Signature collectedSigned ++ [vec_of XMSSSignatureSize sig]) in
  let c := set_storage c (PutBlock (fc_storage c) blockHash finalBlock) in
  let c := set_storage c (PutSignedBlock (fc_storage c) blockHash envelope) in
  let c := set_storage c (PutState (fc_storage c) blockHash finalState) in
  Ok (c, inr envelope))
  end))))
  end.

Definition ProduceAttestation (c : Store T) (slot validatorIndex : Z) (Sign : Z -> root -> outcome bytes)
  : outcome (Store T * (error + SignedAttestation)) :=
  let slotTime := u64 (fc_genesisTime c + u64 (slot * SecondsPerSlot)) in
  c ← advanceTimeLocked c slotTime true;
  c ← acceptNewAttestationsLocked c;
  let headRoot := fc_head c in
  match GetBlock (fc_storage c) headRoot with
  | None => Ok (c, inl (Errorf "head block not found" []))
  | Some headBlock =>
  let headCheckpoint := mkCheckpoint headRoot (b_Slot headBlock) in
  catch (map_err (Wrapf "vote target: %w" []) (getVoteTargetLocked c)) c (fun targetCheckpoint =>
  let data := mkAttestationData slot headCheckpoint targetCheckpoint (fc_latestJustified c) in
  let att := mkAttestation validatorIndex data in
  let '(messageRoot, err) := Attestation_HashTreeRoot att in
  match err with
  | Some e => Ok (c, inl (Wrapf "hash attestation: %w" [] e))
  | None =>
  let signingSlot := u32 (ad_Slot data) in
  catch (map_err (Wrapf "sign attestation: %w" []) (Sign signingSlot messageRoot)) c (fun sig =>
  Ok (c, inr (mkSignedAttestation validatorIndex data (vec_of XMSSSignatureSize sig))))
  end)
  end.
End Code.
