(* ===== verification/ForkInv.v ===== *)
(** The invariant of the fork choice store and its preservation by every operation.

    [wf_fc vs c]: the blocks of the store form a tree of known blocks under genesis, each
    filed under its own root together with a well-formed post-state whose history names only
    stored blocks; the votes are about stored blocks; the head and the safe target are stored
    blocks, the head a descendant of the justified root.  The operations never panic and
    never loop forever on such a store, and lead to such a store. *)
From S2P Require Import Prelude Slot Types Hash GoStd Bitlist VoteRule Attestations Transition Chain Storage Ghost Leansig ForkChoice.
Local Open Scope Z_scope.

Section Inv.
Context {HW : HashWalker} {MR : MapRange} {FFI : LeansigFFI} {T : Type} `{SL : StorageLaws T}.
Context (shouldVerify : bool) (vs : list Validator).

(** ** The invariant *)

Definition known (t : T) (r : root) : Prop := is_Some (GetBlock t r).

(** The signature is the voter's, over the vote, for any state with the registry [vs]. *)
Definition signed (sa : SignedAttestation) : Prop :=
  forall s, st_Validators s = vs ->
    verifyAttestationSignatureWithState s (mkAttestation (sa_ValidatorID sa) (sa_Message sa))
      (sa_Signature sa) = Ok tt.

Definition wf_votes (t : T) (m : gmap Z SignedAttestation) : Prop :=
  map_Forall (fun v sa => sa_ValidatorID sa = v /\ wf_SignedAttestation sa /\
    (shouldVerify = true -> signed sa) /\
    known t (cp_Root (ad_Source (sa_Message sa))) /\ known t (cp_Root (ad_Target (sa_Message sa))) /\
    known t (cp_Root (ad_Head (sa_Message sa)))) m.

(** A stored block: filed under its root, on a stored parent (or genesis). *)
Definition wf_entry (t : T) (r : root) (b : Block) : Prop :=
  (Block_HashTreeRoot b).1 = r /\ is_u64 (b_Slot b) /\
  (b_ParentRoot b = ZeroHash \/ exists p, GetBlock t (b_ParentRoot b) = Some p /\ b_Slot p < b_Slot b) /\
  is_Some (GetState t r).

(** [s] can be the post-state of [b]: its slot, its header, its root. *)
Definition state_of (b : Block) (s : State) : Prop :=
  st_Slot s = b_Slot b /\
  st_LatestBlockHeader s = set_StateRoot (header_of_block b (BlockBody_HashTreeRoot (b_Body b)).1) ZeroHash /\
  (State_HashTreeRoot s).1 = b_StateRoot b.

(** A stored post-state: that of the block stored under the same root. *)
Definition wf_post (t : T) (r : root) (s : State) : Prop :=
  wf_state s /\ st_Validators s = vs /\
  (exists b, GetBlock t r = Some b /\ state_of b s) /\
  forall x, x ∈ st_HistoricalBlockHashes s -> x = ZeroHash \/ known t x.

Record wf_storage (t : T) : Prop := {
  ss_zero : GetBlock t ZeroHash = None;
  ss_entry : forall r b, GetBlock t r = Some b -> wf_entry t r b;
  ss_post : forall r s, GetState t r = Some s -> wf_post t r s;
  ss_genesis : exists r b, GetBlock t r = Some b /\ b_Slot b = 0 }.

Record wf_core (c : Store T) : Prop := {
  fi_storage : wf_storage (fc_storage c);
  fi_time : is_u64 (fc_time c);
  fi_genesisTime : is_u64 (fc_genesisTime c);
  fi_numValidators : fc_numValidators c = Z.of_nat (length vs);
  fi_justified : cp_Root (fc_latestJustified c) = ZeroHash \/
                 known (fc_storage c) (cp_Root (fc_latestJustified c));
  fi_J : is_u64 (cp_Slot (fc_latestJustified c));
  fi_F : is_u64 (cp_Slot (fc_latestFinalized c));
  fi_head : known (fc_storage c) (fc_head c);
  fi_safeTarget : known (fc_storage c) (fc_safeTarget c);
  fi_known : wf_votes (fc_storage c) (fc_latestKnownAttestations c);
  fi_new : wf_votes (fc_storage c) (fc_latestNewAttestations c) }.

Record wf_fc (c : Store T) : Prop := {
  fi_core :> wf_core c;
  fi_on_justified : cp_Root (fc_latestJustified c) <> ZeroHash ->
    on_chain (GetAllBlocks (fc_storage c)) (fc_head c) (cp_Root (fc_latestJustified c)) }.

(** The registry is not empty and far below the integer limits. *)
Definition registry_ok : Prop := 0 < Z.of_nat (length vs) < 2 ^ 62.

(** ** The tree *)

Lemma storage_tree t : wf_storage t -> wf_tree (GetAllBlocks t).
Proof.
  intros Ht h b p Hb Hp. rewrite GetAllBlocks_lookup in Hb, Hp.
  destruct (ss_entry _ Ht _ _ Hb) as (_ & _ & [Hz|(p' & Hp' & Hlt)] & _).
  - rewrite Hz, (ss_zero _ Ht) in Hp. done.
  - by simplify_eq.
Qed.

Lemma known_all t r : known t r <-> is_Some (GetAllBlocks t !! r).
Proof. unfold known. by rewrite GetAllBlocks_lookup. Qed.

Lemma known_state t r : wf_storage t -> known t r -> exists s, GetState t r = Some s /\ wf_post t r s.
Proof.
  intros Ht [b Hb]. destruct (ss_entry _ Ht _ _ Hb) as (_ & _ & _ & [s Hs]).
  exists s. split; [done|]. by apply (ss_post _ Ht).
Qed.

(** A head can always be computed, from a stored block or from the zero root. *)
Lemma head_total t j votes k :
  wf_storage t -> j = ZeroHash \/ known t j ->
  exists h, GetForkChoiceHead t j votes k = Ok h /\ known t h /\
    (j <> ZeroHash -> on_chain (GetAllBlocks t) h j).
Proof.
  intros Ht Hj. pose proof (storage_tree _ Ht) as Hwf.
  destruct (decide (j = ZeroHash)) as [->|Hne].
  - destruct (ss_genesis _ Ht) as (g & bg & Hg & Hg0).
    pose proof (earliest_start (GetAllBlocks t) g bg) as Hst. rewrite GetAllBlocks_lookup in Hst.
    specialize (Hst Hg ltac:(lia)). set (r0 := (foldl earliest_step _ _).1) in Hst.
    destruct Hst as [[? _]|(_ & rb & Hrb & _)]; [done|]. rewrite GetAllBlocks_lookup in Hrb.
    assert (Hnz : r0 <> ZeroHash) by (intros E; rewrite E, (ss_zero _ Ht) in Hrb; done).
    destruct (head_run t r0 votes k rb Hwf Hnz Hrb) as (h & E & Hgh).
    exists h. split; [|split; [|done]].
    + unfold GetForkChoiceHead in *. rewrite decide_True by done. by rewrite decide_False in E.
    + destruct (ghost_descends _ _ _ _ _ ltac:(rewrite GetAllBlocks_lookup; by exists rb) Hgh) as [Hc _].
      apply known_all. by eapply on_chain_start.
  - destruct Hj as [|[rb Hrb]]; [done|].
    destruct (head_run t j votes k rb Hwf Hne Hrb) as (h & E & Hgh). exists h. split; [done|].
    destruct (ghost_descends _ _ _ _ _ ltac:(rewrite GetAllBlocks_lookup; by exists rb) Hgh) as [Hc _].
    split; [|done]. apply known_all. by eapply on_chain_start.
Qed.

(** Without a minimum score the head has no child: its block is the last of its chain. *)
Lemma head_childless t j votes h :
  wf_storage t -> j = ZeroHash \/ known t j -> GetForkChoiceHead t j votes 0 = Ok h ->
  forall r b, GetBlock t r = Some b -> b_ParentRoot b <> h.
Proof.
  intros Ht Hj E r b Hb Hpar. pose proof (storage_tree _ Ht) as Hwf.
  assert (G : forall j', j' <> ZeroHash -> known t j' -> GetForkChoiceHead t j' votes 0 = Ok h -> False).
  { intros j' Hne [jb Hjb] E'. destruct (head_run t j' votes 0 jb Hwf Hne Hjb) as (h' & E2 & Hg).
    rewrite E' in E2. apply Ok_inj in E2 as <-. eapply (ghost_stops _ _ _ _ _ Hg r).
    exists b. split_and!; [by rewrite GetAllBlocks_lookup|done|]. unfold weight, weight_in. destruct (_ <? _); lia. }
  destruct (decide (j = ZeroHash)) as [->|Hne]; [|destruct Hj as [|Hk]; [done|by apply (G j)]].
  destruct (ss_genesis _ Ht) as (g & bg & Hg & Hg0).
  pose proof (earliest_start (GetAllBlocks t) g bg) as Hst. rewrite GetAllBlocks_lookup in Hst.
  specialize (Hst Hg ltac:(lia)). set (r0 := (foldl earliest_step _ _).1) in Hst.
  destruct Hst as [[? _]|(_ & rb & Hrb & _)]; [done|]. rewrite GetAllBlocks_lookup in Hrb.
  assert (Hnz : r0 <> ZeroHash) by (intros E0; rewrite E0, (ss_zero _ Ht) in Hrb; done).
  apply (G r0); [done|by exists rb|]. unfold GetForkChoiceHead in *. rewrite decide_True in E by done.
  by rewrite decide_False.
Qed.

(** ** Time *)

Lemma updateHead_wf c :
  wf_storage (fc_storage c) -> cp_Root (fc_latestJustified c) = ZeroHash \/
    known (fc_storage c) (cp_Root (fc_latestJustified c)) ->
  exists h, updateHeadLocked c = Ok (set_head c h) /\ known (fc_storage c) h /\
    (cp_Root (fc_latestJustified c) <> ZeroHash ->
     on_chain (GetAllBlocks (fc_storage c)) h (cp_Root (fc_latestJustified c))).
Proof.
  intros Ht Hj. unfold updateHeadLocked.
  destruct (head_total (fc_storage c) (cp_Root (fc_latestJustified c)) (fc_latestKnownAttestations c) 0)
    as (h & -> & Hh); [done|done|]. by exists h.
Qed.

(** Accepting the pending votes: they replace the known ones of the same validators. *)
Lemma accept_fold (l : list (Z * SignedAttestation)) m :
  NoDup l.*1 -> foldl (fun m '(id, sa) => <[id := sa]> m) m l = (list_to_map l : gmap Z _) ∪ m.
Proof.
  revert m. induction l as [|[id sa] l IH]; intros m Hnd; cbn [foldl fmap list_fmap fst] in *.
  - rewrite list_to_map_nil. by rewrite (left_id_L ∅ (∪)).
  - apply list.NoDup_cons in Hnd as [Hid Hnd]. rewrite IH by done. rewrite list_to_map_cons.
    rewrite <- insert_union_l. symmetry. apply insert_union_r. by apply not_elem_of_list_to_map_1.
Qed.

Definition accepted_votes (c : Store T) : gmap Z SignedAttestation :=
  fc_latestNewAttestations c ∪ fc_latestKnownAttestations c.

Lemma accept_wf c : wf_fc c ->
  exists h, acceptNewAttestationsLocked c = Ok (set_head (set_votes c (accepted_votes c) ∅) h) /\
    wf_fc (set_head (set_votes c (accepted_votes c) ∅) h).
Proof.
  intros Hc. unfold acceptNewAttestationsLocked.
  rewrite accept_fold, list_to_map_range by apply NoDup_range_keys.
  fold (accepted_votes c).
  destruct (updateHead_wf (set_votes c (accepted_votes c) ∅)) as (h & -> & Hh & Ho);
    [apply Hc|apply Hc|]. exists h. split; [done|].
  split; [|done]. constructor; try apply Hc; try done.
  - intros v sa Hv. apply lookup_union_Some_raw in Hv as [Hv|[_ Hv]];
      [by apply (fi_new _ Hc)|by apply (fi_known _ Hc)].
Qed.

Lemma ceilDiv_3 (a : Z) : ceilDiv a 3 = Ok (u64 (u64 (a + 3) - 1) / 3).
Proof. done. Qed.

Lemma updateSafeTarget_wf c : wf_fc c ->
  exists h, updateSafeTargetLocked c = Ok (set_safeTarget c h) /\ wf_fc (set_safeTarget c h).
Proof.
  intros Hc. unfold updateSafeTargetLocked. rewrite ceilDiv_3. cbn [mbind outcome_bind].
  edestruct head_total as (h & -> & Hh & _); [apply Hc|apply Hc|]. exists h. split; [done|].
  split; [|apply Hc]. constructor; try apply Hc; done.
Qed.

Lemma set_time_wf c x : wf_fc c -> is_u64 x -> wf_fc (set_time c x).
Proof. intros Hc Hx. split; [|apply Hc]. constructor; try apply Hc; done. Qed.

(** What a tick leaves alone. *)
Definition same_chain (c c' : Store T) : Prop :=
  fc_storage c' = fc_storage c /\ fc_genesisTime c' = fc_genesisTime c /\
  fc_latestJustified c' = fc_latestJustified c /\ fc_latestFinalized c' = fc_latestFinalized c /\
  fc_numValidators c' = fc_numValidators c.

Lemma tick_wf c p : wf_fc c -> fc_time c + 1 < 2 ^ 64 ->
  exists c', tickIntervalLocked c p = Ok c' /\ wf_fc c' /\ fc_time c' = fc_time c + 1 /\ same_chain c c'.
Proof.
  intros Hc Hlt. unfold tickIntervalLocked. pose proof (fi_time _ Hc) as Ht.
  assert (Ht' : is_u64 (fc_time c + 1)) by (unfold is_u64 in *; lia).
  rewrite (u64_small _ Ht'). set (c1 := set_time c (fc_time c + 1)).
  assert (Hc1 : wf_fc c1) by by apply set_time_wf.
  destruct (accept_wf _ Hc1) as (h & Ea & Hh). destruct (updateSafeTarget_wf _ Hc1) as (g & Es & Hg).
  assert (Hb : same_chain c c1) by done.
  destruct (fc_time c1 mod IntervalsPerSlot =? 0); [destruct p; [by eexists|by exists c1]|].
  destruct (fc_time c1 mod IntervalsPerSlot =? 1); [by exists c1|].
  destruct (fc_time c1 mod IntervalsPerSlot =? 2); [by eexists|].
  destruct (fc_time c1 mod IntervalsPerSlot =? 3); [by eexists|by exists c1].
Qed.

Lemma same_chain_trans c1 c2 c3 : same_chain c1 c2 -> same_chain c2 c3 -> same_chain c1 c3.
Proof. unfold same_chain. intros (?&?&?&?&?) (?&?&?&?&?). split_and!; congruence. Qed.

Lemma tick_loop_wf fuel c tick p : wf_fc c -> tick < 2 ^ 64 ->
  (Z.to_nat (tick - fc_time c) < fuel)%nat ->
  exists c', loop fuel (fun c : Store T =>
      if fc_time c <? tick then
        let shouldSignal := p && (u64 (fc_time c + 1) =? tick) in
        c ← tickIntervalLocked c shouldSignal; Ok (inl c)
      else Ok (inr c)) c = Ok c' /\
    wf_fc c' /\ fc_time c' = Z.max (fc_time c) tick /\ same_chain c c'.
Proof.
  revert c. induction fuel as [|fuel IH]; intros c Hc Ht Hf; [lia|]. cbn [loop].
  destruct (Z.ltb_spec (fc_time c) tick) as [Hlt|Hge]; cbv zeta.
  - destruct (tick_wf c (p && (u64 (fc_time c + 1) =? tick)) Hc ltac:(lia)) as (c1 & -> & Hc1 & Ht1 & Hs1).
    cbn [mbind outcome_bind].
    destruct (IH c1 Hc1 Ht ltac:(lia)) as (c' & E & Hc' & Ht' & Hs'). exists c'. split; [exact E|].
    split; [done|]. split; [lia|]. by eapply same_chain_trans.
  - exists c. split; [done|]. split; [done|]. split; [lia|done].
Qed.

(** The interval a wall-clock time falls in. *)
Definition interval_of (c : Store T) (time : Z) : Z := (time - fc_genesisTime c) / SecondsPerInterval.

Lemma advanceTime_wf c time p : wf_fc c -> is_u64 time ->
  exists c', advanceTimeLocked c time p = Ok c' /\ wf_fc c' /\ same_chain c c' /\
    fc_time c' = Z.max (fc_time c) (interval_of c time).
Proof.
  intros Hc Ht. unfold advanceTimeLocked, interval_of.
  change SecondsPerInterval with 1. rewrite !Z.div_1_r.
  pose proof (fi_genesisTime _ Hc) as Hg. pose proof (fi_time _ Hc) as Htm. unfold is_u64 in *.
  destruct (Z.leb_spec time (fc_genesisTime c)) as [Hle|Hlt].
  - exists c. split; [done|]. split; [done|]. split; [done|]. lia.
  - rewrite u64_small by (unfold is_u64; lia).
    destruct (tick_loop_wf (S (Z.to_nat (time - fc_genesisTime c - fc_time c))) c
                (time - fc_genesisTime c) p) as (c' & E & H1 & H2 & H3); [done|lia|lia|].
    exists c'. by split_and!.
Qed.

Lemma catchUp_wf now c : wf_fc c -> (forall t, now = Some t -> is_u64 t) ->
  exists c', catchUp now c = Ok c' /\ wf_fc c' /\ same_chain c c'.
Proof.
  intros Hc Hnow. destruct now as [t|]; cbn [catchUp].
  - destruct (advanceTime_wf c t false Hc (Hnow t eq_refl)) as (c' & E & H1 & H2 & _). by exists c'.
  - by exists c.
Qed.

(** ** Attestations *)

(** What validateAttestationData accepts. *)
Definition valid_data (c : Store T) (data : AttestationData) : Prop :=
  exists sb tb hb,
    GetBlock (fc_storage c) (cp_Root (ad_Source data)) = Some sb /\
    GetBlock (fc_storage c) (cp_Root (ad_Target data)) = Some tb /\
    GetBlock (fc_storage c) (cp_Root (ad_Head data)) = Some hb /\
    cp_Slot (ad_Source data) = b_Slot sb /\ cp_Slot (ad_Target data) = b_Slot tb /\
    b_Slot sb <= b_Slot tb /\ ad_Slot data <= fc_time c / IntervalsPerSlot + 1.

Lemma slot_of_time_small c : wf_core c -> u64 (fc_time c / IntervalsPerSlot + 1) = fc_time c / IntervalsPerSlot + 1.
Proof.
  intros Hc. pose proof (fi_time _ Hc) as Ht. apply u64_small. unfold is_u64 in *.
  change IntervalsPerSlot with 4. pose proof (Z.div_pos (fc_time c) 4).
  assert (fc_time c / 4 <= fc_time c / 1) by (apply Z.div_le_compat_l; lia). rewrite Z.div_1_r in *.
  assert (fc_time c / 4 < 2 ^ 62) by (apply Z.div_lt_upper_bound; lia). lia.
Qed.

Lemma validate_spec c data : wf_core c -> validateAttestationData c data = EmptyString <-> valid_data c data.
Proof.
  intros Hc. unfold validateAttestationData, valid_data. rewrite slot_of_time_small by done.
  destruct (GetBlock _ (cp_Root (ad_Source data))) as [sb|]; [|by split; [|intros (?&?&?&?&?&?&_)]].
  destruct (GetBlock _ (cp_Root (ad_Target data))) as [tb|]; [|by split; [|intros (?&?&?&?&?&?&_)]].
  destruct (GetBlock _ (cp_Root (ad_Head data))) as [hb|]; [|by split; [|intros (?&?&?&?&?&?&_)]].
  destruct (Z.ltb_spec (b_Slot tb) (b_Slot sb)); [split; [done|intros (?&?&?&?&?&?&?&?&?&?); simplify_eq; lia]|].
  destruct (Z.ltb_spec (cp_Slot (ad_Target data)) (cp_Slot (ad_Source data)));
    [split; [done|intros (?&?&?&?&?&?&?&?&?&?); simplify_eq; lia]|].
  destruct (Z.eqb_spec (b_Slot sb) (cp_Slot (ad_Source data))); cbn [negb];
    [|split; [done|intros (?&?&?&?&?&?&?&?&?&?); simplify_eq; lia]].
  destruct (Z.eqb_spec (b_Slot tb) (cp_Slot (ad_Target data))); cbn [negb];
    [|split; [done|intros (?&?&?&?&?&?&?&?&?&?); simplify_eq; lia]].
  destruct (Z.ltb_spec (fc_time c / IntervalsPerSlot + 1) (ad_Slot data));
    [split; [done|intros (?&?&?&?&?&?&?&?&?&?); simplify_eq; lia]|].
  split; [|done]. intros _. exists sb, tb, hb. split_and!; try done; lia.
Qed.

Lemma signed_by sa s :
  st_Validators s = vs ->
  verifyAttestationSignatureWithState s (mkAttestation (sa_ValidatorID sa) (sa_Message sa))
    (sa_Signature sa) = Ok tt -> signed sa.
Proof.
  intros Hs E s' Hs'. revert E. unfold verifyAttestationSignatureWithState. by rewrite Hs, Hs'.
Qed.

(** Signature checks end with a verdict. *)
Lemma verify_total state att sig :
  st_Validators state = vs -> Z.of_nat (length vs) < 2 ^ 62 -> 0 <= att_ValidatorID att ->
  total (verifyAttestationSignatureWithState state att sig) (fun _ => True) (fun _ => True).
Proof.
  intros Hv Hn H0. unfold verifyAttestationSignatureWithState. rewrite Hv.
  rewrite u64_small by (unfold is_u64; lia).
  destruct (Z.leb_spec (Z.of_nat (length vs)) (att_ValidatorID att)); [done|].
  destruct (lookup_lt_is_Some_2 vs (Z.to_nat (att_ValidatorID att))) as [v ->]; [lia|].
  destruct (Attestation_HashTreeRoot att) as [r [e|]]; [done|].
  unfold Verify, fail_if. repeat case_match; done.
Qed.

Lemma put_newer_lookup m v slot sa v' x :
  put_newer m v slot sa !! v' = Some x -> m !! v' = Some x \/ (v' = v /\ x = sa).
Proof.
  unfold put_newer. intros H. assert (Hi : <[v := sa]> m !! v' = Some x -> m !! v' = Some x \/ (v' = v /\ x = sa)).
  { intros [[-> ->]|[_ ?]]%lookup_insert_Some; [by right|by left]. }
  destruct (m !! v) as [e|]; [destruct (_ <? _)|]; auto.
Qed.

Lemma put_newer_wf t m sa :
  wf_votes t m -> wf_SignedAttestation sa -> (shouldVerify = true -> signed sa) -> known t (cp_Root (ad_Source (sa_Message sa))) ->
  known t (cp_Root (ad_Target (sa_Message sa))) -> known t (cp_Root (ad_Head (sa_Message sa))) ->
  wf_votes t (put_newer m (sa_ValidatorID sa) (ad_Slot (sa_Message sa)) sa).
Proof.
  intros Hm Hsa Hsig H1 H2 H3 v x Hx. apply put_newer_lookup in Hx as [Hx|[-> ->]]; [by apply Hm|done].
Qed.

Lemma set_votes_id (c : Store T) : set_votes c (fc_latestKnownAttestations c) (fc_latestNewAttestations c) = c.
Proof. by destruct c. Qed.

Lemma attestation_verdict c sa b :
  wf_core c -> wf_SignedAttestation sa -> Z.of_nat (length vs) < 2 ^ 62 ->
  (b = true -> shouldVerify = true -> signed sa) ->
  total (if negb b && shouldVerify then verifyAttestationSignature c sa else Ok ())
    (fun _ => shouldVerify = true -> signed sa) (fun _ => True).
Proof.
  intros Hc Hsa Hn Hb. destruct b; cbn [negb andb total]; [by apply Hb|].
  destruct shouldVerify; [|done]. unfold verifyAttestationSignature.
  destruct (GetState _ _) as [hs|] eqn:E; [|done].
  destruct (ss_post _ (fi_storage _ Hc) _ _ E) as (_ & Hreg & _).
  pose proof (verify_total hs (mkAttestation (sa_ValidatorID sa) (sa_Message sa)) (sa_Signature sa) Hreg Hn
    (proj1 (proj1 Hsa))) as Hver.
  destruct (verifyAttestationSignatureWithState _ _ _) as [[]|e|w|] eqn:Ev; cbn [total] in *; try done.
  intros _. by apply (signed_by sa hs).
Qed.

Lemma processAttestation_run c sa b :
  wf_core c -> wf_SignedAttestation sa -> Z.of_nat (length vs) < 2 ^ 62 ->
  (b = true -> shouldVerify = true -> signed sa) ->
  exists k n, processAttestationLocked shouldVerify c sa b = Ok (set_votes c k n) /\
    wf_votes (fc_storage c) k /\ wf_votes (fc_storage c) n.
Proof.
  intros Hc Hsa Hn Hb. unfold processAttestationLocked.
  assert (Hsame : exists k n, Ok c = Ok (set_votes c k n) /\ wf_votes (fc_storage c) k /\ wf_votes (fc_storage c) n).
  { exists (fc_latestKnownAttestations c), (fc_latestNewAttestations c).
    rewrite set_votes_id. split; [done|]. split; apply Hc. }
  case_bool_decide as Hv; cbn [negb]; [|exact Hsame].
  apply validate_spec in Hv as (sb & tb & hb & H1 & H2 & H3 & _); [|done].
  pose proof (attestation_verdict c sa b Hc Hsa Hn Hb) as Hver.
  destruct (if negb b && shouldVerify then _ else _); cbn [total] in Hver; try done.
  assert (Hput : forall m, wf_votes (fc_storage c) m ->
    wf_votes (fc_storage c) (put_newer m (sa_ValidatorID sa) (ad_Slot (sa_Message sa)) sa)).
  { intros m Hm. apply put_newer_wf; [done|done|done|by exists sb|by exists tb|by exists hb]. }
  destruct b.
  - eexists _, _. split; [reflexivity|]. split; [apply Hput, Hc|].
    destruct (fc_latestNewAttestations c !! sa_ValidatorID sa) as [na|]; [|apply Hc].
    destruct (_ <=? _); [|apply Hc]. apply map_Forall_delete, Hc.
  - destruct (_ <? _); [exact Hsame|].
    eexists _, _. split; [reflexivity|]. split; [apply Hc|apply Hput, Hc].
Qed.

Lemma set_votes_core c k n :
  wf_core c -> wf_votes (fc_storage c) k -> wf_votes (fc_storage c) n -> wf_core (set_votes c k n).
Proof. intros Hc Hk Hn. constructor; try apply Hc; done. Qed.
Lemma set_votes_wf c k n :
  wf_fc c -> wf_votes (fc_storage c) k -> wf_votes (fc_storage c) n -> wf_fc (set_votes c k n).
Proof. intros Hc Hk Hn. split; [apply set_votes_core; [apply Hc|done..]|apply Hc]. Qed.

(** ** Adding a block to the storage *)

Lemma on_chain_insert blocks r b h x :
  blocks !! r = None -> on_chain blocks h x -> on_chain (<[r := b]> blocks) h x.
Proof.
  intros Hr. induction 1 as [h b' Hh|h b' x Hh Hx IH].
  - apply (on_here _ _ b'). by rewrite lookup_insert_ne by (intros ->; congruence).
  - eapply on_parent; [|exact IH]. by rewrite lookup_insert_ne by (intros ->; congruence).
Qed.

(** The block [b], of root [r], is new, and [s] is its post-state on the stored parent. *)
Record new_entry (t : T) (r : root) (b : Block) (s : State) : Prop := {
  ne_root : (Block_HashTreeRoot b).1 = r;
  ne_nonzero : r <> ZeroHash;
  ne_fresh : GetBlock t r = None;
  ne_slot : is_u64 (b_Slot b);
  ne_parent : exists p, GetBlock t (b_ParentRoot b) = Some p /\ b_Slot p < b_Slot b;
  ne_state : wf_state s;
  ne_registry : st_Validators s = vs;
  ne_state_of : state_of b s;
  ne_history : forall x, x ∈ st_HistoricalBlockHashes s -> x = ZeroHash \/ known t x }.

Section Add.
Context (t : T) (r : root) (b : Block) (sb : SignedBlockWithAttestation) (s : State).
Context (Ht : wf_storage t) (Hne : new_entry t r b s).
Let t' : T := store_all t r b sb s.

Lemma known_add x : known t x -> known t' x.
Proof. unfold known, t'. rewrite GetBlock_store_all. by case_decide. Qed.

Lemma known_new : known t' r.
Proof. unfold known, t'. rewrite GetBlock_store_all. by rewrite decide_True. Qed.

Lemma get_old x b' : GetBlock t x = Some b' -> GetBlock t' x = Some b'.
Proof.
  intros Hx. unfold t'. rewrite GetBlock_store_all. case_decide; [|done]. subst.
  rewrite (ne_fresh _ _ _ _ Hne) in Hx. done.
Qed.

Lemma all_fresh : GetAllBlocks t !! r = None.
Proof. rewrite GetAllBlocks_lookup. apply Hne. Qed.

Lemma on_chain_add h x : on_chain (GetAllBlocks t) h x -> on_chain (GetAllBlocks t') h x.
Proof. unfold t'. rewrite GetAllBlocks_store_all. apply on_chain_insert, all_fresh. Qed.

Lemma wf_votes_add m : wf_votes t m -> wf_votes t' m.
Proof.
  intros Hm v sa Hv. destruct (Hm v sa Hv) as (Hid & Hsa & Hsig & H1 & H2 & H3).
  split; [done|]. split; [done|]. split; [done|]. split_and!; by apply known_add.
Qed.

Lemma wf_storage_add : wf_storage t'.
Proof.
  pose proof Hne as [Hr Hz Hfr Hslot (p & Hp & Hlt) Hs Hv Hss Hh]. constructor.
  - unfold t'. rewrite GetBlock_store_all. rewrite decide_False by done. apply Ht.
  - intros x b' Hx. unfold t' in Hx. rewrite GetBlock_store_all in Hx.
    unfold wf_entry. case_decide as Hd.
    + injection Hx as <-. subst x. split; [done|]. split; [done|]. split.
      * right. exists p. split; [by apply get_old|done].
      * unfold t'. rewrite GetState_store_all. by rewrite decide_True.
    + destruct (ss_entry _ Ht _ _ Hx) as (H1 & H2 & H3 & H4). split; [done|]. split; [done|]. split.
      * destruct H3 as [|(p' & Hp' & Hlt')]; [by left|]. right. exists p'. split; [by apply get_old|done].
      * unfold t'. rewrite GetState_store_all. by rewrite decide_False.
  - intros x s' Hx. unfold t' in Hx. rewrite GetState_store_all in Hx. unfold wf_post. case_decide as Hd.
    + injection Hx as <-. subst x. split; [done|]. split; [done|]. split.
      * exists b. split; [|done]. unfold t'. rewrite GetBlock_store_all. by rewrite decide_True.
      * intros x Hx. destruct (Hh x Hx) as [|]; [by left|right; by apply known_add].
    + destruct (ss_post _ Ht _ _ Hx) as (H1 & H2 & (b' & Hb' & Hsl) & H4). split; [done|]. split; [done|]. split.
      * exists b'. split; [by apply get_old|done].
      * intros y Hy. destruct (H4 y Hy) as [|]; [by left|right; by apply known_add].
  - destruct (ss_genesis _ Ht) as (g & bg & Hg & Hg0). exists g, bg. split; [by apply get_old|done].
Qed.
End Add.

(** Adding a block keeps the invariant of the store. *)
Lemma add_block_core c r b sb s :
  wf_core c -> new_entry (fc_storage c) r b s -> wf_core (set_storage c (store_all (fc_storage c) r b sb s)).
Proof.
  intros Hc Hne. constructor; try apply Hc; cbn [set_storage fc_storage].
  - apply wf_storage_add; [apply Hc|done].
  - destruct (fi_justified _ Hc); [by left|right; by apply known_add].
  - apply known_add, Hc.
  - apply known_add, Hc.
  - apply wf_votes_add, Hc.
  - apply wf_votes_add, Hc.
Qed.
Lemma add_block_wf c r b sb s :
  wf_fc c -> new_entry (fc_storage c) r b s -> wf_fc (set_storage c (store_all (fc_storage c) r b sb s)).
Proof.
  intros Hc Hne. split; [apply add_block_core; [apply Hc|done]|].
  intros Hz. eapply on_chain_add; [done|]. by apply Hc.
Qed.

(** The post-state of an accepted child of a stored block. *)
Lemma child_new_entry t ps b s :
  wf_storage t -> GetState t (b_ParentRoot b) = Some ps -> wf_Block b -> registry_ok ->
  b_Slot b * Z.of_nat (length vs) < 2 ^ 64 - 16 ->
  GetBlock t (Block_HashTreeRoot b).1 = None -> (Block_HashTreeRoot b).1 <> ZeroHash ->
  StateTransition ps b = Ok s -> new_entry t (Block_HashTreeRoot b).1 b s.
Proof.
  intros Ht Hps Hb [Hn0 Hn1] Hroom Hfr Hz E.
  destruct (ss_post _ Ht _ _ Hps) as (Hwf & Hv & (p & Hp & Hpslot & _) & Hh).
  assert (Hnum : numValidators_of ps <> 0).
  { unfold numValidators_of. rewrite Hv, u64_small by (unfold is_u64; lia). lia. }
  assert (Hr : roomy ps (b_Slot b)) by (split; rewrite Hv; lia).
  pose proof (StateTransition_run ps b Hwf Hb Hnum Hr) as HT. rewrite E in HT.
  destruct HT as (Hs & r & Ha). constructor; try done.
  - apply Hb.
  - exists p. split; [done|]. rewrite <- Hpslot. apply Ha.
  - by rewrite (ac_validators _ _ _ _ Ha).
  - split_and!; apply Ha.
  - intros x. rewrite (ac_history _ _ _ _ Ha), elem_of_app, elem_of_cons.
    intros [Hx|[->|Hx]]; [by apply Hh|right; by exists p|].
    left. by apply elem_of_replicate in Hx as [-> _].
Qed.

(** ** Importing a block *)

(** An envelope whose integers are in range. *)
Definition wf_envelope (env : SignedBlockWithAttestation) : Prop :=
  wf_Block (ba_Block (sb_Message env)) /\
  match ba_ProposerAttestation (sb_Message env) with Some a => wf_Attestation a | None => True end.

(** Votes only ever change the two vote maps. *)
Definition only_votes (c c' : Store T) : Prop :=
  exists k n, c' = set_votes c k n /\ wf_votes (fc_storage c) k /\ wf_votes (fc_storage c) n.

(** A body vote that can be counted: in range, with a signature, verified if required. *)
Definition countable_vote (env : SignedBlockWithAttestation) (ia : nat * Attestation) : Prop :=
  wf_Attestation ia.2 /\ exists sig, sb_Signature env !! ia.1 = Some sig /\
    (shouldVerify = true -> signed (mkSignedAttestation (att_ValidatorID ia.2) (att_Data ia.2) sig)).

Lemma body_votes_run c env l :
  wf_core c -> Forall (countable_vote env) l -> Z.of_nat (length vs) < 2 ^ 62 ->
  exists c', foldM (fun c '(i, att) =>
      sig ← signature_at env i;
      processAttestationLocked shouldVerify c (mkSignedAttestation (att_ValidatorID att) (att_Data att) sig) true)
    c l = Ok c' /\ only_votes c c'.
Proof.
  intros Hc Hl Hn. revert c Hc. induction l as [|[i att] l IH]; intros c Hc; cbn [foldM].
  { exists c. split; [done|]. exists (fc_latestKnownAttestations c), (fc_latestNewAttestations c).
    rewrite set_votes_id. split; [done|]. split; apply Hc. }
  apply list.Forall_cons in Hl as [(Hatt & sig & Hsig & Hver) Hl]. cbn [fst snd] in *.
  assert (signature_at env i = Ok sig) as -> by (unfold signature_at; by rewrite Hsig).
  cbn [mbind outcome_bind].
  destruct (processAttestation_run c (mkSignedAttestation (att_ValidatorID att) (att_Data att) sig) true)
    as (k & n & -> & Hk & Hnn); [done|exact Hatt|done|done|]. cbn [mbind outcome_bind].
  destruct (IH Hl (set_votes c k n)) as (c' & E & k' & n' & -> & Hk' & Hn'); [by apply set_votes_core|].
  exists (set_votes c k' n'). split; [exact E|]. by exists k', n'.
Qed.

Lemma imap_pair_forall {A} (P : nat * A -> Prop) (l : list A) :
  (forall i x, l !! i = Some x -> P (i, x)) -> Forall P (imap pair l).
Proof.
  intros H. apply list.Forall_forall. intros [i x] Hx. apply elem_of_lookup_imap in Hx as (j & y & [= -> ->] & Hy).
  by apply H.
Qed.

Lemma checkSignatureCount_ok env :
  checkSignatureCount env = Ok tt ->
  (length (bb_Attestations (b_Body (ba_Block (sb_Message env)))) <= length (sb_Signature env))%nat /\
  (ba_ProposerAttestation (sb_Message env) <> None ->
   length (bb_Attestations (b_Body (ba_Block (sb_Message env)))) < length (sb_Signature env))%nat.
Proof.
  unfold checkSignatureCount, fail_if.
  set (k := length (bb_Attestations _)). set (g := length (sb_Signature env)).
  destruct (ba_ProposerAttestation _) as [a|];
    [destruct (Nat.eqb_spec g (k + 1)) as [->|]|destruct (Nat.eqb_spec g k) as [->|]];
    cbn [negb]; try done; intros _; split; try done; lia.
Qed.

Lemma foldM_ok_forall {A} (f : () -> A -> outcome ()) (l : list A) u :
  foldM f u l = Ok tt -> Forall (fun x => f tt x = Ok tt) l.
Proof.
  revert u. induction l as [|x l IH]; intros []; cbn [foldM]; [constructor|].
  intros (y & Hy & Hl)%bind_Ok. destruct y. constructor; [done|]. by eapply IH.
Qed.

Lemma map_err_ok {A} g (m : outcome A) x : map_err g m = Ok x <-> m = Ok x.
Proof. by destruct m. Qed.

(** Verified envelopes carry countable votes. *)
Lemma verified_votes ps env :
  st_Validators ps = vs -> wf_Block (ba_Block (sb_Message env)) -> checkSignatureCount env = Ok tt ->
  verifyBlockSignatures shouldVerify ps env = Ok tt ->
  Forall (countable_vote env) (imap pair (bb_Attestations (b_Body (ba_Block (sb_Message env))))).
Proof.
  intros Hv (_ & _ & Hwf) Hcount Hver. destruct (checkSignatureCount_ok _ Hcount) as [Hlen _].
  apply imap_pair_forall. intros i a Ha. split; cbn [fst snd].
  { rewrite list.Forall_forall in Hwf. apply Hwf. by eapply list_elem_of_lookup_2. }
  destruct (lookup_lt_is_Some_2 (sb_Signature env) i) as [sig Hsig]; [apply lookup_lt_Some in Ha; lia|].
  exists sig. split; [done|]. intros Hsv. unfold verifyBlockSignatures in Hver. rewrite Hsv in Hver.
  apply bind_Ok in Hver as ([] & Hbody & _). apply foldM_ok_forall in Hbody.
  rewrite list.Forall_forall in Hbody. specialize (Hbody (i, a)). cbn beta iota in Hbody.
  unfold signature_at in Hbody. rewrite Hsig in Hbody. cbn [mbind outcome_bind] in Hbody.
  apply (signed_by _ ps Hv). eapply map_err_ok, Hbody. apply elem_of_lookup_imap. by exists i, a.
Qed.

(** What the import leaves: the block and its post-state stored, the checkpoints raised, the
    head recomputed; the votes are whatever the block's attestations made of them. *)
Definition raise (old new : Checkpoint) : Checkpoint := if cp_Slot old <? cp_Slot new then new else old.

Record imported (c : Store T) (env : SignedBlockWithAttestation) (state : State) (c' : Store T) : Prop := {
  im_storage : fc_storage c' =
    store_all (fc_storage c) (Block_HashTreeRoot (ba_Block (sb_Message env))).1 (ba_Block (sb_Message env)) env state;
  im_justified : fc_latestJustified c' = raise (fc_latestJustified c) (st_LatestJustified state);
  im_finalized : fc_latestFinalized c' = raise (fc_latestFinalized c) (st_LatestFinalized state);
  im_safeTarget : fc_safeTarget c' = fc_safeTarget c;
  im_time : fc_time c' = fc_time c;
  im_wf : wf_fc c' }.

Lemma raise_root (t t' : T) j j' r s b sb :
  wf_storage t -> new_entry t r b s -> t' = store_all t r b sb s ->
  st_HistoricalBlockHashes s <> [] ->
  j = ZeroHash \/ known t j -> anchored s j' ->
  cp_Root j' = ZeroHash \/ known t' (cp_Root j').
Proof.
  intros Ht Hne -> Hnil Hj Hj'. destruct (Hj' Hnil) as [_ Hh]. apply list_elem_of_lookup_2 in Hh.
  destruct (ne_history _ _ _ _ Hne _ Hh); [by left|right]. by apply known_add.
Qed.

Lemma importBlock_run c env state :
  let b := ba_Block (sb_Message env) in
  let r := (Block_HashTreeRoot b).1 in
  wf_fc c -> wf_envelope env -> Z.of_nat (length vs) < 2 ^ 62 ->
  new_entry (fc_storage c) r b state -> st_HistoricalBlockHashes state <> [] ->
  checkSignatureCount env = Ok tt ->
  Forall (countable_vote env) (imap pair (bb_Attestations (b_Body b))) ->
  exists c', importBlock shouldVerify c env r state = Ok c' /\ imported c env state c'.
Proof.
  intros b r Hc [Hb Hpa] Hn Hne Hnil Hcount Hatts. unfold importBlock. cbv zeta. fold b.
  change (set_storage (set_storage (set_storage c (PutBlock (fc_storage c) r b)) _) _)
    with (set_storage c (store_all (fc_storage c) r b env state)).
  set (c1 := set_storage c (store_all (fc_storage c) r b env state)).
  assert (Hc1 : wf_fc c1) by by apply add_block_wf.
  change (fc_latestJustified c1) with (fc_latestJustified c).
  change (fc_latestFinalized c1) with (fc_latestFinalized c).
  fold (raise (fc_latestJustified c) (st_LatestJustified state)).
  fold (raise (fc_latestFinalized c) (st_LatestFinalized state)).
  set (j := raise _ _). set (f := raise _ _). set (c2 := set_checkpoints c1 j f).
  assert (Hj : cp_Root j = ZeroHash \/ known (fc_storage c1) (cp_Root j)).
  { unfold j, raise. destruct (_ <? _); [|apply Hc1].
    eapply (raise_root (fc_storage c) (fc_storage c1) ZeroHash); [apply Hc|exact Hne|done|done|by left|].
    apply (ws_J_anchored _ (ne_state _ _ _ _ Hne)). }
  (* the body votes, on a store whose head may not follow the new justified root yet *)
  destruct (checkSignatureCount_ok _ Hcount) as [Hlen Hlen']. fold b in Hlen, Hlen'.
  assert (Hvotes : exists k n, foldM (fun c '(i, att) =>
      sig ← signature_at env i;
      processAttestationLocked shouldVerify c (mkSignedAttestation (att_ValidatorID att) (att_Data att) sig) true)
    c2 (imap pair (bb_Attestations (b_Body b))) = Ok (set_votes c2 k n) /\
    wf_votes (fc_storage c1) k /\ wf_votes (fc_storage c1) n).
  { destruct (body_votes_run c2 env (imap pair (bb_Attestations (b_Body b)))) as (c' & E & k & n & -> & Hk & Hnv).
    - constructor; try apply Hc1; cbn [c2 set_checkpoints fc_latestJustified fc_latestFinalized fc_storage]; [done| |];
        unfold j, f, raise; destruct (_ <? _); try apply Hc1; apply (ne_state _ _ _ _ Hne).
    - exact Hatts.
    - done.
    - exists k, n. by split. }
  destruct Hvotes as (k & n & -> & Hk & Hnv). cbn [mbind outcome_bind].
  destruct (updateHead_wf (set_votes c2 k n)) as (h & -> & Hh & Ho); [apply Hc1|exact Hj|].
  cbn [mbind outcome_bind]. set (c3 := set_head (set_votes c2 k n) h).
  assert (Hc3 : wf_fc c3).
  { split; [|done]. constructor; try apply Hc1; cbn [c3 c2 set_head set_votes set_checkpoints fc_latestJustified
      fc_latestFinalized fc_storage fc_head]; try done;
      unfold j, f, raise; destruct (_ <? _); try apply Hc1; apply (ne_state _ _ _ _ Hne). }
  destruct (ba_ProposerAttestation (sb_Message env)) as [pa|]; [|by exists c3].
  destruct (lookup_lt_is_Some_2 (sb_Signature env) (length (bb_Attestations (b_Body b)))) as [sig Hsig];
    [by apply Hlen'|].
  unfold signature_at. rewrite Hsig. cbn [mbind outcome_bind].
  destruct (processAttestation_run c3 (mkSignedAttestation (att_ValidatorID pa) (att_Data pa) sig) false)
    as (k' & n' & E & Hk' & Hn'); [apply Hc3|exact Hpa|done|done|].
  rewrite E. eexists. split; [reflexivity|]. constructor; try done. by apply set_votes_wf.
Qed.

Lemma foldM_total {S A} (f : S -> A -> outcome S) (P : A -> Prop) (l : list A) (s : S) :
  (forall s x, P x -> total (f s x) (fun _ => True) (fun _ => True)) -> Forall P l ->
  total (foldM f s l) (fun _ => True) (fun _ => True).
Proof.
  intros Hf Hl. revert s. induction Hl as [|x l Hx Hl IH]; intros s; cbn [foldM]; [done|].
  apply total_bind. eapply total_mono; [by apply Hf|by intros|done].
Qed.

Lemma total_map_err {A} (m : outcome A) g :
  total m (fun _ => True) (fun _ => True) -> total (map_err g m) (fun _ => True) (fun _ => True).
Proof. by destruct m. Qed.

Lemma verifyBlock_total ps env :
  st_Validators ps = vs -> Z.of_nat (length vs) < 2 ^ 62 -> wf_envelope env ->
  checkSignatureCount env = Ok tt ->
  total (verifyBlockSignatures shouldVerify ps env) (fun _ => True) (fun _ => True).
Proof.
  intros Hv Hn [Hb Hpa] Hcount. unfold verifyBlockSignatures. destruct shouldVerify; [|done].
  destruct (checkSignatureCount_ok _ Hcount) as [Hlen Hlen']. apply total_bind.
  eapply total_mono.
  - eapply (foldM_total _ (fun ia => 0 <= att_ValidatorID ia.2 /\ (ia.1 < length (sb_Signature env))%nat)).
    + intros _ [i att] [H0 Hi]. cbn [fst snd] in *. unfold signature_at.
      destruct (lookup_lt_is_Some_2 _ _ Hi) as [sig ->]. cbn [mbind outcome_bind].
      by apply total_map_err, verify_total.
    + apply imap_pair_forall. intros i x Hx. cbn [fst snd]. split.
      * destruct Hb as (_ & _ & Hall). rewrite list.Forall_forall in Hall.
        apply (Hall x). by eapply list_elem_of_lookup_2.
      * apply lookup_lt_Some in Hx. lia.
  - intros _ _ _. destruct (ba_ProposerAttestation (sb_Message env)) as [pa|]; [|done].
    unfold signature_at.
    destruct (lookup_lt_is_Some_2 _ _ (Hlen' ltac:(done))) as [sig ->]. cbn [mbind outcome_bind].
    apply total_map_err, verify_total; [done|done|apply Hpa].
  - done.
Qed.

(** What a call of ProcessBlock does, on a store brought up to the present. *)
Inductive block_fate (c : Store T) (env : SignedBlockWithAttestation) : Store T -> error + () -> Prop :=
| fate_known :
    known (fc_storage c) (Block_HashTreeRoot (ba_Block (sb_Message env))).1 -> block_fate c env c (inr tt)
| fate_rejected e :
    ~ known (fc_storage c) (Block_HashTreeRoot (ba_Block (sb_Message env))).1 -> block_fate c env c (inl e)
| fate_imported ps state c' :
    ~ known (fc_storage c) (Block_HashTreeRoot (ba_Block (sb_Message env))).1 ->
    GetState (fc_storage c) (b_ParentRoot (ba_Block (sb_Message env))) = Some ps ->
    StateTransition ps (ba_Block (sb_Message env)) = Ok state ->
    checkSignatureCount env = Ok tt -> verifyBlockSignatures shouldVerify ps env = Ok tt ->
    imported c env state c' -> block_fate c env c' (inr tt).

Lemma ProcessBlock_run now c env :
  let b := ba_Block (sb_Message env) in
  wf_fc c -> wf_envelope env -> registry_ok -> (forall t, now = Some t -> is_u64 t) ->
  b_Slot b * Z.of_nat (length vs) < 2 ^ 64 - 16 -> (Block_HashTreeRoot b).1 <> ZeroHash ->
  exists c1 c' res, catchUp now c = Ok c1 /\ same_chain c c1 /\
    ProcessBlock shouldVerify now c env = Ok (c', res) /\ wf_fc c' /\ block_fate c1 env c' res.
Proof.
  intros b Hc Henv Hreg Hnow Hroom Hz. unfold ProcessBlock.
  destruct (catchUp_wf now c Hc Hnow) as (c1 & -> & Hc1 & Hsame). exists c1. cbn [mbind outcome_bind].
  fold b. destruct (Block_HashTreeRoot b) as [r err] eqn:Er. cbn [fst] in Hz.
  assert (Hr : (Block_HashTreeRoot b).1 = r) by by rewrite Er.
  destruct (GetBlock (fc_storage c1) r) as [b'|] eqn:Hb'.
  { exists c1, (inr tt). split_and!; try done; try apply Hsame. apply fate_known. fold b. rewrite Hr. by exists b'. }
  assert (Hfresh : ~ known (fc_storage c1) (Block_HashTreeRoot b).1) by (rewrite Hr; intros [? ?]; congruence).
  destruct (GetState (fc_storage c1) (b_ParentRoot b)) as [ps|] eqn:Hps.
  2: { eexists c1, (inl _). split_and!; try done; try apply Hsame. by apply fate_rejected. }
  destruct (ss_post _ (fi_storage _ Hc1) _ _ Hps) as (Hpwf & Hpv & _).
  pose proof Hreg as [Hreg0 Hreg1].
  assert (Hnum : numValidators_of ps <> 0).
  { unfold numValidators_of. rewrite Hpv, u64_small by (unfold is_u64; lia). lia. }
  assert (Hroomy : roomy ps (b_Slot b)) by (split; rewrite Hpv; lia).
  pose proof (StateTransition_run ps b Hpwf (proj1 Henv) Hnum Hroomy) as HT.
  assert (Hrej : forall e, exists c' res, Ok (c1, inl e) = Ok (c', res) /\ wf_fc c' /\ block_fate c1 env c' res).
  { intros e. exists c1, (inl e). split_and!; try done; try apply Hsame. by apply fate_rejected. }
  destruct (StateTransition ps b) as [state|e|w|] eqn:Est; cbn [total map_err catch] in *; try done.
  2: { destruct (Hrej (Wrapf "state_transition: %w" [] e)) as (c' & res & ?). by exists c', res. }
  destruct HT as (_ & rr & Ha).
  destruct (checkSignatureCount env) as [[]|e|w|] eqn:Ecount; cbn [catch].
  2: { destruct (Hrej e) as (c' & res & ?). by exists c', res. }
  2, 3: exfalso; revert Ecount; unfold checkSignatureCount, fail_if; repeat case_match; done.
  pose proof (verifyBlock_total ps env Hpv Hreg1 Henv Ecount) as Hver.
  destruct (verifyBlockSignatures shouldVerify ps env) as [[]|e|w|] eqn:Ever; cbn [total catch] in *; try done.
  2: { destruct (Hrej e) as (c' & res & ?). by exists c', res. }
  assert (Hnil : st_HistoricalBlockHashes state <> []).
  { rewrite (ac_history _ _ _ _ Ha). by intros [_ ?]%app_nil. }
  assert (Hne : new_entry (fc_storage c1) (Block_HashTreeRoot b).1 b state).
  { apply (child_new_entry _ ps); try done; [apply Hc1|apply Henv|by rewrite Hr|by rewrite Hr]. }
  destruct (importBlock_run c1 env state Hc1 Henv Hreg1 Hne Hnil Ecount) as (c' & E & Him);
    [by eapply verified_votes; [exact Hpv|apply Henv|..]|].
  fold b in E. rewrite Hr in E. rewrite E. cbn [mbind outcome_bind].
  exists c', (inr tt). split_and!; try done; try apply Hsame; [apply Him|]. by eapply fate_imported.
Qed.

(** A block whose parent's state is stored, which the state transition accepts and whose
    signatures are right, is imported. *)
Lemma ProcessBlock_imports now c env ps state :
  let b := ba_Block (sb_Message env) in
  wf_fc c -> wf_envelope env -> registry_ok -> (forall t, now = Some t -> is_u64 t) ->
  b_Slot b * Z.of_nat (length vs) < 2 ^ 64 - 16 -> (Block_HashTreeRoot b).1 <> ZeroHash ->
  GetBlock (fc_storage c) (Block_HashTreeRoot b).1 = None -> GetState (fc_storage c) (b_ParentRoot b) = Some ps ->
  StateTransition ps b = Ok state -> checkSignatureCount env = Ok tt ->
  verifyBlockSignatures shouldVerify ps env = Ok tt ->
  exists c1 c', catchUp now c = Ok c1 /\ same_chain c c1 /\
    ProcessBlock shouldVerify now c env = Ok (c', inr tt) /\ imported c1 env state c'.
Proof.
  intros b Hc Henv Hreg Hnow Hroom Hz Hfr Hps Est Hcount Hver. pose proof Hreg as [Hreg0 Hreg1].
  destruct (catchUp_wf now c Hc Hnow) as (c1 & E1 & Hc1 & Hsame). exists c1.
  pose proof Hsame as (Hst & _). rewrite <- Hst in Hfr, Hps.
  destruct (ss_post _ (fi_storage _ Hc1) _ _ Hps) as (Hpwf & Hpv & _).
  assert (Hnum : numValidators_of ps <> 0).
  { unfold numValidators_of. rewrite Hpv, u64_small by (unfold is_u64; lia). lia. }
  assert (Hroomy : roomy ps (b_Slot b)) by (split; rewrite Hpv; lia).
  pose proof (StateTransition_run ps b Hpwf (proj1 Henv) Hnum Hroomy) as HT. rewrite Est in HT.
  destruct HT as (_ & rr & Ha).
  assert (Hnil : st_HistoricalBlockHashes state <> []).
  { rewrite (ac_history _ _ _ _ Ha). by intros [_ ?]%app_nil. }
  assert (Hne : new_entry (fc_storage c1) (Block_HashTreeRoot b).1 b state).
  { apply (child_new_entry _ ps); try done; [apply Hc1|apply Henv]. }
  destruct (importBlock_run c1 env state Hc1 Henv Hreg1 Hne Hnil Hcount) as (c' & E & Him);
    [by eapply verified_votes; [exact Hpv|apply Henv|..]|].
  exists c'. split; [done|]. split; [done|]. split; [|exact Him].
  unfold ProcessBlock. rewrite E1. cbn [mbind outcome_bind]. fold b in E |- *.
  destruct (Block_HashTreeRoot b) as [r e]. cbn [fst] in *.
  rewrite Hfr, Hps, Est. cbn [map_err catch]. rewrite Hcount. cbn [catch]. rewrite Hver. cbn [catch]. by rewrite E.
Qed.

(** A block without a parent state is refused. *)
Lemma ProcessBlock_orphan now c env :
  let b := ba_Block (sb_Message env) in
  wf_fc c -> (forall t, now = Some t -> is_u64 t) ->
  GetBlock (fc_storage c) (Block_HashTreeRoot b).1 = None -> GetState (fc_storage c) (b_ParentRoot b) = None ->
  exists c1, ProcessBlock shouldVerify now c env =
      Ok (c1, inl (Errorf "parent state not found for %x" [Hex (b_ParentRoot b)])) /\ wf_fc c1 /\ same_chain c c1.
Proof.
  intros b Hc Hnow Hfr Hps. destruct (catchUp_wf now c Hc Hnow) as (c1 & E1 & Hc1 & Hsame). exists c1.
  split; [|done]. pose proof Hsame as (Hst & _). unfold ProcessBlock. rewrite E1. cbn [mbind outcome_bind]. fold b.
  destruct (Block_HashTreeRoot b) as [r e]. cbn [fst] in *. by rewrite Hst, Hfr, Hps.
Qed.
End Inv.
