(* ===== verification/ForkProduce.v ===== *)
(** Producing votes and blocks: the vote target, the fixed-point collection of attestations,
    ProduceBlock, and the genesis store. *)
From S2P Require Import Prelude Slot Types Hash GoStd Bitlist VoteRule Attestations Transition Chain Storage Ghost Leansig ForkChoice ForkInv.
Local Open Scope Z_scope.

Lemma filter_length_lt {A} (P Q : A -> Prop) `{!forall x, Decision (P x), !forall x, Decision (Q x)} (l : list A) x :
  (forall y, P y -> Q y) -> x ∈ l -> Q x -> ~ P x -> (length (filter P l) < length (filter Q l))%nat.
Proof.
  intros HPQ Hx HQ HP.
  assert (Hle : forall l : list A, (length (filter P l) <= length (filter Q l))%nat).
  { intros l'. induction l' as [|z l' IH]; [done|]. rewrite !filter_cons.
    destruct (decide (P z)) as [Hz|]; [rewrite decide_True by auto; simpl; lia|].
    case_decide; simpl; lia. }
  induction l as [|y l IH]; [by apply elem_of_nil in Hx|].
  rewrite !filter_cons. apply elem_of_cons in Hx as [<-|Hx].
  - rewrite (decide_False (P := P x)), (decide_True (P := Q x)) by done. cbn [length].
    pose proof (Hle l). lia.
  - specialize (IH Hx). destruct (decide (P y)) as [Hy|]; [rewrite decide_True by auto; simpl; lia|].
    case_decide; simpl; lia.
Qed.

Section Produce.
Context {HW : HashWalker} {MR : MapRange} {FFI : LeansigFFI} {T : Type} `{SL : StorageLaws T}.
Context (shouldVerify : bool) (vs : list Validator).
#[local] Abbreviation wf_fc := (wf_fc shouldVerify vs).

(** ** The vote target *)

(** [x] is [ZeroHash] or on the chain of [h]. *)
Definition upstream (t : T) (h x : root) : Prop := x = ZeroHash \/ on_chain (GetAllBlocks t) h x.

Lemma upstream_parent t h x b :
  wf_storage vs t -> upstream t h x -> GetBlock t x = Some b -> upstream t h (b_ParentRoot b).
Proof.
  intros Ht Hx Hb. destruct (ss_entry _ _ Ht _ _ Hb) as (_ & _ & [Hz|(p & Hp & _)] & _); [by left|right].
  destruct Hx as [->|Hx]; [rewrite (ss_zero _ _ Ht) in Hb; done|].
  eapply on_chain_trans; [exact Hx|]. eapply on_parent; [by rewrite GetAllBlocks_lookup|].
  eapply on_here. by rewrite GetAllBlocks_lookup.
Qed.

(** Where the three steps back from the head end. *)
Definition looked_back (c : Store T) : root :=
  for_range JustificationLookback
    (fun _ targetRoot =>
       match GetBlock (fc_storage c) targetRoot, GetBlock (fc_storage c) (fc_safeTarget c) with
       | Some tBlock, Some safe =>
           if b_Slot safe <? b_Slot tBlock then b_ParentRoot tBlock else targetRoot
       | _, _ => targetRoot
       end) (fc_head c).

Lemma looked_back_upstream c : wf_fc c -> upstream (fc_storage c) (fc_head c) (looked_back c).
Proof.
  intros Hc. unfold looked_back. apply (for_range_ind (fun _ x => upstream (fc_storage c) (fc_head c) x)).
  - right. destruct (fi_head _ _ _ Hc) as [b Hb]. eapply on_here. by rewrite GetAllBlocks_lookup.
  - intros i x _ Hx. destruct (GetBlock (fc_storage c) x) as [b|] eqn:Hb; [|done].
    destruct (GetBlock _ (fc_safeTarget c)) as [sb|]; [|done]. destruct (_ <? _); [|done].
    eapply upstream_parent; [apply Hc|done|done].
Qed.

Lemma target_walk c fuel x :
  wf_fc c -> upstream (fc_storage c) (fc_head c) x -> (older (GetAllBlocks (fc_storage c)) x < fuel)%nat ->
  exists y, loop fuel (fun targetRoot =>
       match GetBlock (fc_storage c) targetRoot with
       | None => Ok (inr targetRoot)
       | Some tBlock =>
           if IsJustifiableAfter (b_Slot tBlock) (cp_Slot (fc_latestFinalized c)) then Ok (inr targetRoot)
           else Ok (inl (b_ParentRoot tBlock))
       end) x = Ok y /\ upstream (fc_storage c) (fc_head c) y /\
    (forall b, GetBlock (fc_storage c) y = Some b ->
       IsJustifiableAfter (b_Slot b) (cp_Slot (fc_latestFinalized c)) = true) /\
    (forall z bz, on_chain (GetAllBlocks (fc_storage c)) x z -> GetBlock (fc_storage c) z = Some bz ->
       IsJustifiableAfter (b_Slot bz) (cp_Slot (fc_latestFinalized c)) = true -> known (fc_storage c) y).
Proof.
  intros Hc. revert x. induction fuel as [|fuel IH]; intros x Hx Hf; [lia|]. cbn [loop].
  destruct (GetBlock (fc_storage c) x) as [b|] eqn:Hb; cbn [mbind outcome_bind].
  2: { exists x. split; [done|]. split; [done|]. split; [by rewrite Hb|].
       intros z bz [bx Hbx]%on_chain_start. rewrite GetAllBlocks_lookup in Hbx. congruence. }
  destruct (IsJustifiableAfter (b_Slot b) (cp_Slot (fc_latestFinalized c))) eqn:Hj; cbn [mbind outcome_bind].
  - exists x. split; [done|]. split; [done|]. split; [intros b' E; by simplify_eq|]. intros. by exists b.
  - pose proof (older_parent (GetAllBlocks (fc_storage c)) x b) as Hold. rewrite GetAllBlocks_lookup in Hold.
    specialize (Hold (storage_tree _ _ (fi_storage _ _ _ Hc)) Hb).
    destruct (IH (b_ParentRoot b)) as (y & E & Hup & Hjy & Hex);
      [eapply upstream_parent; [apply Hc|done|done]|lia|].
    exists y. split; [exact E|]. split; [done|]. split; [done|].
    intros z bz Hz Hbz Hjz. inversion Hz as [? b' Hb' E1 E2|? b' ? Hb' Hz']; subst.
    + simplify_eq. congruence.
    + rewrite GetAllBlocks_lookup in Hb'. simplify_eq. by eapply Hex.
Qed.

(** The vote target: a stored block on the chain of the head, at a slot that may be justified
    after the finalized one; the only failure is that the chain has no such block. *)
Lemma getVoteTarget_run c : wf_fc c ->
  (exists b, getVoteTargetLocked c = Ok (mkCheckpoint (Block_HashTreeRoot b).1 (b_Slot b)) /\
     GetBlock (fc_storage c) (Block_HashTreeRoot b).1 = Some b /\
     on_chain (GetAllBlocks (fc_storage c)) (fc_head c) (Block_HashTreeRoot b).1 /\
     IsJustifiableAfter (b_Slot b) (cp_Slot (fc_latestFinalized c)) = true) \/
  (getVoteTargetLocked c = Err (Errorf "vote target block not found" []) /\
   forall z bz, on_chain (GetAllBlocks (fc_storage c)) (looked_back c) z -> GetBlock (fc_storage c) z = Some bz ->
     IsJustifiableAfter (b_Slot bz) (cp_Slot (fc_latestFinalized c)) = false).
Proof.
  intros Hc. unfold getVoteTargetLocked. cbv zeta. fold (looked_back c).
  destruct (target_walk c (S (size (GetAllBlocks (fc_storage c)))) (looked_back c) Hc (looked_back_upstream c Hc))
    as (y & E & Hup & Hj & Hex); [pose proof (older_le (GetAllBlocks (fc_storage c)) (looked_back c)); lia|].
  rewrite E. cbn [mbind outcome_bind]. destruct (GetBlock (fc_storage c) y) as [b|] eqn:Hb.
  - left. exists b. destruct (ss_entry _ _ (fi_storage _ _ _ Hc) _ _ Hb) as (Hroot & _).
    destruct (Block_HashTreeRoot b) as [r e] eqn:Er. cbn [fst] in *. subst r.
    split; [done|]. split; [done|]. split; [|by apply Hj].
    destruct Hup as [->|]; [|done]. rewrite (ss_zero _ _ (fi_storage _ _ _ Hc)) in Hb. done.
  - right. split; [done|]. intros z bz Hz Hbz.
    destruct (IsJustifiableAfter _ _) eqn:Ej; [|done].
    destruct (Hex z bz Hz Hbz Ej) as [? ?]. congruence.
Qed.

(** ** Collecting attestations *)

Definition att_of (sa : SignedAttestation) : Attestation := mkAttestation (sa_ValidatorID sa) (sa_Message sa).

(** A known vote that belongs in a block whose post-state is [post]. *)
Definition eligible (c : Store T) (post : State) (sa : SignedAttestation) : Prop :=
  known (fc_storage c) (cp_Root (ad_Head (sa_Message sa))) /\
  ad_Source (sa_Message sa) = st_LatestJustified post.

Definition from_known (c : Store T) (sa : SignedAttestation) : Prop :=
  exists v, fc_latestKnownAttestations c !! v = Some sa.

Lemma containsAttestation_app l l' a :
  containsAttestation (l ++ l') a = containsAttestation l a || containsAttestation l' a.
Proof. unfold containsAttestation. apply existsb_app. Qed.

Lemma containsAttestation_in l a : a ∈ l -> containsAttestation l a = true.
Proof.
  intros Ha. apply existsb_exists. exists a. split; [by apply list_elem_of_In|]. by rewrite !Z.eqb_refl.
Qed.

Lemma collectPass_fold c post atts l acc :
  let res := foldl (collect_step c post atts) acc l in
  exists new : list SignedAttestation, res = (acc.1 ++ map att_of new, acc.2 ++ new) /\
    Forall (fun sa => exists v : Z, (v, sa) ∈ l /\ eligible c post sa /\ containsAttestation atts (att_of sa) = false) new /\
    forall v sa, (v, sa) ∈ l -> eligible c post sa -> containsAttestation atts (att_of sa) = false -> sa ∈ new.
Proof.
  revert acc. induction l as [|[v sa] l IH]; intros acc; cbn [foldl].
  { exists []. rewrite !app_nil_r. split; [by destruct acc|]. split; [constructor|].
    intros v sa Hv. by apply elem_of_nil in Hv. }
  assert (Hskip : (eligible c post sa -> containsAttestation atts (att_of sa) = true) ->
    exists new : list SignedAttestation,
    foldl (collect_step c post atts) acc l = (acc.1 ++ map att_of new, acc.2 ++ new) /\
    Forall (fun sa' => exists w : Z, (w, sa') ∈ (v, sa) :: l /\ eligible c post sa' /\ containsAttestation atts (att_of sa') = false) new /\
    forall w sa', (w, sa') ∈ (v, sa) :: l -> eligible c post sa' -> containsAttestation atts (att_of sa') = false -> sa' ∈ new).
  { intros Hno. destruct (IH acc) as (new & E & Hall & Hex). exists new. split; [exact E|]. split.
    - eapply list.Forall_impl; [exact Hall|]. intros sa' (w & Hw & Hrest). exists w. split; [by right|done].
    - intros w sa' [[= -> ->]|Hw]%elem_of_cons He Hct; [by rewrite Hno in Hct|by eapply Hex]. }
  unfold collect_step at 2; cbv zeta; cbn [snd].
  destruct (GetBlock (fc_storage c) (cp_Root (ad_Head (sa_Message sa)))) as [hb|] eqn:Hhb.
  2: { apply Hskip. intros [[? ?] _]. congruence. }
  case_bool_decide as Hr; cbn [negb orb]; [|apply Hskip; by intros [_ He]; rewrite He in Hr].
  destruct (Z.eqb_spec (cp_Slot (ad_Source (sa_Message sa))) (cp_Slot (st_LatestJustified post))) as [Hs|Hs];
    cbn [negb]; [|apply Hskip; by intros [_ He]; rewrite He in Hs].
  fold (att_of sa). destruct (containsAttestation atts (att_of sa)) eqn:Hct; cbn [negb]; [by apply Hskip|].
  assert (Hel : eligible c post sa).
  { split; [by exists hb|]. destruct (ad_Source (sa_Message sa)), (st_LatestJustified post). simpl in *. by subst. }
  destruct (IH (acc.1 ++ [att_of sa], acc.2 ++ [sa])) as (new & E & Hall & Hex). exists (sa :: new).
  split; [rewrite E; cbn [fst snd map]; by rewrite <- !app_assoc|]. split.
  - constructor; [exists v; split; [by left|done]|]. eapply list.Forall_impl; [exact Hall|].
    intros sa' (w & Hw & Hrest). exists w. split; [by right|done].
  - intros w sa' [[= -> ->]|Hw]%elem_of_cons He Hct'; [by left|right; by eapply Hex].
Qed.

Lemma collectPass_spec c round post atts :
  exists new, collectPass c round post atts = (map att_of new, new) /\
    Forall (fun sa => from_known c sa /\ containsAttestation atts (att_of sa) = false) new /\
    forall sa, from_known c sa -> eligible c post sa -> containsAttestation atts (att_of sa) = false -> sa ∈ new.
Proof.
  unfold collectPass.
  destruct (collectPass_fold c post atts (range round (fc_latestKnownAttestations c)) ([], []))
    as (new & E & Hall & Hex). exists new. split; [exact E|]. split.
  - eapply list.Forall_impl; [exact Hall|]. intros sa (v & Hv & _ & Hct). split; [|done].
    exists v. by apply elem_of_range in Hv.
  - intros sa [v Hv]. by apply Hex with v, elem_of_range.
Qed.

(** The known votes that are not in the block yet: what every round but the last consumes. *)
Definition missing (c : Store T) (atts : list Attestation) : nat :=
  length (filter (fun kv : Z * SignedAttestation => containsAttestation atts (att_of kv.2) = false)
            (map_to_list (fc_latestKnownAttestations c))).

Lemma missing_decreases c atts new :
  new <> [] -> Forall (fun sa => from_known c sa /\ containsAttestation atts (att_of sa) = false) new ->
  (missing c (atts ++ map att_of new) < missing c atts)%nat.
Proof.
  intros Hne Hall. destruct new as [|sa new]; [done|].
  apply list.Forall_cons in Hall as [[[v Hv] Hct] _]. unfold missing.
  apply (filter_length_lt _ _ _ (v, sa)).
  - intros kv. rewrite containsAttestation_app, orb_false_iff. by intros [? _].
  - by apply elem_of_map_to_list.
  - exact Hct.
  - cbn [snd]. rewrite containsAttestation_app, orb_false_iff. intros [_ Hct'].
    rewrite containsAttestation_in in Hct'; [done|]. cbn [map]. by left.
Qed.

(** What the collection ends with: attestations made of known votes, each with its signature,
    and none missing that the resulting post-state would justify including. *)
Record collected (c : Store T) (adv : State) (slot v : Z) (headRoot : root)
    (atts : list Attestation) (signed_ : list SignedAttestation) : Prop := {
  co_votes : atts = map att_of signed_;
  co_known : Forall (from_known c) signed_;
  co_complete : exists post,
    Transition.ProcessBlock adv (mkBlock slot v headRoot ZeroHash (mkBlockBody atts)) = Ok post /\
    forall sa, from_known c sa -> eligible c post sa -> containsAttestation atts (att_of sa) = true;
  co_first : exists post,
    Transition.ProcessBlock adv (mkBlock slot v headRoot ZeroHash (mkBlockBody [])) = Ok post /\
    forall sa, from_known c sa -> eligible c post sa -> containsAttestation atts (att_of sa) = true }.

(** What the rounds keep: after the first, the votes that the empty block makes eligible are in. *)
Definition first_round (c : Store T) (adv : State) (slot v : Z) (headRoot : root) (atts : list Attestation) : Prop :=
  atts = [] \/ exists post,
    Transition.ProcessBlock adv (mkBlock slot v headRoot ZeroHash (mkBlockBody [])) = Ok post /\
    forall sa, from_known c sa -> eligible c post sa -> containsAttestation atts (att_of sa) = true.

Lemma first_round_next c adv slot v headRoot atts post new :
  first_round c adv slot v headRoot atts ->
  Transition.ProcessBlock adv (mkBlock slot v headRoot ZeroHash (mkBlockBody atts)) = Ok post ->
  (forall sa, from_known c sa -> eligible c post sa -> containsAttestation atts (att_of sa) = false -> sa ∈ new) ->
  exists post0, Transition.ProcessBlock adv (mkBlock slot v headRoot ZeroHash (mkBlockBody [])) = Ok post0 /\
    forall sa, from_known c sa -> eligible c post0 sa -> containsAttestation (atts ++ map att_of new) (att_of sa) = true.
Proof.
  intros [->|(post0 & E0 & Hin)] E Hex.
  - exists post. split; [done|]. intros sa Hk He. apply containsAttestation_in. cbn [app].
    apply list_elem_of_fmap. exists sa. split; [done|]. by apply Hex.
  - exists post0. split; [done|]. intros sa Hk He. by rewrite containsAttestation_app, Hin.
Qed.

Lemma from_known_wf c sa : wf_fc c -> from_known c sa -> wf_SignedAttestation sa.
Proof. intros Hc [v Hv]. by apply (fi_known _ _ _ Hc) in Hv as (_ & ? & _). Qed.

Lemma votes_wf c l : wf_fc c -> Forall (from_known c) l -> Forall wf_Attestation (map att_of l).
Proof.
  intros Hc Hl. apply List.Forall_map. eapply list.Forall_impl; [exact Hl|].
  intros sa Hsa. by apply (from_known_wf c).
Qed.

Lemma collect_total c adv slot v headRoot :
  wf_fc c ->
  (forall atts, Forall wf_Attestation atts ->
     total (Transition.ProcessBlock adv (mkBlock slot v headRoot ZeroHash (mkBlockBody atts)))
       (fun _ => True) (fun _ => True)) ->
  total (collectAttestations c adv slot v headRoot)
    (fun res => collected c adv slot v headRoot res.1 res.2) (fun _ => True).
Proof.
  intros Hc Hstf. unfold collectAttestations.
  apply (loop_total
    (fun '(_, atts, l) => (atts = map att_of l /\ Forall (from_known c) l) /\ first_round c adv slot v headRoot atts)
    (fun '(_, atts, _) => missing c atts)).
  - intros [[round atts] l] [[-> Hl] Hfirst]. apply total_bind.
    eapply total_mono; [apply Hstf; by apply (votes_wf c)| |done].
    intros post Epost _. destruct (collectPass_spec c round post (map att_of l)) as (new & -> & Hall & Hex).
    pose proof (first_round_next c adv slot v headRoot _ post new Hfirst Epost Hex) as Hnext.
    destruct (Nat.eqb_spec (length (map att_of new)) 0) as [E0|E0]; cbn [total].
    + rewrite length_map in E0. apply length_zero_iff_nil in E0 as ->. cbn [map] in Hnext. rewrite app_nil_r in Hnext.
      constructor; cbn [fst snd]; try done. exists post. split; [done|]. intros sa Hk He.
      destruct (containsAttestation _ _) eqn:Hct; [done|]. specialize (Hex sa Hk He Hct). by apply elem_of_nil in Hex.
    + split; [split; [split|by right]|].
      * by rewrite map_app.
      * apply list.Forall_app. split; [done|]. eapply list.Forall_impl; [exact Hall|]. by intros ? [? _].
      * apply missing_decreases; [by intros ->|done].
  - by split; [split; [|constructor]|left].
  - unfold missing. etrans; [|apply Nat.lt_succ_diag_r]. apply Nat.lt_succ_r.
    rewrite <- length_map_to_list. apply list.length_filter.
Qed.

(** ** Producing *)

(** What the signer may do: return a signature or an error. *)
Definition total_signer (Sign : Z -> root -> outcome bytes) : Prop :=
  forall epoch m, total (Sign epoch m) (fun _ => True) (fun _ => True).

(** The store when the production starts: the slot's time reached, the votes accepted. *)
Definition prepared (c : Store T) (slot : Z) : outcome (Store T) :=
  advanceTimeLocked c (u64 (fc_genesisTime c + u64 (slot * SecondsPerSlot))) true
    ≫= acceptNewAttestationsLocked.

Lemma prepared_wf c slot : wf_fc c ->
  exists c1, prepared c slot = Ok c1 /\ wf_fc c1 /\ same_chain c c1.
Proof.
  intros Hc. unfold prepared.
  destruct (advanceTime_wf _ _ c (u64 (fc_genesisTime c + u64 (slot * SecondsPerSlot))) true Hc (u64_range _))
    as (c1 & -> & Hc1 & Hs & _). cbn [mbind outcome_bind].
  destruct (accept_wf _ _ c1 Hc1) as (h & -> & Hc2). eexists. split; [done|]. split; [done|].
  exact Hs.
Qed.

(** A proposal is built on a block without children. *)
Lemma prepared_childless c slot c1 : wf_fc c -> prepared c slot = Ok c1 ->
  forall r b, GetBlock (fc_storage c1) r = Some b -> b_ParentRoot b <> fc_head c1.
Proof.
  intros Hc E. unfold prepared in E. apply bind_Ok in E as (ca & Ea & E).
  destruct (advanceTime_wf _ _ c (u64 (fc_genesisTime c + u64 (slot * SecondsPerSlot))) true Hc (u64_range _))
    as (ca' & Ea' & Hca & _). rewrite Ea in Ea'. apply Ok_inj in Ea' as <-.
  unfold acceptNewAttestationsLocked, updateHeadLocked in E. apply bind_Ok in E as (h & Eh & <-%Ok_inj).
  cbn [set_head fc_storage fc_head set_votes] in *. eapply head_childless; [apply Hca| |exact Eh]. apply Hca.
Qed.

(** The produced envelope, against the store [c1] it was produced on. *)
Record produced (c1 : Store T) (slot v : Z) (Sign : Z -> root -> outcome bytes)
    (env : SignedBlockWithAttestation) (headState state : State) : Prop := {
  pr_head : GetState (fc_storage c1) (fc_head c1) = Some headState;
  pr_slot : b_Slot (ba_Block (sb_Message env)) = slot;
  pr_proposer : b_ProposerIndex (ba_Block (sb_Message env)) = v;
  pr_parent : b_ParentRoot (ba_Block (sb_Message env)) = fc_head c1;
  pr_transition : StateTransition headState (ba_Block (sb_Message env)) = Ok state;
  pr_first : exists adv post, ProcessSlots headState slot = Ok adv /\
    Transition.ProcessBlock adv (mkBlock slot v (fc_head c1) ZeroHash (mkBlockBody [])) = Ok post /\
    forall sa, from_known c1 sa -> eligible c1 post sa ->
      containsAttestation (bb_Attestations (b_Body (ba_Block (sb_Message env)))) (att_of sa) = true;
  pr_votes : exists signed_ sig,
    bb_Attestations (b_Body (ba_Block (sb_Message env))) = map att_of signed_ /\
    Forall (from_known c1) signed_ /\
    (forall sa, from_known c1 sa -> eligible c1 state sa ->
       containsAttestation (map att_of signed_) (att_of sa) = true) /\
    sb_Signature env = map sa_Signature signed_ ++ [vec_of XMSSSignatureSize sig] /\
    exists target m, ba_ProposerAttestation (sb_Message env) =
        Some (mkAttestation v (mkAttestationData slot
          (mkCheckpoint (Block_HashTreeRoot (ba_Block (sb_Message env))).1 slot) target (fc_latestJustified c1))) /\
      getVoteTargetLocked c1 = Ok target /\
      Attestation_HashTreeRoot (mkAttestation v (mkAttestationData slot
          (mkCheckpoint (Block_HashTreeRoot (ba_Block (sb_Message env))).1 slot) target (fc_latestJustified c1))) = (m, None) /\
      Sign (u32 slot) m = Ok sig }.

Lemma ProcessBlock_state_root s slot v p r r' body :
  Transition.ProcessBlock s (mkBlock slot v p r body) = Transition.ProcessBlock s (mkBlock slot v p r' body).
Proof. reflexivity. Qed.

(** The transition function accepts the block whose state root was computed by running it. *)
Lemma self_consistent hs slot v p body adv post :
  ProcessSlots hs slot = Ok adv ->
  Transition.ProcessBlock adv (mkBlock slot v p ZeroHash body) = Ok post ->
  StateTransition hs (mkBlock slot v p (State_HashTreeRoot post).1 body) = Ok post.
Proof.
  intros Ea Ep. unfold StateTransition. cbn [b_Slot]. rewrite Ea. cbn [map_err mbind outcome_bind].
  rewrite (ProcessBlock_state_root _ _ _ _ _ ZeroHash), Ep. cbn [map_err mbind outcome_bind b_StateRoot].
  destruct (State_HashTreeRoot post) as [r e]. unfold fail_if. by rewrite bool_decide_eq_true_2.
Qed.

(** The state a block is built on, advanced to the block's slot. *)
Lemma advanced_state c slot hs :
  wf_fc c -> registry_ok vs -> is_u64 slot -> GetState (fc_storage c) (fc_head c) = Some hs -> st_Slot hs < slot ->
  exists adv, ProcessSlots hs slot = Ok adv /\ wf_state adv /\ st_Validators adv = vs.
Proof.
  intros Hc Hreg Hslot Hhs Hlt. destruct (ss_post _ _ (fi_storage _ _ _ Hc) _ _ Hhs) as (Hwf & Hv & _).
  destruct (ProcessSlots_run hs slot (ws_slot _ Hwf) Hslot Hlt) as (r & E & _).
  eexists. split; [exact E|]. split; [|done]. apply wf_state_advance; [done|done|lia].
Qed.

Lemma stf_total adv slot v p atts :
  wf_state adv -> st_Validators adv = vs -> registry_ok vs -> is_u64 slot -> is_u64 v ->
  slot * Z.of_nat (length vs) < 2 ^ 64 - 16 -> Forall wf_Attestation atts ->
  total (Transition.ProcessBlock adv (mkBlock slot v p ZeroHash (mkBlockBody atts))) (fun _ => True) (fun _ => True).
Proof.
  intros Hadv Hv [Hr0 Hr1] Hs Hvi Hroom Hatts. eapply total_mono; [apply Chain.ApplyBlock_run| |]; try done.
  - unfold numValidators_of. rewrite Hv, u64_small by (unfold is_u64; lia). lia.
  - split; cbn [b_Slot]; rewrite Hv; lia.
Qed.

Lemma vote_target_total c : wf_fc c -> total (getVoteTargetLocked c) (fun _ => True) (fun _ => True).
Proof. intros Hc. by destruct (getVoteTarget_run c Hc) as [(b & -> & _)|[-> _]]. Qed.

Lemma ProduceBlock_run c slot v Sign :
  wf_fc c -> registry_ok vs -> is_u64 slot -> is_u64 v -> total_signer Sign ->
  slot * Z.of_nat (length vs) < 2 ^ 64 - 16 ->
  exists c1 c' res, prepared c slot = Ok c1 /\ wf_fc c1 /\ same_chain c c1 /\
    ProduceBlock c slot v Sign = Ok (c', res) /\
    match res with
    | inl _ => c' = c \/ c' = c1
    | inr env => exists hs state, produced c1 slot v Sign env hs state /\
        c' = set_storage c1 (store_all (fc_storage c1) (Block_HashTreeRoot (ba_Block (sb_Message env))).1
               (ba_Block (sb_Message env)) env state)
    end.
Proof.
  intros Hc Hreg Hslot Hv HSign Hroom. destruct (prepared_wf c slot Hc) as (c1 & Ep & Hc1 & Hsame).
  exists c1. unfold ProduceBlock, IsProposer. pose proof Hreg as [Hr0 Hr1].
  rewrite (fi_numValidators _ _ _ Hc), (proj2 (Z.eqb_neq (Z.of_nat (length vs)) 0)) by lia.
  cbn [mbind outcome_bind]. destruct (_ =? v) eqn:Eprop; cbn [negb].
  2: { eexists c, (inl _). split_and!; try done; try apply Hsame. by left. }
  cbv zeta. rewrite <- bind_assoc. fold (prepared c slot). rewrite Ep. cbn [mbind outcome_bind].
  assert (Hfail : forall e : error, exists c' res,
      Ok c1 = Ok c1 /\ wf_fc c1 /\ same_chain c c1 /\
      Ok (c1, @inl _ SignedBlockWithAttestation e) = Ok (c', res) /\
      match res with inl _ => c' = c \/ c' = c1 | inr env => exists hs state, produced c1 slot v Sign env hs state /\
        c' = set_storage c1 (store_all (fc_storage c1) (Block_HashTreeRoot (ba_Block (sb_Message env))).1
               (ba_Block (sb_Message env)) env state) end).
  { intros e. exists c1, (inl e). split_and!; try done; try apply Hsame. by right. }
  destruct (GetState (fc_storage c1) (fc_head c1)) as [hs|] eqn:Hhs; [|apply Hfail].
  destruct (Z.le_gt_cases slot (st_Slot hs)) as [Hle|Hlt];
    [rewrite ProcessSlots_past by done; apply Hfail|].
  destruct (advanced_state c1 slot hs Hc1 Hreg Hslot Hhs Hlt) as (adv & Ea & Hadv & Hadvv).
  rewrite Ea. cbn [catch].
  pose proof (collect_total c1 adv slot v (fc_head c1) Hc1) as Hcol.
  specialize (Hcol (fun atts Ha => stf_total adv slot v (fc_head c1) atts Hadv Hadvv Hreg Hslot Hv Hroom Ha)).
  destruct (collectAttestations c1 adv slot v (fc_head c1)) as [[atts l]|e|w|]; cbn [total catch fst snd] in *;
    try done.
  destruct Hcol as [-> Hl (post & Epost & Hcomp) (post0 & Epost0 & Hfirst)]. rewrite Epost. cbn [catch].
  pose proof (self_consistent hs slot v (fc_head c1) _ adv post Ea Epost) as Hst.
  destruct (State_HashTreeRoot post) as [sr se] eqn:Esr. cbn [fst] in Hst.
  set (b := mkBlock slot v (fc_head c1) sr _) in *.
  destruct (Block_HashTreeRoot b) as [bh be] eqn:Ebh.
  pose proof (vote_target_total c1 Hc1) as Htgt.
  destruct (getVoteTargetLocked c1) as [target|e|w|] eqn:Etgt; cbn [total map_err catch] in *; try done.
  set (pa := mkAttestation v _). destruct (Attestation_HashTreeRoot pa) as [m [e|]] eqn:Em; [apply Hfail|].
  pose proof (HSign (u32 (ad_Slot (att_Data pa))) m) as Hsig.
  destruct (Sign (u32 (ad_Slot (att_Data pa))) m) as [sig|e|w|] eqn:Esig; cbn [total map_err catch] in *; try done.
  eexists _, (inr _). split; [done|]. split; [done|]. split; [done|]. split; [reflexivity|].
  cbn [sb_Message ba_Block]. exists hs, post. split; [|by rewrite Ebh].
  constructor; cbn [sb_Message ba_Block ba_ProposerAttestation sb_Signature]; try done; [by exists adv, post0|].
  exists l, sig. split; [done|]. split; [done|]. split; [exact Hcomp|]. split; [done|].
  rewrite Ebh. exists target, m. by split_and!.
Qed.

(** ** What others make of a produced block *)

(** The signer holds the key of validator [v]. *)
Definition signer_for (v : Z) (Sign : Z -> root -> outcome bytes) : Prop :=
  forall epoch m sig val, Sign epoch m = Ok sig -> vs !! Z.to_nat v = Some val ->
    Verify (v_Pubkey val) epoch m (vec_of XMSSSignatureSize sig) = Ok tt.

Lemma foldM_unit_ok {A} (f : () -> A -> outcome ()) (l : list A) :
  Forall (fun x => f tt x = Ok tt) l -> foldM f tt l = Ok tt.
Proof. induction 1 as [|x l Hx Hl IH]; cbn [foldM]; [done|]. by rewrite Hx. Qed.

Lemma produced_count c1 slot v Sign env hs state :
  produced c1 slot v Sign env hs state -> checkSignatureCount env = Ok tt.
Proof.
  intros [_ _ _ _ _ _ (l & sig & Hb & _ & _ & Hs & target & m & Hpa & _)].
  unfold checkSignatureCount. rewrite Hpa, Hb, Hs, length_app, !length_map. cbn [length].
  by rewrite Nat.eqb_refl.
Qed.

Lemma produced_verifies c1 slot v Sign env hs state :
  wf_fc c1 -> registry_ok vs -> st_Validators hs = vs -> 0 <= v < Z.of_nat (length vs) -> signer_for v Sign ->
  produced c1 slot v Sign env hs state -> verifyBlockSignatures shouldVerify hs env = Ok tt.
Proof.
  intros Hc1 [_ Hr1] Hhs Hv HSign [_ _ _ _ _ _ (l & sig & Hb & Hl & _ & Hs & target & m & Hpa & _ & Hm & Hsg)].
  unfold verifyBlockSignatures. destruct shouldVerify eqn:Esv; [|done].
  rewrite Hb, Hpa. rewrite foldM_unit_ok; cbn [mbind outcome_bind].
  - unfold signature_at. rewrite Hs, lookup_app_r by (by rewrite !length_map).
    rewrite !length_map, Nat.sub_diag. cbn [lookup list_lookup mbind outcome_bind].
    unfold verifyAttestationSignatureWithState. cbn [att_ValidatorID att_Data ad_Slot].
    rewrite Hhs, u64_small by (unfold is_u64; lia). rewrite (proj2 (Z.leb_gt _ _)) by lia.
    destruct (lookup_lt_is_Some_2 vs (Z.to_nat v)) as [val Hval]; [lia|]. rewrite Hval, Hm.
    by rewrite (HSign _ _ _ _ Hsg Hval).
  - apply imap_pair_forall. intros i a Ha. change (map att_of l) with (att_of <$> l) in Ha.
    rewrite list_lookup_fmap in Ha. destruct (l !! i) as [sa|] eqn:Hsa; [|done]. injection Ha as <-.
    cbn beta iota. unfold signature_at. rewrite Hs, lookup_app_l by (rewrite length_map; by eapply lookup_lt_Some).
    change (map sa_Signature l) with (sa_Signature <$> l). rewrite list_lookup_fmap, Hsa.
    cbn [fmap option_fmap option_map mbind outcome_bind].
    rewrite list.Forall_forall in Hl. destruct (Hl sa) as [w Hw]; [by eapply list_elem_of_lookup_2|].
    apply (fi_known _ _ _ Hc1) in Hw as (_ & _ & Hsgn & _).
    specialize (Hsgn eq_refl hs Hhs). fold (att_of sa) in Hsgn. by rewrite Hsgn.
Qed.

(** A node that has the parent's state and not the block imports it. *)
Lemma peer_imports c1 slot v Sign env hs state (d : Store T) :
  wf_fc c1 -> wf_fc d -> registry_ok vs -> is_u64 slot -> is_u64 v -> signer_for v Sign ->
  slot * Z.of_nat (length vs) < 2 ^ 64 - 16 ->
  produced c1 slot v Sign env hs state ->
  GetState (fc_storage d) (b_ParentRoot (ba_Block (sb_Message env))) = Some hs ->
  (Block_HashTreeRoot (ba_Block (sb_Message env))).1 <> ZeroHash ->
  GetBlock (fc_storage d) (Block_HashTreeRoot (ba_Block (sb_Message env))).1 = None ->
  wf_envelope env ->
  exists d', ProcessBlock shouldVerify None d env = Ok (d', inr tt) /\ imported shouldVerify vs d env state d'.
Proof.
  intros Hc1 Hd Hreg Hslot Hv HSign Hroom Hp Hps Hz Hfr Henv.
  destruct (ss_post _ _ (fi_storage _ _ _ Hd) _ _ Hps) as (Hwf & Hhs & _).
  pose proof (pr_transition _ _ _ _ _ _ _ Hp) as Hst. set (b := ba_Block (sb_Message env)) in *.
  assert (Hbs : b_Slot b = slot) by apply Hp.
  pose proof Hreg as [Hr0 Hr1].
  assert (Hnum : numValidators_of hs = Z.of_nat (length vs))
    by (unfold numValidators_of; rewrite Hhs, u64_small; unfold is_u64; lia).
  pose proof (StateTransition_run hs b Hwf (proj1 Henv)) as HT. rewrite Hst in HT.
  destruct HT as (_ & rr & Ha); [lia|split; rewrite Hhs, ?Hbs; lia|].
  assert (Hvr : 0 <= v < Z.of_nat (length vs)).
  { pose proof (ac_proposer _ _ _ _ Ha) as Hprop. rewrite Hnum in Hprop.
    assert (Hbp : b_ProposerIndex b = v) by apply Hp. rewrite Hbp in Hprop. subst v. apply Z.mod_pos_bound. lia. }
  pose proof (produced_count _ _ _ _ _ _ _ Hp) as Hcount.
  pose proof (produced_verifies _ _ _ _ _ _ _ Hc1 Hreg Hhs Hvr HSign Hp) as Hver.
  destruct (ProcessBlock_imports shouldVerify vs None d env hs state Hd Henv Hreg) as (c1' & d' & [= <-] & _ & E & Him);
    try done; [by fold b; rewrite Hbs|]. by exists d'.
Qed.

Lemma produced_envelope_wf c1 slot v Sign env hs state :
  wf_fc c1 -> is_u64 slot -> is_u64 v ->
  produced c1 slot v Sign env hs state -> wf_envelope env.
Proof.
  intros Hc1 Hslot Hv [_ Hs Hp _ _ _ (l & sig & Hb & Hl & _ & _ & target & m & Hpa & Htgt & _)].
  split.
  - split; [by rewrite Hs|]. split; [by rewrite Hp|]. rewrite Hb. by apply (votes_wf c1).
  - rewrite Hpa. split; [done|]. cbn [att_Data]. split; [done|]. split; [done|].
    split; [|apply (fi_J _ _ _ Hc1)]. cbn [ad_Target]. 
    destruct (getVoteTarget_run c1 Hc1) as [(b & E & Hgb & _)|[E _]]; rewrite Htgt in E; [|done].
    injection E as ->. by destruct (ss_entry _ _ (fi_storage _ _ _ Hc1) _ _ Hgb) as (_ & ? & _).
Qed.

(** The producer itself now has the block, so importing its own envelope does nothing. *)
Lemma own_block_known c1 env state :
  ProcessBlock shouldVerify None
    (set_storage c1 (store_all (fc_storage c1) (Block_HashTreeRoot (ba_Block (sb_Message env))).1
       (ba_Block (sb_Message env)) env state)) env
  = Ok (set_storage c1 (store_all (fc_storage c1) (Block_HashTreeRoot (ba_Block (sb_Message env))).1
       (ba_Block (sb_Message env)) env state), inr tt).
Proof.
  unfold ProcessBlock. cbn [catchUp mbind outcome_bind]. destruct (Block_HashTreeRoot _) as [r e]. cbn [fst].
  cbn [set_storage fc_storage]. rewrite GetBlock_store_all, decide_True by done. done.
Qed.

(** ** The genesis store *)

Lemma initGenesis_run (t0 : T) genesisTime :
  (forall r, GetBlock t0 r = None) -> (forall r, GetState t0 r = None) ->
  is_u64 genesisTime -> Forall wf_Validator vs -> registry_ok vs ->
  (Block_HashTreeRoot (genesis_block (GenerateGenesis genesisTime vs))).1 <> ZeroHash ->
  exists c, initGenesis genesisTime vs t0 = Ok c /\ wf_fc c /\
    fc_genesisTime c = genesisTime /\ cp_Slot (fc_latestFinalized c) = 0.
Proof.
  intros Hb0 Hs0 Hg Hvs [Hr0 Hr1] Hz. unfold initGenesis, NewStore, genesis_block in *.
  set (g := GenerateGenesis genesisTime vs) in *.
  destruct (State_HashTreeRoot g) as [sr se] eqn:Esr. cbn [b_StateRoot].
  rewrite bool_decide_eq_true_2 by done. cbn [negb].
  set (gb := mkBlock 0 0 ZeroHash sr (mkBlockBody [])) in *.
  destruct (Block_HashTreeRoot gb) as [r e] eqn:Er. cbn [fst] in Hz. eexists. split; [reflexivity|].
  change (PutState (PutSignedBlock (PutBlock t0 r gb) r ?sb) r g) with (store_all t0 r gb sb g).
  set (sb := mkSignedBlock _ _).
  assert (Hgw : wf_state g) by by apply genesis_wf.
  destruct (genesis_start genesisTime vs) as (H1 & H2 & H3 & H4). fold g in H1, H2, H3, H4.
  assert (Hcfg : cfg_GenesisTime (st_Config g) = genesisTime /\ st_Slot g = 0).
  { unfold g, GenerateGenesis. by destruct (BlockBody_HashTreeRoot _). }
  assert (Hso : state_of gb g).
  { split; [apply Hcfg|]. split; [|by rewrite Esr].
    unfold g, GenerateGenesis. by destruct (BlockBody_HashTreeRoot (mkBlockBody [])) as [br be] eqn:Eb; cbn; rewrite ?Eb. }
  assert (Hget : forall x b, GetBlock (store_all t0 r gb sb g) x = Some b -> x = r /\ b = gb).
  { intros x b. rewrite GetBlock_store_all. case_decide; [by intros [= <-]|by rewrite Hb0]. }
  assert (Hkn : known (store_all t0 r gb sb g) r).
  { unfold known. by rewrite GetBlock_store_all, decide_True. }
  assert (Hst : wf_storage vs (store_all t0 r gb sb g)).
  { constructor.
    - destruct (GetBlock _ ZeroHash) eqn:E; [|done]. apply Hget in E as [<- _]. done.
    - intros x b [-> ->]%Hget. split; [by rewrite Er|]. split; [done|]. split; [by left|].
      by rewrite GetState_store_all, decide_True.
    - intros x s'. rewrite GetState_store_all. case_decide as Hx; [|by rewrite Hs0]. intros [= <-]. subst x.
      split; [done|]. split; [done|]. split; [exists gb; split; [|done]|by rewrite H2; intros x ?%elem_of_nil].
      by rewrite GetBlock_store_all, decide_True.
    - exists r, gb. by rewrite GetBlock_store_all, decide_True. }
  split; [|split; [apply Hcfg|done]]. split; [constructor; cbn; try done|].
  - by rewrite (proj1 Hcfg).
  - rewrite H4, u64_small; [done|]. unfold is_u64. lia.
  - by right.
  - intros _. destruct Hkn as [b Hb]. eapply on_here. rewrite GetAllBlocks_lookup. exact Hb.
Qed.
End Produce.
