(* ===== verification/Aggregation.v ===== *)
(** chain/forkchoice/aggregation.go: aggregates of attestations.

    An aggregate is a bitlist of validators and the concatenation of their signatures in
    ascending order.  [sort.Slice] may leave equal elements in any order, so it is a class:
    any sorted permutation. *)
From S2P Require Import Prelude Slot Types Hash GoStd Bitlist VoteRule Attestations Transition Chain Storage Ghost Leansig ForkChoice ForkInv.
Local Open Scope Z_scope.

(** "not after" for the comparison [key(l\[i\]) < key(l\[j\])]. *)
Definition by_key {A} (key : A -> Z) (a b : A) : Prop := key a <= key b.
#[export] Instance by_key_dec {A} (key : A -> Z) a b : Decision (by_key key a b).
Proof. unfold by_key; apply _. Defined.
#[export] Instance by_key_total {A} (key : A -> Z) : Total (by_key key).
Proof. intros a b. unfold by_key. lia. Qed.
#[export] Instance by_key_trans {A} (key : A -> Z) : Transitive (by_key key).
Proof. intros a b c. unfold by_key. lia. Qed.

(** sort.Slice(l, func(i, j int) bool { return key(l\[i\]) < key(l\[j\]) }) *)
Class SortSlice := {
  sort_slice : forall {A : Type}, (A -> Z) -> list A -> list A;
  sort_slice_perm : forall {A} (key : A -> Z) l, sort_slice key l ≡ₚ l;
  sort_slice_sorted : forall {A} (key : A -> Z) l, StronglySorted (by_key key) (sort_slice key l) }.

(** An admissible sort, used by the witnesses. *)
Definition merge_sort_slice : SortSlice.
Proof.
  exists (fun A (key : A -> Z) (l : list A) => merge_sort (by_key key) l).
  - intros. apply merge_sort_Permutation.
  - intros A key l. apply StronglySorted_merge_sort; apply _.
Defined.

Section Code.
Context {SS : SortSlice}.

Definition AggregateAttestations (attestations : list SignedAttestation) : outcome AggregatedAttestation :=
  if (length attestations =? 0)%nat then Err (Errorf "no attestations to aggregate" [])
  else
    let sorted := sort_slice sa_ValidatorID attestations in
    match sorted !! (length sorted - 1)%nat, sorted !! 0%nat with
    | Some lst, Some fst =>
        let maxID := sa_ValidatorID lst in
        bits ← MakeBitlist (u64 (maxID + 1));
        let bits := foldl (fun bits sa => SetBit bits (sa_ValidatorID sa) true) bits sorted in
        let aggSig := foldl (fun aggSig sa => aggSig ++ vec_to_list (sa_Signature sa)) [] sorted in
        Ok (mkAggregatedAttestation (sa_Message fst) bits aggSig)
    | _, _ => Panic "index out of range"
    end.

Definition DisaggregateAttestation (agg : AggregatedAttestation) : outcome (list Z * list signature) :=
  let numBits := BitlistLen (ag_AggregationBits agg) in
  let validatorIDs := for_range (Z.to_nat numBits)
    (fun i ids => if GetBit (ag_AggregationBits agg) (Z.of_nat i) then ids ++ [Z.of_nat i] else ids) [] in
  let expectedLen := (length validatorIDs * XMSSSignatureSize)%nat in
  let got := length (ag_AggregatedSignature agg) in
  if negb (got =? expectedLen)%nat
  then Err (Errorf "signature length mismatch: got %d, expected %d (%d validators × %d bytes)"
         [Num (Z.of_nat got); Num (Z.of_nat expectedLen); Num (Z.of_nat (length validatorIDs));
          Num (Z.of_nat XMSSSignatureSize)])
  else
    let sigs := map (fun i => vec_of XMSSSignatureSize
        (take XMSSSignatureSize (drop (i * XMSSSignatureSize) (ag_AggregatedSignature agg))))
      (seq 0 (length validatorIDs)) in
    Ok (validatorIDs, sigs).
End Code.

Section Processing.
Context {HW : HashWalker} {MR : MapRange} {FFI : LeansigFFI} {T : Type} {OPS : StorageOps T}.

(** VerifyAggregatedAttestation: the number of valid signatures. *)
Definition VerifyAggregatedAttestation (state : State) (agg : AggregatedAttestation) : outcome Z :=
  '(validatorIDs, sigs) ← map_err (Wrapf "disaggregate: %w" []) (DisaggregateAttestation agg);
  foldM (fun verified '(valID, sig) =>
    if u64 (Z.of_nat (length (st_Validators state))) <=? valID then Ok verified
    else
      match st_Validators state !! Z.to_nat valID with
      | None => Panic "index out of range"
      | Some v =>
          let '(messageRoot, err) := Attestation_HashTreeRoot (mkAttestation valID (ag_Data agg)) in
          match err with
          | Some e => Err (Wrapf "hash attestation: %w" [] e)
          | None =>
              match Verify (v_Pubkey v) (u32 (ad_Slot (ag_Data agg))) messageRoot (sig : signature) with
              | Ok _ => Ok (verified + 1)
              | Err _ => Ok verified
              | Panic w => Panic w
              | Diverges => Diverges
              end
          end
      end) 0 (zip validatorIDs sigs).

(** One validator of the aggregate in ProcessAggregatedAttestation; [inr] is the early return. *)
Definition process_aggregated_vote (headState : State) (data : AttestationData) (currentSlot : Z)
    (acc : gmap Z SignedAttestation + gmap Z SignedAttestation) (vs : Z * signature)
  : outcome (gmap Z SignedAttestation + gmap Z SignedAttestation) :=
  match acc with
  | inr m => Ok (inr m)
  | inl m =>
    let '(valID, sig) := vs in
    if u64 (Z.of_nat (length (st_Validators headState))) <=? valID then Ok (inl m)
    else
      match st_Validators headState !! Z.to_nat valID with
      | None => Panic "index out of range"
      | Some v =>
          let '(messageRoot, err) := Attestation_HashTreeRoot (mkAttestation valID data) in
          match err with
          | Some e => Ok (inr m)
          | None =>
              match Verify (v_Pubkey v) (u32 (ad_Slot data)) messageRoot sig with
              | Panic w => Panic w
              | Diverges => Diverges
              | Err _ => Ok (inl m)
              | Ok _ =>
                  if currentSlot <? ad_Slot data then Ok (inl m)
                  else Ok (inl (put_newer m valID (ad_Slot data) (mkSignedAttestation valID data sig)))
              end
          end
      end
  end.

Definition ProcessAggregatedAttestation (now : option Z) (c : Store T) (agg : AggregatedAttestation)
  : outcome (Store T) :=
  c ← catchUp now c;
  if negb (bool_decide (validateAttestationData c (ag_Data agg) = EmptyString)) then Ok c
  else
  match GetState (fc_storage c) (fc_head c) with
  | None => Ok c
  | Some headState =>
      match DisaggregateAttestation agg with
      | Panic w => Panic w
      | Diverges => Diverges
      | Err _ => Ok c
      | Ok (validatorIDs, sigs) =>
          let currentSlot := fc_time c / IntervalsPerSlot in
          acc ← foldM (process_aggregated_vote headState (ag_Data agg) currentSlot)
                  (inl (fc_latestNewAttestations c)) (zip validatorIDs sigs);
          Ok (set_votes c (fc_latestKnownAttestations c) (match acc with inl m => m | inr m => m end))
      end
  end.
End Processing.

(** * Aggregation and disaggregation *)

Section Roundtrip.
Context {SS : SortSlice}.

Definition ids_of (l : list SignedAttestation) : list Z := map sa_ValidatorID l.

(** The bits set for a list of validators. *)
Definition mark (bits : list bool) (ids : list Z) : list bool :=
  foldl (fun bits id => <[Z.to_nat id := true]> bits) bits ids.

Lemma length_mark bits ids : length (mark bits ids) = length bits.
Proof.
  unfold mark. revert bits. induction ids as [|id ids IH]; intros bits; cbn [foldl]; [done|].
  by rewrite IH, length_insert.
Qed.

Lemma mark_lookup bits ids i :
  (i < length bits)%nat ->
  mark bits ids !! i = Some true <-> bits !! i = Some true \/ exists id, id ∈ ids /\ Z.to_nat id = i.
Proof.
  unfold mark. revert bits. induction ids as [|id ids IH]; intros bits Hi; cbn [foldl].
  { split; [by left|]. intros [|(id & Hid & _)]; [done|]. by apply elem_of_nil in Hid. }
  rewrite IH by by rewrite length_insert. destruct (decide (Z.to_nat id = i)) as [<-|Hne].
  - rewrite list_lookup_insert_eq by done. split; [|by left]. intros _. right. exists id. split; [by left|done].
  - rewrite list_lookup_insert_ne by done. split.
    + intros [|(id' & Hid' & E)]; [by left|right; exists id'; split; [by right|done]].
    + intros [|(id' & [->|Hid']%elem_of_cons & E)]; [by left|done|right; by exists id'].
Qed.

Lemma SetBit_mark (l : list SignedAttestation) bits :
  Forall (fun sa => 0 <= sa_ValidatorID sa < Z.of_nat (length bits)) l ->
  foldl (fun bits sa => SetBit bits (sa_ValidatorID sa) true) (encode_bits bits) l
  = encode_bits (mark bits (ids_of l)).
Proof.
  unfold mark, ids_of. revert bits. induction l as [|sa l IH]; intros bits Hl; cbn [foldl map]; [done|].
  apply list.Forall_cons in Hl as [Hid Hl].
  rewrite <- (Z2Nat.id (sa_ValidatorID sa)) by lia. rewrite SetBit_encode by lia.
  rewrite IH, Z2Nat.id by (try rewrite length_insert; (done || lia)). done.
Qed.

(** The indices read back from a bitlist. *)
Definition set_indices (bits : list bool) : list nat := filter (fun i => bits !! i = Some true) (seq 0 (length bits)).

Lemma disaggregate_indices (bits : list bool) :
  for_range (Z.to_nat (BitlistLen (encode_bits bits)))
    (fun i ids => if GetBit (encode_bits bits) (Z.of_nat i) then ids ++ [Z.of_nat i] else ids) []
  = map Z.of_nat (set_indices bits).
Proof.
  rewrite BitlistLen_encode, Nat2Z.id. unfold set_indices.
  apply (for_range_ind (fun k ids => ids = map Z.of_nat (filter (fun i => bits !! i = Some true) (seq 0 k)))); [done|].
  intros i ids Hi ->. rewrite seq_S, list.filter_app, map_app. cbn [plus].
  destruct (lookup_lt_is_Some_2 bits i Hi) as [b Hb]. rewrite (GetBit_encode_lt _ _ _ Hb).
  rewrite filter_cons, filter_nil. destruct b; [by rewrite decide_True|].
  rewrite decide_False by congruence. by rewrite app_nil_r.
Qed.

Lemma elem_of_set_indices bits i : i ∈ set_indices bits <-> bits !! i = Some true.
Proof.
  unfold set_indices. rewrite list_elem_of_filter, elem_of_seq. split; [tauto|]. intros H. split; [done|].
  apply lookup_lt_Some in H. lia.
Qed.

Lemma set_indices_sorted bits : StronglySorted (fun a b => a <= b) (map Z.of_nat (set_indices bits)).
Proof.
  unfold set_indices. generalize 0%nat. induction (length bits) as [|n IH]; intros s; cbn [seq]; [constructor|].
  rewrite filter_cons. case_decide; [|apply IH]. cbn [map]. constructor; [apply IH|].
  apply List.Forall_map, list.Forall_forall. intros x Hx.
  apply list_elem_of_filter in Hx as [_ Hx]. apply elem_of_seq in Hx. lia.
Qed.

Lemma set_indices_NoDup bits : NoDup (map Z.of_nat (set_indices bits)).
Proof. apply (NoDup_fmap_2 Z.of_nat). apply list.NoDup_filter, NoDup_seq. Qed.

Lemma sorted_ids (l : list SignedAttestation) :
  StronglySorted (by_key sa_ValidatorID) l -> StronglySorted (fun a b : Z => a <= b) (ids_of l).
Proof.
  induction 1 as [|sa l Hs IH Hl]; cbn [ids_of map]; [constructor|]. constructor; [done|].
  by apply List.Forall_map.
Qed.

(** The marked validators, read back in order, are the distinct validators in order. *)
Lemma mark_indices n (ids : list Z) :
  Forall (fun id => 0 <= id < Z.of_nat n) ids ->
  forall z, z ∈ map Z.of_nat (set_indices (mark (replicate n false) ids)) <-> z ∈ ids.
Proof.
  intros Hids z. change (map Z.of_nat ?x) with (Z.of_nat <$> x). rewrite list_elem_of_fmap. split.
  - intros (i & -> & Hi). rewrite elem_of_set_indices in Hi.
    pose proof (lookup_lt_Some _ _ _ Hi) as Hlt. rewrite length_mark in Hlt.
    apply mark_lookup in Hi as [Hi|(id & Hid & <-)]; [by apply lookup_replicate in Hi as [? _]| |done].
    rewrite list.Forall_forall in Hids. specialize (Hids id Hid). by rewrite Z2Nat.id by lia.
  - intros Hz. rewrite list.Forall_forall in Hids. pose proof (Hids z Hz). exists (Z.to_nat z).
    rewrite elem_of_set_indices. split; [lia|]. apply mark_lookup; [rewrite length_replicate; lia|].
    right. by exists z.
Qed.

Lemma mark_sorted n ids :
  Forall (fun id => 0 <= id < Z.of_nat n) ids -> NoDup ids -> StronglySorted (fun a b : Z => a <= b) ids ->
  map Z.of_nat (set_indices (mark (replicate n false) ids)) = ids.
Proof.
  intros Hr Hnd Hs. apply (StronglySorted_unique (fun a b : Z => a <= b)); [apply set_indices_sorted|done|].
  apply NoDup_Permutation; [apply set_indices_NoDup|done|]. by apply mark_indices.
Qed.

Lemma mark_duplicates n ids :
  Forall (fun id => 0 <= id < Z.of_nat n) ids -> ~ NoDup ids ->
  (length (map Z.of_nat (set_indices (mark (replicate n false) ids))) < length ids)%nat.
Proof.
  intros Hr Hnd. set (m := map Z.of_nat _).
  assert (Hsub : m ⊆+ ids).
  { apply NoDup_submseteq; [apply set_indices_NoDup|]. intros z Hz. by apply (mark_indices n ids Hr). }
  pose proof (submseteq_length _ _ Hsub) as Hle.
  destruct (decide (length m = length ids)) as [E|]; [|lia]. destruct Hnd.
  assert (Hp : m ≡ₚ ids) by (apply submseteq_length_Permutation; [done|lia]).
  rewrite <- Hp. apply set_indices_NoDup.
Qed.

(** ** Concatenated signatures *)

Lemma concat_signatures (l : list SignedAttestation) acc :
  foldl (fun aggSig sa => aggSig ++ vec_to_list (sa_Signature sa)) acc l
  = acc ++ concat (map (fun sa => vec_to_list (sa_Signature sa)) l).
Proof.
  revert acc. induction l as [|sa l IH]; intros acc; cbn [foldl map concat]; [by rewrite app_nil_r|].
  by rewrite IH, app_assoc.
Qed.

Lemma length_concat_signatures (l : list SignedAttestation) :
  length (concat (map (fun sa => vec_to_list (sa_Signature sa)) l)) = (length l * XMSSSignatureSize)%nat.
Proof.
  induction l as [|sa l IH]; [done|]. cbn [map concat length]. rewrite length_app, IH, length_vec_to_list. lia.
Qed.

Lemma chunk_signatures (l : list SignedAttestation) :
  map (fun i => vec_of XMSSSignatureSize (take XMSSSignatureSize
         (drop (i * XMSSSignatureSize) (concat (map (fun sa => vec_to_list (sa_Signature sa)) l)))))
    (seq 0 (length l)) = map sa_Signature l.
Proof.
  induction l as [|sa l IH]; [done|]. cbn [length seq map concat]. f_equal.
  - rewrite Nat.mul_0_l, drop_0, take_app_length' by by rewrite length_vec_to_list. apply vec_of_to_list.
  - rewrite <- IH, <- seq_shift, map_map. apply map_ext. intros i. do 2 f_equal.
    rewrite Nat.mul_succ_l, Nat.add_comm, <- drop_drop. f_equal.
    apply drop_app_length'. by rewrite length_vec_to_list.
Qed.

Lemma sorted_last (l : list SignedAttestation) lst :
  StronglySorted (by_key sa_ValidatorID) l -> l !! (length l - 1)%nat = Some lst ->
  forall sa, sa ∈ l -> sa_ValidatorID sa <= sa_ValidatorID lst.
Proof.
  intros Hs. induction Hs as [|x l Hs IH Hx]; intros Hl sa Hsa; [by apply elem_of_nil in Hsa|].
  rewrite list.Forall_forall in Hx. cbn [length] in Hl. rewrite Nat.sub_succ, Nat.sub_0_r in Hl.
  destruct l as [|y l].
  - cbn in Hl. injection Hl as <-. apply elem_of_cons in Hsa as [->|Hsa]; [lia|by apply elem_of_nil in Hsa].
  - cbn [length] in Hl, IH. rewrite Nat.sub_succ, Nat.sub_0_r in IH. cbn [lookup list_lookup] in Hl.
    apply elem_of_cons in Hsa as [->|Hsa]; [|by apply IH].
    apply (Hx lst). by eapply list_elem_of_lookup_2.
Qed.

Lemma aggregate_run (atts : list SignedAttestation) :
  atts <> [] -> Forall (fun sa => 0 <= sa_ValidatorID sa < 2 ^ 64 - 9) atts ->
  let sorted := sort_slice sa_ValidatorID atts in
  exists n fst, sorted !! 0%nat = Some fst /\
    Forall (fun id => 0 <= id < Z.of_nat n) (ids_of sorted) /\
    AggregateAttestations atts = Ok (mkAggregatedAttestation (sa_Message fst)
      (encode_bits (mark (replicate n false) (ids_of sorted)))
      (concat (map (fun sa => vec_to_list (sa_Signature sa)) sorted))).
Proof.
  intros Hne Hr sorted. unfold AggregateAttestations.
  assert (Hlen : length sorted = length atts) by (unfold sorted; by rewrite sort_slice_perm).
  assert (Hpos : (0 < length atts)%nat) by (destruct atts; [done|simpl; lia]).
  rewrite (proj2 (Nat.eqb_neq _ _)) by lia. cbv zeta. fold sorted.
  destruct (lookup_lt_is_Some_2 sorted (length sorted - 1)) as [lst Hlst]; [lia|].
  destruct (lookup_lt_is_Some_2 sorted 0) as [fst Hfst]; [lia|]. rewrite Hlst, Hfst.
  assert (Hrs : Forall (fun sa => 0 <= sa_ValidatorID sa < 2 ^ 64 - 9) sorted)
    by (unfold sorted; by rewrite sort_slice_perm).
  rewrite list.Forall_forall in Hrs. pose proof (Hrs lst ltac:(by eapply list_elem_of_lookup_2)) as Hl.
  rewrite u64_small by (unfold is_u64; lia). rewrite MakeBitlist_encode by lia. cbn [mbind outcome_bind].
  exists (Z.to_nat (sa_ValidatorID lst + 1)), fst. split; [done|].
  assert (Hbound : Forall (fun sa => 0 <= sa_ValidatorID sa < Z.of_nat (Z.to_nat (sa_ValidatorID lst + 1))) sorted).
  { apply list.Forall_forall. intros sa Hsa. pose proof (Hrs sa Hsa).
    pose proof (sorted_last sorted lst (sort_slice_sorted _ _) Hlst sa Hsa). lia. }
  split; [by apply List.Forall_map|].
  rewrite SetBit_mark by by rewrite length_replicate. by rewrite concat_signatures.
Qed.

Lemma disaggregate_run data bits (sorted : list SignedAttestation) :
  let ids := map Z.of_nat (set_indices bits) in
  DisaggregateAttestation (mkAggregatedAttestation data (encode_bits bits)
    (concat (map (fun sa => vec_to_list (sa_Signature sa)) sorted)))
  = if decide (length ids = length sorted)
    then Ok (ids, map sa_Signature sorted)
    else Err (Errorf "signature length mismatch: got %d, expected %d (%d validators × %d bytes)"
         [Num (Z.of_nat (length sorted * XMSSSignatureSize)); Num (Z.of_nat (length ids * XMSSSignatureSize));
          Num (Z.of_nat (length ids)); Num (Z.of_nat XMSSSignatureSize)]).
Proof.
  intros ids. unfold DisaggregateAttestation. cbv zeta. cbn [ag_AggregationBits ag_AggregatedSignature].
  rewrite disaggregate_indices. fold ids. rewrite length_concat_signatures.
  assert (0 < XMSSSignatureSize)%nat by (unfold XMSSSignatureSize; lia).
  destruct (decide (length ids = length sorted)) as [->|Hne].
  - rewrite Nat.eqb_refl. cbn [negb]. by rewrite chunk_signatures.
  - rewrite (proj2 (Nat.eqb_neq _ _)); [done|]. intros E. apply Hne. nia.
Qed.
End Roundtrip.

(** * The invariant of the fork choice store *)

Section Invariant.
Context {HW : HashWalker} {MR : MapRange} {FFI : LeansigFFI} {T : Type} `{SL : StorageLaws T}.
Context (shouldVerify : bool) (vs : list Validator).

Lemma disaggregate_total agg :
  total (DisaggregateAttestation agg) (fun res => Forall (fun id => 0 <= id) res.1) (fun _ => True).
Proof.
  unfold DisaggregateAttestation. cbv zeta. set (ids := for_range _ _ _).
  destruct (negb _); [done|]. cbn [total fst]. unfold ids.
  apply (for_range_ind (fun _ ids => Forall (fun id => 0 <= id) ids)); [constructor|].
  intros i l _ Hl. case_match; [|done]. apply list.Forall_app. split; [done|]. constructor; [lia|constructor].
Qed.

Lemma Verify_verdict pk e m sig :
  total (Verify pk e m sig) (fun u => Verify pk e m sig = Ok tt) (fun _ => True).
Proof.
  unfold Verify, fail_if. destruct (_ || _); [done|]. cbv zeta. repeat case_match; done.
Qed.

Lemma aggregated_vote_run c hs data cur acc (x : Z * signature) :
  ForkInv.wf_fc shouldVerify vs c -> st_Validators hs = vs -> Z.of_nat (length vs) < 2 ^ 62 -> wf_AttestationData data ->
  valid_data c data -> 0 <= x.1 ->
  (match acc with inl m | inr m => wf_votes shouldVerify vs (fc_storage c) m end) ->
  exists acc', process_aggregated_vote hs data cur acc x = Ok acc' /\
    match acc' with inl m | inr m => wf_votes shouldVerify vs (fc_storage c) m end.
Proof.
  intros Hc Hv Hn Hd (sb & tb & hb & H1 & H2 & H3 & _) H0 Hacc.
  destruct acc as [m|m]; [|by exists (inr m)]. destruct x as [id sig]. cbn [fst] in H0.
  unfold process_aggregated_vote. rewrite Hv, u64_small by (unfold is_u64; lia).
  destruct (Z.leb_spec (Z.of_nat (length vs)) id); [by exists (inl m)|].
  destruct (lookup_lt_is_Some_2 vs (Z.to_nat id)) as [val Hval]; [lia|]. rewrite Hval.
  destruct (Attestation_HashTreeRoot (mkAttestation id data)) as [r [e|]] eqn:Er; [by exists (inr m)|].
  pose proof (Verify_verdict (v_Pubkey val) (u32 (ad_Slot data)) r sig) as Hver.
  destruct (Verify (v_Pubkey val) (u32 (ad_Slot data)) r sig) as [[]|e|w|] eqn:Ev; cbn [total] in Hver; try done.
  2: by exists (inl m).
  destruct (cur <? ad_Slot data); [by exists (inl m)|]. eexists. split; [reflexivity|].
  apply (put_newer_wf shouldVerify vs (fc_storage c) m (mkSignedAttestation id data sig)); try done;
    [split; [unfold is_u64; cbn; lia|done]| |by exists sb|by exists tb|by exists hb].
  intros _. apply (signed_by vs _ hs Hv). unfold verifyAttestationSignatureWithState.
  cbn [sa_ValidatorID sa_Message sa_Signature att_ValidatorID att_Data].
  rewrite Hv, u64_small by (unfold is_u64; lia). rewrite (proj2 (Z.leb_gt _ _)) by lia.
  by rewrite Hval, Er, Ev.
Qed.

Lemma aggregated_votes_run c hs data cur l acc :
  ForkInv.wf_fc shouldVerify vs c -> st_Validators hs = vs -> Z.of_nat (length vs) < 2 ^ 62 -> wf_AttestationData data ->
  valid_data c data -> Forall (fun x : Z * signature => 0 <= x.1) l ->
  (match acc with inl m | inr m => wf_votes shouldVerify vs (fc_storage c) m end) ->
  exists acc', foldM (process_aggregated_vote hs data cur) acc l = Ok acc' /\
    match acc' with inl m | inr m => wf_votes shouldVerify vs (fc_storage c) m end.
Proof.
  intros Hc Hv Hn Hd Hval Hl. revert acc. induction Hl as [|x l Hx Hl IH]; intros acc Hacc; cbn [foldM].
  - by exists acc.
  - destruct (aggregated_vote_run c hs data cur acc x) as (acc1 & -> & Hacc1); try done.
    cbn [mbind outcome_bind]. by apply IH.
Qed.

(** Aggregated votes are always verified, whatever the build tag. *)
Lemma ProcessAggregated_run now c agg :
  ForkInv.wf_fc shouldVerify vs c -> registry_ok vs -> wf_AttestationData (ag_Data agg) ->
  (forall t, now = Some t -> is_u64 t) ->
  exists c', ProcessAggregatedAttestation now c agg = Ok c' /\ ForkInv.wf_fc shouldVerify vs c' /\ same_chain c c'.
Proof.
  intros Hc [Hr0 Hr1] Hd Hnow. unfold ProcessAggregatedAttestation.
  destruct (catchUp_wf shouldVerify vs now c Hc Hnow) as (c1 & -> & Hc1 & Hsame). cbn [mbind outcome_bind].
  case_bool_decide as Hv; cbn [negb]; [|by exists c1].
  apply (validate_spec shouldVerify vs) in Hv; [|apply Hc1].
  destruct (GetState (fc_storage c1) (fc_head c1)) as [hs|] eqn:Ehs; [|by exists c1].
  destruct (ss_post _ _ (fi_storage _ _ _ Hc1) _ _ Ehs) as (_ & Hreg & _).
  pose proof (disaggregate_total agg) as Hdis.
  destruct (DisaggregateAttestation agg) as [[ids sigs]|e|w|]; cbn [total fst] in Hdis; try done; [|by exists c1].
  destruct (aggregated_votes_run c1 hs (ag_Data agg) (fc_time c1 / IntervalsPerSlot) (zip ids sigs)
              (inl (fc_latestNewAttestations c1))) as (acc & -> & Hacc); try done.
  - clear -Hdis. revert sigs. induction Hdis as [|id ids Hid Hids IH]; intros [|s sigs]; cbn; constructor; auto.
  - apply Hc1.
  - cbn [mbind outcome_bind]. eexists. split; [reflexivity|]. split; [|exact Hsame].
    apply set_votes_wf; [done|apply Hc1|]. by destruct acc.
Qed.
End Invariant.

Section Properties.
Context {SS : SortSlice}.

(** C35: aggregation is lossless: for distinct validators, splitting the aggregate gives back
    exactly the validators in ascending order, each with its own signature, and the data is
    that of the first of them. *)
Theorem aggregate_roundtrip (atts : list SignedAttestation) :
  atts <> [] -> NoDup (ids_of atts) -> Forall (fun sa => 0 <= sa_ValidatorID sa < 2 ^ 64 - 9) atts ->
  exists agg sorted, AggregateAttestations atts = Ok agg /\ sorted ≡ₚ atts /\
    StronglySorted (by_key sa_ValidatorID) sorted /\
    DisaggregateAttestation agg = Ok (map sa_ValidatorID sorted, map sa_Signature sorted) /\
    option_map sa_Message (sorted !! 0%nat) = Some (ag_Data agg).
Proof.
  intros Hne Hnd Hr. destruct (aggregate_run atts Hne Hr) as (n & fst & Hfst & Hids & E).
  set (sorted := sort_slice sa_ValidatorID atts) in *.
  assert (Hp : sorted ≡ₚ atts) by apply sort_slice_perm.
  eexists _, sorted. split; [exact E|]. split; [done|]. split; [apply sort_slice_sorted|].
  split; [|by rewrite Hfst].
  assert (Hnds : NoDup (ids_of sorted)).
  { unfold ids_of in *. change (map sa_ValidatorID sorted) with (sa_ValidatorID <$> sorted). by rewrite Hp. }
  rewrite disaggregate_run, mark_sorted by (done || apply sorted_ids, sort_slice_sorted).
  unfold ids_of. by rewrite length_map, decide_True.
Qed.

(** An aggregate of attestations in which a validator occurs twice cannot be split again:
    the bitlist counts the validator once, the signatures twice, and DisaggregateAttestation
    reports the mismatch. *)
Theorem aggregate_duplicates (atts : list SignedAttestation) :
  ~ NoDup (ids_of atts) -> Forall (fun sa => 0 <= sa_ValidatorID sa < 2 ^ 64 - 9) atts ->
  exists agg e, AggregateAttestations atts = Ok agg /\ DisaggregateAttestation agg = Err e.
Proof.
  intros Hnd Hr. assert (Hne : atts <> []) by (intros ->; apply Hnd; constructor).
  destruct (aggregate_run atts Hne Hr) as (n & fst & Hfst & Hids & E).
  set (sorted := sort_slice sa_ValidatorID atts) in *.
  assert (Hp : sorted ≡ₚ atts) by apply sort_slice_perm.
  assert (Hnds : ~ NoDup (ids_of sorted)).
  { unfold ids_of in *. change (map sa_ValidatorID sorted) with (sa_ValidatorID <$> sorted). by rewrite Hp. }
  pose proof (mark_duplicates n _ Hids Hnds) as Hlt. 
  assert (Hli : length (ids_of sorted) = length sorted) by (unfold ids_of; by rewrite length_map).
  eexists _, _. split; [exact E|]. rewrite disaggregate_run. rewrite decide_False by lia. reflexivity.
Qed.
End Properties.

(** ** Witnesses *)

#[local] Existing Instance merge_sort_slice.

(** Signatures that differ from validator to validator. *)
Definition ex_signed (v : Z) : SignedAttestation :=
  mkSignedAttestation v (att_Data (ex_vote v 0 1)) (vec_of _ (replicate 3112 (Z_byte v))).

Lemma aggregate_roundtrip_witness :
  exists agg sorted, AggregateAttestations [ex_signed 5; ex_signed 2] = Ok agg /\
    sorted ≡ₚ [ex_signed 5; ex_signed 2] /\ StronglySorted (by_key sa_ValidatorID) sorted /\
    DisaggregateAttestation agg = Ok (map sa_ValidatorID sorted, map sa_Signature sorted) /\
    option_map sa_Message (sorted !! 0%nat) = Some (ag_Data agg).
Proof.
  apply (aggregate_roundtrip [ex_signed 5; ex_signed 2]).
  - discriminate.
  - apply (bool_decide_unpack (NoDup [5; 2])). vm_compute. exact I.
  - repeat constructor; discriminate.
Defined.

Lemma aggregate_duplicates_witness :
  exists agg e, AggregateAttestations [ex_signed 5; ex_signed 5] = Ok agg /\
    DisaggregateAttestation agg = Err e.
Proof.
  apply (aggregate_duplicates [ex_signed 5; ex_signed 5]).
  - intros H. apply list.NoDup_cons in H as [H _]. apply H. left.
  - repeat constructor; discriminate.
Defined.
