(* ===== verification/ForkProps.v ===== *)
(** The fork choice as a state machine, and its properties.

    [fc_step] has one constructor per exported operation, with the inputs the rest of the
    program can pass; [fc_reach] is the stores reached from the genesis store.  Every
    interleaving of calls is a sequence of steps, because each call holds the mutex. *)
From S2P Require Import Prelude Slot Types Hash Concrete GoStd Bitlist VoteRule Attestations Transition Chain Storage Ghost Leansig ForkChoice ForkInv ForkProduce Aggregation.
Local Open Scope Z_scope.

Section Machine.
Context {HW : HashWalker} {MR : MapRange} {FFI : LeansigFFI} {T : Type} `{SL : StorageLaws T}.
Context (shouldVerify : bool) (vs : list Validator).
#[local] Abbreviation wf_fc := (wf_fc shouldVerify vs).

(** A clock reading. *)
Definition reading (now : option Z) : Prop := forall t, now = Some t -> is_u64 t.

(** A block whose slot is within the bit positions of the votes and whose root is defined. *)
Definition admissible_block (b : Block) : Prop :=
  b_Slot b * Z.of_nat (length vs) < 2 ^ 64 - 16 /\ (Block_HashTreeRoot b).1 <> ZeroHash.

(** What the hash function owes a block that a validator proposes: a root that is not zero, and that
    no other stored block has. *)
Definition no_collision (c : Store T) (b : Block) : Prop :=
  (Block_HashTreeRoot b).1 <> ZeroHash /\
  forall b', GetBlock (fc_storage c) (Block_HashTreeRoot b).1 = Some b' -> b' = b.

Inductive fc_step (c : Store T) : Store T -> Prop :=
| step_AdvanceTime time p c' :
    is_u64 time -> AdvanceTime c time p = Ok c' -> fc_step c c'
| step_TickInterval p c' :
    fc_time c + 1 < 2 ^ 64 -> TickInterval c p = Ok c' -> fc_step c c'
| step_AcceptNewAttestations c' : AcceptNewAttestations c = Ok c' -> fc_step c c'
| step_UpdateSafeTarget c' : UpdateSafeTarget c = Ok c' -> fc_step c c'
| step_GetProposalHead slot c' h : GetProposalHead c slot = Ok (c', h) -> fc_step c c'
| step_ProcessAttestation now sa c' :
    reading now -> wf_SignedAttestation sa ->
    ProcessAttestation shouldVerify now c sa = Ok c' -> fc_step c c'
| step_ProcessAggregatedAttestation now agg c' :
    reading now -> wf_AttestationData (ag_Data agg) ->
    ProcessAggregatedAttestation now c agg = Ok c' -> fc_step c c'
| step_ProcessBlock now env c' res :
    reading now -> wf_envelope env -> admissible_block (ba_Block (sb_Message env)) ->
    ProcessBlock shouldVerify now c env = Ok (c', res) -> fc_step c c'
| step_ProduceAttestation slot v Sign c' res :
    is_u64 slot -> is_u64 v -> total_signer Sign ->
    ProduceAttestation c slot v Sign = Ok (c', res) -> fc_step c c'
| step_ProduceBlock slot v Sign c' res :
    is_u64 slot -> is_u64 v -> total_signer Sign -> slot * Z.of_nat (length vs) < 2 ^ 64 - 16 ->
    (forall env, res = inr env -> no_collision c (ba_Block (sb_Message env))) ->
    ProduceBlock c slot v Sign = Ok (c', res) -> fc_step c c'.

(** Nothing is forgotten and no checkpoint goes back. *)
Record grows (c c' : Store T) : Prop := {
  gr_blocks : forall r b, GetBlock (fc_storage c) r = Some b -> GetBlock (fc_storage c') r = Some b;
  gr_states : forall r s, GetState (fc_storage c) r = Some s -> GetState (fc_storage c') r = Some s;
  gr_justified : cp_Slot (fc_latestJustified c) <= cp_Slot (fc_latestJustified c');
  gr_finalized : cp_Slot (fc_latestFinalized c) <= cp_Slot (fc_latestFinalized c') }.

Lemma grows_refl c : grows c c.
Proof. constructor; try done; lia. Qed.
Lemma grows_trans c1 c2 c3 : grows c1 c2 -> grows c2 c3 -> grows c1 c3.
Proof. intros [] []. constructor; eauto; lia. Qed.
#[local] Instance grows_preorder : PreOrder grows.
Proof. split; [exact grows_refl|exact grows_trans]. Qed.

Lemma same_chain_grows c c' : same_chain c c' -> grows c c'.
Proof. intros (Hs & _ & Hj & Hf & _). constructor; rewrite ?Hs, ?Hj, ?Hf; try done; lia. Qed.

Lemma raise_ge old new : cp_Slot old <= cp_Slot (raise old new).
Proof. unfold raise. destruct (Z.ltb_spec (cp_Slot old) (cp_Slot new)); lia. Qed.

Lemma store_all_grows (t : T) r b sb s :
  GetBlock t r = None -> GetState t r = None ->
  (forall x y, GetBlock t x = Some y -> GetBlock (store_all t r b sb s) x = Some y) /\
  (forall x y, GetState t x = Some y -> GetState (store_all t r b sb s) x = Some y).
Proof.
  intros Hb Hs. split; intros x y Hx; rewrite ?GetBlock_store_all, ?GetState_store_all; case_decide; congruence.
Qed.

Lemma fresh_state t r : wf_storage vs t -> GetBlock t r = None -> GetState t r = None.
Proof.
  intros Ht Hb. destruct (GetState t r) as [s|] eqn:E; [|done].
  destruct (ss_post _ _ Ht _ _ E) as (_ & _ & (b & Hb' & _) & _). congruence.
Qed.

Lemma imported_grows c env state c' :
  wf_fc c -> ~ known (fc_storage c) (Block_HashTreeRoot (ba_Block (sb_Message env))).1 ->
  imported shouldVerify vs c env state c' -> grows c c'.
Proof.
  intros Hc Hk [Hs Hj Hf _ _ _].
  assert (Hfr : GetBlock (fc_storage c) (Block_HashTreeRoot (ba_Block (sb_Message env))).1 = None).
  { destruct (GetBlock _ _) eqn:E; [|done]. destruct Hk. by eexists. }
  destruct (store_all_grows (fc_storage c) _ (ba_Block (sb_Message env)) env state Hfr
              (fresh_state _ _ (fi_storage _ _ _ Hc) Hfr)) as [H1 H2].
  constructor; rewrite ?Hs, ?Hj, ?Hf; [done|done|apply raise_ge|apply raise_ge].
Qed.

(** ** The operations on a well-formed store *)

Lemma ProcessAttestation_op now c sa :
  wf_fc c -> Z.of_nat (length vs) < 2 ^ 62 -> reading now -> wf_SignedAttestation sa ->
  exists c', ProcessAttestation shouldVerify now c sa = Ok c' /\ wf_fc c' /\ same_chain c c'.
Proof.
  intros Hc Hn Hnow Hsa. unfold ProcessAttestation.
  destruct (catchUp_wf _ _ now c Hc Hnow) as (c1 & -> & Hc1 & Hs). cbn [mbind outcome_bind].
  destruct (processAttestation_run shouldVerify vs c1 sa false) as (k & n & -> & Hk & Hnn);
    [apply Hc1|done|done|done|].
  eexists. split; [done|]. split; [by apply set_votes_wf|exact Hs].
Qed.

Lemma ProduceAttestation_op c slot v Sign :
  wf_fc c -> is_u64 slot -> is_u64 v -> total_signer Sign ->
  exists c' res, ProduceAttestation c slot v Sign = Ok (c', res) /\ wf_fc c' /\ same_chain c c'.
Proof.
  intros Hc Hslot Hv HS. destruct (prepared_wf _ _ c slot Hc) as (c1 & Ep & Hc1 & Hs).
  unfold ProduceAttestation. rewrite <- bind_assoc. fold (prepared c slot). rewrite Ep. cbn [mbind outcome_bind].
  destruct (GetBlock (fc_storage c1) (fc_head c1)) as [hb|]; [|by eexists _, _].
  pose proof (vote_target_total _ _ c1 Hc1) as Ht.
  destruct (getVoteTargetLocked c1) as [tgt|e|w|]; cbn [total map_err catch] in *; try done; [|by eexists _, _].
  destruct (Attestation_HashTreeRoot _) as [m [e|]]; [by eexists _, _|].
  pose proof (HS (u32 slot) m) as Hsig. cbn [ad_Slot].
  destruct (Sign (u32 slot) m); cbn [total map_err catch] in *; try done; by eexists _, _.
Qed.

Lemma GetProposalHead_op c slot :
  wf_fc c -> exists c' h, GetProposalHead c slot = Ok (c', h) /\ wf_fc c' /\ same_chain c c'.
Proof.
  intros Hc. destruct (prepared_wf _ _ c slot Hc) as (c1 & Ep & Hc1 & Hs).
  unfold GetProposalHead. rewrite <- bind_assoc. fold (prepared c slot). rewrite Ep. cbn [mbind outcome_bind].
  by eexists _, _.
Qed.

(** What a produced block adds. *)
Lemma produced_wf c1 slot v Sign env hs state :
  wf_fc c1 -> registry_ok vs -> is_u64 slot -> is_u64 v -> slot * Z.of_nat (length vs) < 2 ^ 64 - 16 ->
  produced c1 slot v Sign env hs state ->
  (Block_HashTreeRoot (ba_Block (sb_Message env))).1 <> ZeroHash ->
  GetBlock (fc_storage c1) (Block_HashTreeRoot (ba_Block (sb_Message env))).1 = None ->
  let c' := set_storage c1 (store_all (fc_storage c1) (Block_HashTreeRoot (ba_Block (sb_Message env))).1
              (ba_Block (sb_Message env)) env state) in
  wf_fc c' /\ grows c1 c'.
Proof.
  intros Hc1 Hreg Hslot Hv Hroom Hp Hz Hfr c'.
  pose proof (produced_envelope_wf _ _ _ _ _ _ _ _ _ Hc1 Hslot Hv Hp) as [Hb _].
  assert (Hne : new_entry vs (fc_storage c1) (Block_HashTreeRoot (ba_Block (sb_Message env))).1
                  (ba_Block (sb_Message env)) state).
  { apply (child_new_entry _ _ hs); try done; [apply Hc1| | |apply Hp].
    - rewrite (pr_parent _ _ _ _ _ _ _ Hp). apply Hp.
    - by rewrite (pr_slot _ _ _ _ _ _ _ Hp). }
  split; [by apply add_block_wf|].
  destruct (store_all_grows (fc_storage c1) _ (ba_Block (sb_Message env)) env state Hfr
              (fresh_state _ _ (fi_storage _ _ _ Hc1) Hfr)) as [H1 H2].
  constructor; try done; cbn; lia.
Qed.

(** A produced block is not stored yet: its parent has no child. *)
Lemma produced_new c slot v Sign c1 env hs state :
  wf_fc c -> prepared c slot = Ok c1 -> produced c1 slot v Sign env hs state ->
  no_collision c1 (ba_Block (sb_Message env)) ->
  GetBlock (fc_storage c1) (Block_HashTreeRoot (ba_Block (sb_Message env))).1 = None.
Proof.
  intros Hc Ep Hp [_ Hcf]. destruct (GetBlock _ _) as [b|] eqn:Hb; [|done]. pose proof (Hcf b eq_refl) as ->.
  exfalso. eapply (prepared_childless shouldVerify vs c slot c1 Hc Ep); [exact Hb|apply Hp].
Qed.

(** ** One step *)

Lemma step_wf c c' : registry_ok vs -> wf_fc c -> fc_step c c' -> wf_fc c' /\ grows c c'.
Proof.
  intros Hreg Hc Hstep. pose proof Hreg as [Hr0 Hr1].
  destruct Hstep as [time p c' Ht E|p c' Ht E|c' E|c' E|slot c' h E|now sa c' Hn Hsa E|now agg c' Hn Hd E
    |now env c' res Hn Henv [Hroom Hz] E|slot v Sign c' res Hs Hv HS E|slot v Sign c' res Hs Hv HS Hroom Hfresh E].
  - destruct (advanceTime_wf _ _ c time p Hc Ht) as (c1 & E1 & Hw & Hsm & _).
    unfold AdvanceTime in E. simplify_eq/=. rewrite E1 in E. injection E as <-. split; [done|by apply same_chain_grows].
  - destruct (tick_wf _ _ c p Hc Ht) as (c1 & E1 & Hw & _ & Hsm).
    unfold TickInterval in E. rewrite E1 in E. injection E as <-. split; [done|by apply same_chain_grows].
  - destruct (accept_wf _ _ c Hc) as (h & E1 & Hw). unfold AcceptNewAttestations in E.
    rewrite E1 in E. injection E as <-. split; [done|by apply same_chain_grows].
  - destruct (updateSafeTarget_wf _ _ c Hc) as (h & E1 & Hw). unfold UpdateSafeTarget in E.
    rewrite E1 in E. injection E as <-. split; [done|by apply same_chain_grows].
  - destruct (GetProposalHead_op c slot Hc) as (c1 & h1 & E1 & Hw & Hsm).
    rewrite E1 in E. injection E as <- <-. split; [done|by apply same_chain_grows].
  - destruct (ProcessAttestation_op now c sa Hc Hr1 Hn Hsa) as (c1 & E1 & Hw & Hsm).
    rewrite E1 in E. injection E as <-. split; [done|by apply same_chain_grows].
  - destruct (ProcessAggregated_run shouldVerify vs now c agg Hc Hreg Hd Hn) as (c1 & E1 & Hw & Hsm).
    rewrite E1 in E. injection E as <-. split; [done|by apply same_chain_grows].
  - destruct (ProcessBlock_run shouldVerify vs now c env Hc Henv Hreg Hn Hroom Hz)
      as (c1 & c2 & res' & Ec & Hsm & E1 & Hw & Hfate).
    rewrite E1 in E. injection E as <- <-. split; [done|].
    destruct (catchUp_wf _ _ now c Hc Hn) as (c1' & Ec' & Hw1 & _). rewrite Ec in Ec'. injection Ec' as <-.
    etrans; [by apply same_chain_grows|]. destruct Hfate as [| |ps state c2 Hk _ _ _ _ Him]; [done|done|].
    by eapply imported_grows.
  - destruct (ProduceAttestation_op c slot v Sign Hc Hs Hv HS) as (c1 & r1 & E1 & Hw & Hsm).
    rewrite E1 in E. injection E as <- <-. split; [done|by apply same_chain_grows].
  - destruct (ProduceBlock_run shouldVerify vs c slot v Sign Hc Hreg Hs Hv HS Hroom)
      as (c1 & c2 & res' & Ep & Hw1 & Hsm & E1 & Hres).
    rewrite E1 in E. injection E as <- <-. destruct res' as [e|env].
    + destruct Hres as [->| ->]; [done|]. split; [done|by apply same_chain_grows].
    + destruct Hres as (hs & state & Hp & ->). assert (Hcf : no_collision c1 (ba_Block (sb_Message env)))
        by (unfold no_collision; rewrite (proj1 Hsm); by apply Hfresh).
      pose proof (produced_new _ _ _ _ _ _ _ _ Hc Ep Hp Hcf) as Hfr. pose proof (proj1 Hcf) as Hz.
      destruct (produced_wf c1 slot v Sign env hs state) as [Hw Hg]; try done.
      split; [done|]. etrans; [by apply same_chain_grows|done].
Qed.
End Machine.

(** * The properties *)

Section Properties.
Context {HW : HashWalker} {MR : MapRange} {FFI : LeansigFFI} {T : Type} `{SL : StorageLaws T}.
Context (shouldVerify : bool) (vs : list Validator).

Lemma run_wf c c' :
  registry_ok vs -> wf_fc shouldVerify vs c -> rtc (fc_step shouldVerify vs) c c' ->
  wf_fc shouldVerify vs c' /\ grows c c'.
Proof.
  intros Hreg Hc Hrun. induction Hrun as [c|c c1 c' Hs Hrun IH]; [split; [done|apply grows_refl]|].
  destruct (step_wf _ _ _ _ Hreg Hc Hs) as [Hc1 Hg1]. destruct (IH Hc1) as [Hc' Hg'].
  split; [done|]. by eapply grows_trans.
Qed.

(** C1: the invariant of the fork choice: it holds of the genesis store the node starts with,
    and of every store reached from it by any interleaving of ticks, votes, aggregates,
    blocks and productions, whatever the inputs. *)
Theorem fork_choice_invariant (t0 : T) (genesisTime : Z) :
  (forall r, GetBlock t0 r = None) -> (forall r, GetState t0 r = None) ->
  is_u64 genesisTime -> Forall wf_Validator vs -> registry_ok vs ->
  (Block_HashTreeRoot (genesis_block (GenerateGenesis genesisTime vs))).1 <> ZeroHash ->
  exists c0, initGenesis genesisTime vs t0 = Ok c0 /\
    forall c, rtc (fc_step shouldVerify vs) c0 c -> wf_fc shouldVerify vs c.
Proof.
  intros H1 H2 H3 H4 H5 H6. destruct (initGenesis_run shouldVerify vs t0 genesisTime H1 H2 H3 H4 H5 H6)
    as (c0 & E & Hc0 & _). exists c0. split; [done|]. intros c Hrun. by apply (run_wf c0 c).
Qed.

(** C21: no operation of the fork choice panics or fails to return on a well-formed store:
    importing any block, counting any vote or aggregate, any advance of the clock, and the
    production of a block, whose fixed-point loop always ends. *)
Theorem operations_return (c : Store T) :
  registry_ok vs -> wf_fc shouldVerify vs c ->
  (forall time p, is_u64 time -> exists c', AdvanceTime c time p = Ok c') /\
  (forall now sa, reading now -> wf_SignedAttestation sa ->
     exists c', ProcessAttestation shouldVerify now c sa = Ok c') /\
  (forall now agg, reading now -> wf_AttestationData (ag_Data agg) ->
     exists c', ProcessAggregatedAttestation now c agg = Ok c') /\
  (forall now env, reading now -> wf_envelope env -> admissible_block vs (ba_Block (sb_Message env)) ->
     exists c' res, ProcessBlock shouldVerify now c env = Ok (c', res)) /\
  (forall slot v Sign, is_u64 slot -> is_u64 v -> total_signer Sign ->
     slot * Z.of_nat (length vs) < 2 ^ 64 - 16 ->
     (exists c' res, ProduceBlock c slot v Sign = Ok (c', res)) /\
     (exists c' res, ProduceAttestation c slot v Sign = Ok (c', res))).
Proof.
  intros Hreg Hc. split_and!.
  - intros time p Ht. destruct (advanceTime_wf _ _ c time p Hc Ht) as (c' & E & _). by exists c'.
  - intros now sa Hn Hsa. destruct (ProcessAttestation_op shouldVerify vs now c sa Hc (proj2 Hreg) Hn Hsa) as (c' & E & _).
    by exists c'.
  - intros now agg Hn Hd. destruct (ProcessAggregated_run shouldVerify vs now c agg Hc Hreg Hd Hn) as (c' & E & _).
    by exists c'.
  - intros now env Hn He [Hr Hz]. destruct (ProcessBlock_run shouldVerify vs now c env Hc He Hreg Hn Hr Hz)
      as (_ & c' & res & _ & _ & E & _). by exists c', res.
  - intros slot v Sign Hs Hv HS Hr. split.
    + destruct (ProduceBlock_run shouldVerify vs c slot v Sign Hc Hreg Hs Hv HS Hr) as (_ & c' & res & _ & _ & _ & E & _).
      by exists c', res.
    + destruct (ProduceAttestation_op shouldVerify vs c slot v Sign Hc Hs Hv HS) as (c' & res & E & _). by exists c', res.
Qed.

(** C24: along every run the justified and the finalized slot of the store never decrease, and a
    stored block or state is never replaced or lost. *)
Theorem checkpoints_never_go_back (c c' : Store T) :
  registry_ok vs -> wf_fc shouldVerify vs c -> rtc (fc_step shouldVerify vs) c c' -> grows c c'.
Proof. intros Hreg Hc Hrun. by apply (run_wf c c'). Qed.

(** C25: safety of the head: in every reachable store the head is a stored block that descends
    from the justified root, when there is one, and has a stored post-state. *)
Theorem head_extends_justified (c c' : Store T) :
  registry_ok vs -> wf_fc shouldVerify vs c -> rtc (fc_step shouldVerify vs) c c' ->
  (exists b s, GetBlock (fc_storage c') (fc_head c') = Some b /\ GetState (fc_storage c') (fc_head c') = Some s /\
     state_of b s) /\
  (cp_Root (fc_latestJustified c') <> ZeroHash ->
   on_chain (GetAllBlocks (fc_storage c')) (fc_head c') (cp_Root (fc_latestJustified c'))).
Proof.
  intros Hreg Hc Hrun. destruct (run_wf c c' Hreg Hc Hrun) as [Hc' _]. split; [|apply Hc'].
  destruct (known_state _ _ _ (fi_storage _ _ _ Hc') (fi_head _ _ _ Hc')) as (s & Hs & _ & _ & (b & Hb & Hbs) & _).
  by exists b, s.
Qed.

(** C12: with signature checks on, every vote the fork choice ever counts, known or pending, is
    filed under its own validator and carries a signature that verifies under that
    validator's registered key, whether it came by gossip, in a block or in an aggregate. *)
Theorem counted_votes_signed (c c' : Store T) (v : Z) (sa : SignedAttestation) :
  shouldVerify = true -> registry_ok vs -> wf_fc shouldVerify vs c -> rtc (fc_step shouldVerify vs) c c' ->
  GetKnownAttestation c' v = Some sa \/ GetNewAttestation c' v = Some sa ->
  sa_ValidatorID sa = v /\ signed vs sa.
Proof.
  intros Hsv Hreg Hc Hrun Hin. destruct (run_wf c c' Hreg Hc Hrun) as [Hc' _].
  destruct Hin as [Hin|Hin]; [apply (fi_known _ _ _ Hc') in Hin|apply (fi_new _ _ _ Hc') in Hin];
    destruct Hin as (H1 & _ & H2 & _); auto.
Qed.

(** C5: ProcessBlock either finds the block already stored, or rejects it and changes nothing
    beyond the clock, or imports it; it imports only a block whose parent's state is stored,
    that the transition function accepts on that state, with the right number of signatures,
    all of them valid; the block, envelope and post-state are then stored under the block's
    root and the checkpoints raised to those of the post-state. *)
Theorem ProcessBlock_outcomes (now : option Z) (c : Store T) (env : SignedBlockWithAttestation) :
  wf_fc shouldVerify vs c -> wf_envelope env -> registry_ok vs -> reading now ->
  admissible_block vs (ba_Block (sb_Message env)) ->
  exists c1 c' res, catchUp now c = Ok c1 /\ same_chain c c1 /\
    ProcessBlock shouldVerify now c env = Ok (c', res) /\ block_fate shouldVerify vs c1 env c' res.
Proof.
  intros Hc He Hreg Hn [Hr Hz]. destruct (ProcessBlock_run shouldVerify vs now c env Hc He Hreg Hn Hr Hz)
    as (c1 & c' & res & H1 & H2 & H3 & _ & H4). by exists c1, c', res.
Qed.

(** C7: a block ProduceBlock returns is valid: the transition function accepts it on the state
    of the head it extends, its attestations are votes the producer counts, each with its
    signature, no justified-source vote is left out, the proposer's own vote names the block
    itself, and any other node that has the parent's state and not the block imports it. *)
Theorem produced_block_accepted (c d : Store T) (slot v : Z) (Sign : Z -> root -> outcome bytes)
    (c' : Store T) (env : SignedBlockWithAttestation) :
  wf_fc shouldVerify vs c -> wf_fc shouldVerify vs d -> registry_ok vs -> is_u64 slot -> is_u64 v ->
  total_signer Sign -> signer_for vs v Sign -> slot * Z.of_nat (length vs) < 2 ^ 64 - 16 ->
  ProduceBlock c slot v Sign = Ok (c', inr env) ->
  exists c1 hs state, prepared c slot = Ok c1 /\ produced c1 slot v Sign env hs state /\
    ((Block_HashTreeRoot (ba_Block (sb_Message env))).1 <> ZeroHash ->
     GetState (fc_storage d) (b_ParentRoot (ba_Block (sb_Message env))) = Some hs ->
     GetBlock (fc_storage d) (Block_HashTreeRoot (ba_Block (sb_Message env))).1 = None ->
     exists d', ProcessBlock shouldVerify None d env = Ok (d', inr tt) /\
       imported shouldVerify vs d env state d').
Proof.
  intros Hc Hd Hreg Hs Hv HS HSv Hroom E.
  destruct (ProduceBlock_run shouldVerify vs c slot v Sign Hc Hreg Hs Hv HS Hroom)
    as (c1 & c2 & res & Ep & Hc1 & _ & E1 & Hres).
  rewrite E in E1. injection E1 as <- <-. destruct Hres as (hs & state & Hp & _).
  exists c1, hs, state. split; [done|]. split; [done|]. intros Hz Hps Hfr.
  apply (peer_imports shouldVerify vs c1 slot v Sign env hs state d); try done.
  by apply (produced_envelope_wf shouldVerify vs c1 slot v Sign env hs state).
Qed.

(** The producer stores its block directly, so the import path never runs on it: importing
    its own envelope is a no-op, and the vote in it is not counted by its own store. *)
Theorem own_proposal_not_imported (c c' : Store T) (slot v : Z) (Sign : Z -> root -> outcome bytes)
    (env : SignedBlockWithAttestation) :
  wf_fc shouldVerify vs c -> registry_ok vs -> is_u64 slot -> is_u64 v -> total_signer Sign ->
  slot * Z.of_nat (length vs) < 2 ^ 64 - 16 -> ProduceBlock c slot v Sign = Ok (c', inr env) ->
  ProcessBlock shouldVerify None c' env = Ok (c', inr tt) /\
  fc_latestNewAttestations c' = ∅ /\
  exists c1, prepared c slot = Ok c1 /\ fc_latestKnownAttestations c' = fc_latestKnownAttestations c1.
Proof.
  intros Hc Hreg Hs Hv HS Hroom E.
  destruct (ProduceBlock_run shouldVerify vs c slot v Sign Hc Hreg Hs Hv HS Hroom)
    as (c1 & c2 & res & Ep & Hc1 & _ & E1 & Hres).
  rewrite E in E1. injection E1 as <- <-. destruct Hres as (hs & state & Hp & ->).
  split; [apply own_block_known|]. split; [|by exists c1].
  unfold prepared in Ep. apply bind_Ok in Ep as (ca & Ea & Eb).
  destruct (advanceTime_wf _ _ c (u64 (fc_genesisTime c + u64 (slot * SecondsPerSlot))) true Hc (u64_range _))
    as (ca' & Ea' & Hca & _).
  rewrite Ea in Ea'. injection Ea' as <-. destruct (accept_wf _ _ ca Hca) as (h & Eb' & _).
  rewrite Eb in Eb'. by injection Eb' as ->.
Qed.

(** C36: the vote target is a stored block on the chain of the head, under its own root and
    slot, at a slot that may be justified after the finalized one; the only error is that no
    block on the chain qualifies. *)
Theorem vote_target_sound (c : Store T) :
  wf_fc shouldVerify vs c ->
  (exists b, GetVoteTarget c = Ok (mkCheckpoint (Block_HashTreeRoot b).1 (b_Slot b)) /\
     GetBlock (fc_storage c) (Block_HashTreeRoot b).1 = Some b /\
     on_chain (GetAllBlocks (fc_storage c)) (fc_head c) (Block_HashTreeRoot b).1 /\
     IsJustifiableAfter (b_Slot b) (cp_Slot (fc_latestFinalized c)) = true) \/
  (GetVoteTarget c = Err (Errorf "vote target block not found" []) /\
   forall z bz, on_chain (GetAllBlocks (fc_storage c)) (looked_back c) z -> GetBlock (fc_storage c) z = Some bz ->
     IsJustifiableAfter (b_Slot bz) (cp_Slot (fc_latestFinalized c)) = false).
Proof. apply getVoteTarget_run. Qed.

(** Advancing the clock stops after exactly the missing ticks: the store's time becomes the
    interval of the wall clock, or stays when it is already past it, and the chain data, the
    checkpoints and the registry do not change. *)
Theorem AdvanceTime_exact (c : Store T) (time : Z) (hasProposal : bool) :
  wf_fc shouldVerify vs c -> is_u64 time ->
  exists c', AdvanceTime c time hasProposal = Ok c' /\
    fc_time c' = Z.max (fc_time c) ((time - fc_genesisTime c) / SecondsPerInterval) /\ same_chain c c'.
Proof.
  intros Hc Ht. destruct (advanceTime_wf _ _ c time hasProposal Hc Ht) as (c' & E & _ & H1 & H2).
  by exists c'.
Qed.

(** accepting the pending votes replaces the known vote of every validator that has one,
    even by an older vote: the rule keeps the last accepted message of a validator, not the
    latest one. *)
Theorem accept_overwrites (c : Store T) (v : Z) (sa : SignedAttestation) :
  wf_fc shouldVerify vs c -> GetNewAttestation c v = Some sa ->
  exists c', AcceptNewAttestations c = Ok c' /\ GetKnownAttestation c' v = Some sa /\
    (forall w, GetNewAttestation c w = None -> GetKnownAttestation c' w = GetKnownAttestation c w) /\
    forall w, GetNewAttestation c' w = None.
Proof.
  intros Hc Hv. destruct (accept_wf _ _ c Hc) as (h & E & _). eexists. split; [exact E|].
  unfold GetKnownAttestation, GetNewAttestation in *. cbn. unfold accepted_votes. split_and!.
  - by apply lookup_union_Some_l.
  - intros w Hw. by apply lookup_union_r.
  - intros w. apply lookup_empty.
Qed.
End Properties.

(** * A concrete network *)

Section Example.
#[local] Existing Instance toy_walker.
#[local] Existing Instance canonical_range.
#[local] Existing Instance toy_ffi.

(** Three validators, with the keys of the toy signature scheme. *)
Definition fx_vs : list Validator :=
  map (fun i => mkValidator (vec_of 52 (le_bytes 52 i)) i) [0; 1; 2].
Definition fx_sign (v : Z) : Z -> root -> outcome bytes := Sign (@mkKeypair toy_ffi (@Some Z v)).
Definition fx_dummy : Store memory.Store :=
  mkStore 0 0 0 ZeroHash ZeroHash (mkCheckpoint ZeroHash 0) (mkCheckpoint ZeroHash 0) memory.New ∅ ∅.
Definition value {A} (d : A) (m : outcome A) : A := match m with Ok x => x | _ => d end.
Definition right_or {A B} (d : B) (x : A + B) : B := match x with inr y => y | inl _ => d end.

Definition fx_genesis : Store memory.Store := value fx_dummy (initGenesis 1000 fx_vs memory.New).

(** Validator 1 proposes at slot 1. *)
Definition fx_produced : Store memory.Store * (error + SignedBlockWithAttestation) :=
  value (fx_dummy, inl (ErrLib "none")) (ProduceBlock fx_genesis 1 1 (fx_sign 1)).
Definition fx_env : SignedBlockWithAttestation :=
  right_or (mkSignedBlock (mkBlockWithAttestation (ex_blk 0 ZeroHash) None) []) fx_produced.2.
(** The proposer's store afterwards, and that of a peer which imports the block. *)
Definition fx_after : Store memory.Store := fx_produced.1.
Definition fx_peer : Store memory.Store :=
  (value (fx_dummy, inr tt) (ProcessBlock true (Some 1005) fx_genesis fx_env)).1.

(** The evaluations below test a boolean, so that no store is ever written out. *)
Lemma value_Ok {A} (d : A) (m : outcome A) : is_ok m = true -> m = Ok (value d m).
Proof. by destruct m. Qed.
Lemma value_inr {A B C} (a : A) (e : B) (m : outcome (A * (B + C))) (d : C) :
  match m with Ok (_, inr _) => true | _ => false end = true ->
  m = Ok ((value (a, inl e) m).1, inr (right_or d (value (a, inl e) m).2)).
Proof. by destruct m as [[? []]| | |]. Qed.
Lemma value_tt {A B} (a : A) (m : outcome (A * (B + ()))) :
  match m with Ok (_, inr _) => true | _ => false end = true -> m = Ok ((value (a, inr tt) m).1, inr tt).
Proof. by destruct m as [[? [|[]]]| | |]. Qed.
Lemma value_Some {A} (d : A) (o : option A) :
  match o with Some _ => true | None => false end = true -> o = Some (default d o).
Proof. by destruct o. Qed.

Lemma fx_init : initGenesis 1000 fx_vs memory.New = Ok fx_genesis.
Proof. apply (value_Ok fx_dummy). vm_compute. reflexivity. Qed.

Lemma fx_registry : registry_ok fx_vs.
Proof. split; vm_compute; reflexivity. Qed.

Lemma fx_genesis_root : (Block_HashTreeRoot (genesis_block (GenerateGenesis 1000 fx_vs))).1 <> ZeroHash.
Proof. vm_compute. discriminate. Qed.

Lemma fx_validators : Forall wf_Validator fx_vs.
Proof. repeat constructor; discriminate. Qed.

Lemma fx_no_block r : GetBlock memory.New r = None.
Proof. exact (lookup_empty r). Qed.
Lemma fx_no_state r : GetState memory.New r = None.
Proof. exact (lookup_empty r). Qed.

Lemma fx_wf : ForkInv.wf_fc true fx_vs fx_genesis.
Proof.
  destruct (initGenesis_run true fx_vs memory.New 1000) as (c & E & Hc & _);
    [exact fx_no_block|exact fx_no_state|done|apply fx_validators|apply fx_registry|apply fx_genesis_root|].
  rewrite fx_init in E. apply Ok_inj in E. rewrite E. exact Hc.
Qed.

Lemma fx_total v : total_signer (fx_sign v).
Proof. intros e m. done. Qed.

Lemma fx_signer v val : fx_vs !! Z.to_nat v = Some val -> v_Pubkey val = vec_of 52 (le_bytes 52 v) ->
  signer_for fx_vs v (fx_sign v).
Proof.
  intros Hval Hpk e m sig val' [= <-] Hval'. rewrite Hval in Hval'. injection Hval' as <-.
  rewrite Hpk. apply Verify_ok. cbn [leansig_verify toy_ffi].
  rewrite !vec_to_list_vec_of by (apply length_toy_body || apply length_le_bytes).
  split; [done|]. split; [|by rewrite decide_True].
  intros E. apply (f_equal length) in E. by rewrite length_toy_body in E.
Qed.

Lemma fx_signer_1 : signer_for fx_vs 1 (fx_sign 1).
Proof. eapply fx_signer; reflexivity. Qed.

Lemma fx_produced_ok : ProduceBlock fx_genesis 1 1 (fx_sign 1) = Ok (fx_after, inr fx_env).
Proof.
  unfold fx_after, fx_env, fx_produced.
  refine (value_inr _ _ (ProduceBlock fx_genesis 1 1 (fx_sign 1)) _ _).
  vm_compute. reflexivity.
Qed.

Lemma fx_env_wf : wf_envelope fx_env.
Proof.
  split; [apply (bool_decide_unpack (wf_Block _)); vm_compute; exact I|].
  assert (Hpa : match ba_ProposerAttestation (sb_Message fx_env) with
                | Some a => bool_decide (wf_Attestation a) | None => true end = true) by (vm_compute; reflexivity).
  revert Hpa. destruct (ba_ProposerAttestation (sb_Message fx_env)); [|done]. apply bool_decide_eq_true.
Qed.

Lemma fx_env_admissible : admissible_block fx_vs (ba_Block (sb_Message fx_env)).
Proof. split; vm_compute; [reflexivity|discriminate]. Qed.

Lemma fx_reading : reading (Some 1005).
Proof. intros t [= <-]. done. Qed.

Lemma fx_import : ProcessBlock true (Some 1005) fx_genesis fx_env = Ok (fx_peer, inr tt).
Proof.
  unfold fx_peer.
  refine (value_tt fx_dummy (ProcessBlock true (Some 1005) fx_genesis fx_env) _).
  vm_compute. reflexivity.
Qed.

Lemma fx_run : rtc (fc_step true fx_vs) fx_genesis fx_peer.
Proof.
  apply rtc_once.
  exact (step_ProcessBlock true fx_vs fx_genesis (Some 1005) fx_env fx_peer (inr tt)
           fx_reading fx_env_wf fx_env_admissible fx_import).
Qed.

Lemma fork_choice_invariant_witness :
  exists c0, initGenesis 1000 fx_vs memory.New = Ok c0 /\
    forall c, rtc (fc_step true fx_vs) c0 c -> ForkInv.wf_fc true fx_vs c.
Proof.
  apply (fork_choice_invariant true fx_vs memory.New 1000 fx_no_block fx_no_state).
  - split; [discriminate|reflexivity].
  - exact fx_validators.
  - exact fx_registry.
  - exact fx_genesis_root.
Defined.

Lemma operations_return_witness :
  exists c' res, ProcessBlock true (Some 1005) fx_genesis fx_env = Ok (c', res).
Proof.
  apply (operations_return true fx_vs fx_genesis fx_registry fx_wf);
    [exact fx_reading|exact fx_env_wf|exact fx_env_admissible].
Defined.

Lemma checkpoints_never_go_back_witness : grows fx_genesis fx_peer.
Proof. exact (checkpoints_never_go_back true fx_vs fx_genesis fx_peer fx_registry fx_wf fx_run). Defined.

Lemma head_extends_justified_witness :
  (exists b s, GetBlock (fc_storage fx_peer) (fc_head fx_peer) = Some b /\
     GetState (fc_storage fx_peer) (fc_head fx_peer) = Some s /\ state_of b s) /\
  (cp_Root (fc_latestJustified fx_peer) <> ZeroHash ->
   on_chain (GetAllBlocks (fc_storage fx_peer)) (fc_head fx_peer) (cp_Root (fc_latestJustified fx_peer))).
Proof. exact (head_extends_justified true fx_vs fx_genesis fx_peer fx_registry fx_wf fx_run). Defined.

(** The proposer's vote, as the peer counts it. *)
Definition fx_vote : SignedAttestation :=
  default (ex_sa 0 ZeroHash 0) (fc_latestNewAttestations fx_peer !! 1).

Lemma fx_vote_pending : GetNewAttestation fx_peer 1 = Some fx_vote.
Proof.
  unfold fx_vote.
  refine (value_Some (ex_sa 0 ZeroHash 0) (fc_latestNewAttestations fx_peer !! 1) _).
  vm_compute. reflexivity.
Qed.

Lemma counted_votes_signed_witness : sa_ValidatorID fx_vote = 1 /\ signed fx_vs fx_vote.
Proof.
  refine (counted_votes_signed true fx_vs fx_genesis fx_peer 1 fx_vote eq_refl fx_registry fx_wf fx_run _).
  right. exact fx_vote_pending.
Defined.

Lemma ProcessBlock_outcomes_witness :
  exists c1 c' res, catchUp (Some 1005) fx_genesis = Ok c1 /\ same_chain fx_genesis c1 /\
    ProcessBlock true (Some 1005) fx_genesis fx_env = Ok (c', res) /\
    block_fate true fx_vs c1 fx_env c' res.
Proof.
  exact (ProcessBlock_outcomes true fx_vs (Some 1005) fx_genesis fx_env fx_wf fx_env_wf fx_registry
           fx_reading fx_env_admissible).
Defined.

Lemma fx_slot_1 : is_u64 1.
Proof. done. Qed.
Lemma fx_room_1 : 1 * Z.of_nat (length fx_vs) < 2 ^ 64 - 16.
Proof. vm_compute. reflexivity. Qed.

Lemma produced_block_accepted_witness :
  exists c1 hs state, prepared fx_genesis 1 = Ok c1 /\ produced c1 1 1 (fx_sign 1) fx_env hs state /\
    ((Block_HashTreeRoot (ba_Block (sb_Message fx_env))).1 <> ZeroHash ->
     GetState (fc_storage fx_genesis) (b_ParentRoot (ba_Block (sb_Message fx_env))) = Some hs ->
     GetBlock (fc_storage fx_genesis) (Block_HashTreeRoot (ba_Block (sb_Message fx_env))).1 = None ->
     exists d', ProcessBlock true None fx_genesis fx_env = Ok (d', inr tt) /\
       imported true fx_vs fx_genesis fx_env state d').
Proof.
  exact (produced_block_accepted true fx_vs fx_genesis fx_genesis 1 1 (fx_sign 1) fx_after fx_env
           fx_wf fx_wf fx_registry fx_slot_1 fx_slot_1 (fx_total 1) fx_signer_1 fx_room_1 fx_produced_ok).
Defined.

(** A peer counts the proposer's vote; the proposer's own store does not have it. *)
Lemma own_proposal_not_imported_witness :
  is_Some (GetNewAttestation fx_peer 1) /\
  ProcessBlock true None fx_after fx_env = Ok (fx_after, inr tt) /\
  fc_latestNewAttestations fx_after = ∅ /\
  exists c1, prepared fx_genesis 1 = Ok c1 /\
    fc_latestKnownAttestations fx_after = fc_latestKnownAttestations c1.
Proof.
  split; [exact (mk_is_Some _ _ fx_vote_pending)|].
  exact (own_proposal_not_imported true fx_vs fx_genesis fx_after 1 1 (fx_sign 1) fx_env
           fx_wf fx_registry fx_slot_1 fx_slot_1 (fx_total 1) fx_room_1 fx_produced_ok).
Defined.

Lemma fx_peer_wf : ForkInv.wf_fc true fx_vs fx_peer.
Proof. apply (run_wf true fx_vs fx_genesis fx_peer fx_registry fx_wf fx_run). Qed.

Lemma vote_target_sound_witness :
  (exists b, GetVoteTarget fx_peer = Ok (mkCheckpoint (Block_HashTreeRoot b).1 (b_Slot b)) /\
     GetBlock (fc_storage fx_peer) (Block_HashTreeRoot b).1 = Some b /\
     on_chain (GetAllBlocks (fc_storage fx_peer)) (fc_head fx_peer) (Block_HashTreeRoot b).1 /\
     IsJustifiableAfter (b_Slot b) (cp_Slot (fc_latestFinalized fx_peer)) = true) \/
  (GetVoteTarget fx_peer = Err (Errorf "vote target block not found" []) /\
   forall z bz, on_chain (GetAllBlocks (fc_storage fx_peer)) (looked_back fx_peer) z ->
     GetBlock (fc_storage fx_peer) z = Some bz ->
     IsJustifiableAfter (b_Slot bz) (cp_Slot (fc_latestFinalized fx_peer)) = false).
Proof. exact (vote_target_sound true fx_vs fx_peer fx_peer_wf). Defined.

Lemma AdvanceTime_exact_witness :
  exists c', AdvanceTime fx_peer 1010 true = Ok c' /\
    fc_time c' = Z.max (fc_time fx_peer) ((1010 - fc_genesisTime fx_peer) / SecondsPerInterval) /\
    same_chain fx_peer c'.
Proof. apply (AdvanceTime_exact true fx_vs fx_peer 1010 true fx_peer_wf). split; [discriminate|reflexivity]. Defined.

Lemma accept_overwrites_witness :
  exists c', AcceptNewAttestations fx_peer = Ok c' /\ GetKnownAttestation c' 1 = Some fx_vote /\
    (forall w, GetNewAttestation fx_peer w = None -> GetKnownAttestation c' w = GetKnownAttestation fx_peer w) /\
    forall w, GetNewAttestation c' w = None.
Proof. exact (accept_overwrites true fx_vs fx_peer 1 fx_vote fx_peer_wf fx_vote_pending). Defined.
End Example.
