(* ===== verification/Order.v ===== *)
(** The order in which votes arrive: gossip delivers the votes of a slot in any order, and the fork
    choice must not depend on it.

    [counts] is the verdict of processAttestationLocked on a gossip vote; it looks at the blocks,
    the head and the clock of the store, none of which a vote changes, so the pending votes after a
    list of messages are a fold of [put_newer] over those that count.  [recorded] is what counting a vote does. *)
From S2P Require Import Prelude Slot Types Hash Concrete GoStd Bitlist VoteRule Attestations Transition Chain Storage Ghost Leansig ForkChoice ForkInv ForkProduce Aggregation ForkProps.
Local Open Scope Z_scope.

Section Order.
Context {HW : HashWalker} {MR : MapRange} {FFI : LeansigFFI} {T : Type} `{SL : StorageLaws T}.
Context (shouldVerify : bool) (vs : list Validator).
#[local] Abbreviation wf_fc := (wf_fc shouldVerify vs).

(** Does the store count this gossip vote? *)
Definition counts (c : Store T) (sa : SignedAttestation) : bool :=
  bool_decide (validateAttestationData c (sa_Message sa) = EmptyString) &&
  (negb shouldVerify || is_ok (verifyAttestationSignature c sa)) &&
  (ad_Slot (sa_Message sa) <=? fc_time c / IntervalsPerSlot).

Definition put (m : gmap Z SignedAttestation) (sa : SignedAttestation) : gmap Z SignedAttestation :=
  put_newer m (sa_ValidatorID sa) (ad_Slot (sa_Message sa)) sa.

(** The store has counted the vote: it holds it as a known vote when it came in a block and as a
    pending one otherwise, unless it held one of the same validator that is as young; a vote in a
    block also ends a pending one that is not younger; nothing else changes. *)
Record recorded (c : Store T) (sa : SignedAttestation) (isFromBlock : bool) (c' : Store T) : Prop := {
  re_held : let votes c := if isFromBlock then fc_latestKnownAttestations c else fc_latestNewAttestations c in
    match votes c !! sa_ValidatorID sa with
    | Some old => votes c' !! sa_ValidatorID sa =
        Some (if ad_Slot (sa_Message old) <? ad_Slot (sa_Message sa) then sa else old)
    | None => votes c' !! sa_ValidatorID sa = Some sa
    end;
  re_other w : w <> sa_ValidatorID sa ->
    fc_latestKnownAttestations c' !! w = fc_latestKnownAttestations c !! w /\
    fc_latestNewAttestations c' !! w = fc_latestNewAttestations c !! w;
  re_known : isFromBlock = false -> fc_latestKnownAttestations c' = fc_latestKnownAttestations c;
  re_pending : isFromBlock = true -> forall sa', fc_latestNewAttestations c' !! sa_ValidatorID sa = Some sa' ->
    fc_latestNewAttestations c !! sa_ValidatorID sa = Some sa' /\ ad_Slot (sa_Message sa) < ad_Slot (sa_Message sa');
  re_rest : c' = set_votes c (fc_latestKnownAttestations c') (fc_latestNewAttestations c') }.

Lemma put_newer_here m v sa :
  match m !! v with
  | Some old => put_newer m v (ad_Slot (sa_Message sa)) sa !! v =
      Some (if ad_Slot (sa_Message old) <? ad_Slot (sa_Message sa) then sa else old)
  | None => put_newer m v (ad_Slot (sa_Message sa)) sa !! v = Some sa
  end.
Proof.
  unfold put_newer. destruct (m !! v) as [old|] eqn:E; [destruct (_ <? _)|]; by rewrite ?lookup_insert_eq, ?E.
Qed.
Lemma put_newer_other m v slot sa w : w <> v -> put_newer m v slot sa !! w = m !! w.
Proof.
  intros Hne. unfold put_newer. destruct (m !! v) as [old|]; [destruct (_ <? _)|]; by rewrite ?lookup_insert_ne.
Qed.

Lemma gossip_recorded c sa :
  recorded c sa false (set_votes c (fc_latestKnownAttestations c)
    (put_newer (fc_latestNewAttestations c) (sa_ValidatorID sa) (ad_Slot (sa_Message sa)) sa)).
Proof.
  constructor; cbn [set_votes fc_latestKnownAttestations fc_latestNewAttestations]; try done; [apply put_newer_here|].
  intros w Hw. split; [done|by apply put_newer_other].
Qed.

Lemma block_recorded c sa :
  let v := sa_ValidatorID sa in
  recorded c sa true (set_votes c (put_newer (fc_latestKnownAttestations c) v (ad_Slot (sa_Message sa)) sa)
    (match fc_latestNewAttestations c !! v with
     | Some newAtt => if ad_Slot (sa_Message newAtt) <=? ad_Slot (sa_Message sa) then delete v (fc_latestNewAttestations c)
                      else fc_latestNewAttestations c
     | None => fc_latestNewAttestations c
     end)).
Proof.
  intros v. constructor; cbn [set_votes fc_latestKnownAttestations fc_latestNewAttestations]; fold v; try done.
  - apply put_newer_here.
  - intros w Hw. split; [by apply put_newer_other|].
    destruct (fc_latestNewAttestations c !! v); [destruct (_ <=? _)|]; by rewrite ?lookup_delete_ne.
  - intros _ sa' Hs. destruct (fc_latestNewAttestations c !! v) as [e|] eqn:E; [|by rewrite E in Hs].
    destruct (Z.leb_spec (ad_Slot (sa_Message e)) (ad_Slot (sa_Message sa))).
    + by rewrite lookup_delete_eq in Hs.
    + rewrite E in Hs. injection Hs as <-. split; [done|lia].
Qed.

(** The first pending vote of a validator. *)
Lemma recorded_first c sa c' v : recorded c sa false c' -> sa_ValidatorID sa = v ->
  fc_latestNewAttestations c !! v = None -> fc_latestNewAttestations c' !! v = Some sa.
Proof. intros Hr <- Hn. pose proof (re_held _ _ _ _ Hr) as H. cbv zeta beta iota in H. by rewrite Hn in H. Qed.

(** The votes of one validator for one slot are one vote. *)
Definition no_equivocation (l : list SignedAttestation) : Prop :=
  forall a b, a ∈ l -> b ∈ l -> sa_ValidatorID a = sa_ValidatorID b ->
    ad_Slot (sa_Message a) = ad_Slot (sa_Message b) -> a = b.

Lemma put_comm m a b :
  (sa_ValidatorID a = sa_ValidatorID b -> ad_Slot (sa_Message a) = ad_Slot (sa_Message b) -> a = b) ->
  put (put m a) b = put (put m b) a.
Proof.
  intros H. unfold put, put_newer. destruct (decide (sa_ValidatorID a = sa_ValidatorID b)) as [E|E].
  - rewrite E in *. specialize (H eq_refl).
    destruct (m !! sa_ValidatorID b) as [e|] eqn:Em; rewrite ?Em;
      repeat match goal with |- context [?x <? ?y] => destruct (Z.ltb_spec x y) end;
      rewrite ?lookup_insert_eq, ?Em; repeat match goal with |- context [?x <? ?y] => destruct (Z.ltb_spec x y) end;
      rewrite ?insert_insert_eq; try done; try lia; try (by rewrite H by lia).
  - assert (Hab : forall x, (match m !! sa_ValidatorID a with None => <[sa_ValidatorID a := a]> m
      | Some e => if ad_Slot (sa_Message e) <? ad_Slot (sa_Message a) then <[sa_ValidatorID a := a]> m else m end)
      !! sa_ValidatorID b = x <-> m !! sa_ValidatorID b = x)
      by (intros x; destruct (m !! sa_ValidatorID a); [destruct (_ <? _)|]; rewrite ?lookup_insert_ne by done; done).
    assert (Hba : forall x, (match m !! sa_ValidatorID b with None => <[sa_ValidatorID b := b]> m
      | Some e => if ad_Slot (sa_Message e) <? ad_Slot (sa_Message b) then <[sa_ValidatorID b := b]> m else m end)
      !! sa_ValidatorID a = x <-> m !! sa_ValidatorID a = x)
      by (intros x; destruct (m !! sa_ValidatorID b); [destruct (_ <? _)|]; rewrite ?lookup_insert_ne by done; done).
    rewrite (proj2 (Hab _) eq_refl), (proj2 (Hba _) eq_refl).
    destruct (m !! sa_ValidatorID a), (m !! sa_ValidatorID b); repeat destruct (_ <? _); try done;
      by apply insert_insert_ne.
Qed.

Lemma foldl_put_perm l l' m : l ≡ₚ l' -> no_equivocation l -> foldl put m l = foldl put m l'.
Proof.
  intros Hp. revert m. induction Hp as [|x l l' Hp IH|x y l|l1 l2 l3 H12 IH12 H23 IH23]; intros m Hne; cbn [foldl]; [done| | |].
  - apply IH. intros a b Ha Hb. apply Hne; by right.
  - f_equal. apply put_comm. intros Hv Hs. symmetry. apply Hne; [by right; left|by left|done|done].
  - rewrite IH12 by done. apply IH23. intros a b Ha Hb. apply Hne; by rewrite H12.
Qed.

(** ** The messages of a slot *)

(** [filter] of the votes that count, in the order of the messages. *)
Definition counted (c : Store T) (l : list SignedAttestation) : list SignedAttestation :=
  filter (fun sa => counts c sa = true) l.

Definition with_votes (c : Store T) (l : list SignedAttestation) : Store T :=
  set_votes c (fc_latestKnownAttestations c) (foldl put (fc_latestNewAttestations c) (counted c l)).

Lemma processAttestation_counts c sa : wf_fc c -> wf_SignedAttestation sa -> Z.of_nat (length vs) < 2 ^ 62 ->
  processAttestationLocked shouldVerify c sa false =
  Ok (if counts c sa then set_votes c (fc_latestKnownAttestations c) (put (fc_latestNewAttestations c) sa) else c).
Proof.
  intros Hc Hsa Hn. pose proof (attestation_verdict shouldVerify vs c sa false (fi_core _ _ _ Hc) Hsa Hn) as Hver.
  unfold processAttestationLocked, counts. case_bool_decide as Hv; cbn [negb andb]; [|done].
  destruct shouldVerify; cbn [negb andb orb] in *.
  - destruct (verifyAttestationSignature c sa) as [u|e|w|]; cbn [total is_ok andb] in *; try done.
    + destruct (Z.ltb_spec (fc_time c / IntervalsPerSlot) (ad_Slot (sa_Message sa))),
        (Z.leb_spec (ad_Slot (sa_Message sa)) (fc_time c / IntervalsPerSlot)); try done; lia.
    + exfalso. by apply Hver.
    + exfalso. by apply Hver.
  - destruct (Z.ltb_spec (fc_time c / IntervalsPerSlot) (ad_Slot (sa_Message sa))),
      (Z.leb_spec (ad_Slot (sa_Message sa)) (fc_time c / IntervalsPerSlot)); try done; lia.
Qed.

(** The clock of the store has reached the reading. *)
Definition caught_up (now : option Z) (c : Store T) : Prop := forall t, now = Some t -> interval_of c t <= fc_time c.

Lemma catchUp_noop now c : wf_fc c -> reading now -> caught_up now c -> catchUp now c = Ok c.
Proof.
  intros Hc Hnow Hup. destruct now as [t|]; cbn [catchUp]; [|done].
  pose proof (Hup t eq_refl) as Ht. pose proof (Hnow t eq_refl) as Hu. pose proof (fi_genesisTime _ _ _ (fi_core _ _ _ Hc)).
  unfold advanceTimeLocked, interval_of, is_u64 in *.
  destruct (Z.leb_spec t (fc_genesisTime c)); [done|].
  rewrite u64_small by (unfold is_u64; lia). cbn [loop].
  destruct (Z.ltb_spec (fc_time c) ((t - fc_genesisTime c) / SecondsPerInterval)); [lia|done].
Qed.

Lemma catchUp_up now c : wf_fc c -> reading now ->
  exists c1, catchUp now c = Ok c1 /\ wf_fc c1 /\ same_chain c c1 /\ caught_up now c1.
Proof.
  intros Hc Hnow. destruct now as [t|]; cbn [catchUp].
  - destruct (advanceTime_wf _ _ c t false Hc (Hnow t eq_refl)) as (c1 & E & H1 & H2 & H3).
    exists c1. split_and!; try done. intros t' [= <-]. unfold interval_of in *.
    replace (fc_genesisTime c1) with (fc_genesisTime c) by (unfold same_chain in H2; by destruct_and? H2). lia.
  - by exists c.
Qed.

Lemma ProcessAttestation_up now c sa : wf_fc c -> reading now -> caught_up now c ->
  ProcessAttestation shouldVerify now c sa = processAttestationLocked shouldVerify c sa false.
Proof. intros Hc Hnow Hup. unfold ProcessAttestation. by rewrite catchUp_noop. Qed.

(** The votes of a list of messages, once the clock has caught up. *)
Lemma gossip_run now c l : wf_fc c -> reading now -> caught_up now c -> Z.of_nat (length vs) < 2 ^ 62 ->
  Forall wf_SignedAttestation l ->
  foldM (ProcessAttestation shouldVerify now) c l = Ok (with_votes c l) /\ wf_fc (with_votes c l).
Proof.
  intros Hc Hnow Hup Hn Hl. revert c Hc Hup. induction Hl as [|sa l Hsa Hl IH]; intros c Hc Hup; cbn [foldM].
  - unfold with_votes. cbn. by rewrite set_votes_id.
  - rewrite ProcessAttestation_up by done. unfold with_votes.
    pose proof (processAttestation_counts c sa Hc Hsa Hn) as E.
    destruct (processAttestation_run shouldVerify vs c sa false (fi_core _ _ _ Hc) Hsa Hn) as (k & n & E' & Hk & Hnn); [done|].
    pose proof (set_votes_wf _ _ c k n Hc Hk Hnn) as Hwf. rewrite E in E'. injection E' as E'. rewrite <-E' in Hwf.
    rewrite E. cbn [mbind outcome_bind]. unfold counted. rewrite filter_cons. destruct (counts c sa) eqn:Hcs.
    + rewrite decide_True by done. cbn [foldl]. destruct (IH _ Hwf) as [Hrun Hwf']; [exact Hup|].
      split; [exact Hrun|exact Hwf'].
    + rewrite decide_False by done. by apply IH.
Qed.

Lemma gossip_first now c l : wf_fc c -> reading now -> l <> [] ->
  foldM (ProcessAttestation shouldVerify now) c l =
  (c1 ← catchUp now c; foldM (ProcessAttestation shouldVerify now) c1 l).
Proof.
  intros Hc Hnow Hl. destruct l as [|sa l]; [done|]. destruct (catchUp_up now c Hc Hnow) as (c1 & E & Hc1 & _ & Hup).
  rewrite E. cbn [mbind outcome_bind foldM]. rewrite (ProcessAttestation_up now c1) by done.
  replace (ProcessAttestation shouldVerify now c sa) with (processAttestationLocked shouldVerify c1 sa false); [done|].
  unfold ProcessAttestation. by rewrite E.
Qed.

Lemma with_votes_perm c l l' : l ≡ₚ l' -> no_equivocation l -> with_votes c l = with_votes c l'.
Proof.
  intros Hp Hne. unfold with_votes. rewrite (foldl_put_perm (counted c l) (counted c l')); [done|by unfold counted; rewrite Hp|].
  intros a b [_ Ha]%list_elem_of_filter [_ Hb]%list_elem_of_filter. by apply Hne.
Qed.

(** ** What a fold of votes holds *)

Lemma put_slot m sa : exists x, put m sa !! sa_ValidatorID sa = Some x /\ ad_Slot (sa_Message sa) <= ad_Slot (sa_Message x).
Proof.
  unfold put, put_newer. destruct (m !! sa_ValidatorID sa) as [e|] eqn:E; [destruct (Z.ltb_spec (ad_Slot (sa_Message e)) (ad_Slot (sa_Message sa)))|].
  2: by exists e; rewrite E.
  all: exists sa; by rewrite lookup_insert_eq.
Qed.
Lemma put_mono m sa v x : m !! v = Some x ->
  exists y, put m sa !! v = Some y /\ ad_Slot (sa_Message x) <= ad_Slot (sa_Message y).
Proof.
  intros Hx. destruct (decide (v = sa_ValidatorID sa)) as [->|Hv].
  - unfold put, put_newer. rewrite Hx. destruct (Z.ltb_spec (ad_Slot (sa_Message x)) (ad_Slot (sa_Message sa))).
    + exists sa. rewrite lookup_insert_eq. split; [done|lia].
    + by exists x.
  - exists x. split; [|done]. unfold put, put_newer.
    destruct (m !! sa_ValidatorID sa); [destruct (_ <? _)|]; rewrite ?lookup_insert_ne by done; done.
Qed.
Lemma foldl_put_mono l m v x : m !! v = Some x ->
  exists y, foldl put m l !! v = Some y /\ ad_Slot (sa_Message x) <= ad_Slot (sa_Message y).
Proof.
  revert m x. induction l as [|sa l IH]; intros m x Hx; cbn [foldl]; [by exists x|].
  destruct (put_mono m sa v x Hx) as (y & Hy & Hxy). destruct (IH _ y Hy) as (z & Hz & Hyz). exists z. split; [done|lia].
Qed.
Lemma foldl_put_counted l m sa : sa ∈ l ->
  exists x, foldl put m l !! sa_ValidatorID sa = Some x /\ ad_Slot (sa_Message sa) <= ad_Slot (sa_Message x).
Proof.
  intros Hin. revert m. induction Hin as [sa l|sa b l Hin IH]; intros m; cbn [foldl]; [|by apply IH].
  destruct (put_slot m sa) as (y & Hy & H1). destruct (foldl_put_mono l _ _ y Hy) as (z & Hz & H2). exists z. split; [done|lia].
Qed.
Lemma foldl_put_from l m v x : foldl put m l !! v = Some x -> m !! v = Some x \/ x ∈ l.
Proof.
  revert m. induction l as [|sa l IH]; intros m; cbn [foldl]; [by left|]. intros [H|H]%IH; [|by right; right].
  apply put_newer_lookup in H as [H|[_ ->]]; [by left|right; left].
Qed.
End Order.

(** * Theorems *)

Section Properties.
Context {HW : HashWalker} {MR : MapRange} {FFI : LeansigFFI} {T : Type} `{SL : StorageLaws T}.
Context (shouldVerify : bool) (vs : list Validator).

(** C14: gossip votes may arrive in any order.  Whatever the permutation of a list of messages
    without equivocation, handled at one reading of the clock, the store ends in the same state: the head, the checkpoints, the
    votes known and the votes pending.  Each vote that counts leaves its validator with a
    pending vote of at least its slot, no pending vote is replaced by an older one, and a vote
    becomes pending only by a message that counts. *)
Theorem gossip_order_irrelevant (now : option Z) (c : Store T) (l l' : list SignedAttestation) :
  wf_fc shouldVerify vs c -> registry_ok vs -> reading now -> Forall wf_SignedAttestation l ->
  l <> [] -> l ≡ₚ l' -> no_equivocation l ->
  exists c0 c', catchUp now c = Ok c0 /\
    foldM (ProcessAttestation shouldVerify now) c l = Ok c' /\
    foldM (ProcessAttestation shouldVerify now) c l' = Ok c' /\ wf_fc shouldVerify vs c' /\
    fc_latestKnownAttestations c' = fc_latestKnownAttestations c0 /\ fc_head c' = fc_head c0 /\
    (forall sa, sa ∈ l -> counts shouldVerify c0 sa = true ->
       exists x, GetNewAttestation c' (sa_ValidatorID sa) = Some x /\ ad_Slot (sa_Message sa) <= ad_Slot (sa_Message x)) /\
    (forall v x, GetNewAttestation c0 v = Some x ->
       exists y, GetNewAttestation c' v = Some y /\ ad_Slot (sa_Message x) <= ad_Slot (sa_Message y)) /\
    (forall v x, GetNewAttestation c' v = Some x ->
       GetNewAttestation c0 v = Some x \/ (x ∈ l /\ counts shouldVerify c0 x = true)).
Proof.
  intros Hc [_ Hn] Hnow Hl Hnil Hp Hne. destruct (catchUp_up shouldVerify vs now c Hc Hnow) as (c0 & E & Hc0 & _ & Hup).
  destruct (gossip_run shouldVerify vs now c0 l Hc0 Hnow Hup Hn Hl) as [Hrun Hwf].
  assert (Hl' : Forall wf_SignedAttestation l') by by rewrite <-Hp.
  destruct (gossip_run shouldVerify vs now c0 l' Hc0 Hnow Hup Hn Hl') as [Hrun' _].
  assert (Hnil' : l' <> []) by (intros ->; by apply Permutation_nil_r in Hp).
  exists c0. eexists. split; [done|]. rewrite !(gossip_first shouldVerify vs) by done. rewrite E. cbn [mbind outcome_bind].
  split; [exact Hrun|]. split; [|split; [exact Hwf|]].
  - rewrite Hrun'. f_equal. symmetry. by apply with_votes_perm.
  - unfold GetNewAttestation, with_votes. cbn [set_votes fc_latestNewAttestations fc_latestKnownAttestations fc_head]. split_and!; try done.
    + intros sa Hin Hcs. apply foldl_put_counted, list_elem_of_filter. done.
    + intros v x. apply foldl_put_mono.
    + intros v x [?|[? ?]%list_elem_of_filter]%foldl_put_from; [by left|by right].
Qed.

(** of two votes of one validator for one slot the first to arrive is kept, so that stores which
    hear an equivocating validator in different orders differ. *)
Theorem equivocation_first_wins (c : Store T) (a b : SignedAttestation) :
  wf_fc shouldVerify vs c -> registry_ok vs -> wf_SignedAttestation a -> wf_SignedAttestation b ->
  sa_ValidatorID a = sa_ValidatorID b -> ad_Slot (sa_Message a) = ad_Slot (sa_Message b) ->
  counts shouldVerify c a = true -> GetNewAttestation c (sa_ValidatorID a) = None ->
  exists c', foldM (ProcessAttestation shouldVerify None) c [a; b] = Ok c' /\
    GetNewAttestation c' (sa_ValidatorID a) = Some a.
Proof.
  intros Hc [_ Hn] Ha Hb Hid Hslot Hcs Hnone.
  destruct (gossip_run shouldVerify vs None c [a; b] Hc) as [Hrun _]; [done|done|done|by apply Forall_cons_2, Forall_singleton|].
  eexists. split; [exact Hrun|]. unfold GetNewAttestation in *. cbn [with_votes set_votes fc_latestNewAttestations].
  unfold counted. rewrite filter_cons, decide_True by done. rewrite filter_cons.
  assert (Hput : put (fc_latestNewAttestations c) a !! sa_ValidatorID a = Some a)
    by (unfold put, put_newer; rewrite Hnone; apply lookup_insert_eq).
  destruct (decide _); cbn [foldl filter list_filter]; [|done].
  unfold put at 1, put_newer. rewrite <-Hid, Hput, <-Hslot, Z.ltb_irrefl. done.
Qed.
End Properties.

(** * Votes of two validators, received in both orders *)

Section Example.
#[local] Existing Instance toy_walker.
#[local] Existing Instance canonical_range.
#[local] Existing Instance toy_ffi.

(** The votes of validators 0 and 2 at slot 1, on the block of validator 1. *)
Definition ord_vote (v : Z) : SignedAttestation :=
  right_or (ex_sa 0 ZeroHash 0)
    (value (fx_dummy, inl (ErrLib "none")) (ProduceAttestation fx_peer 1 v (fx_sign v))).2.

Lemma ord_id_0 : sa_ValidatorID (ord_vote 0) = 0.
Proof. vm_compute. reflexivity. Qed.
Lemma ord_id_2 : sa_ValidatorID (ord_vote 2) = 2.
Proof. vm_compute. reflexivity. Qed.

Lemma distinct_votes a b : sa_ValidatorID a <> sa_ValidatorID b -> no_equivocation [a; b].
Proof. intros Hab x y Hx Hy. set_unfold in Hx; set_unfold in Hy; intros E _; destruct_or? Hx; destruct_or? Hy; subst; done. Qed.

Lemma ord_distinct : no_equivocation [ord_vote 0; ord_vote 2].
Proof. apply distinct_votes. rewrite ord_id_0, ord_id_2. discriminate. Qed.

Lemma ord_wf : Forall wf_SignedAttestation [ord_vote 0; ord_vote 2].
Proof. apply (bool_decide_unpack (Forall wf_SignedAttestation _)). vm_compute. exact I. Qed.

Lemma ord_counts c0 : catchUp (Some 1005) fx_peer = Ok c0 ->
  counts true c0 (ord_vote 0) = true /\ counts true c0 (ord_vote 2) = true.
Proof.
  intros E. assert (c0 = value fx_dummy (catchUp (Some 1005) fx_peer)) as -> by by rewrite E.
  split; vm_compute; reflexivity.
Qed.

Lemma gossip_order_irrelevant_witness :
  exists c', foldM (ProcessAttestation true (Some 1005)) fx_peer [ord_vote 0; ord_vote 2] = Ok c' /\
    foldM (ProcessAttestation true (Some 1005)) fx_peer [ord_vote 2; ord_vote 0] = Ok c' /\
    is_Some (GetNewAttestation c' 0) /\ is_Some (GetNewAttestation c' 2).
Proof.
  destruct (gossip_order_irrelevant true fx_vs (Some 1005) fx_peer [ord_vote 0; ord_vote 2] [ord_vote 2; ord_vote 0]
    fx_peer_wf fx_registry fx_reading ord_wf ltac:(discriminate) (Permutation_swap _ _ _) ord_distinct)
    as (c0 & c' & E & H1 & H2 & _ & _ & _ & H3 & _).
  destruct (ord_counts c0 E) as [C0 C2].
  exists c'. split; [exact H1|]. split; [exact H2|]. split.
  - destruct (H3 (ord_vote 0) (list_elem_of_here _ _) C0) as (x & Hx & _). rewrite ord_id_0 in Hx. exact (mk_is_Some _ _ Hx).
  - destruct (H3 (ord_vote 2) (list_elem_of_further _ _ _ (list_elem_of_here _ _)) C2) as (x & Hx & _).
    rewrite ord_id_2 in Hx. exact (mk_is_Some _ _ Hx).
Defined.
End Example.
