(* ===== verification/Duties.v ===== *)
(** What an honest validator signs over time: the votes of ProduceAttestation and the proposer
    attestations of ProduceBlock, along a run of the fork choice.

    The source of a vote is the justified checkpoint of the store, which never goes back, so a
    later vote never surrounds an earlier one.  The target may go back: the code keeps no record
    of what was signed, so that an earlier vote can surround a later one, which is an offence in
    the sense of Finality.v; and while the safe target lags behind the justified checkpoint, a
    vote can even point backwards, which every store ignores. *)
From S2P Require Import Prelude Slot Types Hash Concrete GoStd Bitlist VoteRule Attestations Transition Chain Finality Storage Ghost Leansig ForkChoice ForkInv ForkProduce Aggregation ForkProps.
Local Open Scope Z_scope.

Section Duties.
Context {HW : HashWalker} {MR : MapRange} {FFI : LeansigFFI} {T : Type} `{SL : StorageLaws T}.
Context (shouldVerify : bool) (vs : list Validator).
#[local] Abbreviation wf_fc := (wf_fc shouldVerify vs).

(** A node whose store is [c] signs the vote [data] for its validator [v]. *)
Inductive signs (c : Store T) (v : Z) : AttestationData -> Prop :=
| signs_vote slot Sign c' sa :
    is_u64 slot -> is_u64 v -> total_signer Sign ->
    ProduceAttestation c slot v Sign = Ok (c', inr sa) -> signs c v (sa_Message sa)
| signs_block slot Sign c' env pa :
    is_u64 slot -> is_u64 v -> total_signer Sign -> slot * Z.of_nat (length vs) < 2 ^ 64 - 16 ->
    ProduceBlock c slot v Sign = Ok (c', inr env) ->
    ba_ProposerAttestation (sb_Message env) = Some pa -> signs c v (att_Data pa).

Lemma produced_vote c slot v Sign c' sa :
  wf_fc c -> ProduceAttestation c slot v Sign = Ok (c', inr sa) ->
  exists c1, prepared c slot = Ok c1 /\ wf_fc c1 /\ same_chain c c1 /\ sa_ValidatorID sa = v /\
    ad_Slot (sa_Message sa) = slot /\ ad_Source (sa_Message sa) = fc_latestJustified c1 /\
    getVoteTargetLocked c1 = Ok (ad_Target (sa_Message sa)) /\ cp_Root (ad_Head (sa_Message sa)) = fc_head c1.
Proof.
  intros Hc E. destruct (prepared_wf shouldVerify vs c slot Hc) as (c1 & Ep & Hc1 & Hs). exists c1.
  unfold ProduceAttestation in E. rewrite <- bind_assoc in E. fold (prepared c slot) in E. rewrite Ep in E.
  cbn [mbind outcome_bind] in E. destruct (GetBlock (fc_storage c1) (fc_head c1)) as [hb|]; [|discriminate E].
  destruct (getVoteTargetLocked c1) as [tgt|e|w|] eqn:Et; cbn [map_err catch] in E; try discriminate E.
  destruct (Attestation_HashTreeRoot _) as [m [e|]]; [discriminate E|]. cbn [ad_Slot] in E.
  destruct (Sign (u32 slot) m) as [sig|e|w|]; cbn [map_err catch] in E; try discriminate E.
  apply Ok_inj, (f_equal snd) in E. cbn [snd] in E. apply (inj inr) in E. by rewrite <- E.
Qed.

(** The source of every vote is the justified checkpoint of the store it is signed on. *)
Lemma signs_source c v data : registry_ok vs -> wf_fc c -> signs c v data -> ad_Source data = fc_latestJustified c.
Proof.
  intros Hreg Hc Hs. destruct Hs as [slot Sign c' sa Hslot Hv HS E|slot Sign c' env pa Hslot Hv HS Hroom E Hpa].
  - destruct (produced_vote c slot v Sign c' sa Hc E) as (c1 & _ & _ & Hs & _ & _ & -> & _). apply Hs.
  - destruct (ProduceBlock_run shouldVerify vs c slot v Sign Hc Hreg Hslot Hv HS Hroom)
      as (c1 & c2 & res & _ & _ & Hs & E' & Hres). rewrite E in E'. apply Ok_inj, (f_equal snd) in E'. cbn in E'. subst res.
    destruct Hres as (hs & state & Hp & _). destruct (pr_votes _ _ _ _ _ _ _ Hp) as (l & sig & _ & _ & _ & _ & tgt & m & Epa & _).
    rewrite Epa in Hpa. injection Hpa as <-. apply Hs.
Qed.

(** A vote whose target is before its source leaves every store as it is. *)
Lemma backward_vote_ignored (d : Store T) v data sig b : cp_Slot (ad_Target data) < cp_Slot (ad_Source data) ->
  processAttestationLocked shouldVerify d (mkSignedAttestation v data sig) b = Ok d.
Proof.
  intros Hlt. unfold processAttestationLocked. rewrite bool_decide_eq_false_2; [done|].
  cbn [sa_Message]. unfold validateAttestationData. repeat case_match; try done. lia.
Qed.
End Duties.

(** * Theorems *)

Section Properties.
Context {HW : HashWalker} {MR : MapRange} {FFI : LeansigFFI} {T : Type} `{SL : StorageLaws T}.
Context (shouldVerify : bool) (vs : list Validator).

(** C15: A vote that a node signs later never surrounds one it signed before, whichever of its
    validators signs, as attester or as proposer, and whatever reaches the node in between: the
    sources of its votes are the justified checkpoints of its store and never go back. *)
Theorem later_vote_never_surrounds (c c' : Store T) (v v' : Z) (data data' : AttestationData) :
  registry_ok vs -> wf_fc shouldVerify vs c -> rtc (fc_step shouldVerify vs) c c' ->
  signs vs c v data -> signs vs c' v' data' ->
  cp_Slot (ad_Source data) <= cp_Slot (ad_Source data') /\
  ~ (cp_Slot (ad_Source data') < cp_Slot (ad_Source data) /\ cp_Slot (ad_Target data) < cp_Slot (ad_Target data')).
Proof.
  intros Hreg Hc Hrun Hs Hs'. destruct (run_wf shouldVerify vs c c' Hreg Hc Hrun) as [Hc' Hg].
  rewrite (signs_source shouldVerify vs c v data Hreg Hc Hs), (signs_source shouldVerify vs c' v' data' Hreg Hc' Hs').
  pose proof (gr_justified _ _ Hg). split; [done|lia].
Qed.
End Properties.

(** * Two schedules *)

Section Example.
#[local] Existing Instance toy_walker.
#[local] Existing Instance canonical_range.
#[local] Existing Instance toy_ffi.

(** An envelope for a block without a proposer attestation, with the signatures of its voters. *)
Definition du_sig (att : Attestation) : signature :=
  vec_of XMSSSignatureSize
    (value [] (fx_sign (att_ValidatorID att) (u32 (ad_Slot (att_Data att))) (Attestation_HashTreeRoot att).1)).
Definition du_env (b : Block) : SignedBlockWithAttestation :=
  mkSignedBlock (mkBlockWithAttestation b None) (map du_sig (bb_Attestations (b_Body b))).

(** Importing blocks one after the other; a failure leaves the store alone. *)
Definition du_import (now : Z) (c : Store memory.Store) (b : Block) : Store memory.Store :=
  (value (c, inr tt) (ProcessBlock true (Some now) c (du_env b))).1.
Definition du_imports (now : Z) (c : Store memory.Store) (bs : list Block) : Store memory.Store :=
  foldl (du_import now) c bs.

Definition du_genesis : State := GenerateGenesis 1000 fx_vs.
Definition du_cp (b : Block) : Checkpoint := mkCheckpoint (Block_HashTreeRoot b).1 (b_Slot b).

(** Validator 0 alone: the blocks of its slots 3, 6, 9 and 12. *)
Definition du_a3 : Block := Eval vm_compute in ex_block du_genesis 3 [].
Definition du_A3 : State := Eval vm_compute in ex_next du_genesis du_a3.
Definition du_a6 : Block := Eval vm_compute in ex_block du_A3 6 [].
Definition du_A6 : State := Eval vm_compute in ex_next du_A3 du_a6.
Definition du_a9 : Block := Eval vm_compute in ex_block du_A6 9 [].
Definition du_A9 : State := Eval vm_compute in ex_next du_A6 du_a9.
Definition du_a12 : Block := Eval vm_compute in ex_block du_A9 12 [].

(** Validators 1 and 2: slots 1, 2, 4, 5 and 7, with their votes for slot 1 in slot 2. *)
Definition du_b1 : Block := Eval vm_compute in ex_block du_genesis 1 [].
Definition du_B1 : State := Eval vm_compute in ex_next du_genesis du_b1.
Definition du_cp0 : Checkpoint := Eval vm_compute in mkCheckpoint (b_ParentRoot du_b1) 0.
Definition du_b2 : Block := Eval vm_compute in ex_block du_B1 2 [ex_att 1 du_cp0 (du_cp du_b1); ex_att 2 du_cp0 (du_cp du_b1)].
Definition du_B2 : State := Eval vm_compute in ex_next du_B1 du_b2.
Definition du_b4 : Block := Eval vm_compute in ex_block du_B2 4 [].
Definition du_B4 : State := Eval vm_compute in ex_next du_B2 du_b4.
Definition du_b5 : Block := Eval vm_compute in ex_block du_B4 5 [].
Definition du_B5 : State := Eval vm_compute in ex_next du_B4 du_b5.
Definition du_b7 : Block := Eval vm_compute in ex_block du_B5 7 [].

(** The store of validator 0 at slot 12, and at slot 13 once the other chain has arrived. *)
Definition du_alone : Store memory.Store := du_imports 1049 fx_genesis [du_a3; du_a6; du_a9; du_a12].
Definition du_joined : Store memory.Store := du_imports 1052 du_alone [du_b1; du_b2; du_b4; du_b5; du_b7].

Definition du_vote (c : Store memory.Store) (slot v : Z) : SignedAttestation :=
  right_or (ex_sa 0 ZeroHash 0) (value (c, inl (ErrLib "none")) (ProduceAttestation c slot v (fx_sign v))).2.

(** The checks that make imports steps of the fork choice, as one boolean. *)
Definition du_good (now : Z) (c : Store memory.Store) (b : Block) : bool :=
  bool_decide (wf_Block b) && (b_Slot b * Z.of_nat (length fx_vs) <? 2 ^ 64 - 16) &&
  negb (bool_decide ((Block_HashTreeRoot b).1 = ZeroHash)) &&
  match ProcessBlock true (Some now) c (du_env b) with Ok (_, inr _) => true | _ => false end.
Fixpoint du_all_good (now : Z) (c : Store memory.Store) (bs : list Block) : bool :=
  match bs with
  | [] => true
  | b :: bs' => du_good now c b && du_all_good now (du_import now c b) bs'
  end.

Lemma du_step now c b : is_u64 now -> du_good now c b = true -> fc_step true fx_vs c (du_import now c b).
Proof.
  intros Hnow Hg. unfold du_good in Hg. rewrite !andb_true_iff in Hg. destruct Hg as [[[Hb Hroom] Hz] Hok].
  apply bool_decide_eq_true in Hb. apply Z.ltb_lt in Hroom. apply negb_true_iff, bool_decide_eq_false in Hz.
  apply (step_ProcessBlock true fx_vs c (Some now) (du_env b) _ (inr tt)).
  - intros t [= <-]. exact Hnow.
  - split; [exact Hb|exact I].
  - split; [exact Hroom|exact Hz].
  - exact (value_tt c _ Hok).
Qed.

Lemma du_run now c bs : is_u64 now -> du_all_good now c bs = true -> rtc (fc_step true fx_vs) c (du_imports now c bs).
Proof.
  intros Hnow. revert c. induction bs as [|b bs IH]; intros c Hg; [apply rtc_refl|].
  cbn [du_all_good] in Hg. apply andb_true_iff in Hg as [Hb Hg].
  eapply rtc_l; [exact (du_step now c b Hnow Hb)|exact (IH _ Hg)].
Qed.

Lemma du_vote_ok c slot v :
  match ProduceAttestation c slot v (fx_sign v) with Ok (_, inr _) => true | _ => false end = true ->
  exists c', ProduceAttestation c slot v (fx_sign v) = Ok (c', inr (du_vote c slot v)).
Proof. intros H. eexists. exact (value_inr c (ErrLib "none") _ _ H). Qed.

Lemma du_signs c slot v : is_u64 slot -> is_u64 v ->
  match ProduceAttestation c slot v (fx_sign v) with Ok (_, inr _) => true | _ => false end = true ->
  signs fx_vs c v (sa_Message (du_vote c slot v)).
Proof.
  intros Hs Hv H. destruct (du_vote_ok c slot v H) as [c' E].
  exact (signs_vote fx_vs c v slot (fx_sign v) c' _ Hs Hv (fx_total v) E).
Qed.

Lemma du_alone_run : rtc (fc_step true fx_vs) fx_genesis du_alone.
Proof. apply du_run; [split; [discriminate|reflexivity]|vm_compute; reflexivity]. Qed.
Lemma du_joined_run : rtc (fc_step true fx_vs) du_alone du_joined.
Proof. apply du_run; [split; [discriminate|reflexivity]|vm_compute; reflexivity]. Qed.
Lemma du_signs_alone : signs fx_vs du_alone 0 (sa_Message (du_vote du_alone 12 0)).
Proof. apply du_signs; [split; [discriminate|reflexivity]..|vm_compute; reflexivity]. Qed.
Lemma du_signs_joined : signs fx_vs du_joined 0 (sa_Message (du_vote du_joined 13 0)).
Proof. apply du_signs; [split; [discriminate|reflexivity]..|vm_compute; reflexivity]. Qed.
Lemma du_alone_wf : wf_fc true fx_vs du_alone.
Proof. apply (run_wf true fx_vs fx_genesis du_alone fx_registry fx_wf du_alone_run). Qed.

Lemma later_vote_never_surrounds_witness :
  cp_Slot (ad_Source (sa_Message (du_vote du_alone 12 0))) <= cp_Slot (ad_Source (sa_Message (du_vote du_joined 13 0))).
Proof.
  exact (proj1 (later_vote_never_surrounds true fx_vs du_alone du_joined 0 0 _ _ fx_registry du_alone_wf
    du_joined_run du_signs_alone du_signs_joined)).
Defined.

(** An earlier vote can surround a later one.  Validator 0 builds alone and votes from slot 0 to
    slot 3 of its chain; then the chain of the two others arrives, on which slot 1 is
    justified, and the next vote of the same validator, one slot later, goes from slot 1 to
    slot 2.  No other validator misbehaves, and the two votes are an offence. *)
Theorem earlier_vote_may_surround :
  exists c c' data data', rtc (fc_step true fx_vs) fx_genesis c /\ rtc (fc_step true fx_vs) c c' /\
    signs fx_vs c 0 data /\ signs fx_vs c' 0 data' /\ ad_Slot data < ad_Slot data' /\
    cp_Slot (ad_Source data) < cp_Slot (ad_Source data') < cp_Slot (ad_Target data') /\
    cp_Slot (ad_Target data') < cp_Slot (ad_Target data) /\
    offence [mkAttestation 0 data; mkAttestation 0 data'] 0.
Proof.
  exists du_alone, du_joined, (sa_Message (du_vote du_alone 12 0)), (sa_Message (du_vote du_joined 13 0)).
  split; [exact du_alone_run|]. split; [exact du_joined_run|]. split; [exact du_signs_alone|].
  split; [exact du_signs_joined|]. split; [vm_compute; reflexivity|]. split; [split; vm_compute; reflexivity|].
  split; [vm_compute; reflexivity|].
  eapply (surround_vote _ _ (mkAttestation 0 (sa_Message (du_vote du_joined 13 0))) (mkAttestation 0 (sa_Message (du_vote du_alone 12 0)))).
  - right. left.
  - left.
  - reflexivity.
  - reflexivity.
  - apply Nat.ltb_lt. vm_compute. reflexivity.
  - apply Nat.ltb_lt. vm_compute. reflexivity.
Qed.

(** Slots 1, 2 and 3, the last with the votes that justify slot 2, all imported in slot 3: the safe
    target is still the genesis block. *)
Definition du_c2 : Block := Eval vm_compute in ex_block du_B1 2 [].
Definition du_C2 : State := Eval vm_compute in ex_next du_B1 du_c2.
Definition du_c3 : Block := Eval vm_compute in ex_block du_C2 3 [ex_att 1 du_cp0 (du_cp du_c2); ex_att 2 du_cp0 (du_cp du_c2)].
Definition du_synced : Store memory.Store := du_imports 1013 fx_genesis [du_b1; du_c2; du_c3].

Lemma du_synced_run : rtc (fc_step true fx_vs) fx_genesis du_synced.
Proof. apply du_run; [split; [discriminate|reflexivity]|vm_compute; reflexivity]. Qed.

(** A node that has just caught up votes backwards: its safe target is that of the time before the
    blocks arrived, so the target is three blocks below the head although a later checkpoint
    is justified, and every store ignores the vote. *)
Theorem stale_safe_target_vote :
  exists c data, rtc (fc_step true fx_vs) fx_genesis c /\ signs fx_vs c 0 data /\
    cp_Slot (ad_Target data) < cp_Slot (ad_Source data) /\
    forall (d : Store memory.Store) sig b,
      processAttestationLocked true d (mkSignedAttestation 0 data sig) b = Ok d.
Proof.
  exists du_synced, (sa_Message (du_vote du_synced 3 0)). split; [exact du_synced_run|].
  assert (Hlt : cp_Slot (ad_Target (sa_Message (du_vote du_synced 3 0))) < cp_Slot (ad_Source (sa_Message (du_vote du_synced 3 0))))
    by (vm_compute; reflexivity).
  split; [|split; [exact Hlt|intros d sig b; exact (backward_vote_ignored true d 0 _ sig b Hlt)]].
  apply du_signs; [split; [discriminate|reflexivity]..|vm_compute; reflexivity].
Qed.
End Example.
