(* ===== verification/Liveness.v ===== *)
(** From the votes in a store to the block that justifies: the fork choice, the production of a
    block and the state transition together.

    A proposer whose store holds a timely vote of two thirds of the validators for one block
    produces a block after which that block is justified, at the proposer and at every peer that
    imports it. *)
From S2P Require Import Prelude Slot Types Hash Concrete GoStd Bitlist VoteRule Attestations Transition Chain Finality Progress Storage Ghost Leansig ForkChoice ForkInv ForkProduce Aggregation ForkProps Order.
Local Open Scope Z_scope.

Section Liveness.
Context {HW : HashWalker} {MR : MapRange} {FFI : LeansigFFI} {T : Type} `{SL : StorageLaws T}.
Context (shouldVerify : bool) (vs : list Validator).
#[local] Abbreviation wf_fc := (wf_fc shouldVerify vs).
#[local] Abbreviation n := (length vs).

(** ** The justified checkpoint that the collection looks for *)

(** A block without votes leaves the justified checkpoint of the state it is built on, but for the
    first block, which gives the genesis checkpoints their root. *)
Lemma empty_block_justified hs adv post slot v p :
  wf_state hs -> st_Validators hs = vs -> registry_ok vs -> is_u64 slot -> slot * Z.of_nat n < 2 ^ 64 - 16 ->
  ProcessSlots hs slot = Ok adv ->
  Transition.ProcessBlock adv (mkBlock slot v p ZeroHash (mkBlockBody [])) = Ok post ->
  st_HistoricalBlockHashes hs <> [] -> st_LatestJustified post = st_LatestJustified hs.
Proof.
  intros Hs Hv [Hr0 Hr1] Hslot Hroom Ea Ep Hne. set (b := mkBlock slot v p ZeroHash (mkBlockBody [])) in *.
  destruct (Z.le_gt_cases slot (st_Slot hs)) as [Hle|Hlt]; [by rewrite ProcessSlots_past in Ea|].
  destruct (ProcessSlots_run hs slot (ws_slot _ Hs) Hslot ltac:(lia)) as (r & Ea' & _).
  rewrite Ea in Ea'. apply Ok_inj in Ea' as ->. set (adv := set_Slot _ _) in *.
  assert (Hadv : wf_state adv) by (apply wf_state_advance; [done|done|lia]).
  destruct (ws_ledger _ Hadv) as (L & HR & _). unfold Transition.ProcessBlock in Ep.
  destruct (ProcessBlockHeader adv b) as [s1| | |] eqn:EH; cbn [mbind outcome_bind] in Ep; try done.
  apply (ProcessBlockHeader_iff adv b (lg_justified L)) in EH as [Ha ->]; [|apply Hadv|apply (ws_header _ Hadv)|apply HR].
  pose proof (header_post_rep adv b L Hadv Ha HR) as HR1.
  destruct (ProcessAttestations_run (header_post adv b (lg_justified L)) _ [] HR1) as (s' & L' & E & Hrun & HR' & _).
  { apply header_post_capacity; [exact Hadv|apply Ha|apply Ha|].
    unfold roomy. change (st_Validators adv) with (st_Validators hs). rewrite Hv. split; [lia|exact Hroom]. }
  { constructor. }
  cbn [b_Body bb_Attestations b] in Ep. rewrite E in Ep. apply Ok_inj in Ep as <-.
  inversion Hrun; subst. rewrite (sr_J _ _ HR'), <- (sr_J _ _ HR1). cbn [header_post st_LatestJustified].
  destruct (Z.eqb_spec (bh_Slot (st_LatestBlockHeader adv)) 0) as [E0|]; [|done].
  exfalso. apply Hne. by apply (header_slot_zero adv Hadv) in E0.
Qed.

(** ** The votes that are in the block *)

(** A known vote with a validator and slot of the block is the one in it. *)
Lemma contained_known c1 (l : list SignedAttestation) sa :
  wf_fc c1 -> Forall (from_known c1) l -> from_known c1 sa ->
  containsAttestation (map att_of l) (att_of sa) = true -> att_of sa ∈ map att_of l.
Proof.
  intros Hc Hl [w Hw] Hct. unfold containsAttestation in Hct. apply existsb_exists in Hct as (a & Ha & Heq).
  apply andb_prop in Heq as [Hid%Z.eqb_eq _]. apply list_elem_of_In, list_elem_of_fmap in Ha as (sb & -> & Hsb).
  destruct (proj1 (list.Forall_forall _ _) Hl sb Hsb) as [u Hu].
  pose proof (fi_known _ _ _ Hc) as Hk. destruct (Hk u sb Hu) as [Eu _], (Hk w sa Hw) as [Ew _].
  cbn [att_of att_ValidatorID] in Hid. assert (u = w) as -> by lia.
  rewrite Hu in Hw. injection Hw as ->. by apply list_elem_of_fmap_2.
Qed.

(** A known vote of validator [i] for the checkpoint [cp], from the justified checkpoint of [hs]. *)
Definition holds_vote (c1 : Store T) (hs : State) (cp : Checkpoint) (i : nat) : Prop :=
  exists sa, GetKnownAttestation c1 (Z.of_nat i) = Some sa /\
    ad_Target (sa_Message sa) = cp /\ ad_Source (sa_Message sa) = st_LatestJustified hs.

Lemma held_vote_included c1 slot v Sign env hs state cp i :
  wf_fc c1 -> registry_ok vs -> is_u64 slot -> slot * Z.of_nat n < 2 ^ 64 - 16 ->
  produced c1 slot v Sign env hs state -> st_HistoricalBlockHashes hs <> [] -> holds_vote c1 hs cp i ->
  exists a, a ∈ bb_Attestations (b_Body (ba_Block (sb_Message env))) /\ voter a = i /\
    ad_Target (att_Data a) = cp /\ ad_Source (att_Data a) = st_LatestJustified hs.
Proof.
  intros Hc Hreg Hslot Hroom Hp Hne (sa & Hsa & Ht & Hsrc).
  destruct (ss_post _ _ (fi_storage _ _ _ Hc) _ _ (pr_head _ _ _ _ _ _ _ Hp)) as (Hs & Hv & _).
  destruct (pr_first _ _ _ _ _ _ _ Hp) as (adv & post & Ea & Ep & Hin).
  destruct (pr_votes _ _ _ _ _ _ _ Hp) as (l & sig & Hb & Hl & _).
  pose proof (empty_block_justified hs adv post slot v (fc_head c1) Hs Hv Hreg Hslot Hroom Ea Ep Hne) as HJ.
  destruct (fi_known _ _ _ Hc _ _ Hsa) as (Hid & _ & _ & _ & _ & Hhead).
  assert (Hk : from_known c1 sa) by by exists (Z.of_nat i).
  exists (att_of sa). split.
  - rewrite Hb. apply (contained_known c1 l sa Hc Hl Hk). rewrite <- Hb. apply Hin; [done|]. split; [done|]. by rewrite HJ.
  - unfold voter. cbn [att_of att_ValidatorID att_Data]. split; [|done]. rewrite Hid. lia.
Qed.

(** ** The produced block *)

Lemma produced_justifies c1 slot v Sign env hs state (r : root) (t : nat) V :
  wf_fc c1 -> registry_ok vs -> is_u64 slot -> is_u64 v -> slot * Z.of_nat n < 2 ^ 64 - 16 ->
  produced c1 slot v Sign env hs state ->
  r <> ZeroHash -> st_HistoricalBlockHashes state !! t = Some r ->
  (forall k, st_HistoricalBlockHashes state !! k = Some r -> k = t) ->
  (Z.to_nat (cp_Slot (st_LatestJustified hs)) < t)%nat ->
  IsJustifiableAfter (Z.of_nat t) (cp_Slot (st_LatestFinalized hs)) = true ->
  NoDup V -> (2 * n <= 3 * length V)%nat ->
  (forall i, i ∈ V -> (i < n)%nat /\ holds_vote c1 hs (mkCheckpoint r (Z.of_nat t)) i) ->
  slot_justified state t.
Proof.
  intros Hc Hreg Hslot Hv Hroom Hp Hr Ht Hone Hlt Hja Hnd Hsz Hall.
  destruct (ss_post _ _ (fi_storage _ _ _ Hc) _ _ (pr_head _ _ _ _ _ _ _ Hp)) as (Hs & Hvs & _).
  pose proof (produced_envelope_wf shouldVerify vs c1 slot v Sign env hs state Hc Hslot Hv Hp) as [Hb _].
  set (b := ba_Block (sb_Message env)) in *.
  assert (Hrm : roomy hs (b_Slot b)).
  { split; rewrite Hvs; [apply Hreg|]. unfold b. by rewrite (pr_slot _ _ _ _ _ _ _ Hp). }
  pose proof (pr_transition _ _ _ _ _ _ _ Hp) as E. fold b in E.
  assert (Hnv : numValidators_of hs <> 0).
  { destruct Hreg. unfold numValidators_of. rewrite Hvs, u64_small by (unfold is_u64; lia). lia. }
  pose proof (StateTransition_run hs b Hs Hb Hnv Hrm) as Hrun. rewrite E in Hrun.
  destruct Hrun as (_ & pr & Hacc). pose proof (ac_history _ _ _ _ Hacc) as Hhist.
  assert (Hne : st_HistoricalBlockHashes hs <> []).
  { intros E0. rewrite Hhist, E0 in Ht. destruct t as [|k]; [lia|]. cbn in Ht.
    by apply lookup_replicate in Ht as [-> _]. }
  destruct (ws_J_anchored _ Hs Hne) as [HJj HJh].
  eapply (block_quorum vs hs state b r t V); try done. intros i Hi. right.
  destruct (Hall i Hi) as [Hin Hvote].
  destruct (held_vote_included c1 slot v Sign env hs state _ i Hc Hreg Hslot Hroom Hp Hne Hvote)
    as (a & Ha & Hvo & Htg & Hsrc).
  exists a. unfold timely, tgt_root, src_root, tgt_slot, src_slot. split; [done|]. split; [done|].
  split; [by rewrite Htg|]. split; [|by rewrite Htg; cbn [cp_Slot]; rewrite Nat2Z.id].
  constructor; unfold tgt_root, src_root, tgt_slot, src_slot; rewrite ?Htg, ?Hsrc; cbn [cp_Slot cp_Root]; rewrite ?Nat2Z.id; try done.
  - rewrite Hhist. by apply lookup_app_l_Some.
  - by rewrite Hvo.
Qed.
End Liveness.

(** * The theorem *)

Section Properties.
Context {HW : HashWalker} {MR : MapRange} {FFI : LeansigFFI} {T : Type} `{SL : StorageLaws T}.
Context (shouldVerify : bool) (vs : list Validator).

(** C6: Two thirds of the votes in a store justify.  When a proposer produces a block, and the votes its
    store counts include votes of two thirds of the validators for one block [r] of the chain of
    its head, from the justified checkpoint of the head state, at a later slot [t] that may be
    justified, then the state after the produced block, which the proposer stores and which every
    peer computes on import, has slot [t] justified.  The other votes of the store do not
    matter, nor the order in which the collection finds them. *)
Theorem quorum_is_proposed (c : Store T) (slot v : Z) (Sign : Z -> root -> outcome bytes) (c' : Store T)
    (env : SignedBlockWithAttestation) :
  wf_fc shouldVerify vs c -> registry_ok vs -> is_u64 slot -> is_u64 v -> total_signer Sign ->
  slot * Z.of_nat (length vs) < 2 ^ 64 - 16 -> ProduceBlock c slot v Sign = Ok (c', inr env) ->
  exists c1 hs state, prepared c slot = Ok c1 /\ GetState (fc_storage c1) (fc_head c1) = Some hs /\
    StateTransition hs (ba_Block (sb_Message env)) = Ok state /\
    GetState (fc_storage c') (Block_HashTreeRoot (ba_Block (sb_Message env))).1 = Some state /\
    forall (r : root) (t : nat) (V : list nat),
      r <> ZeroHash -> st_HistoricalBlockHashes state !! t = Some r ->
      (forall k, st_HistoricalBlockHashes state !! k = Some r -> k = t) ->
      (Z.to_nat (cp_Slot (st_LatestJustified hs)) < t)%nat ->
      IsJustifiableAfter (Z.of_nat t) (cp_Slot (st_LatestFinalized hs)) = true ->
      NoDup V -> (2 * length vs <= 3 * length V)%nat ->
      (forall i, i ∈ V -> (i < length vs)%nat /\ holds_vote c1 hs (mkCheckpoint r (Z.of_nat t)) i) ->
      slot_justified state t.
Proof.
  intros Hc Hreg Hslot Hv HS Hroom E.
  destruct (ProduceBlock_run shouldVerify vs c slot v Sign Hc Hreg Hslot Hv HS Hroom)
    as (c1 & c2 & res & Ep & Hc1 & _ & E' & Hres). rewrite E in E'.
  pose proof (f_equal (fun m => match m with Ok x => x | _ => (c', inr env) end) E') as Epair. cbn in Epair.
  injection Epair as <- <-. destruct Hres as (hs & state & Hp & ->). exists c1, hs, state.
  split; [done|]. split; [apply Hp|]. split; [apply Hp|]. split.
  - cbn [set_storage fc_storage]. by rewrite GetState_store_all, decide_True.
  - intros r t V. by apply (produced_justifies shouldVerify vs c1 slot v Sign env hs state r t V).
Qed.
End Properties.

(** * Three slots of a network *)

Section Example.
#[local] Existing Instance toy_walker.
#[local] Existing Instance canonical_range.
#[local] Existing Instance toy_ffi.

(** The votes of slot 1 make the block of slot 1 the safe target; those of slot 2 are for it; validator
    0 proposes at slot 3. *)
Definition lv_vote (c : Store memory.Store) (slot v : Z) : SignedAttestation :=
  right_or (ex_sa 0 ZeroHash 0) (value (c, inl (ErrLib "none")) (ProduceAttestation c slot v (fx_sign v))).2.
Definition lv_hear (now : Z) (c : Store memory.Store) (l : list SignedAttestation) : Store memory.Store :=
  value c (foldM (ProcessAttestation true (Some now)) c l).
Definition lv_slot1 : Store memory.Store := lv_hear 1005 fx_peer [ord_vote 0; ord_vote 2].
Definition lv_slot2 : Store memory.Store := lv_hear 1009 lv_slot1 [lv_vote lv_slot1 2 0; lv_vote lv_slot1 2 1].
Definition lv_produced : Store memory.Store * (error + SignedBlockWithAttestation) :=
  value (lv_slot2, inl (ErrLib "none")) (ProduceBlock lv_slot2 3 0 (fx_sign 0)).
Definition lv_env : SignedBlockWithAttestation := right_or fx_env lv_produced.2.

Lemma lv_hear_wf now c l : is_u64 now -> wf_fc true fx_vs c -> Forall wf_SignedAttestation l ->
  wf_fc true fx_vs (lv_hear now c l).
Proof.
  intros Hnow Hc Hl. assert (H : exists c', foldM (ProcessAttestation true (Some now)) c l = Ok c' /\ wf_fc true fx_vs c').
  { revert c Hc. induction Hl as [|sa l Hsa Hl IH]; intros c Hc; cbn [foldM]; [by exists c|].
    destruct (ProcessAttestation_op true fx_vs (Some now) c sa Hc (proj2 fx_registry)) as (c1 & -> & Hc1 & _);
      [by intros t [= <-]|done|]. by apply IH. }
  destruct H as (c' & E & Hc'). unfold lv_hear. by rewrite E.
Qed.

Lemma lv_votes_wf : Forall wf_SignedAttestation [lv_vote lv_slot1 2 0; lv_vote lv_slot1 2 1].
Proof. apply (bool_decide_unpack (Forall wf_SignedAttestation _)). vm_compute. exact I. Qed.
Lemma lv_slot2_wf : wf_fc true fx_vs lv_slot2.
Proof.
  apply lv_hear_wf; [split; [discriminate|reflexivity]| |exact lv_votes_wf].
  apply lv_hear_wf; [split; [discriminate|reflexivity]|exact fx_peer_wf|exact ord_wf].
Qed.
Lemma lv_produced_ok : ProduceBlock lv_slot2 3 0 (fx_sign 0) = Ok (lv_produced.1, inr lv_env).
Proof.
  unfold lv_env, lv_produced. refine (value_inr _ _ (ProduceBlock lv_slot2 3 0 (fx_sign 0)) _ _).
  vm_compute. reflexivity.
Qed.

(** What the theorem is evaluated on: the store, the head state and the post-state of the production. *)
Definition lv_c1 : Store memory.Store := value fx_dummy (prepared lv_slot2 3).
Definition lv_hs : State := default (GenerateGenesis 0 []) (GetState (fc_storage lv_c1) (fc_head lv_c1)).
Definition lv_state : State := value lv_hs (StateTransition lv_hs (ba_Block (sb_Message lv_env))).
Definition lv_target : root := default ZeroHash (st_HistoricalBlockHashes lv_state !! 1%nat).

Lemma lv_history : NoDup (st_HistoricalBlockHashes lv_state) /\ st_HistoricalBlockHashes lv_state !! 1%nat = Some lv_target.
Proof.
  split; [apply (bool_decide_unpack _); vm_compute; exact I|].
  refine (value_Some ZeroHash (st_HistoricalBlockHashes lv_state !! 1%nat) _). vm_compute. reflexivity.
Qed.
Definition votes_for_link (o : option SignedAttestation) (tgt src : Checkpoint) : bool :=
  match o with
  | Some sa => bool_decide (ad_Target (sa_Message sa) = tgt) && bool_decide (ad_Source (sa_Message sa) = src)
  | None => false
  end.
Lemma votes_for_link_spec (c1 : Store memory.Store) hs tgt i :
  votes_for_link (GetKnownAttestation c1 (Z.of_nat i)) tgt (st_LatestJustified hs) = true -> holds_vote c1 hs tgt i.
Proof.
  unfold holds_vote, votes_for_link. destruct (GetKnownAttestation c1 (Z.of_nat i)) as [sa|]; [|done].
  intros [H1%bool_decide_eq_true H2%bool_decide_eq_true]%andb_prop. by exists sa.
Qed.
Lemma lv_u64 x : bool_decide (is_u64 x) = true -> is_u64 x.
Proof. apply bool_decide_eq_true. Qed.
Lemma lv_room : 3 * Z.of_nat (length fx_vs) < 2 ^ 64 - 16.
Proof. vm_compute. reflexivity. Qed.

Lemma quorum_is_proposed_witness : slot_justified lv_state 1 /\ ~ slot_justified lv_hs 1.
Proof.
  split; [|intros [H _]; vm_compute in H; discriminate H].
  pose proof (quorum_is_proposed true fx_vs lv_slot2 3 0 (fx_sign 0) lv_produced.1 lv_env lv_slot2_wf fx_registry
    (lv_u64 3 eq_refl) (lv_u64 0 eq_refl) (fx_total 0) lv_room lv_produced_ok) as P.
  destruct P as (c1 & hs & state & E1 & Ehs & Est & _ & H).
  assert (c1 = lv_c1) as -> by (unfold lv_c1; by rewrite E1).
  assert (hs = lv_hs) as -> by (unfold lv_hs; by rewrite Ehs).
  assert (state = lv_state) as -> by (unfold lv_state; by rewrite Est).
  apply (H lv_target 1%nat [0; 1]%nat).
  - intros Hz. assert (Hb : bool_decide (lv_target = ZeroHash) = false) by (vm_compute; reflexivity).
    by rewrite bool_decide_eq_true_2 in Hb.
  - exact (proj2 lv_history).
  - intros k Hk. exact (NoDup_lookup _ k 1%nat _ (proj1 lv_history) Hk (proj2 lv_history)).
  - apply Nat.ltb_lt. vm_compute. reflexivity.
  - vm_compute. reflexivity.
  - apply (bool_decide_unpack _). vm_compute. exact I.
  - apply Nat.leb_le. vm_compute. reflexivity.
  - intros i [->|[->|Hi%elem_of_nil]%elem_of_cons]%elem_of_cons; [..|destruct Hi];
      (split; [apply Nat.ltb_lt; vm_compute; reflexivity|apply votes_for_link_spec; vm_compute; reflexivity]).
Defined.
End Example.
