(* ===== verification/SszProps.v ===== *)
(** The theorems on the SSZ wire format: round trips, decoders that accept nothing but encodings,
    and what the format cannot carry. *)
From S2P Require Import Prelude Types Hash Bitlist Ssz SszCodec SszWire.
From S2P Require Import GoStd VoteRule Attestations Storage Leansig ForkChoice.
Local Open Scope Z_scope.

(** ** A concrete runtime, for the witnesses *)

Definition toy_validate (b : bytes) (limit : Z) : option error :=
  let l := map (fun i => GetBit b (Z.of_nat i)) (seq 0 (Z.to_nat (BitlistLen b))) in
  if decide (b = encode_bits l /\ Z.of_nat (length l) <= limit) then None else Some (ErrLib "bitlist").

#[export] Instance toy_ssz : SszRuntime := {
  MarshalUint64 dst v := dst ++ le_bytes 8 v;
  UnmarshallUint64 := le_Z;
  WriteOffset dst o := dst ++ le_bytes 4 o;
  ReadOffset := le_Z;
  DivideInt2 a b max := if (a mod b =? 0) && (a / b <=? max) then inl (a / b) else inr (ErrLib "DivideInt2");
  ValidateBitlist := toy_validate;
  ErrListTooBigFn name got want := Errorf "%s: list too big" [Str name; Num got; Num want];
  ErrBytesLengthFn name got want := Errorf "%s: bytes too long" [Str name; Num got; Num want];
  MarshalSSZ A size m := m [] }.

#[export] Instance toy_ssz_laws : SszLaws toy_ssz.
Proof.
  split; try done.
  - intros n b max Hn Hb. cbn. rewrite Z.mod_mul, Z.div_mul by lia. by rewrite (proj2 (Z.leb_le _ _)) by lia.
  - intros a b max Ha Hb Hno. cbn. destruct (Z.eqb_spec (a mod b) 0) as [E|]; cbn [andb]; [|by eexists].
    destruct (Z.leb_spec (a / b) max); [|by eexists]. exfalso. apply (Hno (a / b)); [done|].
    pose proof (Z.div_mod a b ltac:(lia)). lia.
  - intros b limit. change (ValidateBitlist b limit) with (toy_validate b limit). unfold toy_validate. cbv zeta. split.
    + case_decide as Hd; [|done]. intros _. eexists. exact Hd.
    + intros (l & -> & Hl). rewrite bitlist_roundtrip. by rewrite decide_True.
Qed.

Section Wire.
Context {RT : SszRuntime} {LAWS : SszLaws RT}.

Lemma SignedBlock_run s : fits_SignedBlock (filled_envelope s) ->
  SignedBlock_MarshalSSZ s = Ok (wire_SignedBlock s, filled_envelope s).
Proof. intros H. unfold SignedBlock_MarshalSSZ. by rewrite marshal_fresh, marshal_SignedBlock. Qed.

(** C9: a signed block within the limits of the format survives the wire: MarshalSSZ writes
    SizeSSZ bytes, and UnmarshalSSZ reads the same envelope back, except that a nil proposer
    attestation comes back as the zero attestation, which is also what MarshalSSZ leaves in the
    envelope it was given. *)
Theorem block_wire_roundtrip (s : SignedBlockWithAttestation) :
  fits_SignedBlock (filled_envelope s) ->
  exists buf, SignedBlock_MarshalSSZ s = Ok (buf, filled_envelope s) /\
    len buf = SignedBlock_SizeSSZ s /\ SignedBlock_UnmarshalSSZ buf = Ok (filled_envelope s).
Proof.
  intros H. exists (wire_SignedBlock s). split_and!; [by apply SignedBlock_run|apply len_wire_SignedBlock|].
  change (wire_SignedBlock s) with (wire_SignedBlock (filled_envelope s)). by apply codec_dec.
Qed.

(** C22: decoding a signed block is safe and canonical on any input: it never panics, and bytes
    that decode are exactly the encoding of the envelope they decode to, so no two byte strings
    carry the same block. *)
Theorem block_decoder_canonical (buf : bytes) :
  (exists s, SignedBlock_UnmarshalSSZ buf = Ok s /\ fits_SignedBlock s /\ SignedBlock_MarshalSSZ s = Ok (buf, s)) \/
  (exists e, SignedBlock_UnmarshalSSZ buf = Err e).
Proof.
  pose proof (codec_total buf : total (SignedBlock_UnmarshalSSZ buf) _ _) as H.
  destruct (SignedBlock_UnmarshalSSZ buf) as [s|e| |]; try done; [left|right; by exists e].
  destruct H as [Hs <-]. exists s. split_and!; [done|done|].
  assert (Hf : filled_envelope s = s).
  { destruct s as [m sg]. unfold filled_envelope. cbn [sb_Message sb_Signature]. f_equal. apply filled_idem, Hs. }
  pose proof (SignedBlock_run s) as R. rewrite Hf in R. by apply R.
Qed.

(** A signed vote is a byte string of 3248 bytes: encoding and decoding are inverse to each
    other on votes in range and byte strings of that length, any other length is ErrSize. *)
Theorem attestation_wire_bijective :
  (forall s, wf_SignedAttestation s -> exists buf, SignedAttestation_MarshalSSZ s = Ok buf /\
     len buf = SignedAttestation_SizeSSZ s /\ SignedAttestation_UnmarshalSSZ buf = Ok s) /\
  (forall buf, len buf = 3248 -> exists s, SignedAttestation_UnmarshalSSZ buf = Ok s /\
     wf_SignedAttestation s /\ SignedAttestation_MarshalSSZ s = Ok buf) /\
  (forall buf, len buf <> 3248 -> SignedAttestation_UnmarshalSSZ buf = Err ErrSize).
Proof.
  assert (Hm : forall s, wf_SignedAttestation s -> SignedAttestation_MarshalSSZ s = Ok (wire_SignedAttestation s)).
  { intros s Hs. unfold SignedAttestation_MarshalSSZ. by rewrite marshal_fresh, marshal_SignedAttestation. }
  split_and!.
  - intros s Hs. exists (wire_SignedAttestation s). split_and!; [by apply Hm| |by apply fixed_dec].
    unfold len. by rewrite length_wire_SignedAttestation.
  - intros buf Hb. destruct (fixed_surj (FixedCodec:=SignedAttestation_codec) buf) as (s & Hs & <-).
    { unfold len in Hb. lia. }
    exists s. split_and!; [by apply fixed_dec|done|by apply Hm].
  - intros buf Hb. unfold SignedAttestation_UnmarshalSSZ. by rewrite (proj2 (Z.eqb_neq _ _)).
Qed.

(** C29: a state within the limits survives the wire, and bytes that decode into a state are the
    encoding of one; the decoder never panics. The two bitlists are appended to those of the
    receiver, so only a receiver whose bitlists are empty gets the state that was written. *)
Theorem state_wire_roundtrip (r : State) :
  (forall s, fits_State s -> exists buf, State_MarshalSSZ s = Ok buf /\ len buf = State_SizeSSZ s /\
     State_UnmarshalSSZ r buf = Ok (onto r s)) /\
  (forall buf, (exists s, State_UnmarshalSSZ r buf = Ok (onto r s) /\ fits_State s /\ State_MarshalSSZ s = Ok buf) \/
     exists e, State_UnmarshalSSZ r buf = Err e) /\
  (forall s, onto r s = s <-> st_JustifiedSlots r = [] /\ st_JustificationsValidators r = []).
Proof.
  assert (Hm : forall s, fits_State s -> State_MarshalSSZ s = Ok (wire_State s)).
  { intros s Hs. unfold State_MarshalSSZ. by rewrite marshal_fresh, marshal_State. }
  split_and!.
  - intros s Hs. exists (wire_State s). split_and!; [by apply Hm|apply len_wire_State|by apply State_decode].
  - intros buf. pose proof (State_decode_total r buf) as H.
    destruct (State_UnmarshalSSZ r buf) as [x|e| |]; try done; [left|right; by exists e].
    destruct H as (s & Hs & -> & <-). exists s. split_and!; [done|done|by apply Hm].
  - intros s. destruct s as [cfg sl h j f hs js vs rs jv]. unfold onto. cbn. split.
    + intros [= H1 H2]. split; [by apply (app_inv_tail js)|by apply (app_inv_tail jv)].
    + by intros [-> ->].
Qed.

(** what the wire cannot carry. A block without proposer attestation that passes the signature
    count of ProcessBlock fails it after one trip over the wire; and a block with the full 4096
    attestations and a proposer attestation needs 4097 signatures to pass it, which MarshalSSZ
    refuses. *)
Theorem wire_loses_valid_blocks (s : SignedBlockWithAttestation) :
  checkSignatureCount s = Ok () ->
  (ba_ProposerAttestation (sb_Message s) = None -> forall buf s', SignedBlock_MarshalSSZ s = Ok (buf, s') ->
     fits_Block (ba_Block (sb_Message s)) -> len (sb_Signature s) <= 4096 ->
     exists d e, SignedBlock_UnmarshalSSZ buf = Ok d /\ checkSignatureCount d = Err e) /\
  (fits_Block (ba_Block (sb_Message s)) -> is_Some (ba_ProposerAttestation (sb_Message s)) ->
   (forall a, ba_ProposerAttestation (sb_Message s) = Some a -> wf_Attestation a) ->
   len (bb_Attestations (b_Body (ba_Block (sb_Message s)))) = 4096 ->
     exists e, SignedBlock_MarshalSSZ s = Err e).
Proof.
  intros Hc. unfold checkSignatureCount in Hc. split.
  - intros Hn buf s' Em Hb Hs. rewrite Hn in Hc.
    assert (Hf : fits_SignedBlock (filled_envelope s)).
    { split; [|done]. split; [done|]. cbn. rewrite Hn. apply zero_Attestation_wf. }
    rewrite (SignedBlock_run s Hf) in Em. injection Em as <- <-.
    change (wire_SignedBlock s) with (wire_SignedBlock (filled_envelope s)).
    exists (filled_envelope s). rewrite codec_dec by done. unfold checkSignatureCount.
    cbn [filled_envelope filled sb_Message sb_Signature ba_Block ba_ProposerAttestation].
    destruct (Nat.eqb_spec (length (sb_Signature s)) (length (bb_Attestations (b_Body (ba_Block (sb_Message s))))))
      as [E|]; [|discriminate Hc].
    rewrite E. rewrite (proj2 (Nat.eqb_neq _ _)) by lia. cbn [negb fail_if]. by eexists.
  - intros Hb [a Ha] Hwf Hl. rewrite Ha in Hc.
    destruct (Nat.eqb_spec (length (sb_Signature s)) (length (bb_Attestations (b_Body (ba_Block (sb_Message s)))) + 1))
      as [E|]; [|discriminate Hc].
    unfold SignedBlock_MarshalSSZ. rewrite marshal_fresh. unfold SignedBlock_MarshalSSZTo.
    rewrite marshal_BlockWithAttestation by (split; [done|]; cbn; rewrite Ha; by apply Hwf).
    cbn [mbind outcome_bind]. rewrite (proj2 (Z.ltb_lt _ _)) by (unfold len in *; lia). by eexists.
Qed.
End Wire.

(** * Concrete inputs *)

Definition ex_att3 : Attestation := ex_vote 2 0 1.
Definition ex_envelope (pa : option Attestation) (sigs : nat) : SignedBlockWithAttestation :=
  mkSignedBlock (mkBlockWithAttestation (mkBlock 7 1 (ex_root 3) (ex_root 4) (mkBlockBody [ex_att3; ex_att3])) pa)
    (replicate sigs (vreplicate XMSSSignatureSize Byte.x2a)).

Lemma ex_att3_wf : wf_Attestation ex_att3.
Proof. apply (bool_decide_unpack _). vm_compute. exact I. Qed.
Lemma ex_block_fits pa sigs : fits_Block (ba_Block (sb_Message (ex_envelope pa sigs))).
Proof.
  split; [done|]. split; [done|]. split; [|done].
  constructor; [apply ex_att3_wf|constructor; [apply ex_att3_wf|constructor]].
Qed.
Lemma ex_envelope_fits : fits_SignedBlock (filled_envelope (ex_envelope None 2)).
Proof. split; [|done]. split; [apply ex_block_fits|]. apply zero_Attestation_wf. Qed.

Lemma block_wire_roundtrip_witness :
  exists buf, SignedBlock_MarshalSSZ (ex_envelope None 2) = Ok (buf, filled_envelope (ex_envelope None 2)) /\
    len buf = 8 + 140 + 84 + 4 + 2 * 136 + 2 * 3112 /\
    SignedBlock_UnmarshalSSZ buf = Ok (filled_envelope (ex_envelope None 2)).
Proof. exact (block_wire_roundtrip (ex_envelope None 2) ex_envelope_fits). Defined.

Lemma block_decoder_canonical_witness :
  (exists s, SignedBlock_UnmarshalSSZ [] = Ok s /\ fits_SignedBlock s /\ SignedBlock_MarshalSSZ s = Ok ([], s)) \/
  (exists e, SignedBlock_UnmarshalSSZ [] = Err e).
Proof. exact (block_decoder_canonical []). Defined.

Lemma attestation_wire_bijective_witness :
  exists s, SignedAttestation_UnmarshalSSZ (replicate (Z.to_nat 3248) Byte.x01) = Ok s /\ wf_SignedAttestation s /\
    SignedAttestation_MarshalSSZ s = Ok (replicate (Z.to_nat 3248) Byte.x01).
Proof.
  apply (proj1 (proj2 attestation_wire_bijective)). unfold len. rewrite length_replicate. reflexivity.
Defined.

Definition ex_wire_state : State :=
  {| st_Config := mkConfig 1000; st_Slot := 9; st_LatestBlockHeader := mkBlockHeader 8 2 (ex_root 1) ZeroHash (ex_root 2);
     st_LatestJustified := ex_checkpoint 3; st_LatestFinalized := ex_checkpoint 1;
     st_HistoricalBlockHashes := [ex_root 0; ex_root 1; ZeroHash];
     st_JustifiedSlots := encode_bits [true; false; true];
     st_Validators := ex_validators 3; st_JustificationsRoots := [ex_root 1];
     st_JustificationsValidators := encode_bits [false; true; false] |}.
Lemma ex_wire_state_fits : fits_State ex_wire_state.
Proof.
  split; try done.
  - by exists [true; false; true].
  - repeat constructor; discriminate.
  - by exists [false; true; false].
Qed.

Lemma state_wire_roundtrip_witness :
  exists buf, State_MarshalSSZ ex_wire_state = Ok buf /\ len buf = State_SizeSSZ ex_wire_state /\
    State_UnmarshalSSZ ex_wire_state buf = Ok (onto ex_wire_state ex_wire_state).
Proof. exact (proj1 (state_wire_roundtrip ex_wire_state) ex_wire_state ex_wire_state_fits). Defined.

Lemma wire_loses_valid_blocks_witness :
  exists d e, SignedBlock_UnmarshalSSZ (wire_SignedBlock (ex_envelope None 2)) = Ok d /\ checkSignatureCount d = Err e.
Proof.
  apply (proj1 (wire_loses_valid_blocks (ex_envelope None 2) eq_refl) eq_refl _
    (filled_envelope (ex_envelope None 2))); [|apply ex_block_fits|done].
  exact (SignedBlock_run _ ex_envelope_fits).
Defined.
