(* ===== verification/Wire.v ===== *)
(** The message framing of network/reqresp/codec.go: unsigned varints (Go's encoding/binary) and
    snappy frames.

    A stream is the list of the bytes that arrive before its end; a reader returns the rest of
    the stream.  [Snappy] is the compression library (github.com/golang/snappy). *)
From S2P Require Import Prelude Ssz.
Local Open Scope Z_scope.

(** * encoding/binary *)

Definition EOF : error := ErrLib "EOF".
Definition ErrUnexpectedEOF : error := ErrLib "ErrUnexpectedEOF".
Definition ErrOverflow : error := ErrLib "binary: varint overflows a 64-bit integer".

Definition MaxVarintLen64 : nat := 10.

(** [for x >= 0x80 { buf\[i\] = byte(x) | 0x80; x >>= 7; i++ }; buf\[i\] = byte(x)] *)
Fixpoint put_uvarint (fuel : nat) (x : Z) : bytes :=
  match fuel with
  | O => []
  | S fuel' => if x <? 128 then [Z_byte x]
               else Z_byte (Z.lor (x mod 256) 128) :: put_uvarint fuel' (Z.shiftr x 7)
  end.
Definition PutUvarint (x : Z) : bytes := put_uvarint MaxVarintLen64 x.

(** The loop of ReadUvarint, at byte number [i] with the value [x] and the shift [s] so far. *)
Fixpoint read_uvarint (fuel i : nat) (x s : Z) (r : bytes) : outcome (Z * bytes) :=
  match fuel with
  | O => Err ErrOverflow
  | S fuel' =>
      match r with
      | [] => Err (if (i =? 0)%nat then EOF else ErrUnexpectedEOF)
      | b :: r' =>
          if byte_Z b <? 128 then
            if (i =? MaxVarintLen64 - 1)%nat && (1 <? byte_Z b) then Err ErrOverflow
            else Ok (Z.lor x (u64 (Z.shiftl (byte_Z b) s)), r')
          else read_uvarint fuel' (S i) (Z.lor x (u64 (Z.shiftl (Z.land (byte_Z b) 127) s))) (s + 7) r'
      end
  end.
Definition ReadUvarint (r : bytes) : outcome (Z * bytes) := read_uvarint MaxVarintLen64 0 0 0 r.

Lemma lor_shiftl x b s : 0 <= s -> 0 <= x < 2 ^ s -> Z.lor x (Z.shiftl b s) = x + b * 2 ^ s.
Proof.
  intros Hs Hx. rewrite <- Z.shiftl_mul_pow2 by done. symmetry. apply Z.add_nocarry_lor.
  apply Z.bits_inj'. intros k Hk. rewrite Z.land_spec, Z.bits_0, Z.shiftl_spec by done.
  destruct (Z.lt_ge_cases k s).
  - by rewrite (Z.testbit_neg_r b), andb_false_r by lia.
  - rewrite <- (Z.mod_small x (2 ^ s)), Z.mod_pow2_bits_high by lia. done.
Qed.

Lemma low_byte x : Z.land (byte_Z (Z_byte (Z.lor (x mod 256) 128))) 127 = x mod 128.
Proof.
  rewrite byte_Z_Z_byte.
  change 127 with (Z.ones 7). change 256 with (2 ^ 8). apply Z.bits_inj'. intros k Hk.
  rewrite Z.land_spec, Z.testbit_ones_nonneg by lia. change 128 with (2 ^ 7).
  destruct (Z.ltb_spec k 7).
  - rewrite andb_true_r, !Z.mod_pow2_bits_low, Z.lor_spec, Z.mod_pow2_bits_low by lia.
    rewrite Z.pow2_bits_false by lia. apply orb_false_r.
  - by rewrite andb_false_r, Z.mod_pow2_bits_high by lia.
Qed.
Lemma high_byte x : 128 <= byte_Z (Z_byte (Z.lor (x mod 256) 128)).
Proof.
  rewrite byte_Z_Z_byte. destruct (Z.lt_ge_cases (Z.lor (x mod 256) 128 mod 256) 128) as [H|]; [|done].
  assert (Ht : Z.testbit (Z.lor (x mod 256) 128 mod 256) 7 = true).
  { change 256 with (2 ^ 8). rewrite Z.mod_pow2_bits_low by lia. rewrite Z.lor_spec.
    change 128 with (2 ^ 7). rewrite Z.pow2_bits_true by lia. apply orb_true_r. }
  rewrite <- (Z.mod_small (Z.lor (x mod 256) 128 mod 256) (2 ^ 7)) in Ht
    by (pose proof (Z.mod_pos_bound (Z.lor (x mod 256) 128) 256); lia).
  rewrite Z.mod_pow2_bits_high in Ht by lia. done.
Qed.

(** From byte [i] on: [v] more bits are added above the [7 * i] bits already read. *)
Lemma read_put_uvarint (fuel i : nat) (x v : Z) (r : bytes) :
  (fuel + i = 10)%nat -> (i < 10)%nat -> 0 <= x < 2 ^ (7 * Z.of_nat i) -> 0 <= v < 2 ^ (64 - 7 * Z.of_nat i) ->
  read_uvarint fuel i x (7 * Z.of_nat i) (put_uvarint fuel v ++ r) = Ok (x + v * 2 ^ (7 * Z.of_nat i), r).
Proof.
  revert i x v. induction fuel as [|fuel IH]; intros i x v Hf Hi Hx Hv; [lia|].
  cbn [put_uvarint read_uvarint]. destruct (Z.ltb_spec v 128).
  - cbn [app]. rewrite byte_Z_Z_byte, Z.mod_small by lia. rewrite (proj2 (Z.ltb_lt _ _)) by done.
    assert (Hsafe : (i =? 9)%nat && (1 <? v) = false).
    { destruct (Nat.eqb_spec i 9) as [->|]; [|done]. cbn [andb]. change (2 ^ (64 - 7 * Z.of_nat 9)) with 2 in Hv.
      apply Z.ltb_ge. lia. }
    change (MaxVarintLen64 - 1)%nat with 9%nat. rewrite Hsafe. rewrite u64_small.
    + by rewrite lor_shiftl by lia.
    + rewrite Z.shiftl_mul_pow2 by lia. split; [nia|].
      replace (2 ^ 64) with (2 ^ (64 - 7 * Z.of_nat i) * 2 ^ (7 * Z.of_nat i)) by (rewrite <- Z.pow_add_r by lia; f_equal; lia).
      apply Z.mul_lt_mono_pos_r; lia.
  - cbn [app]. rewrite (proj2 (Z.ltb_ge _ _)) by apply high_byte. rewrite low_byte.
    assert (Hi' : (i < 9)%nat).
    { destruct (decide (i = 9%nat)) as [->|]; [|lia]. change (2 ^ (64 - 7 * Z.of_nat 9)) with 2 in Hv. lia. }
    pose proof (Z.mod_pos_bound v 128 ltac:(lia)) as Hm.
    assert (Hp : 2 ^ (64 - 7 * Z.of_nat i) = 128 * 2 ^ (64 - 7 * Z.of_nat (S i))).
    { change 128 with (2 ^ 7). rewrite <- Z.pow_add_r by lia. f_equal. lia. }
    assert (Hs : 2 ^ (7 * Z.of_nat (S i)) = 2 ^ (7 * Z.of_nat i) * 128).
    { change 128 with (2 ^ 7). rewrite <- Z.pow_add_r by lia. f_equal. lia. }
    rewrite u64_small.
    + rewrite lor_shiftl by lia. replace (7 * Z.of_nat i + 7) with (7 * Z.of_nat (S i)) by lia.
      rewrite Z.shiftr_div_pow2 by lia. change (2 ^ 7) with 128.
      rewrite IH; [|lia|lia|rewrite Hs; nia|].
      * f_equal. f_equal. rewrite Hs. rewrite (Z.div_mod v 128) at 3 by lia. ring.
      * split; [apply Z.div_pos; lia|]. apply Z.div_lt_upper_bound; lia.
    + rewrite Z.shiftl_mul_pow2 by lia. split; [nia|].
      replace (2 ^ 64) with (2 ^ (64 - 7 * Z.of_nat i) * 2 ^ (7 * Z.of_nat i)) by (rewrite <- Z.pow_add_r by lia; f_equal; lia).
      apply Z.mul_lt_mono_pos_r; [lia|]. lia.
Qed.

Lemma Uvarint_roundtrip v r : is_u64 v -> ReadUvarint (PutUvarint v ++ r) = Ok (v, r).
Proof.
  intros Hv. unfold ReadUvarint, PutUvarint.
  pose proof (read_put_uvarint 10 0 0 v r eq_refl ltac:(lia)) as H. change (7 * Z.of_nat 0) with 0 in H.
  change MaxVarintLen64 with 10%nat. rewrite H; [|done|exact Hv]. by rewrite Z.pow_0_r, Z.mul_1_r, Z.add_0_l.
Qed.

(** What a read consumes, and the range of its value. *)
Lemma lor_u64 x y : is_u64 x -> is_u64 (Z.lor x (u64 y)).
Proof.
  intros Hx. pose proof (u64_range y) as Hy. unfold is_u64 in *. split; [apply Z.lor_nonneg; lia|].
  destruct (Z.eq_dec (Z.lor x (u64 y)) 0) as [->|Hne]; [done|].
  apply Z.log2_lt_pow2; [pose proof (proj2 (Z.lor_nonneg x (u64 y)) ltac:(lia)); lia|].
  rewrite Z.log2_lor by lia. apply Z.max_lub_lt.
  - destruct (Z.eq_dec x 0) as [->|]; [done|]. apply Z.log2_lt_pow2; lia.
  - destruct (Z.eq_dec (u64 y) 0) as [->|]; [done|]. apply Z.log2_lt_pow2; lia.
Qed.
Lemma read_uvarint_total fuel i x s r : is_u64 x ->
  total (read_uvarint fuel i x s r) (fun vr => is_u64 vr.1 /\ (length vr.2 < length r)%nat) (fun _ => True).
Proof.
  revert i x s r. induction fuel as [|fuel IH]; intros i x s r Hx; [done|]. cbn [read_uvarint].
  destruct r as [|b r]; [done|]. case_match; [case_match; [done|]|].
  - cbn. split; [by apply lor_u64|lia].
  - eapply total_mono; [by apply IH, lor_u64| |done]. cbn. intros [v r'] _ [H1 H2]. cbn in *. split; [done|lia].
Qed.

(** * Snappy frames (codec.go) *)

Class Snappy := {
  (** all the bytes a buffered writer produces for one write *)
  snappy_frame : bytes -> bytes;
  (** io.ReadFull on a snappy reader, into a buffer of the given length *)
  snappy_read : Z -> bytes -> outcome (bytes * bytes);
  snappy_Encode : bytes -> bytes;
  snappy_Decode : bytes -> outcome bytes }.

(** Framed data is read back by a read of its length, which stops at the end of the frame; a read
    returns as many bytes as asked for, or an error; blocks are decoded to what was encoded. *)
Class SnappyLaws (SN : Snappy) : Prop := {
  frame_read data rest : snappy_read (len data) (snappy_frame data ++ rest) = Ok (data, rest);
  read_total n r : 0 <= n ->
    total (snappy_read n r) (fun dr => len dr.1 = n /\ (length dr.2 <= length r)%nat) (fun _ => True);
  encode_decode data : snappy_Decode (snappy_Encode data) = Ok data;
  decode_total data : total (snappy_Decode data) (fun _ => True) (fun _ => True) }.

Section Code.
Context {SN : Snappy}.

(** The bytes WriteSnappyFrame writes to the stream. *)
Definition WriteSnappyFrame (data : bytes) : bytes :=
  PutUvarint (u64 (len data)) ++ snappy_frame data.

Definition ReadSnappyFrame (r : bytes) : outcome (bytes * bytes) :=
  '(length, r) ← ReadUvarint r;
  if 10 * 1024 * 1024 <? length then Err (Errorf "message too large: %d" [Num length])
  else map_err (Wrapf "snappy frame decode: %w" []) (snappy_read length r).

Definition ReadResponseCode (r : bytes) : outcome (byte * bytes) :=
  match r with [] => Err EOF | b :: r' => Ok (b, r') end.
End Code.

Section Frames.
Context {SN : Snappy} {SNL : SnappyLaws SN}.

Lemma frame_roundtrip data rest : len data <= 10 * 1024 * 1024 ->
  ReadSnappyFrame (WriteSnappyFrame data ++ rest) = Ok (data, rest).
Proof.
  intros Hd. unfold ReadSnappyFrame, WriteSnappyFrame. assert (is_u64 (len data)) by (unfold is_u64, len in *; lia).
  rewrite u64_small, <- app_assoc, Uvarint_roundtrip by done. cbn [mbind outcome_bind].
  rewrite (proj2 (Z.ltb_ge _ _)) by done. by rewrite frame_read.
Qed.

Lemma frame_too_large data rest : 10 * 1024 * 1024 < len data < 2 ^ 64 ->
  ReadSnappyFrame (WriteSnappyFrame data ++ rest) = Err (Errorf "message too large: %d" [Num (len data)]).
Proof.
  intros Hd. unfold ReadSnappyFrame, WriteSnappyFrame. assert (is_u64 (len data)) by (unfold is_u64, len in *; lia).
  rewrite u64_small, <- app_assoc, Uvarint_roundtrip by done. cbn [mbind outcome_bind].
  by rewrite (proj2 (Z.ltb_lt _ _)) by lia.
Qed.

Lemma ReadSnappyFrame_total r :
  total (ReadSnappyFrame r)
    (fun dr => len dr.1 <= 10 * 1024 * 1024 /\ (length dr.2 < length r)%nat) (fun _ => True).
Proof.
  unfold ReadSnappyFrame. apply total_bind.
  eapply total_mono; [by apply read_uvarint_total| |done].
  intros [n r1] _ [Hn Hr]. cbn [fst snd] in *. destruct (Z.ltb_spec (10 * 1024 * 1024) n); [done|].
  pose proof (read_total n r1 ltac:(destruct Hn; lia)) as H'.
  destruct (snappy_read n r1) as [[d r2]|e| |]; cbn in *; [|done..].
  destruct H' as [H1 H2]. split; lia.
Qed.
End Frames.
