(* ===== verification/Reqresp.v ===== *)
(** network/reqresp: the status and blocks-by-root protocols, client and server.

    The two ends are functions on byte streams: a server maps what the client wrote to what it
    writes back, a client is given the transport as a function [exchange] from the request to
    the response, which can fail ([Err]) when no stream can be opened.  The server only encodes
    the envelopes it is given, and returns them as MarshalSSZ leaves them. *)
From S2P Require Import Prelude Types Hash Attestations Ssz SszCodec SszWire SszProps Wire.
Local Open Scope Z_scope.

(** messages.go *)
Definition StatusProtocol : string := "/leanconsensus/req/status/1/ssz_snappy".
Definition BlocksByRootProtocol : string := "/leanconsensus/req/lean_blocks_by_root/1/ssz_snappy".
Definition BlocksByRootProtocolLegacy : string := "/leanconsensus/req/blocks_by_root/1/ssz_snappy".
Definition ResponseSuccess : byte := Byte.x00.
Definition ResponseInvalidRequest : byte := Byte.x01.
Definition ResponseServerError : byte := Byte.x02.
Definition ResponseResourceUnavailable : byte := Byte.x03.
Record Status := mkStatus { rs_Finalized : Checkpoint; rs_Head : Checkpoint }.

Section Code.
Context {RT : SszRuntime} {SN : Snappy}.

(** ** codec.go *)

(** binary.LittleEndian.Uint64 and PutUint64 on eight bytes *)
Definition Uint64 (b : bytes) : Z := le_Z b.
Definition PutUint64_le (v : Z) : bytes := le_bytes 8 v.

Definition ReadStatus (r : bytes) : outcome (Status * bytes) :=
  '(data, r) ← ReadSnappyFrame r;
  if negb (len data =? 80) then Err (Errorf "invalid status length: %d" [Num (len data)])
  else
    b ← slice data 32 40; let finalizedSlot := Uint64 b in
    b ← slice data 0 32; let finalized := mkCheckpoint (vec_of 32 b) finalizedSlot in
    b ← slice data 72 80; let headSlot := Uint64 b in
    b ← slice data 40 72; let head := mkCheckpoint (vec_of 32 b) headSlot in
    Ok (mkStatus finalized head, r).

Definition WriteStatus (status : Status) : bytes :=
  WriteSnappyFrame
    (vec_to_list (cp_Root (rs_Finalized status)) ++ PutUint64_le (cp_Slot (rs_Finalized status)) ++
     vec_to_list (cp_Root (rs_Head status)) ++ PutUint64_le (cp_Slot (rs_Head status))).

Definition writeSignedBlock (block : SignedBlockWithAttestation)
  : outcome (bytes * SignedBlockWithAttestation) :=
  '(data, block) ← SignedBlock_MarshalSSZ block;
  Ok (WriteSnappyFrame data, block).

Definition readBlocksByRootRequest (r : bytes) : outcome (list root) :=
  '(data, _) ← ReadSnappyFrame r;
  if negb (len data mod 32 =? 0) then Err (Errorf "invalid roots length: %d" [Num (len data)])
  else
    let n := len data / 32 in
    if MaxRequestBlocks <? n then Err (Errorf "too many roots: %d" [Num n])
    else decode_list (copy_array 32) 32 data n.

(** ** server.go *)

Definition handleStatus (OnStatus : option (Status -> Status)) (s : bytes) : outcome bytes :=
  match OnStatus with
  | None => Ok []
  | Some onStatus =>
      match ReadStatus s with
      | Ok (req, _) => Ok ([ResponseSuccess] ++ WriteStatus (onStatus req))
      | Err _ => Ok []
      | Panic w => Panic w
      | Diverges => Diverges
      end
  end.

(** The loop over the blocks: an encoding error ends the response. *)
Fixpoint write_blocks (blocks : list SignedBlockWithAttestation) (out : bytes) : outcome bytes :=
  match blocks with
  | [] => Ok out
  | block :: blocks' =>
      let out := out ++ [ResponseSuccess] in
      match writeSignedBlock block with
      | Ok (data, _) => write_blocks blocks' (out ++ data)
      | Err _ => Ok out
      | Panic w => Panic w
      | Diverges => Diverges
      end
  end.

Definition handleBlocksByRoot (OnBlocksByRoot : option (list root -> list SignedBlockWithAttestation))
    (s : bytes) : outcome bytes :=
  match OnBlocksByRoot with
  | None => Ok []
  | Some onBlocksByRoot =>
      match readBlocksByRootRequest s with
      | Ok roots => write_blocks (onBlocksByRoot roots) []
      | Err _ => Ok []
      | Panic w => Panic w
      | Diverges => Diverges
      end
  end.

(** ** client.go *)

Definition RequestStatus (exchange : bytes -> outcome bytes) (status : Status) : outcome Status :=
  s ← map_err (Wrapf "open stream: %w" []) (exchange (WriteStatus status));
  '(code, s) ← map_err (Wrapf "read response code: %w" []) (ReadResponseCode s);
  if negb (byte_Z code =? byte_Z ResponseSuccess)
  then Err (Errorf "peer returned error code %d" [Num (byte_Z code)])
  else
    '(resp, _) ← map_err (Wrapf "read response: %w" []) (ReadStatus s);
    Ok resp.

(** One round of the loop over the responses. *)
Definition read_block_response (st : list SignedBlockWithAttestation * bytes)
  : outcome (list SignedBlockWithAttestation * bytes + list SignedBlockWithAttestation * option error) :=
  let '(blocks, s) := st in
  match ReadResponseCode s with
  | Panic w => Panic w
  | Diverges => Diverges
  | Err _ => Ok (inr (blocks, None))
  | Ok (code, s) =>
      if negb (byte_Z code =? byte_Z ResponseSuccess) then Ok (inr (blocks, None))
      else
        match ReadSnappyFrame s with
        | Panic w => Panic w
        | Diverges => Diverges
        | Err e => Ok (inr (blocks, Some (Wrapf "read block: %w" [] e)))
        | Ok (data, s) =>
            match SignedBlock_UnmarshalSSZ data with
            | Panic w => Panic w
            | Diverges => Diverges
            | Err _ => Ok (inl (blocks, s))
            | Ok block => Ok (inl (blocks ++ [block], s))
            end
        end
  end.

(** The blocks received, and the error that ended the exchange, if one did. *)
Definition RequestBlocksByRoot (exchange : bytes -> outcome bytes) (roots : list root)
  : outcome (list SignedBlockWithAttestation * option error) :=
  let rootsBuf := append_arrays [] roots in
  match exchange (WriteSnappyFrame rootsBuf) with
  | Panic w => Panic w
  | Diverges => Diverges
  | Err e => Ok ([], Some (Wrapf "open stream: %w" [] e))
  | Ok s => loop (S (length s)) read_block_response ([], s)
  end.

(** ** Protocol negotiation *)

(** RegisterReqResp: which handler serves a protocol. *)
Inductive handler := HandleStatus | HandleBlocksByRoot.
Definition RegisterReqResp : list (string * handler) :=
  [(StatusProtocol, HandleStatus); (BlocksByRootProtocol, HandleBlocksByRoot);
   (BlocksByRootProtocolLegacy, HandleBlocksByRoot)].
(** The protocols a client offers to NewStream, the preferred one first. *)
Definition status_offers : list string := [StatusProtocol].
Definition blocks_offers : list string := [BlocksByRootProtocol; BlocksByRootProtocolLegacy].
End Code.

(** * Properties *)

Section Properties.
Context {RT : SszRuntime} {LAWS : SszLaws RT} {SN : Snappy} {SNL : SnappyLaws SN}.

Definition wf_Status (st : Status) : Prop := wf_Checkpoint (rs_Finalized st) /\ wf_Checkpoint (rs_Head st).

(** An envelope the wire can carry in one message. *)
Definition sendable (s : SignedBlockWithAttestation) : Prop :=
  fits_SignedBlock (filled_envelope s) /\ SignedBlock_SizeSSZ s <= 10 * 1024 * 1024.

Lemma status_roundtrip st rest : wf_Status st -> ReadStatus (WriteStatus st ++ rest) = Ok (st, rest).
Proof.
  destruct st as [[fr fs] [hr hs]]. intros [Hf Hh]. unfold wf_Checkpoint in Hf, Hh. unfold ReadStatus, WriteStatus.
  cbn [rs_Finalized rs_Head cp_Root cp_Slot] in *.
  set (data := vec_to_list fr ++ _). unfold PutUint64_le in data.
  assert (E : data = concat [vec_to_list fr; le_bytes 8 fs; vec_to_list hr; le_bytes 8 hs])
    by (subst data; cbn [concat]; by rewrite app_nil_r).
  assert (El : len data = 80) by (rewrite E; by len_tac).
  rewrite frame_roundtrip by lia. cbn [mbind outcome_bind]. rewrite El, Z.eqb_refl. cbn [negb]. rewrite E.
  field 1%nat. field 0%nat. field 3%nat. field 2%nat.
  unfold Uint64. rewrite !vec_of_to_list, !le_Z_le_bytes by assumption. done.
Qed.

Lemma exchange_status st OnStatus :
  wf_Status st -> wf_Status (OnStatus st) -> RequestStatus (handleStatus (Some OnStatus)) st = Ok (OnStatus st).
Proof.
  intros H1 H2. unfold RequestStatus, handleStatus. rewrite <- (app_nil_r (WriteStatus st)), status_roundtrip by done.
  cbn [mbind outcome_bind map_err app ReadResponseCode]. rewrite Z.eqb_refl. cbn [negb].
  rewrite <- (app_nil_r (WriteStatus _)), status_roundtrip by done. done.
Qed.

Lemma request_roundtrip (roots : list root) : len roots <= MaxRequestBlocks ->
  readBlocksByRootRequest (WriteSnappyFrame (append_arrays [] roots)) = Ok roots.
Proof.
  intros Hn. unfold MaxRequestBlocks in Hn. unfold readBlocksByRootRequest. rewrite append_arrays_wire. cbn [app].
  assert (El : len (wire_list vec_to_list roots) = len roots * 32) by exact (len_wire_arrays (n:=32) roots).
  rewrite <- (app_nil_r (WriteSnappyFrame _)), frame_roundtrip by lia. cbn [mbind outcome_bind].
  rewrite El, Z.mod_mul, Z.div_mul by lia. cbn [negb Z.eqb].
  rewrite (proj2 (Z.ltb_ge _ _)) by (unfold MaxRequestBlocks; lia).
  apply (decode_list_enc (C:=array_codec 32)). by apply Forall_true.
Qed.

Lemma sendable_fits l : Forall sendable l -> Forall (fun b => fits_SignedBlock (filled_envelope b)) l.
Proof. induction 1 as [|b l [Hb _] _ IH]; by constructor. Qed.

(** What the server writes for a list of sendable envelopes. *)
Definition response_of (blocks : list SignedBlockWithAttestation) : bytes :=
  concat (map (fun b => ResponseSuccess :: WriteSnappyFrame (wire_SignedBlock b)) blocks).
Lemma write_blocks_app blocks rest out : Forall (fun b => fits_SignedBlock (filled_envelope b)) blocks ->
  write_blocks (blocks ++ rest) out = write_blocks rest (out ++ response_of blocks).
Proof.
  intros Hb. revert out. induction Hb as [|b blocks Hfit Hb IH]; intros out; unfold response_of in *.
  - cbn. by rewrite app_nil_r.
  - cbn [write_blocks map concat app]. unfold writeSignedBlock. rewrite SignedBlock_run by done.
    cbn [mbind outcome_bind]. rewrite IH. by rewrite <- !app_assoc.
Qed.

Lemma read_response_step b rest acc : sendable b ->
  read_block_response (acc, response_of [b] ++ rest) = Ok (inl (acc ++ [filled_envelope b], rest)).
Proof.
  intros [Hfit Hsz]. unfold response_of. cbn [map concat]. unfold read_block_response. rewrite app_nil_r.
  cbn [app ReadResponseCode]. rewrite Z.eqb_refl. cbn [negb].
  rewrite frame_roundtrip by (rewrite len_wire_SignedBlock; lia).
  change (wire_SignedBlock b) with (wire_SignedBlock (filled_envelope b)). by rewrite codec_dec.
Qed.
Lemma response_of_cons b blocks : response_of (b :: blocks) = response_of [b] ++ response_of blocks.
Proof. unfold response_of. cbn [map concat]. by rewrite app_nil_r. Qed.
Lemma read_responses blocks rest acc fuel : Forall sendable blocks ->
  loop (length blocks + fuel) read_block_response (acc, response_of blocks ++ rest) =
  loop fuel read_block_response (acc ++ map filled_envelope blocks, rest).
Proof.
  intros Hb. revert acc. induction Hb as [|b blocks Hs Hb IH]; intros acc.
  - cbn. by rewrite app_nil_r.
  - cbn [length Nat.add loop]. rewrite response_of_cons, <- app_assoc, read_response_step by done.
    cbn [mbind outcome_bind]. rewrite IH. cbn [map]. by rewrite <- app_assoc.
Qed.
Lemma length_response_of blocks : (length blocks <= length (response_of blocks))%nat.
Proof.
  unfold response_of. induction blocks as [|b blocks IH]; [done|]. cbn [map concat length].
  rewrite length_app. cbn [length]. lia.
Qed.

(** An envelope that can be encoded but is larger than a message may be. *)
Definition oversized (s : SignedBlockWithAttestation) : Prop :=
  fits_SignedBlock (filled_envelope s) /\ 10 * 1024 * 1024 < SignedBlock_SizeSSZ s.
Lemma read_response_oversized b rest acc : oversized b ->
  read_block_response (acc, response_of [b] ++ rest) =
  Ok (inr (acc, Some (Wrapf "read block: %w" [] (Errorf "message too large: %d" [Num (SignedBlock_SizeSSZ b)])))).
Proof.
  intros [[Hm Hs] Hsz]. unfold response_of. cbn [map concat]. unfold read_block_response. rewrite app_nil_r.
  cbn [app ReadResponseCode]. rewrite Z.eqb_refl. cbn [negb].
  rewrite frame_too_large; rewrite len_wire_SignedBlock; [done|]. pose proof (size_bound _ Hm) as Hb.
  change (BlockWithAttestation_SizeSSZ _) with (BlockWithAttestation_SizeSSZ (sb_Message b)) in Hb.
  cbn [filled_envelope sb_Signature] in Hs. revert Hsz. unfold SignedBlock_SizeSSZ. lia.
Qed.

Lemma blocks_request h roots : len roots <= MaxRequestBlocks ->
  RequestBlocksByRoot (handleBlocksByRoot (Some h)) roots =
  match write_blocks (h roots) [] with
  | Panic w => Panic w | Diverges => Diverges
  | Err e => Ok ([], Some (Wrapf "open stream: %w" [] e))
  | Ok s => loop (S (length s)) read_block_response ([], s)
  end.
Proof.
  intros Hn. unfold RequestBlocksByRoot, handleBlocksByRoot. by rewrite request_roundtrip.
Qed.

Lemma exchange_blocks h roots : len roots <= MaxRequestBlocks -> Forall sendable (h roots) ->
  RequestBlocksByRoot (handleBlocksByRoot (Some h)) roots = Ok (map filled_envelope (h roots), None).
Proof.
  intros Hn Hb. rewrite blocks_request by done.
  rewrite <- (app_nil_r (h roots)) at 1. rewrite write_blocks_app by (by apply sendable_fits).
  cbn [write_blocks app]. pose proof (length_response_of (h roots)) as Hl.
  replace (S (length (response_of (h roots)))) with
    (length (h roots) + S (length (response_of (h roots)) - length (h roots)))%nat by lia.
  rewrite <- (app_nil_r (response_of (h roots))) at 2. by rewrite read_responses.
Qed.

(** C23: the two ends of blocks-by-root agree: a client that asks a server for at most 1024 roots gets
    exactly the envelopes the server has for them, in order; an envelope beyond 10 MiB, which the
    server encodes and sends, ends the exchange with an error after those before it. *)
Theorem blocks_by_root_exchange (h : list root -> list SignedBlockWithAttestation) (roots : list root) :
  len roots <= MaxRequestBlocks ->
  (Forall sendable (h roots) ->
     RequestBlocksByRoot (handleBlocksByRoot (Some h)) roots = Ok (map filled_envelope (h roots), None)) /\
  (forall pre b post, h roots = pre ++ b :: post -> Forall sendable pre -> oversized b ->
     Forall (fun b => fits_SignedBlock (filled_envelope b)) post ->
     RequestBlocksByRoot (handleBlocksByRoot (Some h)) roots =
     Ok (map filled_envelope pre,
         Some (Wrapf "read block: %w" [] (Errorf "message too large: %d" [Num (SignedBlock_SizeSSZ b)])))).
Proof.
  intros Hn. split; [by apply exchange_blocks|].
  - intros pre b post E Hpre Hb Hpost. rewrite blocks_request, E by done.
    replace (pre ++ b :: post) with ((pre ++ b :: post) ++ []) by apply app_nil_r.
    rewrite write_blocks_app.
    2: { apply list.Forall_app. split; [by apply sendable_fits|]. constructor; [apply Hb|done]. }
    cbn [write_blocks app]. set (s := response_of (pre ++ b :: post)).
    assert (Es : s = response_of pre ++ response_of [b] ++ response_of post).
    { subst s. unfold response_of. rewrite List.map_app, concat_app. cbn [map concat]. by rewrite app_nil_r. }
    assert (Hl : (length pre < length s)%nat).
    { pose proof (length_response_of (pre ++ b :: post)) as Hl. rewrite length_app in Hl. cbn in Hl. fold s in Hl. lia. }
    replace (S (length s)) with (length pre + S (length s - length pre))%nat by lia.
    rewrite Es at 2. rewrite read_responses by done. cbn [loop]. by rewrite read_response_oversized.
Qed.

(** ** Robustness: arbitrary bytes from the other end *)

(** A call that returns a value or an error. *)
Definition returns {A} (m : outcome A) : Prop := total m (fun _ => True) (fun _ => True).

Lemma Block_Marshal_returns b dst : returns (Block_MarshalSSZTo b dst).
Proof.
  unfold returns, Block_MarshalSSZTo, BlockBody_MarshalSSZTo. destruct (4096 <? len _); [done|].
  match goal with |- total (foldM _ ?d _) _ _ => generalize d end.
  induction (bb_Attestations (b_Body b)) as [|a l IH]; intros d; [done|]. cbn. apply IH.
Qed.
Lemma SignedBlock_Marshal_returns s : returns (SignedBlock_MarshalSSZ s).
Proof.
  unfold returns, SignedBlock_MarshalSSZ. rewrite marshal_fresh. unfold SignedBlock_MarshalSSZTo. apply total_bind.
  unfold BlockWithAttestation_MarshalSSZTo. destruct (ba_ProposerAttestation (sb_Message s)) as [a|] eqn:E;
    [rewrite E|]; cbn [ba_ProposerAttestation ba_Block Attestation_MarshalSSZTo AttestationData_MarshalSSZTo
      Checkpoint_MarshalSSZTo mbind outcome_bind]; apply total_bind;
    (eapply total_mono; [apply Block_Marshal_returns| |done]); intros d _ _; cbn; by case_match.
Qed.

Lemma write_blocks_returns blocks out : exists resp, write_blocks blocks out = Ok resp.
Proof.
  revert out. induction blocks as [|b blocks IH]; intros out; [by eexists|]. cbn [write_blocks].
  pose proof (SignedBlock_Marshal_returns b) as H. unfold writeSignedBlock.
  destruct (SignedBlock_MarshalSSZ b) as [[d b']|e| |]; cbn in *; [apply IH|by eexists|done..].
Qed.
Lemma read_request_returns s : returns (readBlocksByRootRequest s).
Proof.
  unfold returns, readBlocksByRootRequest. apply total_bind. eapply total_mono; [apply ReadSnappyFrame_total| |done].
  intros [data r] _ _. destruct (Z.eqb_spec (len data mod 32) 0) as [E|]; cbn [negb]; [|done]. case_match; [done|].
  destruct (enc_list_surj (C:=array_codec 32) (Z.to_nat (len data / 32)) data) as (l & Hl & Hw & <-).
  { pose proof (Z.div_mod (len data) 32 ltac:(lia)). unfold len in *. lia. }
  assert (Hn : len (concat (map vec_to_list l)) / 32 = len l).
  { unfold len at 1. rewrite (length_enc_list (C:=array_codec 32)), Nat2Z.inj_mul. apply Z.div_mul. lia. }
  rewrite Hn. by rewrite (decode_list_enc (C:=array_codec 32)).
Qed.

Lemma read_block_response_total blocks s : Forall fits_SignedBlock blocks ->
  total (read_block_response (blocks, s))
    (fun step => match step with
                 | inl (blocks', s') => Forall fits_SignedBlock blocks' /\ (length s' < length s)%nat
                 | inr (blocks', _) => Forall fits_SignedBlock blocks' end) (fun _ => False).
Proof.
  intros Hb. unfold read_block_response. destruct s as [|code s]; [done|]. cbn [ReadResponseCode].
  case_match; [done|]. pose proof (ReadSnappyFrame_total s) as Hf.
  destruct (ReadSnappyFrame s) as [[data r]|e| |]; cbn in *; [|done..]. destruct Hf as [_ Hf].
  pose proof (codec_total data : total (SignedBlock_UnmarshalSSZ data) _ _) as Hd.
  destruct (SignedBlock_UnmarshalSSZ data) as [b|e| |]; cbn in *; [|split; [done|lia]|done..].
  split; [|lia]. apply list.Forall_app. split; [done|]. constructor; [apply Hd|constructor].
Qed.

Lemma request_blocks_total exchange roots : (forall b, returns (exchange b)) ->
  exists blocks err, RequestBlocksByRoot exchange roots = Ok (blocks, err) /\ Forall fits_SignedBlock blocks.
Proof.
  intros Hex. unfold RequestBlocksByRoot. specialize (Hex (WriteSnappyFrame (append_arrays [] roots))).
  destruct (exchange _) as [s|e| |]; cbn in Hex; [|by do 2 eexists|done..].
  assert (H : total (loop (S (length s)) read_block_response ([], s))
                (fun be => Forall fits_SignedBlock be.1) (fun _ => False)).
  { apply (loop_total (fun st => Forall fits_SignedBlock st.1) (fun st => length st.2)); [|by constructor|cbn; lia].
    intros [blocks s'] Hb. eapply total_mono; [by apply read_block_response_total| |done].
    intros [[b1 s1]|[b1 e1]] _ H1; [by destruct H1|done]. }
  apply total_no_err in H as ([blocks err] & E & Hb). by exists blocks, err.
Qed.

Lemma ReadStatus_returns s : returns (ReadStatus s).
Proof.
  unfold returns, ReadStatus. apply total_bind. eapply total_mono; [apply ReadSnappyFrame_total| |done].
  intros [data r] _ _. destruct (Z.eqb_spec (len data) 80) as [E|]; cbn [negb]; [|done].
  assert (Hl : length data = sum_list [32; 8; 32; 8]%nat) by (cbn; unfold len in E; lia).
  cut [32; 8; 32; 8]%nat Hl. field 1%nat. field 0%nat. field 3%nat. by field 2%nat.
Qed.

Lemma RequestStatus_returns exchange st : (forall b, returns (exchange b)) -> returns (RequestStatus exchange st).
Proof.
  intros Hex. unfold returns, RequestStatus. specialize (Hex (WriteStatus st)).
  destruct (exchange _) as [s|e| |]; cbn in Hex; try done. cbn [map_err mbind outcome_bind].
  destruct s as [|code s]; [done|]. cbn [ReadResponseCode map_err mbind outcome_bind]. case_match; [done|].
  pose proof (ReadStatus_returns s) as H1. unfold returns in H1. by destruct (ReadStatus s) as [[? ?]| | |].
Qed.

Lemma handleBlocksByRoot_returns h s : exists resp, handleBlocksByRoot h s = Ok resp.
Proof.
  destruct h as [h|]; [|by eexists]. unfold handleBlocksByRoot. pose proof (read_request_returns s) as Hr. unfold returns in Hr.
  destruct (readBlocksByRootRequest s) as [roots|e| |]; [|by eexists|done..]. apply write_blocks_returns.
Qed.
Lemma handleStatus_returns h s : exists resp, handleStatus h s = Ok resp.
Proof.
  destruct h as [h|]; [|by eexists]. unfold handleStatus. pose proof (ReadStatus_returns s) as Hr. unfold returns in Hr.
  destruct (ReadStatus s) as [[st r]|e| |]; [by eexists..|done|done].
Qed.

(** C30: neither end trusts the other: whatever bytes arrive, the client's request returns, and every
    envelope it hands on is one the wire format allows (integers in range, lists within their
    limits, a proposer attestation); the server answers every request without panicking. *)
Theorem reqresp_robust :
  (forall exchange roots, (forall b, returns (exchange b)) ->
     exists blocks err, RequestBlocksByRoot exchange roots = Ok (blocks, err) /\ Forall fits_SignedBlock blocks) /\
  (forall h s, exists resp, handleBlocksByRoot h s = Ok resp) /\
  (forall h s, exists resp, handleStatus h s = Ok resp).
Proof.
  split_and!; [exact request_blocks_total|exact handleBlocksByRoot_returns|exact handleStatus_returns].
Qed.
End Properties.

(** * Concrete inputs *)

Definition toy_snappy : Snappy := {|
  snappy_frame data := data;
  snappy_read n r := if len r <? n then Err ErrUnexpectedEOF else Ok (take (Z.to_nat n) r, drop (Z.to_nat n) r);
  snappy_Encode data := data;
  snappy_Decode data := Ok data |}.
#[export] Existing Instance toy_snappy.
#[export] Instance toy_snappy_laws : SnappyLaws toy_snappy.
Proof.
  split; try done.
  - intros data rest. cbn. rewrite len_app. rewrite (proj2 (Z.ltb_ge _ _)) by (unfold len; lia).
    unfold len. by rewrite Nat2Z.id, take_app_length, drop_app_length.
  - intros n r Hn. cbn. destruct (Z.ltb_spec (len r) n); [done|]. unfold len in *. cbn.
    rewrite length_take, length_drop. split; lia.
Qed.

Lemma ex_envelope_sendable : sendable (ex_envelope None 2).
Proof. split; [exact ex_envelope_fits|]. discriminate. Qed.

Lemma blocks_by_root_exchange_witness :
  RequestBlocksByRoot (handleBlocksByRoot (Some (fun _ => [ex_envelope None 2]))) [ex_root 1] =
  Ok ([filled_envelope (ex_envelope None 2)], None).
Proof.
  apply (blocks_by_root_exchange (fun _ => [ex_envelope None 2]) [ex_root 1]); [discriminate|].
  constructor; [exact ex_envelope_sendable|constructor].
Defined.

Lemma reqresp_robust_witness :
  exists blocks err, RequestBlocksByRoot (fun _ => Ok (replicate 5 Byte.x00)) [ex_root 1] = Ok (blocks, err) /\
    Forall fits_SignedBlock blocks.
Proof. apply (proj1 reqresp_robust). intros b. exact I. Defined.
