(* ===== verification/Gossip.v ===== *)
(** network/gossipsub: the payloads of published messages, their decoders and their identifiers.

    A Publish function is the payload it hands to the topic.  A subscription is the list of the
    messages it yields until it is closed; a reader is the list of the values it passes to the
    handler.  SHA-256 (Go's crypto/sha256) is an argument of ComputeMessageID. *)
From S2P Require Import Prelude Types Hash Attestations Ssz SszCodec SszWire SszProps Wire Reqresp.
Local Open Scope Z_scope.

Section Code.
Context {RT : SszRuntime} {SN : Snappy}.

(** ** encoding.go *)

Definition DomainValidSnappy : bytes := [Byte.x01; Byte.x00; Byte.x00; Byte.x00].
Definition DomainInvalidSnappy : bytes := [Byte.x00; Byte.x00; Byte.x00; Byte.x00].

Definition AttestationData_MarshalSSZ (a : AttestationData) : outcome bytes :=
  '(dst, _) ← MarshalSSZ (AttestationData_SizeSSZ a)
                (fun dst => dst ← AttestationData_MarshalSSZTo a dst; Ok (dst, a));
  Ok dst.

Definition PublishBlock (sb : SignedBlockWithAttestation) : outcome bytes :=
  '(data, _) ← SignedBlock_MarshalSSZ sb; Ok (snappy_Encode data).
Definition PublishAttestation (sa : SignedAttestation) : outcome bytes :=
  data ← SignedAttestation_MarshalSSZ sa; Ok (snappy_Encode data).

(** binary.LittleEndian.PutUint32(b, uint32(n)) *)
Definition PutUint32_le (n : Z) : bytes := le_bytes 4 (u32 n).
Definition Uint32 (b : bytes) : Z := le_Z b.

Definition PublishAggregatedAttestation (agg : AggregatedAttestation) : outcome bytes :=
  dataSSZ ← AttestationData_MarshalSSZ (ag_Data agg);
  let buf := [] ++ PutUint32_le (len dataSSZ) in
  let buf := buf ++ dataSSZ in
  let buf := buf ++ PutUint32_le (len (ag_AggregationBits agg)) in
  let buf := buf ++ ag_AggregationBits agg in
  let buf := buf ++ ag_AggregatedSignature agg in
  Ok (snappy_Encode buf).

Definition DecodeAggregatedAttestation (data : bytes) : outcome AggregatedAttestation :=
  if len data <? 8 then Err (Errorf "message too short: %d" [Num (len data)])
  else
    let offset := 0 in
    b ← slice data offset (offset + 4);
    let dataLen := Uint32 b in
    let offset := offset + 4 in
    if len data <? offset + dataLen then Err (Errorf "data length exceeds message" [])
    else
      b ← slice data offset (offset + dataLen);
      ad ← map_err (Wrapf "unmarshal attestation data: %w" []) (AttestationData_UnmarshalSSZ b);
      let offset := offset + dataLen in
      if len data <? offset + 4 then Err (Errorf "missing bits length" [])
      else
        b ← slice data offset (offset + 4);
        let bitsLen := Uint32 b in
        let offset := offset + 4 in
        if len data <? offset + bitsLen then Err (Errorf "bits length exceeds message" [])
        else
          bits ← slice data offset (offset + bitsLen);
          let offset := offset + bitsLen in
          aggSig ← slice data offset (len data);
          Ok (mkAggregatedAttestation ad bits aggSig).

(** The bytes ComputeMessageID hashes. *)
Definition message_preimage (topic data : bytes) : outcome bytes :=
  let topicLen := le_bytes 8 (u64 (len topic)) in
  match snappy_Decode data with
  | Panic w => Panic w
  | Diverges => Diverges
  | Ok decoded => Ok (DomainValidSnappy ++ topicLen ++ topic ++ decoded)
  | Err _ => Ok (DomainInvalidSnappy ++ topicLen ++ topic ++ data)
  end.
Definition ComputeMessageID (sha256 : bytes -> bytes) (topic data : bytes) : outcome bytes :=
  p ← message_preimage topic data;
  slice (sha256 p) 0 20.

(** ** handler.go *)

(** The loop of a reader: a message that fails to decode is skipped. *)
Definition read_messages {A} (decode : bytes -> outcome A) (msgs : list bytes) : outcome (list A) :=
  foldM (fun delivered msg =>
    match (decoded ← snappy_Decode msg; decode decoded) with
    | Ok x => Ok (delivered ++ [x])
    | Err _ => Ok delivered
    | Panic w => Panic w
    | Diverges => Diverges
    end) [] msgs.
Definition readBlockMessages := read_messages SignedBlock_UnmarshalSSZ.
Definition readAttestationMessages := read_messages SignedAttestation_UnmarshalSSZ.
Definition readAggregatedAttestationMessages := read_messages DecodeAggregatedAttestation.
End Code.

Section Properties.
Context {RT : SszRuntime} {LAWS : SszLaws RT} {SN : Snappy} {SNL : SnappyLaws SN}.

(** The message of an aggregate: two length-prefixed parts and the signatures. *)
Definition wire_Aggregated (agg : AggregatedAttestation) : bytes :=
  concat [le_bytes 4 128; wire_AttestationData (ag_Data agg);
          le_bytes 4 (len (ag_AggregationBits agg)); ag_AggregationBits agg; ag_AggregatedSignature agg].
Definition fits_Aggregated (agg : AggregatedAttestation) : Prop :=
  wf_AttestationData (ag_Data agg) /\ len (ag_AggregationBits agg) < 2 ^ 32.

Lemma u32_small x : 0 <= x < 2 ^ 32 -> u32 x = x.
Proof. apply Z.mod_small. Qed.

Lemma slice_Uint32 (ls : list bytes) i o lo hi :
  ls !! i = Some (le_bytes 4 o) -> 0 <= o < 2 ^ 32 -> lo = len (concat (take i ls)) -> hi = lo + 4 ->
  exists b, slice (concat ls) lo hi = Ok b /\ Uint32 b = o.
Proof.
  intros Hi Ho Hlo Hhi. exists (le_bytes 4 o). split; [by apply (slice_piece ls i)|]. by apply le_Z_le_bytes.
Qed.

Lemma publish_aggregated agg : fits_Aggregated agg ->
  PublishAggregatedAttestation agg = Ok (snappy_Encode (wire_Aggregated agg)).
Proof.
  intros [Hd Hb]. unfold PublishAggregatedAttestation, AttestationData_MarshalSSZ.
  rewrite marshal_fresh, marshal_AttestationData by done. cbn [mbind outcome_bind app].
  unfold PutUint32_le, wire_Aggregated. rewrite !u32_small by (unfold len in *; rewrite ?length_wire_AttestationData; lia).
  unfold len at 1. rewrite length_wire_AttestationData. cbn [concat]. by rewrite app_nil_r, <- !app_assoc.
Qed.

Lemma decode_aggregated agg : fits_Aggregated agg -> DecodeAggregatedAttestation (wire_Aggregated agg) = Ok agg.
Proof.
  destruct agg as [d bits sigs]. intros [Hd Hb]. cbn [ag_Data ag_AggregationBits] in *.
  assert (Hb0 : 0 <= len bits) by (unfold len; lia).
  unfold DecodeAggregatedAttestation, wire_Aggregated. cbn [ag_Data ag_AggregationBits ag_AggregatedSignature].
  rewrite (proj2 (Z.ltb_ge _ _)) by state_side.
  field 0%nat. unfold Uint32. rewrite (le_Z_le_bytes 4 128) by done.
  rewrite (proj2 (Z.ltb_ge _ _)) by state_side. field 1%nat. rewrite fixed_dec by done. cbn [map_err mbind outcome_bind].
  rewrite (proj2 (Z.ltb_ge _ _)) by state_side. field 2%nat. rewrite (le_Z_le_bytes 4 (len bits)) by (split; [done|exact Hb]).
  rewrite (proj2 (Z.ltb_ge _ _)) by state_side. field 3%nat. by field 4%nat.
Qed.

(** Whatever the bytes: an aggregate with data in range whose encoding they are, or an error. *)
Lemma decode_aggregated_total data :
  total (DecodeAggregatedAttestation data) (fun agg => fits_Aggregated agg /\ wire_Aggregated agg = data) (fun _ => True).
Proof.
  unfold DecodeAggregatedAttestation. test_lt (len data) 8. cut_tail [4]%nat data t. as_offset p dl.
  field 0%nat. unfold Uint32. rewrite (le_Z_le_bytes 4 dl) by done.
  match goal with |- context [?a <? ?b] => test_lt a b end.
  destruct (cut_last [le_bytes 4 dl] dl t) as (q & r & E & Hq & Ht).
  { revert H0. cbn [concat]. rewrite !len_app, len_le_bytes. unfold len. cbn [length]. lia. }
  cbn [app] in E. rewrite E in *. clear E. field 1%nat.
  destruct (decide (length q = 128%nat)) as [Hl|Hl].
  2: { unfold AttestationData_UnmarshalSSZ. rewrite (proj2 (Z.eqb_neq _ _)) by (unfold len; lia). done. }
  destruct (fixed_surj (FixedCodec:=AttestationData_codec) q Hl) as (d & Hd & <-).
  rewrite fixed_dec by done. cbn [map_err mbind outcome_bind].
  match goal with |- context [?a <? ?b] => test_lt a b end.
  assert (E128 : dl = 128) by (rewrite <- Hq; unfold len; by rewrite length_wire_AttestationData). rewrite E128 in *. clear E128 dl.
  destruct (cut_last [le_bytes 4 128; wire_AttestationData d] 4 r) as (q2 & r2 & E & Hq2 & Ht2).
  { revert H1. cbn [concat]. rewrite !len_app, len_le_bytes, Hq. unfold len. cbn [length]. lia. }
  cbn [app] in E. rewrite E in *. clear E.
  assert (Hl2 : length q2 = 4%nat) by (unfold len in Hq2; lia). destruct (offset_surj q2 Hl2) as (bl & Hbl & <-).
  field 2%nat. rewrite (le_Z_le_bytes 4 bl) by done. match goal with |- context [?a <? ?b] => test_lt a b end.
  destruct (cut_last [le_bytes 4 128; wire_AttestationData d; le_bytes 4 bl] bl r2) as (bits & sigs & E & Hbits & Ht3).
  { revert H2. cbn [concat]. rewrite !len_app, !len_le_bytes, Hq. unfold len. cbn [length]. lia. }
  cbn [app] in E. rewrite E in *. clear E. field 3%nat. field 4%nat. cbn [total].
  split; [split; [done|cbn; lia]|]. unfold wire_Aggregated. cbn. by rewrite Hbits.
Qed.

Lemma read_messages_app {A} (decode : bytes -> outcome A) (m : bytes) (ms : list bytes) (x : A) :
  decode m = Ok x ->
  read_messages decode (snappy_Encode m :: ms) = (l ← read_messages decode ms; Ok (x :: l)).
Proof.
  intros Hm. unfold read_messages. cbn [foldM]. rewrite encode_decode. cbn [mbind outcome_bind app]. rewrite Hm.
  cbn [mbind outcome_bind app]. assert (G : forall acc acc',
    foldM (fun delivered msg => match (decoded ← snappy_Decode msg; decode decoded) with
      | Ok x => Ok (delivered ++ [x]) | Err _ => Ok delivered | Panic w => Panic w | Diverges => Diverges end) (acc' ++ acc) ms =
    (l ← foldM (fun delivered msg => match (decoded ← snappy_Decode msg; decode decoded) with
      | Ok x => Ok (delivered ++ [x]) | Err _ => Ok delivered | Panic w => Panic w | Diverges => Diverges end) acc ms; Ok (acc' ++ l))).
  { induction ms as [|m' ms IH]; intros acc acc'; [done|]. cbn [foldM].
    destruct (snappy_Decode m' ≫= _) as [y|e|w|]; cbn [mbind outcome_bind]; [rewrite <- app_assoc| |done|done]; apply IH. }
  apply (G [] [x]).
Qed.

Lemma read_messages_total {A} (decode : bytes -> outcome A) (Q : A -> Prop) msgs :
  (forall m, total (decode m) Q (fun _ => True)) ->
  exists l, read_messages decode msgs = Ok l /\ Forall Q l.
Proof.
  intros Hd. unfold read_messages. assert (G : forall acc, Forall Q acc -> exists l,
    foldM (fun delivered msg => match (decoded ← snappy_Decode msg; decode decoded) with
      | Ok x => Ok (delivered ++ [x]) | Err _ => Ok delivered | Panic w => Panic w | Diverges => Diverges end) acc msgs = Ok l
      /\ Forall Q l); [|by apply G].
  induction msgs as [|m msgs IH]; intros acc Hacc; [by exists acc|]. cbn [foldM].
  pose proof (decode_total m) as Hm. destruct (snappy_Decode m) as [d|e|w|]; cbn [total mbind outcome_bind] in *; [|by apply IH|done..].
  specialize (Hd d). destruct (decode d) as [x|e|w|]; cbn [total mbind outcome_bind] in *; [|by apply IH|done..].
  apply IH. apply list.Forall_app. by repeat constructor.
Qed.

(** gossip delivers what was published: a block, vote or aggregate within the limits of the wire
    reaches the handler of a subscriber unchanged (a nil proposer attestation as a zero one), and
    the rest of the subscription is read on. *)
Theorem gossip_delivery (ms : list bytes) :
  (forall sb, fits_SignedBlock (filled_envelope sb) -> exists p, PublishBlock sb = Ok p /\
     readBlockMessages (p :: ms) = (l ← readBlockMessages ms; Ok (filled_envelope sb :: l))) /\
  (forall sa, wf_SignedAttestation sa -> exists p, PublishAttestation sa = Ok p /\
     readAttestationMessages (p :: ms) = (l ← readAttestationMessages ms; Ok (sa :: l))) /\
  (forall agg, fits_Aggregated agg -> exists p, PublishAggregatedAttestation agg = Ok p /\
     readAggregatedAttestationMessages (p :: ms) = (l ← readAggregatedAttestationMessages ms; Ok (agg :: l))).
Proof.
  split_and!.
  - intros sb Hs. exists (snappy_Encode (wire_SignedBlock sb)). unfold PublishBlock. rewrite SignedBlock_run by done.
    split; [done|]. apply read_messages_app. change (wire_SignedBlock sb) with (wire_SignedBlock (filled_envelope sb)).
    by apply codec_dec.
  - intros sa Hs. exists (snappy_Encode (wire_SignedAttestation sa)). unfold PublishAttestation, SignedAttestation_MarshalSSZ.
    rewrite marshal_fresh, marshal_SignedAttestation by done. split; [done|]. apply read_messages_app. by apply fixed_dec.
  - intros agg Ha. exists (snappy_Encode (wire_Aggregated agg)). split; [by apply publish_aggregated|].
    apply read_messages_app. by apply decode_aggregated.
Qed.

Lemma read_blocks_total ms : exists l, readBlockMessages ms = Ok l /\ Forall fits_SignedBlock l.
Proof.
  apply read_messages_total. intros m. eapply total_mono; [apply codec_total| |done]. by intros x _ [Hx _].
Qed.
Lemma read_attestations_total ms : exists l, readAttestationMessages ms = Ok l /\ Forall wf_SignedAttestation l.
Proof.
  apply read_messages_total. intros m. destruct (decide (length m = 3248%nat)) as [Hl|Hl].
  - destruct (fixed_surj (FixedCodec:=SignedAttestation_codec) m Hl) as (s & Hs & <-). by rewrite fixed_dec.
  - unfold SignedAttestation_UnmarshalSSZ. by rewrite (proj2 (Z.eqb_neq _ _)) by (unfold len; lia).
Qed.
Lemma read_aggregates_total ms : exists l, readAggregatedAttestationMessages ms = Ok l /\ Forall fits_Aggregated l.
Proof.
  apply read_messages_total. intros m. eapply total_mono; [apply decode_aggregated_total| |done]. by intros x _ [Hx _].
Qed.

(** no gossip message can panic a reader, and every value that reaches a handler is one the wire
    can carry; the fork choice therefore only sees integers in range and lists within limits. *)
Theorem gossip_robust (ms : list bytes) :
  (exists l, readBlockMessages ms = Ok l /\ Forall fits_SignedBlock l) /\
  (exists l, readAttestationMessages ms = Ok l /\ Forall wf_SignedAttestation l) /\
  (exists l, readAggregatedAttestationMessages ms = Ok l /\ Forall fits_Aggregated l).
Proof. split_and!; [apply read_blocks_total|apply read_attestations_total|apply read_aggregates_total]. Qed.

(** Message identifiers separate messages: the bytes that are hashed determine the topic, whether
    the payload is valid snappy, and the content, so two messages with one identifier carry the
    same content on the same topic unless SHA-256 collides on 20 bytes. *)
Theorem message_preimage_injective (t1 t2 d1 d2 p : bytes) :
  len t1 < 2 ^ 64 -> len t2 < 2 ^ 64 -> message_preimage t1 d1 = Ok p -> message_preimage t2 d2 = Ok p ->
  t1 = t2 /\
  match snappy_Decode d1, snappy_Decode d2 with
  | Ok x1, Ok x2 => x1 = x2
  | Err _, Err _ => d1 = d2
  | _, _ => False
  end.
Proof.
  intros H1 H2. unfold message_preimage. rewrite !u64_small by (unfold is_u64, len in *; lia).
  assert (G : forall x1 x2, le_bytes 8 (len t1) ++ t1 ++ x1 = le_bytes 8 (len t2) ++ t2 ++ x2 -> t1 = t2 /\ x1 = x2).
  { intros x1 x2 E. apply app_inj_1 in E as [El E]; [|by rewrite !length_le_bytes].
    apply (f_equal le_Z) in El. rewrite !le_Z_le_bytes in El by (unfold len in *; cbn; lia).
    apply app_inj_1 in E; [done|]. unfold len in El. lia. }
  unfold DomainValidSnappy, DomainInvalidSnappy.
  destruct (snappy_Decode d1), (snappy_Decode d2); try done; intros E1 E2;
    rewrite <- E1 in E2; apply Ok_inj in E2; cbn [app] in E2; try discriminate E2;
    apply (f_equal (drop 4)) in E2; cbn [drop] in E2; by apply G.
Qed.
End Properties.

(** * Concrete inputs *)

Definition ex_aggregated : AggregatedAttestation :=
  mkAggregatedAttestation (att_Data ex_att3) [Byte.x06] (replicate 20 Byte.x07).

Lemma gossip_delivery_witness : exists p, PublishAggregatedAttestation ex_aggregated = Ok p /\
  readAggregatedAttestationMessages [p] = (l ← readAggregatedAttestationMessages []; Ok (ex_aggregated :: l)).
Proof. apply (gossip_delivery []). split; [apply ex_att3_wf|reflexivity]. Defined.

Lemma gossip_robust_witness : exists l, readBlockMessages [[]; [Byte.x00]] = Ok l /\ Forall fits_SignedBlock l.
Proof. exact (proj1 (gossip_robust [[]; [Byte.x00]])). Defined.

Lemma message_preimage_injective_witness :
  [Byte.x61] = [Byte.x61] /\
  match snappy_Decode [Byte.x62], snappy_Decode [Byte.x62] with
  | Ok x1, Ok x2 => x1 = x2 | Err _, Err _ => [Byte.x62] = [Byte.x62] | _, _ => False end.
Proof.
  apply (message_preimage_injective [Byte.x61] [Byte.x61] [Byte.x62] [Byte.x62]
    (DomainValidSnappy ++ le_bytes 8 1 ++ [Byte.x61; Byte.x62])); [done|done|vm_compute; reflexivity|vm_compute; reflexivity].
Defined.
