(* ===== verification/Node.v ===== *)
(** The node package: clock.go, handler.go, validator.go, sync.go, the event loop of ticker.go, and
    the wiring of lifecycle.go.

    The main goroutine runs [run_tick] once per tick of its timer.  Between two of its accesses to
    the fork choice store the other goroutines (gossip readers, stream handlers) may run; what
    they do, and what the system clock reads, is the class [Surroundings], indexed by the number
    of accesses made so far.  A peer is its id and what its two protocols
    answer to the bytes of a request.
    What the node hands to the publishing functions is the list [n_sent]; log lines are
    left out, and what its calls to the metrics do is in Metrics.v. *)
From S2P Require Import Prelude Slot Types Hash GoStd Bitlist VoteRule Attestations Transition Storage Ghost Leansig ForkChoice Aggregation Ssz Wire Reqresp.
Local Open Scope Z_scope.

(** * clock.go *)

Record Clock := mkClock { GenesisTime : Z }.
Definition NewClock (genesisTime : Z) : Clock := mkClock genesisTime.

(** The argument [now] is [uint64(time.Now().Unix())]. *)
Definition IsBeforeGenesis (c : Clock) (now : Z) : bool := now <? GenesisTime c.
Definition CurrentSlot (c : Clock) (now : Z) : Z :=
  if now <? GenesisTime c then 0
  else let elapsed := u64 (now - GenesisTime c) in elapsed / SecondsPerSlot.
Definition CurrentInterval (c : Clock) (now : Z) : Z :=
  if now <? GenesisTime c then 0
  else let elapsed := u64 (now - GenesisTime c) in (elapsed mod SecondsPerSlot) / SecondsPerInterval.
Definition CurrentTime (c : Clock) (now : Z) : Z := now.

(** * gossip.go: the topics *)

Record Topics := mkTopics {
  t_Block : string; t_Attestation : string; t_AggregateAttestation : option string }.

Definition topic_name (devnetID kind : string) : string :=
  String.append "/leanconsensus/" (String.append devnetID (String.append "/" (String.append kind "/ssz_snappy"))).

(** [Join] is the pubsub library's; a topic is known by its name. *)
Definition JoinTopics (Join : string -> outcome string) (devnetID : string) : outcome Topics :=
  blockTopic ← map_err (Wrapf "join block topic: %w" []) (Join (topic_name devnetID "block"));
  attTopic ← map_err (Wrapf "join attestation topic: %w" []) (Join (topic_name devnetID "attestation"));
  Ok (mkTopics blockTopic attTopic None).

(** * The node *)

(** [forkchoice.Signer]: the Sign method of a keypair. *)
Definition Signer : Type := Z -> root -> outcome bytes.

Record ValidatorDuties := mkDuties {
  vd_Indices : list Z;
  vd_Keys : gmap Z Signer;
  vd_Topics : Topics;
  (** PublishAggregatedAttestation is not nil *)
  vd_publishes_aggregates : bool;
  vd_pendingAttestations : list SignedAttestation }.

(** A value handed to PublishBlock, PublishAttestation or PublishAggregatedAttestation. *)
Inductive message :=
| MsgBlock (sb : SignedBlockWithAttestation)
| MsgAttestation (sa : SignedAttestation)
| MsgAggregate (agg : AggregatedAttestation).

Record Node (T : Type) := mkNode {
  n_FC : Store T;
  n_Clock : Clock;
  n_Validator : ValidatorDuties;
  (** accesses to the store and the clock so far *)
  n_events : nat;
  n_sent : list message }.
Arguments mkNode {T}. Arguments n_FC {T} _. Arguments n_Clock {T} _. Arguments n_Validator {T} _.
Arguments n_events {T} _. Arguments n_sent {T} _.

Class Surroundings (T : Type) := {
  unix : nat -> Z;
  others : nat -> Store T -> Store T }.

Record Peer := mkPeer {
  p_id : string;
  p_status : nat -> bytes -> outcome bytes;
  p_blocks : nat -> bytes -> outcome bytes }.

Definition set_pending {T} (n : Node T) (l : list SignedAttestation) : Node T :=
  let v := n_Validator n in
  mkNode (n_FC n) (n_Clock n)
    (mkDuties (vd_Indices v) (vd_Keys v) (vd_Topics v) (vd_publishes_aggregates v) l) (n_events n) (n_sent n).
Definition publish {T} (n : Node T) (m : message) : Node T :=
  mkNode (n_FC n) (n_Clock n) (n_Validator n) (n_events n) (n_sent n ++ [m]).

Section Code.
Context {HW : HashWalker} {MR : MapRange} {FFI : LeansigFFI} {SS : SortSlice} {RT : SszRuntime} {SN : Snappy}.
Context {T : Type} {OPS : StorageOps T} {SU : Surroundings T}.
Context (shouldVerifySignatures : bool).

(** One access: the others have run, the clock reads [unix], [op] is atomic. *)
Definition call {A} (n : Node T) (op : Z -> Store T -> outcome (Store T * A)) : outcome (Node T * A) :=
  '(c, x) ← op (unix (n_events n)) (others (n_events n) (n_FC n));
  Ok (mkNode c (n_Clock n) (n_Validator n) (S (n_events n)) (n_sent n), x).
Definition read {A} (n : Node T) (f : Store T -> A) : outcome (Node T * A) :=
  call n (fun _ c => Ok (c, f c)).
Definition time_Now (n : Node T) : outcome (Node T * Z) := call n (fun t c => Ok (c, t)).

(** ** handler.go *)

Definition status_of (status : ChainStatus) : Status :=
  mkStatus (mkCheckpoint (cs_FinalizedRoot status) (cs_FinalizedSlot status))
           (mkCheckpoint (cs_Head status) (cs_HeadSlot status)).

Definition OnStatus (c : Store T) (req : Status) : Status := status_of (GetStatus c).
Definition OnBlocksByRoot (c : Store T) (roots : list root) : list SignedBlockWithAttestation :=
  foldl (fun blocks root =>
    match GetSignedBlock (fc_storage c) root with Some sb => blocks ++ [sb] | None => blocks end) [] roots.

Definition OnBlock (now : option Z) (c : Store T) (sb : SignedBlockWithAttestation) : outcome (Store T) :=
  '(c, _) ← ForkChoice.ProcessBlock shouldVerifySignatures now c sb; Ok c.
Definition OnAttestation := ForkChoice.ProcessAttestation shouldVerifySignatures.
Definition OnAggregatedAttestation := ProcessAggregatedAttestation.

(** ** validator.go *)

(** The loop returns at the first index that proposes. *)
Fixpoint has_proposal (indices : list Z) (slot numValidators : Z) : outcome bool :=
  match indices with
  | [] => Ok false
  | idx :: indices' =>
      proposer ← IsProposer idx slot numValidators;
      if (proposer : bool) then Ok true else has_proposal indices' slot numValidators
  end.
Definition HasProposal (n : Node T) (slot : Z) : outcome bool :=
  has_proposal (vd_Indices (n_Validator n)) slot (NumValidators (n_FC n)).

Definition propose_one (slot : Z) (n : Node T) (idx : Z) : outcome (Node T) :=
  proposer ← IsProposer idx slot (NumValidators (n_FC n));
  if negb proposer then Ok n
  else
    match vd_Keys (n_Validator n) !! idx with
    | None => Ok n
    | Some kp =>
        '(n, res) ← call n (fun _ c => ProduceBlock c slot idx kp);
        match res with
        | inl _ => Ok n
        | inr envelope =>
            match list.last (sb_Signature envelope) with
            | None => Panic "index out of range"
            | Some _ => Ok (publish n (MsgBlock envelope))
            end
        end
    end.
Definition TryPropose (n : Node T) (slot : Z) : outcome (Node T) :=
  if slot =? 0 then Ok n else foldM (propose_one slot) n (vd_Indices (n_Validator n)).

Definition attest_one (slot : Z) (n : Node T) (idx : Z) : outcome (Node T) :=
  proposer ← IsProposer idx slot (NumValidators (n_FC n));
  if (proposer : bool) then Ok n
  else
    match vd_Keys (n_Validator n) !! idx with
    | None => Ok n
    | Some kp =>
        '(n, res) ← call n (fun _ c => ProduceAttestation c slot idx kp);
        match res with
        | inl _ => Ok n
        | inr sa =>
            let n := set_pending n (vd_pendingAttestations (n_Validator n) ++ [sa]) in
            '(n, _) ← call n (fun t c =>
                c ← ForkChoice.ProcessAttestation shouldVerifySignatures (Some t) c sa; Ok (c, tt));
            Ok (publish n (MsgAttestation sa))
        end
    end.
Definition TryAttest (n : Node T) (slot : Z) : outcome (Node T) :=
  foldM (attest_one slot) (set_pending n []) (vd_Indices (n_Validator n)).

Definition TryAggregate (n : Node T) (slot : Z) : outcome (Node T) :=
  let v := n_Validator n in
  if (length (vd_pendingAttestations v) =? 0)%nat then Ok n
  else
    match AggregateAttestations (vd_pendingAttestations v) with
    | Panic w => Panic w
    | Diverges => Diverges
    | Err _ => Ok n
    | Ok agg =>
        let n := if vd_publishes_aggregates v && bool_decide (is_Some (t_AggregateAttestation (vd_Topics v)))
                 then publish n (MsgAggregate agg) else n in
        Ok (set_pending n [])
    end.

Definition OnInterval (n : Node T) (slot interval : Z) : outcome (Node T) :=
  if interval =? 0 then TryPropose n slot
  else if interval =? 1 then TryAttest n slot
  else if interval =? 2 then TryAggregate n slot
  else Ok n.

(** ** sync.go *)

Definition maxSyncDepth : nat := 64.

(** The walk back from the peer's head: [i] rounds are left. *)
Fixpoint sync_walk (i : nat) (p : Peer) (n : Node T) (pending : list SignedBlockWithAttestation) (nextRoot : root)
  : outcome (Node T * list SignedBlockWithAttestation) :=
  match i with
  | O => Ok (n, pending)
  | S i' =>
      '(n, known) ← read n (fun c => GetBlock (fc_storage c) nextRoot);
      match known with
      | Some _ => Ok (n, pending)
      | None =>
          '(blocks, err) ← RequestBlocksByRoot (p_blocks p (n_events n)) [nextRoot];
          match err, blocks with
          | None, sb :: _ =>
              sync_walk i' p n (pending ++ [sb]) (b_ParentRoot (ba_Block (sb_Message sb)))
          | _, _ => Ok (n, pending)
          end
      end
  end.

Definition import_one (st : Node T * Z) (sb : SignedBlockWithAttestation) : outcome (Node T * Z) :=
  let '(n, synced) := st in
  '(n, res) ← call n (fun t c => ForkChoice.ProcessBlock shouldVerifySignatures (Some t) c sb);
  match res with
  | inl _ => Ok (n, synced)
  | inr _ => Ok (n, synced + 1)
  end.

(** What is logged is left out, but for the slice [pid.String()[:16]], which can panic. *)
Definition syncWithPeer (n : Node T) (p : Peer) : outcome (Node T * bool) :=
  '(n, status) ← read n GetStatus;
  match RequestStatus (p_status p (n_events n)) (status_of status) with
  | Panic w => Panic w
  | Diverges => Diverges
  | Err _ => _ ← prefix16 (p_id p); Ok (n, false)
  | Ok peerStatus =>
      _ ← prefix16 (p_id p);
      if cp_Slot (rs_Head peerStatus) <=? cs_HeadSlot status then Ok (n, false)
      else
        '(n, pending) ← sync_walk maxSyncDepth p n [] (cp_Root (rs_Head peerStatus));
        '(n, synced) ← foldM import_one (n, 0) (reverse pending);
        Ok (n, 0 <? synced)
  end.

Definition initialSync (n : Node T) (peers : list Peer) : outcome (Node T) :=
  foldM (fun n p => '(n, _) ← syncWithPeer n p; Ok n) n peers.

(** ** ticker.go *)

(** The peers are asked in turn until one sync made progress. *)
Fixpoint sync_peers (n : Node T) (peers : list Peer) (status : ChainStatus) : outcome (Node T * ChainStatus) :=
  match peers with
  | [] => Ok (n, status)
  | p :: peers' =>
      '(n, progress) ← syncWithPeer n p;
      if (progress : bool) then read n GetStatus else sync_peers n peers' status
  end.

(** A tick up to the duties: the slot and the interval if duties are due. *)
Definition before_duties (n : Node T) (peers : list Peer) : outcome (Node T * option (Z * Z)) :=
  '(n, now) ← time_Now n;
  if IsBeforeGenesis (n_Clock n) now then Ok (n, None)
  else
    '(n, now) ← time_Now n;
    let slot := CurrentSlot (n_Clock n) now in
    '(n, now) ← time_Now n;
    let interval := CurrentInterval (n_Clock n) now in
    hasProposal ← (if interval =? 0 then HasProposal n slot else Ok false);
    '(n, now) ← time_Now n;
    '(n, _) ← call n (fun _ c => c ← AdvanceTime c (CurrentTime (n_Clock n) now) hasProposal; Ok (c, tt));
    '(n, status) ← read n GetStatus;
    '(n, status) ← (if u64 (cs_HeadSlot status + 2) <? slot then sync_peers n peers status else Ok (n, status));
    Ok (n, if slot <=? u64 (cs_HeadSlot status + 2) then Some (slot, interval) else None).

Definition run_tick (n : Node T) (peers : list Peer) : outcome (Node T) :=
  '(n, duty) ← before_duties n peers;
  match duty with
  | Some (slot, interval) => OnInterval n slot interval
  | None => Ok n
  end.

(** ** lifecycle.go *)

(** [load] reads and restores the keypair of a validator (LoadKeypair, on two files). *)
Definition loadValidatorKeys (ValidatorKeysDir : string) (load : Z -> outcome Signer) (ids : list Z)
  : outcome (gmap Z Signer) :=
  if bool_decide (ValidatorKeysDir = EmptyString) then Ok ∅
  else foldM (fun keys idx =>
    kp ← map_err (Wrapf "failed to load keypair for validator %d: %w" [Num idx]) (load idx);
    Ok (<[idx := kp]> keys)) ∅ ids.

Record NodeConfig := mkNodeConfig {
  nc_GenesisTime : Z; nc_Validators : list Validator; nc_ValidatorIDs : list Z;
  nc_ValidatorKeysDir : string; nc_DevnetID : string }.

(** New, on an empty store, without its network services, which [Startup] adds. *)
Definition New (Join : string -> outcome string) (load : Z -> outcome Signer) (store : T) (cfg : NodeConfig)
  : outcome (Node T) :=
  fc ← initGenesis (nc_GenesisTime cfg) (nc_Validators cfg) store;
  let devnetID := if bool_decide (nc_DevnetID cfg = EmptyString) then "devnet0"%string else nc_DevnetID cfg in
  topics ← map_err (Wrapf "join topics: %w" []) (JoinTopics Join devnetID);
  keys ← loadValidatorKeys (nc_ValidatorKeysDir cfg) load (nc_ValidatorIDs cfg);
  Ok (mkNode fc (NewClock (nc_GenesisTime cfg))
        (mkDuties (nc_ValidatorIDs cfg) keys topics true []) 0 []).
End Code.
