(* ===== verification/NodeSafety.v ===== *)
(** The node keeps the invariant of its fork choice store: every access of the main goroutine is a
    step of the store, whatever the peers answer and whatever the other goroutines do in between;
    a tick always returns, and its duties publish what they should. *)
From S2P Require Import Prelude Slot Types Hash Concrete GoStd Bitlist VoteRule Attestations Transition Chain Storage Ghost Leansig ForkChoice ForkInv ForkProduce Aggregation ForkProps Ssz SszCodec SszWire SszProps Wire Reqresp Node.
Local Open Scope Z_scope.

Section Safety.
Context {HW : HashWalker} {MR : MapRange} {FFI : LeansigFFI} {SS : SortSlice}.
Context {RT : SszRuntime} {LAWS : SszLaws RT} {SN : Snappy} {SNL : SnappyLaws SN}.
Context {T : Type} `{SL : StorageLaws T} {SU : Surroundings T}.
Context (shouldVerify : bool) (vs : list Validator).
#[local] Abbreviation wf_fc := (wf_fc shouldVerify vs).
#[local] Abbreviation runs := (rtc (fc_step shouldVerify vs)).

(** ** What is assumed of the surroundings *)

(** The clock stays below the bit positions of the votes; the other goroutines only call the
    operations of the store. *)
Record surroundings_ok : Prop := {
  su_clock i : 0 <= unix i /\ unix i * Z.of_nat (length vs) < 2 ^ 64 - 16;
  su_others i c : wf_fc c -> runs c (others i c) }.

(** A peer answers or fails, with any bytes, but the blocks in them are admissible; its id, which
    hashes a key, has the characters that are logged. *)
Record peer_ok (p : Peer) : Prop := {
  po_id : (16 <= String.length (p_id p))%nat;
  po_status i b : returns (p_status p i b);
  po_blocks i b : returns (p_blocks p i b);
  po_admissible i roots blocks err : RequestBlocksByRoot (p_blocks p i) roots = Ok (blocks, err) ->
    Forall (fun e => admissible_block vs (ba_Block (sb_Message e))) blocks }.

Definition registered (i : Z) : Prop := 0 <= i < Z.of_nat (length vs).

Record wf_duties (v : ValidatorDuties) : Prop := {
  wd_indices : Forall registered (vd_Indices v);
  wd_distinct : NoDup (vd_Indices v);
  wd_keys i kp : vd_Keys v !! i = Some kp -> total_signer kp;
  wd_pending : Forall (fun sa => registered (sa_ValidatorID sa)) (vd_pendingAttestations v) }.

Record wf_node (n : Node T) : Prop := {
  wn_fc : wf_fc (n_FC n);
  wn_duties : wf_duties (n_Validator n);
  wn_genesis : is_u64 (GenesisTime (n_Clock n)) }.

(** What the node may become: the store by its own operations, the configuration unchanged. *)
Record follows (n n' : Node T) : Prop := {
  fo_wf : wf_node n';
  fo_runs : runs (n_FC n) (n_FC n');
  fo_clock : n_Clock n' = n_Clock n;
  fo_indices : vd_Indices (n_Validator n') = vd_Indices (n_Validator n);
  fo_keys : vd_Keys (n_Validator n') = vd_Keys (n_Validator n) }.

Lemma follows_refl n : wf_node n -> follows n n.
Proof. by constructor. Qed.
Lemma follows_trans n1 n2 n3 : follows n1 n2 -> follows n2 n3 -> follows n1 n3.
Proof. intros [] []. constructor; [done|by etrans|congruence..]. Qed.

Context (Hreg : registry_ok vs) (Hsu : surroundings_ok).

Lemma reading_ok i : is_u64 (unix i).
Proof.
  destruct (su_clock Hsu i) as [H0 H1]. destruct Hreg as [Hn _]. unfold is_u64. nia.
Qed.
Lemma reading_some i : reading (Some (unix i)).
Proof. intros t [= <-]. apply reading_ok. Qed.

(** ** One access to the store *)

Lemma call_run {A} (n : Node T) (op : Z -> Store T -> outcome (Store T * A)) (Q : Store T -> A -> Prop) :
  wf_node n ->
  (let c := others (n_events n) (n_FC n) in wf_fc c ->
     exists c' x, op (unix (n_events n)) c = Ok (c', x) /\ runs c c' /\ Q c' x) ->
  exists n' x, call n op = Ok (n', x) /\ follows n n' /\ n_Validator n' = n_Validator n /\
    n_sent n' = n_sent n /\ Q (n_FC n') x.
Proof.
  intros [Hc Hd Hg] Hop. cbv zeta in Hop. unfold call.
  pose proof (su_others Hsu (n_events n) _ Hc) as Ho. destruct (run_wf shouldVerify vs _ _ Hreg Hc Ho) as [Hw _].
  destruct (Hop Hw) as (c' & x & -> & Hr & HQ). cbn [mbind outcome_bind]. do 2 eexists. split; [done|].
  assert (Hrun : runs (n_FC n) c') by by etrans. split; [|done]. constructor; try done.
  constructor; [|done..]. by apply (run_wf shouldVerify vs (n_FC n) c').
Qed.

Lemma read_run {A} (n : Node T) (f : Store T -> A) :
  wf_node n -> exists n', read n f = Ok (n', f (n_FC n')) /\ follows n n' /\ n_Validator n' = n_Validator n /\
    n_sent n' = n_sent n.
Proof.
  intros Hn. destruct (call_run n (fun _ c => Ok (c, f c)) (fun c x => x = f c) Hn) as (n' & x & E & Hf & Hv & Hs & ->).
  { intros c Hc. by exists c, (f c). }
  by exists n'.
Qed.

Lemma time_Now_run (n : Node T) : wf_node n ->
  exists n', time_Now n = Ok (n', unix (n_events n)) /\ follows n n' /\ n_Validator n' = n_Validator n /\ n_sent n' = n_sent n.
Proof.
  intros Hn. destruct (call_run n (fun t c => Ok (c, t)) (fun _ x => x = unix (n_events n)) Hn) as (n' & x & E & Hf & Hv & Hs & ->).
  { intros c Hc. by exists c, (unix (n_events n)). }
  by exists n'.
Qed.

(** ** Synchronisation *)

Lemma fits_envelope e : fits_SignedBlock e -> wf_envelope e.
Proof.
  intros [[(Hs & Hp & Hb & _) Ha] _]. split; [by split_and!|]. by destruct (ba_ProposerAttestation (sb_Message e)).
Qed.

(** Envelopes that may be imported. *)
Definition importable (e : SignedBlockWithAttestation) : Prop :=
  wf_envelope e /\ admissible_block vs (ba_Block (sb_Message e)).

Lemma sync_walk_run p i n pending r : peer_ok p -> wf_node n -> Forall importable pending ->
  exists n' l, sync_walk i p n pending r = Ok (n', l) /\ follows n n' /\ n_Validator n' = n_Validator n /\
    n_sent n' = n_sent n /\ Forall importable l.
Proof.
  intros Hp. revert n pending r. induction i as [|i IH]; intros n pending r Hn Hl; cbn [sync_walk].
  { exists n, pending. by split_and!. }
  destruct (read_run n (fun c => GetBlock (fc_storage c) r) Hn) as (n1 & -> & Hf & Hv & Hs).
  cbn [mbind outcome_bind]. destruct (GetBlock _ r); [by exists n1, pending|].
  destruct (request_blocks_total (p_blocks p (n_events n1)) [r]) as (blocks & err & E & Hfit); [intros; apply Hp|].
  rewrite E. cbn [mbind outcome_bind]. destruct err; [by exists n1, pending|].
  destruct blocks as [|sb blocks]; [by exists n1, pending|].
  apply po_admissible in E as Hadm; [|done]. apply list.Forall_cons in Hadm as [Hadm _].
  apply list.Forall_cons in Hfit as [Hfit _].
  destruct (IH n1 (pending ++ [sb]) (b_ParentRoot (ba_Block (sb_Message sb)))) as (n2 & l & -> & Hf2 & Hv2 & Hs2 & Hl2);
    [apply Hf| |].
  { apply list.Forall_app. split; [done|]. constructor; [|done]. split; [by apply fits_envelope|done]. }
  exists n2, l. split_and!; [done|by eapply follows_trans|congruence|congruence|done].
Qed.

Lemma import_one_run n k sb : wf_node n -> importable sb ->
  exists n' k', import_one shouldVerify (n, k) sb = Ok (n', k') /\ follows n n' /\
    n_Validator n' = n_Validator n /\ n_sent n' = n_sent n.
Proof.
  intros Hn [He [Ha1 Ha2]]. unfold import_one.
  destruct (call_run n (fun t c => ForkChoice.ProcessBlock shouldVerify (Some t) c sb) (fun _ _ => True) Hn)
    as (n1 & res & -> & Hf & Hv & Hs & _).
  { intros c Hc.
    destruct (ProcessBlock_run shouldVerify vs (Some (unix (n_events n))) c sb Hc He Hreg (reading_some _) Ha1 Ha2)
      as (c1 & c' & res & _ & _ & E & _). exists c', res. split; [done|]. split; [|done].
    apply rtc_once. eapply step_ProcessBlock; [apply reading_some|exact He|by split|exact E]. }
  cbn [mbind outcome_bind]. destruct res; by do 2 eexists.
Qed.

Lemma import_all_run l n k : wf_node n -> Forall importable l ->
  exists n' k', foldM (import_one shouldVerify) (n, k) l = Ok (n', k') /\ follows n n' /\
    n_Validator n' = n_Validator n /\ n_sent n' = n_sent n.
Proof.
  intros Hn Hl. revert n k Hn. induction Hl as [|sb l Hsb Hl IH]; intros n k Hn; cbn [foldM].
  { exists n, k. by split_and!. }
  destruct (import_one_run n k sb Hn Hsb) as (n1 & k1 & -> & Hf & Hv & Hs). cbn [mbind outcome_bind].
  destruct (IH n1 k1) as (n2 & k2 & -> & Hf2 & Hv2 & Hs2); [apply Hf|].
  exists n2, k2. split_and!; [done|by eapply follows_trans|congruence..].
Qed.

Lemma syncWithPeer_run n p : peer_ok p -> wf_node n ->
  exists n' b, syncWithPeer shouldVerify n p = Ok (n', b) /\ follows n n' /\
    n_Validator n' = n_Validator n /\ n_sent n' = n_sent n.
Proof.
  intros Hp Hn. unfold syncWithPeer. destruct (read_run n GetStatus Hn) as (n1 & -> & Hf & Hv & Hs).
  cbn [mbind outcome_bind].
  pose proof (RequestStatus_returns (p_status p (n_events n1)) (status_of (GetStatus (n_FC n1))) (po_status _ Hp _)) as Hr.
  unfold returns in Hr. destruct (RequestStatus _ _) as [st|e| |]; cbn [total] in Hr; [| |done..];
    rewrite (prefix16_Ok _ (po_id _ Hp)); cbn [mbind outcome_bind]; [|by exists n1, false].
  case_match; [by exists n1, false|].
  destruct (sync_walk_run p maxSyncDepth n1 [] (cp_Root (rs_Head st)) Hp (fo_wf _ _ Hf) ltac:(constructor))
    as (n2 & l & -> & Hf2 & Hv2 & Hs2 & Hl). cbn [mbind outcome_bind].
  destruct (import_all_run (reverse l) n2 0 (fo_wf _ _ Hf2)) as (n3 & k & -> & Hf3 & Hv3 & Hs3); [by apply list.Forall_reverse|].
  cbn [mbind outcome_bind]. exists n3, (0 <? k).
  split_and!; [done|eapply follows_trans; [exact Hf|by eapply follows_trans]|congruence..].
Qed.

Lemma sync_peers_run n peers st : Forall peer_ok peers -> wf_node n ->
  exists n' st', sync_peers shouldVerify n peers st = Ok (n', st') /\ follows n n' /\
    n_Validator n' = n_Validator n /\ n_sent n' = n_sent n.
Proof.
  intros Hps. revert n. induction Hps as [|p peers Hp Hps IH]; intros n Hn; cbn [sync_peers].
  { exists n, st. by split_and!. }
  destruct (syncWithPeer_run n p Hp Hn) as (n1 & b & -> & Hf & Hv & Hs). cbn [mbind outcome_bind].
  destruct b.
  - destruct (read_run n1 GetStatus (fo_wf _ _ Hf)) as (n2 & -> & Hf2 & Hv2 & Hs2). do 2 eexists.
    split_and!; [done|by eapply follows_trans|congruence..].
  - destruct (IH n1 (fo_wf _ _ Hf)) as (n2 & st' & -> & Hf2 & Hv2 & Hs2). do 2 eexists.
    split_and!; [done|by eapply follows_trans|congruence..].
Qed.

(** ** A tick up to its duties *)

(** A slot whose duties can be performed. *)
Definition duty_slot (slot : Z) : Prop := is_u64 slot /\ slot * Z.of_nat (length vs) < 2 ^ 64 - 16.

Lemma CurrentSlot_ok c i : is_u64 (GenesisTime c) -> duty_slot (CurrentSlot c (unix i)).
Proof.
  intros Hg. destruct (su_clock Hsu i) as [H0 H1]. pose proof (reading_ok i) as Hi. destruct Hreg as [Hn _].
  unfold CurrentSlot, duty_slot, is_u64 in *. destruct (Z.ltb_spec (unix i) (GenesisTime c)); [lia|].
  rewrite u64_small by (unfold is_u64; lia). change SecondsPerSlot with 4.
  pose proof (Z.div_le_upper_bound (unix i - GenesisTime c) 4 (unix i)). pose proof (Z.div_pos (unix i - GenesisTime c) 4).
  split; [lia|]. nia.
Qed.

Lemma proposer_is (n : Node T) idx slot : wf_node n ->
  IsProposer idx slot (NumValidators (n_FC n)) = Ok (slot mod Z.of_nat (length vs) =? idx).
Proof.
  intros Hn. unfold IsProposer, NumValidators. rewrite (fi_numValidators _ _ _ (wn_fc _ Hn)).
  destruct Hreg as [H0 _]. by rewrite (proj2 (Z.eqb_neq _ 0)) by lia.
Qed.

Lemma HasProposal_run n slot : wf_node n -> exists b, HasProposal n slot = Ok b.
Proof.
  intros Hn. unfold HasProposal. induction (vd_Indices (n_Validator n)) as [|idx l IH]; [by eexists|].
  cbn [has_proposal]. rewrite proposer_is by done. cbn [mbind outcome_bind]. destruct (_ =? idx); [by eexists|exact IH].
Qed.

Lemma before_duties_run n peers : Forall peer_ok peers -> wf_node n ->
  exists n1 duty, before_duties shouldVerify n peers = Ok (n1, duty) /\ follows n n1 /\
    n_Validator n1 = n_Validator n /\ n_sent n1 = n_sent n /\
    forall slot interval, duty = Some (slot, interval) -> duty_slot slot.
Proof.
  intros Hps Hn. unfold before_duties.
  destruct (time_Now_run n Hn) as (n1 & -> & F1 & V1 & S1). cbn [mbind outcome_bind].
  case_match; [by exists n1, None|].
  destruct (time_Now_run n1 (fo_wf _ _ F1)) as (n2 & -> & F2 & V2 & S2). cbn [mbind outcome_bind].
  destruct (time_Now_run n2 (fo_wf _ _ F2)) as (n3 & -> & F3 & V3 & S3). cbn [mbind outcome_bind]. cbv zeta.
  pose proof (CurrentSlot_ok (n_Clock n2) (n_events n1) (wn_genesis _ (fo_wf _ _ F2))) as Hslot.
  set (slot := CurrentSlot (n_Clock n2) _) in *. set (interval := CurrentInterval _ _).
  assert (Hp : exists b, (if interval =? 0 then HasProposal n3 slot else Ok false) = Ok b).
  { destruct (_ =? 0); [|by eexists]. apply HasProposal_run, F3. }
  destruct Hp as [hp ->]. cbn [mbind outcome_bind].
  destruct (time_Now_run n3 (fo_wf _ _ F3)) as (n4 & -> & F4 & V4 & S4). cbn [mbind outcome_bind].
  destruct (call_run n4 (fun _ c => c ← AdvanceTime c (CurrentTime (n_Clock n4) (unix (n_events n3))) hp; Ok (c, ()))
              (fun _ _ => True) (fo_wf _ _ F4)) as (n5 & [] & -> & F5 & V5 & S5 & _).
  { intros c Hc. destruct (advanceTime_wf _ _ c (unix (n_events n3)) hp Hc (reading_ok _)) as (c' & E & _).
    exists c', tt. unfold AdvanceTime, CurrentTime. rewrite E. split; [done|]. split; [|done].
    apply rtc_once. eapply step_AdvanceTime; [apply reading_ok|exact E]. }
  cbn [mbind outcome_bind]. destruct (read_run n5 GetStatus (fo_wf _ _ F5)) as (n6 & -> & F6 & V6 & S6).
  cbn [mbind outcome_bind]. set (st := GetStatus (n_FC n6)).
  assert (H7 : exists n7 st', (if u64 (cs_HeadSlot st + 2) <? slot then sync_peers shouldVerify n6 peers st else Ok (n6, st))
                 = Ok (n7, st') /\ follows n6 n7 /\ n_Validator n7 = n_Validator n6 /\ n_sent n7 = n_sent n6).
  { destruct (_ <? slot); [apply sync_peers_run; [done|apply F6]|]. exists n6, st.
    split; [done|]. split; [apply follows_refl, F6|done]. }
  destruct H7 as (n7 & st' & -> & F7 & V7 & S7). cbn [mbind outcome_bind].
  do 2 eexists. split; [done|]. split; [|split; [congruence|split; [congruence|]]].
  - do 6 (eapply follows_trans; [eassumption|]). exact F7.
  - intros s i. case_match; [|done]. intros [= <- <-]. exact Hslot.
Qed.

(** ** The attester's duty *)

(** The vote [sa] of validator [v] for [slot], signed by [kp], as made on some store of the run: for
    the head and the vote target of that store. *)
Definition vote_of (slot v : Z) (kp : Signer) (sa : SignedAttestation) : Prop :=
  sa_ValidatorID sa = v /\ ad_Slot (sa_Message sa) = slot /\ wf_SignedAttestation sa /\
  (exists m sig, Attestation_HashTreeRoot (mkAttestation v (sa_Message sa)) = (m, None) /\
     kp (u32 slot) m = Ok sig /\ sa_Signature sa = vec_of XMSSSignatureSize sig) /\
  exists c : Store T, wf_fc c /\ cp_Root (ad_Head (sa_Message sa)) = fc_head c /\
    GetVoteTarget c = Ok (ad_Target (sa_Message sa)) /\ ad_Source (sa_Message sa) = fc_latestJustified c.

Lemma ProduceAttestation_run c slot v kp :
  wf_fc c -> is_u64 slot -> is_u64 v -> total_signer kp ->
  exists c' res, ProduceAttestation c slot v kp = Ok (c', res) /\ runs c c' /\
    forall sa, res = inr sa -> vote_of slot v kp sa.
Proof.
  intros Hc Hslot Hv HS. destruct (ProduceAttestation_op shouldVerify vs c slot v kp Hc Hslot Hv HS) as (c' & res & E & _).
  exists c', res. split; [done|]. split; [by apply rtc_once, (step_ProduceAttestation _ _ _ slot v kp _ res)|].
  intros sa ->. destruct (prepared_wf _ _ c slot Hc) as (c1 & Ep & Hc1 & _).
  unfold ProduceAttestation in E. rewrite <- bind_assoc in E. fold (prepared c slot) in E. rewrite Ep in E.
  cbn [mbind outcome_bind] in E. destruct (GetBlock (fc_storage c1) (fc_head c1)) as [hb|] eqn:Hhb; [|discriminate E].
  destruct (getVoteTargetLocked c1) as [tgt|e|w|] eqn:Et; cbn [map_err catch] in E; try discriminate E.
  destruct (Attestation_HashTreeRoot _) as [m [e|]] eqn:Em; [discriminate E|]. cbn [ad_Slot] in E.
  destruct (kp (u32 slot) m) as [sig|e|w|] eqn:Es; cbn [map_err catch] in E; try discriminate E.
  apply Ok_inj, (f_equal snd) in E. cbn [snd] in E. apply (inj inr) in E. rewrite <- E. unfold vote_of. cbn [sa_ValidatorID sa_Message sa_Signature ad_Slot ad_Head ad_Target ad_Source cp_Root].
  split; [done|]. split; [done|]. split; [|split; [by exists m, sig|by exists c1]].
  split; [done|]. cbn [sa_Message ad_Slot ad_Head ad_Target ad_Source]. split; [done|]. split.
  - by destruct (ss_entry _ _ (fi_storage _ _ _ Hc1) _ _ Hhb) as (_ & ? & _).
  - split; [|apply (fi_J _ _ _ Hc1)].
    destruct (getVoteTarget_run shouldVerify vs c1 Hc1) as [(b & Eb & Hgb & _)|[Eb _]]; rewrite Et in Eb; [|discriminate Eb].
    injection Eb as ->. by destruct (ss_entry _ _ (fi_storage _ _ _ Hc1) _ _ Hgb) as (_ & ? & _).
Qed.

Lemma registered_u64 i : registered i -> is_u64 i.
Proof. destruct Hreg. unfold registered, is_u64. lia. Qed.

(** The votes added by a part of the duty: pending, published, each for another index. *)
Record voted (slot : Z) (indices : list Z) (n n' : Node T) (votes : list SignedAttestation) : Prop := {
  vo_follows : follows n n';
  vo_sent : n_sent n' = n_sent n ++ map MsgAttestation votes;
  vo_pending : vd_pendingAttestations (n_Validator n') = vd_pendingAttestations (n_Validator n) ++ votes;
  vo_indices : sublist (map sa_ValidatorID votes) indices;
  vo_votes : Forall (fun sa => slot mod Z.of_nat (length vs) <> sa_ValidatorID sa /\
    exists kp, vd_Keys (n_Validator n) !! sa_ValidatorID sa = Some kp /\ vote_of slot (sa_ValidatorID sa) kp sa) votes }.

Lemma voted_none slot idx n : wf_node n -> voted slot [idx] n n [].
Proof.
  intros Hn. constructor; rewrite ?app_nil_r; try done. apply sublist_nil_l.
Qed.

Lemma wf_node_pending n l : wf_node n -> Forall (fun sa => registered (sa_ValidatorID sa)) l -> follows n (set_pending n l).
Proof. intros [Hc [] Hg] Hl. by constructor. Qed.
Lemma wf_node_publish n m : wf_node n -> follows n (publish n m).
Proof. intros [Hc Hd Hg]. by constructor. Qed.

Lemma attest_one_run slot n idx : wf_node n -> duty_slot slot -> registered idx ->
  exists n' votes, attest_one shouldVerify slot n idx = Ok n' /\ voted slot [idx] n n' votes.
Proof.
  intros Hn [Hs _] Hi. unfold attest_one. rewrite proposer_is by done. cbn [mbind outcome_bind].
  destruct (Z.eqb_spec (slot mod Z.of_nat (length vs)) idx) as [|Hnp]; [by eexists _, []; split; [done|apply voted_none]|].
  destruct (vd_Keys (n_Validator n) !! idx) as [kp|] eqn:Hk; [|by eexists _, []; split; [done|apply voted_none]].
  destruct (call_run n (fun _ c => ProduceAttestation c slot idx kp)
              (fun _ res => forall sa, res = inr sa -> vote_of slot idx kp sa) Hn) as (n1 & res & -> & F1 & V1 & S1 & Hres).
  { intros c Hc. apply ProduceAttestation_run; [done|done|by apply registered_u64|].
    by apply (wd_keys _ (wn_duties _ Hn) idx). }
  cbn [mbind outcome_bind]. destruct res as [e|sa].
  { eexists n1, []. split; [done|]. destruct (voted_none slot idx n Hn). constructor; try done; [by rewrite app_nil_r|].
    by rewrite app_nil_r, V1. }
  specialize (Hres sa eq_refl). pose proof Hres as (Hid & Hslot & Hwf & _). cbv zeta.
  set (n2 := set_pending n1 _).
  assert (F2 : follows n1 n2).
  { apply wf_node_pending; [apply F1|]. apply list.Forall_app. split; [apply F1|]. constructor; [by rewrite Hid|done]. }
  destruct (call_run n2 (fun t c => c ← ForkChoice.ProcessAttestation shouldVerify (Some t) c sa; Ok (c, ()))
              (fun _ _ => True) (fo_wf _ _ F2)) as (n3 & [] & -> & F3 & V3 & S3 & _).
  { intros c Hc. destruct (ProcessAttestation_op shouldVerify vs (Some (unix (n_events n2))) c sa Hc
      (proj2 Hreg) (reading_some _) Hwf) as (c' & E & _). exists c', tt. rewrite E. split; [done|]. split; [|done].
    apply rtc_once. eapply step_ProcessAttestation; [apply reading_some|exact Hwf|exact E]. }
  cbn [mbind outcome_bind]. eexists _, [sa]. split; [done|]. constructor.
  - eapply follows_trans; [exact F1|]. eapply follows_trans; [exact F2|]. eapply follows_trans; [exact F3|].
    apply wf_node_publish, F3.
  - cbn [publish n_sent map]. rewrite S3. cbn [n2 set_pending n_sent]. by rewrite S1.
  - cbn [publish n_Validator]. rewrite V3. cbn [n2 set_pending n_Validator vd_pendingAttestations]. by rewrite V1.
  - cbn [map]. by rewrite Hid.
  - constructor; [|done]. rewrite Hid. split; [done|]. by exists kp.
Qed.

Lemma voted_trans slot l1 l2 n1 n2 n3 v1 v2 :
  voted slot l1 n1 n2 v1 -> voted slot l2 n2 n3 v2 -> voted slot (l1 ++ l2) n1 n3 (v1 ++ v2).
Proof.
  intros [F1 S1 P1 I1 V1] [F2 S2 P2 I2 V2]. constructor.
  - by eapply follows_trans.
  - by rewrite S2, S1, <- app_assoc, List.map_app.
  - by rewrite P2, P1, <- app_assoc.
  - rewrite List.map_app. by apply sublist_app.
  - apply list.Forall_app. split; [done|]. by rewrite (fo_keys _ _ F1) in V2.
Qed.

Lemma attest_all_run slot n l : wf_node n -> duty_slot slot -> Forall registered l ->
  exists n' votes, foldM (attest_one shouldVerify slot) n l = Ok n' /\ voted slot l n n' votes.
Proof.
  intros Hn Hs Hl. revert n Hn. induction Hl as [|idx l Hi Hl IH]; intros n Hn; cbn [foldM].
  { exists n, []. split; [done|]. destruct (voted_none slot 0 n Hn). by constructor. }
  destruct (attest_one_run slot n idx Hn Hs Hi) as (n1 & v1 & -> & H1). cbn [mbind outcome_bind].
  destruct (IH n1 (fo_wf _ _ (vo_follows _ _ _ _ _ H1))) as (n2 & v2 & -> & H2).
  exists n2, (v1 ++ v2). split; [done|]. by apply (voted_trans slot [idx] l n n1 n2).
Qed.

(** ** The proposer's duty *)

(** The hash function gives the block the node would propose now a root of its own. *)
Definition fresh_proposal (n : Node T) (slot : Z) : Prop :=
  let c := others (n_events n) (n_FC n) in
  forall idx kp c' env, vd_Keys (n_Validator n) !! idx = Some kp -> ProduceBlock c slot idx kp = Ok (c', inr env) ->
    no_collision c (ba_Block (sb_Message env)).

(** What a duty publishes. *)
Inductive duty_output (slot : Z) (v : ValidatorDuties) : Z -> list message -> Prop :=
| out_none interval : duty_output slot v interval []
| out_block env :
    slot <> 0 -> b_Slot (ba_Block (sb_Message env)) = slot ->
    b_ProposerIndex (ba_Block (sb_Message env)) = slot mod Z.of_nat (length vs) ->
    b_ProposerIndex (ba_Block (sb_Message env)) ∈ vd_Indices v -> checkSignatureCount env = Ok tt ->
    duty_output slot v 0 [MsgBlock env]
| out_votes votes :
    NoDup (map sa_ValidatorID votes) ->
    Forall (fun sa => sa_ValidatorID sa ∈ vd_Indices v /\ sa_ValidatorID sa <> slot mod Z.of_nat (length vs) /\
      exists kp, vd_Keys v !! sa_ValidatorID sa = Some kp /\ vote_of slot (sa_ValidatorID sa) kp sa) votes ->
    duty_output slot v 1 (map MsgAttestation votes)
| out_aggregate agg :
    is_Some (t_AggregateAttestation (vd_Topics v)) ->
    AggregateAttestations (vd_pendingAttestations v) = Ok agg -> duty_output slot v 2 [MsgAggregate agg].

Lemma propose_other slot n idx : wf_node n -> slot mod Z.of_nat (length vs) <> idx -> propose_one slot n idx = Ok n.
Proof. intros Hn Hne. unfold propose_one. rewrite proposer_is by done. by rewrite (proj2 (Z.eqb_neq _ _)). Qed.

Lemma propose_skip slot n l : wf_node n -> slot mod Z.of_nat (length vs) ∉ l -> foldM (propose_one slot) n l = Ok n.
Proof.
  intros Hn. induction l as [|idx l IH]; [done|]. intros [Hne Hl]%not_elem_of_cons. cbn [foldM].
  rewrite propose_other by done. by apply IH.
Qed.

Lemma propose_one_run slot n : wf_node n -> duty_slot slot -> slot <> 0 -> fresh_proposal n slot ->
  let idx := slot mod Z.of_nat (length vs) in idx ∈ vd_Indices (n_Validator n) ->
  exists n' msgs, propose_one slot n idx = Ok n' /\ follows n n' /\ n_sent n' = n_sent n ++ msgs /\
    duty_output slot (n_Validator n) 0 msgs.
Proof.
  intros Hn [Hs Hroom] Hs0 Hfresh idx Hidx. unfold propose_one. rewrite proposer_is by done.
  cbn [mbind outcome_bind]. fold idx. rewrite Z.eqb_refl. cbn [negb].
  assert (Hnone : forall n', follows n n' -> n_sent n' = n_sent n -> exists n'' msgs, Ok n' = Ok n'' /\ follows n n'' /\
    n_sent n'' = n_sent n ++ msgs /\ duty_output slot (n_Validator n) 0 msgs).
  { intros n' F S. exists n', []. split; [done|]. split; [done|]. rewrite app_nil_r. split; [done|constructor]. }
  destruct (vd_Keys (n_Validator n) !! idx) as [kp|] eqn:Hk; [|by apply Hnone; [apply follows_refl|]].
  pose proof (wd_keys _ (wn_duties _ Hn) idx kp Hk) as HS.
  assert (Hi : is_u64 idx).
  { apply registered_u64. pose proof (wd_indices _ (wn_duties _ Hn)) as Hall. rewrite list.Forall_forall in Hall. by apply Hall. }
  destruct (call_run n (fun _ c => ProduceBlock c slot idx kp)
    (fun _ res => forall env, res = inr env -> exists c1 hs state, produced c1 slot idx kp env hs state) Hn)
    as (n1 & res & -> & F1 & V1 & S1 & Hres).
  { intros c Hc. destruct (ProduceBlock_run shouldVerify vs c slot idx kp Hc Hreg Hs Hi HS Hroom)
      as (c1 & c' & res & _ & _ & _ & E & Hres). exists c', res. split; [done|]. split.
    - apply rtc_once. apply (step_ProduceBlock _ _ _ slot idx kp c' res Hs Hi HS Hroom); [|exact E].
      intros env ->. by apply (Hfresh idx kp c' env).
    - intros env ->. destruct Hres as (hs & state & Hp & _). by exists c1, hs, state. }
  cbn [mbind outcome_bind]. destruct res as [e|env]; [by apply Hnone|].
  destruct (Hres env eq_refl) as (c1 & hs & state & Hp). pose proof (produced_count _ _ _ _ _ _ _ Hp) as Hcount.
  assert (Hlast : exists sig, list.last (sb_Signature env) = Some sig).
  { destruct (pr_votes _ _ _ _ _ _ _ Hp) as (l & sig & _ & _ & _ & -> & _). eexists. apply last_snoc. }
  destruct Hlast as [sig ->]. exists (publish n1 (MsgBlock env)), [MsgBlock env]. split; [done|]. split.
  { eapply follows_trans; [exact F1|]. apply wf_node_publish, F1. }
  split; [cbn [publish n_sent]; by rewrite S1|]. constructor; try done; rewrite ?(pr_slot _ _ _ _ _ _ _ Hp),
    ?(pr_proposer _ _ _ _ _ _ _ Hp); done.
Qed.

Lemma TryPropose_run slot n : wf_node n -> duty_slot slot -> fresh_proposal n slot ->
  exists n' msgs, TryPropose n slot = Ok n' /\ follows n n' /\ n_sent n' = n_sent n ++ msgs /\
    duty_output slot (n_Validator n) 0 msgs.
Proof.
  intros Hn Hs Hfresh. unfold TryPropose. set (idx := slot mod Z.of_nat (length vs)).
  assert (Hnone : exists n' msgs, Ok n = Ok n' /\ follows n n' /\ n_sent n' = n_sent n ++ msgs /\
    duty_output slot (n_Validator n) 0 msgs).
  { exists n, []. split; [done|]. split; [by apply follows_refl|]. rewrite app_nil_r. split; [done|constructor]. }
  destruct (Z.eqb_spec slot 0) as [|Hs0]; [exact Hnone|].
  destruct (decide (idx ∈ vd_Indices (n_Validator n))) as [Hin|Hout]; [|by rewrite propose_skip].
  destruct (propose_one_run slot n Hn Hs Hs0 Hfresh Hin) as (n' & msgs & E & F & Hsent & Ho).
  apply list_elem_of_split in Hin as (l1 & l2 & El). pose proof (wd_distinct _ (wn_duties _ Hn)) as Hnd.
  rewrite El in Hnd |- *. apply list.NoDup_app in Hnd as (_ & H1 & H2). apply list.NoDup_cons in H2 as [H2 _].
  rewrite foldM_app, propose_skip; [|done|intros H; apply (H1 _ H); by left]. cbn [mbind outcome_bind foldM].
  fold idx in E. rewrite E. cbn [mbind outcome_bind]. exists n', msgs. split; [|by split].
  apply propose_skip; [apply F|done].
Qed.

(** ** All duties *)

Lemma TryAttest_run slot n : wf_node n -> duty_slot slot ->
  exists n' votes, TryAttest shouldVerify n slot = Ok n' /\ voted slot (vd_Indices (n_Validator n)) (set_pending n []) n' votes.
Proof.
  intros Hn Hs. pose proof (wf_node_pending n [] Hn ltac:(constructor)) as F.
  apply attest_all_run; [apply F|done|apply (wd_indices _ (wn_duties _ Hn))].
Qed.

Lemma TryAggregate_run slot n : wf_node n ->
  exists n' msgs, TryAggregate n slot = Ok n' /\ follows n n' /\ n_sent n' = n_sent n ++ msgs /\
    duty_output slot (n_Validator n) 2 msgs.
Proof.
  intros Hn. unfold TryAggregate. set (v := n_Validator n).
  destruct (Nat.eqb_spec (length (vd_pendingAttestations v)) 0) as [|Hne].
  { exists n, []. split; [done|]. split; [by apply follows_refl|]. rewrite app_nil_r. split; [done|constructor]. }
  pose proof (wd_pending _ (wn_duties _ Hn)) as Hp. fold v in Hp. destruct Hreg as [_ Hr].
  destruct (aggregate_run (vd_pendingAttestations v)) as (k & fst & _ & _ & E).
  { intros E. by rewrite E in Hne. }
  { eapply list.Forall_impl; [exact Hp|]. unfold registered. intros sa. lia. }
  rewrite E. set (agg := mkAggregatedAttestation _ _ _) in *. cbv zeta.
  destruct (vd_publishes_aggregates v && _) eqn:Epub.
  - apply andb_prop in Epub as [_ Ht%bool_decide_eq_true]. eexists _, [MsgAggregate agg]. split; [done|]. split; [|split; [done|]].
    + eapply follows_trans; [by apply wf_node_publish|]. apply wf_node_pending; [by apply wf_node_publish|constructor].
    + by constructor.
  - eexists _, []. split; [done|]. split; [by apply wf_node_pending|]. cbn [set_pending n_sent]. rewrite app_nil_r.
    split; [done|constructor].
Qed.

Lemma OnInterval_run slot interval n : wf_node n -> duty_slot slot -> (interval = 0 -> fresh_proposal n slot) ->
  exists n' msgs, OnInterval shouldVerify n slot interval = Ok n' /\ follows n n' /\ n_sent n' = n_sent n ++ msgs /\
    duty_output slot (n_Validator n) interval msgs.
Proof.
  intros Hn Hs Hfresh. unfold OnInterval. destruct (Z.eqb_spec interval 0) as [->|_]; [by apply TryPropose_run; auto|].
  destruct (Z.eqb_spec interval 1) as [->|_].
  { destruct (TryAttest_run slot n Hn Hs) as (n' & votes & E & [F S _ I V]). exists n', (map MsgAttestation votes).
    split; [done|]. split; [eapply follows_trans; [by apply (wf_node_pending n [])|exact F]|]. split; [exact S|].
    constructor.
    - eapply sublist_NoDup; [apply Hn|exact I].
    - rewrite list.Forall_forall in V |- *. intros sa Hsa. destruct (V sa Hsa) as (Hne & kp & Hk & Hv).
      split; [|split; [congruence|by exists kp]]. eapply sublist_subseteq; [exact I|]. by apply list_elem_of_fmap_2. }
  destruct (Z.eqb_spec interval 2) as [->|_]; [by apply TryAggregate_run|].
  exists n, []. split; [done|]. split; [by apply follows_refl|]. rewrite app_nil_r. split; [done|constructor].
Qed.

(** ** Start-up *)

Lemma load_keys_run dir load ids : (forall i kp, load i = Ok kp -> total_signer kp) ->
  forall keys, loadValidatorKeys dir load ids = Ok keys -> forall i kp, keys !! i = Some kp -> total_signer kp.
Proof.
  intros Hload keys. unfold loadValidatorKeys. case_bool_decide; [by intros <-%Ok_inj i kp ?%lookup_empty_Some|].
  assert (G : forall m : gmap Z Signer, (forall i kp, m !! i = Some kp -> total_signer kp) ->
    foldM (fun keys idx => kp ← map_err (Wrapf "failed to load keypair for validator %d: %w" [Num idx]) (load idx);
                           Ok (<[idx := kp]> keys)) m ids = Ok keys -> forall i kp, keys !! i = Some kp -> total_signer kp).
  { induction ids as [|id ids IH]; intros m Hm; cbn [foldM]; [by intros <-%Ok_inj|].
    destruct (load id) as [kp| | |] eqn:El; cbn [map_err mbind outcome_bind]; try done.
    apply IH. intros i k [[-> <-]|[_ ?]]%lookup_insert_Some; [by eapply Hload|by eapply Hm]. }
  apply G. by intros i kp ?%lookup_empty_Some.
Qed.

Lemma New_wf Join load (store : T) cfg n :
  (forall r, GetBlock store r = None) -> (forall r, GetState store r = None) ->
  is_u64 (nc_GenesisTime cfg) -> nc_Validators cfg = vs -> Forall wf_Validator vs ->
  (Block_HashTreeRoot (genesis_block (GenerateGenesis (nc_GenesisTime cfg) vs))).1 <> ZeroHash ->
  Forall registered (nc_ValidatorIDs cfg) -> NoDup (nc_ValidatorIDs cfg) ->
  (forall i kp, load i = Ok kp -> total_signer kp) ->
  New Join load store cfg = Ok n -> wf_node n.
Proof.
  intros H1 H2 H3 Ev H4 H5 H6 H7 H8. unfold New. rewrite Ev.
  destruct (initGenesis_run shouldVerify vs store (nc_GenesisTime cfg) H1 H2 H3 H4 Hreg H5) as (c & -> & Hc & _).
  cbn [mbind outcome_bind]. intros (topics & _ & H)%bind_Ok. apply bind_Ok in H as (keys & Hk & <-%Ok_inj).
  constructor; [done| |done]. constructor; [done|done| |constructor]. by eapply load_keys_run.
Qed.
End Safety.

(** * Theorems *)

Section Properties.
Context {HW : HashWalker} {MR : MapRange} {FFI : LeansigFFI} {SS : SortSlice}.
Context {RT : SszRuntime} {LAWS : SszLaws RT} {SN : Snappy} {SNL : SnappyLaws SN}.
Context {T : Type} `{SL : StorageLaws T}.
Context (shouldVerify : bool) (vs : list Validator).

(** C4: a tick of the event loop is safe: whatever bytes the peers answer and whatever store
    operations the other goroutines run between its accesses, it returns, changes the store only
    by operations of the fork choice (so the fork choice invariant holds after it), and publishes
    just what the duty of its interval calls for: at most one block, of the slot's proposer; at
    most one vote per registered validator, none of the proposer; at most one aggregate.  The blocks
    that decode from the answers have slots within the vote arithmetic and roots that are not zero,
    a peer's id has the characters that are logged, and the block that the node proposes in this
    tick, if it does, has a root of its own. *)
Theorem tick_safe {SU : Surroundings T} (n : Node T) (peers : list Peer) :
  registry_ok vs -> surroundings_ok shouldVerify vs -> Forall (peer_ok vs) peers -> wf_node shouldVerify vs n ->
  exists n1 duty, before_duties shouldVerify n peers = Ok (n1, duty) /\
    ((forall slot, duty = Some (slot, 0) -> fresh_proposal n1 slot) ->
     exists n' msgs, run_tick shouldVerify n peers = Ok n' /\ follows shouldVerify vs n n' /\
       n_sent n' = n_sent n ++ msgs /\
       match duty with
       | Some (slot, interval) => duty_output shouldVerify vs slot (n_Validator n) interval msgs
       | None => msgs = []
       end).
Proof.
  intros Hreg Hsu Hps Hn.
  destruct (before_duties_run shouldVerify vs Hreg Hsu n peers Hps Hn) as (n1 & duty & E & F & V & S & Hd).
  exists n1, duty. split; [done|]. intros Hfresh. unfold run_tick. rewrite E. cbn [mbind outcome_bind].
  destruct duty as [[slot interval]|].
  - destruct (OnInterval_run shouldVerify vs Hreg Hsu slot interval n1 (fo_wf _ _ _ _ F) (Hd _ _ eq_refl))
      as (n' & msgs & E' & F' & S' & Ho); [by intros ->; apply Hfresh|].
    exists n', msgs. split; [done|]. split; [by eapply follows_trans|]. rewrite <- V, <- S. by split.
  - exists n1, []. rewrite app_nil_r. by split_and!.
Qed.

(** the node's clock and the time of its fork choice agree: once the store is advanced to the
    clock's reading, its time is the clock's slot and interval, unless it was ahead already. *)
Theorem clock_agrees (c : Store T) (clock : Clock) (now : Z) (hasProposal : bool) :
  wf_fc shouldVerify vs c -> is_u64 now -> GenesisTime clock = fc_genesisTime c ->
  IsBeforeGenesis clock now = false -> fc_time c <= now - fc_genesisTime c ->
  exists c', AdvanceTime c (CurrentTime clock now) hasProposal = Ok c' /\
    fc_time c' = CurrentSlot clock now * IntervalsPerSlot + CurrentInterval clock now /\
    0 <= CurrentInterval clock now < IntervalsPerSlot.
Proof.
  intros Hc Hnow Hg Hb Hle. unfold IsBeforeGenesis in Hb. apply Z.ltb_ge in Hb. rewrite Hg in Hb.
  destruct (advanceTime_wf _ _ c now hasProposal Hc Hnow) as (c' & E & _ & _ & Ht). exists c'. split; [exact E|].
  pose proof (fi_genesisTime _ _ _ Hc) as Hgt. unfold interval_of in Ht. unfold CurrentSlot, CurrentInterval.
  rewrite Hg, (proj2 (Z.ltb_ge _ _)), u64_small by (done || (unfold is_u64 in *; lia)).
  change SecondsPerInterval with 1 in *. change SecondsPerSlot with 4. change IntervalsPerSlot with 4.
  rewrite !Z.div_1_r in *. pose proof (Z.div_mod (now - fc_genesisTime c) 4 ltac:(lia)).
  pose proof (Z.mod_pos_bound (now - fc_genesisTime c) 4 ltac:(lia)). lia.
Qed.
End Properties.

(** * Concrete nodes *)

Lemma pair_eq {A B} (a a' : A) (b b' : B) : (a, b) = (a', b') -> a = a' /\ b = b'.
Proof. by intros [= -> ->]. Qed.

Section Example.
#[local] Existing Instance toy_walker.
#[local] Existing Instance canonical_range.
#[local] Existing Instance toy_ffi.
#[local] Existing Instance merge_sort_slice.

(** A node with the key of one validator, started on the genesis of three. *)
Definition nx_config (v : Z) : NodeConfig := mkNodeConfig 1000 fx_vs [v] "keys" EmptyString.
Definition nx_New (v : Z) : outcome (Node memory.Store) :=
  New (fun topic => Ok topic) (fun i => Ok (fx_sign i)) memory.New (nx_config v).
Definition nx_dummy : Node memory.Store :=
  mkNode fx_dummy (NewClock 0) (mkDuties [] ∅ (mkTopics EmptyString EmptyString None) false []) 0 [].
Definition nx_topics : Topics := mkTopics (topic_name "devnet0" "block") (topic_name "devnet0" "attestation") None.
Definition nx_node (v : Z) : Node memory.Store :=
  mkNode fx_genesis (NewClock 1000) (mkDuties [v] (<[v := fx_sign v]> ∅) nx_topics true []) 0 [].

Lemma only_key (v i : Z) (kp0 kp : Signer) : (<[v := kp0]> ∅ : gmap Z Signer) !! i = Some kp -> i = v /\ kp = kp0.
Proof. intros [[<- <-]|[_ Hk]]%lookup_insert_Some; [done|by apply lookup_empty_Some in Hk]. Qed.

Lemma nx_New_ok v : nx_New v = Ok (nx_node v).
Proof.
  unfold nx_New, New. cbn [nc_GenesisTime nc_Validators nx_config]. rewrite fx_init. reflexivity.
Qed.

Lemma nx_wf v : registered fx_vs v -> wf_node true fx_vs (nx_node v).
Proof.
  intros Hv. constructor; [exact fx_wf| |done]. constructor; cbn; [by constructor|apply NoDup_singleton| |constructor].
  intros i kp [_ ->]%only_key. apply fx_total.
Qed.

Lemma nx_registered v : 0 <= v < 3 -> registered fx_vs v.
Proof. done. Qed.

(** Alone, with the clock stopped at [now]. *)
Definition alone (now : Z) : Surroundings memory.Store := {| unix _ := now; others _ c := c |}.
Lemma alone_ok now : 0 <= now < 2 ^ 60 -> surroundings_ok (SU := alone now) true fx_vs.
Proof.
  intros Hnow. constructor; [|by intros].
  intros i. cbn [unix alone]. change (Z.of_nat (length fx_vs)) with 3. lia.
Qed.

Definition nx_before : Node memory.Store * option (Z * Z) :=
  value (nx_dummy, None) (before_duties (SU := alone 1004) true (nx_node 1) []).
Lemma nx_before_ok : before_duties (SU := alone 1004) true (nx_node 1) [] = Ok (nx_before.1, Some (1, 0)).
Proof.
  assert (E : before_duties (SU := alone 1004) true (nx_node 1) [] = Ok nx_before).
  { unfold nx_before.
    refine (value_Ok (nx_dummy, None) (before_duties (SU := alone 1004) true (nx_node 1) []) _).
    vm_compute. reflexivity. }
  assert (E2 : nx_before.2 = Some (1, 0)) by (vm_compute; reflexivity).
  rewrite E. revert E2. generalize nx_before. intros [n d]. cbn [fst snd]. by intros ->.
Qed.

Lemma nx_before_keys : vd_Keys (n_Validator nx_before.1) = <[1 := fx_sign 1]> ∅.
Proof.
  destruct (before_duties_run true fx_vs fx_registry (SU := alone 1004) (alone_ok 1004 ltac:(lia)) (nx_node 1) []
              (List.Forall_nil _) (nx_wf 1 (nx_registered 1 ltac:(lia)))) as (n1 & d & E & _ & V & _).
  rewrite nx_before_ok in E. apply Ok_inj, pair_eq in E as [<- _]. by rewrite V.
Qed.

(** Is the block that would be produced new, with a root that is not zero? *)
Definition fresh_check (c : Store memory.Store) (slot idx : Z) (kp : Signer) : bool :=
  match ProduceBlock c slot idx kp with
  | Ok (_, inr env) =>
      bool_decide ((Block_HashTreeRoot (ba_Block (sb_Message env))).1 <> ZeroHash) &&
      match GetBlock (fc_storage c) (Block_HashTreeRoot (ba_Block (sb_Message env))).1 with
      | None => true | Some _ => false end
  | _ => true
  end.
Lemma fresh_check_spec c slot idx kp c' env : fresh_check c slot idx kp = true ->
  ProduceBlock c slot idx kp = Ok (c', inr env) -> no_collision c (ba_Block (sb_Message env)).
Proof.
  unfold fresh_check. intros H E. rewrite E in H. apply andb_prop in H as [H1%bool_decide_eq_true H2].
  split; [done|]. intros b'. by destruct (GetBlock _ _).
Qed.

Lemma nx_fresh : fresh_proposal (SU := alone 1004) nx_before.1 1.
Proof.
  unfold fresh_proposal. cbv zeta. intros idx kp c' env Hk. rewrite nx_before_keys in Hk.
  apply only_key in Hk as [-> ->]. apply fresh_check_spec. vm_compute. reflexivity.
Qed.

Lemma tick_safe_witness :
  exists n' msgs, run_tick (SU := alone 1004) true (nx_node 1) [] = Ok n' /\
    follows true fx_vs (nx_node 1) n' /\ n_sent n' = n_sent (nx_node 1) ++ msgs /\
    duty_output true fx_vs 1 (n_Validator (nx_node 1)) 0 msgs.
Proof.
  destruct (tick_safe true fx_vs (SU := alone 1004) (nx_node 1) [] fx_registry (alone_ok 1004 ltac:(lia))
              (List.Forall_nil _) (nx_wf 1 (nx_registered 1 ltac:(lia)))) as (n1 & duty & E & H).
  rewrite nx_before_ok in E. apply Ok_inj in E.
  apply pair_eq in E as [<- <-].
  apply H. intros slot E3. assert (slot = 1) as -> by congruence. exact nx_fresh.
Defined.

Lemma clock_agrees_witness :
  exists c', AdvanceTime fx_peer (CurrentTime (NewClock 1000) 1010) true = Ok c' /\
    fc_time c' = CurrentSlot (NewClock 1000) 1010 * IntervalsPerSlot + CurrentInterval (NewClock 1000) 1010 /\
    0 <= CurrentInterval (NewClock 1000) 1010 < IntervalsPerSlot.
Proof.
  apply (clock_agrees true fx_vs fx_peer (NewClock 1000) 1010 true fx_peer_wf);
    [done|vm_compute; reflexivity|vm_compute; reflexivity|].
  apply Z.leb_le. vm_compute. reflexivity.
Defined.

(** Validator 0 attests in interval 1 of slot 1; the clock reads 1005 at two ticks in a row, and
    another goroutine imports the block of the slot before the second. *)
Definition nx_twice : Surroundings memory.Store :=
  {| unix _ := 1005;
     others i c := if (i =? 8)%nat
                   then (value (c, inr tt) (ForkChoice.ProcessBlock true (Some 1005) c fx_env)).1 else c |}.
Definition nx_tick1 : Node memory.Store := value nx_dummy (run_tick (SU := nx_twice) true (nx_node 0) []).
Definition nx_tick2 : Node memory.Store := value nx_dummy (run_tick (SU := nx_twice) true nx_tick1 []).

Lemma nx_twice_ok : surroundings_ok (SU := nx_twice) true fx_vs.
Proof.
  constructor; intros i.
  - cbn [unix nx_twice]. change (Z.of_nat (length fx_vs)) with 3. lia.
  - intros c Hc. cbn [others nx_twice]. destruct (i =? 8)%nat; [|done].
    destruct (ProcessBlock_run true fx_vs (Some 1005) c fx_env Hc fx_env_wf fx_registry fx_reading
                (proj1 fx_env_admissible) (proj2 fx_env_admissible)) as (c1 & c' & res & _ & _ & E & _).
    rewrite E. apply rtc_once.
    exact (step_ProcessBlock true fx_vs c (Some 1005) fx_env c' res fx_reading fx_env_wf fx_env_admissible E).
Qed.

Lemma nx_tick1_ok : run_tick (SU := nx_twice) true (nx_node 0) [] = Ok nx_tick1.
Proof.
  unfold nx_tick1. refine (value_Ok nx_dummy (run_tick (SU := nx_twice) true (nx_node 0) []) _).
  vm_compute. reflexivity.
Qed.
Lemma nx_tick2_ok : run_tick (SU := nx_twice) true nx_tick1 [] = Ok nx_tick2.
Proof.
  unfold nx_tick2. refine (value_Ok nx_dummy (run_tick (SU := nx_twice) true nx_tick1 []) _).
  vm_compute. reflexivity.
Qed.

(** Two votes of one validator for one slot, for different heads. *)
Definition conflicting (sa1 sa2 : SignedAttestation) : Prop :=
  sa_ValidatorID sa1 = sa_ValidatorID sa2 /\ ad_Slot (sa_Message sa1) = ad_Slot (sa_Message sa2) /\
  cp_Root (ad_Head (sa_Message sa1)) <> cp_Root (ad_Head (sa_Message sa2)).
#[local] Instance conflicting_dec sa1 sa2 : Decision (conflicting sa1 sa2).
Proof. unfold conflicting. apply _. Defined.

Definition two_conflicting (l : list message) : bool :=
  match l with
  | [MsgAttestation sa1; MsgAttestation sa2] => bool_decide (conflicting sa1 sa2)
  | _ => false
  end.
Lemma two_conflicting_spec l : two_conflicting l = true ->
  exists sa1 sa2, l = [MsgAttestation sa1; MsgAttestation sa2] /\ conflicting sa1 sa2.
Proof.
  destruct l as [|[|sa1|] [|[|sa2|] [|]]]; try done. intros H%bool_decide_eq_true. by exists sa1, sa2.
Qed.

(** nothing stops a duty from being performed twice: when two ticks of the timer read the same
    second, the attester signs two votes for one slot, with different heads if a block arrived in
    between; both are signed for the same epoch of the one-time signature scheme. *)
Theorem double_vote_possible :
  surroundings_ok (SU := nx_twice) true fx_vs /\ wf_node true fx_vs (nx_node 0) /\
  exists n1 n2 sa1 sa2,
    run_tick (SU := nx_twice) true (nx_node 0) [] = Ok n1 /\ run_tick (SU := nx_twice) true n1 [] = Ok n2 /\
    n_sent n2 = [MsgAttestation sa1; MsgAttestation sa2] /\ conflicting sa1 sa2.
Proof.
  split; [exact nx_twice_ok|]. split; [apply nx_wf, nx_registered; lia|].
  destruct (two_conflicting_spec (n_sent nx_tick2)) as (sa1 & sa2 & E & H); [vm_compute; reflexivity|].
  exists nx_tick1, nx_tick2, sa1, sa2. split; [exact nx_tick1_ok|]. split; [exact nx_tick2_ok|]. by split.
Qed.
End Example.
