(* ===== verification/NodeSync.v ===== *)
(** node/sync.go: what synchronisation achieves against an honest peer, and where it stops.

    The peer is another node: its two protocols are answered from its own store by the handlers of
    handler.go, through the codecs of the network package.  [chain_down L r l a] is a chain of
    envelopes, newest first, from the root [r] down to the root [a], each filed as [L] says. *)
From S2P Require Import Prelude Slot Types Hash Concrete GoStd Bitlist VoteRule Attestations Transition Chain Storage Ghost Leansig ForkChoice ForkInv ForkProduce Aggregation ForkProps Ssz SszCodec SszWire SszProps Wire Reqresp Node NodeSafety.
Local Open Scope Z_scope.

Section Sync.
Context {HW : HashWalker} {MR : MapRange} {FFI : LeansigFFI}.
Context {RT : SszRuntime} {LAWS : SszLaws RT} {SN : Snappy} {SNL : SnappyLaws SN}.
Context {T : Type} `{SL : StorageLaws T} {SU : Surroundings T}.
Context (shouldVerify : bool) (vs : list Validator).
#[local] Abbreviation wf_fc := (wf_fc shouldVerify vs).

(** A node as a peer. *)
Definition serves (id : string) (d : Store T) : Peer :=
  mkPeer id (fun _ => handleStatus (Some (OnStatus d))) (fun _ => handleBlocksByRoot (Some (OnBlocksByRoot d))).

#[local] Abbreviation block_of e := (ba_Block (sb_Message e)).
Definition root_of (e : SignedBlockWithAttestation) : root := (Block_HashTreeRoot (block_of e)).1.

(** The peer [d] serves the envelope [e] for the root [r], which is its block's. *)
Record served (d : Store T) (r : root) (e : SignedBlockWithAttestation) : Prop := {
  sv_signed : GetSignedBlock (fc_storage d) r = Some e;
  sv_root : root_of e = r;
  sv_sendable : sendable e;
  sv_filled : filled_envelope e = e }.

(** It is a block the peer has imported: valid on the state of its parent. *)
Record link (d : Store T) (r : root) (e : SignedBlockWithAttestation) : Prop := {
  li_served :> served d r e;
  li_block : GetBlock (fc_storage d) r = Some (block_of e);
  li_slot : b_Slot (block_of e) * Z.of_nat (length vs) < 2 ^ 64 - 16;
  li_count : checkSignatureCount e = Ok tt;
  li_valid : exists ps s, GetState (fc_storage d) (b_ParentRoot (block_of e)) = Some ps /\
    GetState (fc_storage d) r = Some s /\ StateTransition ps (block_of e) = Ok s /\
    verifyBlockSignatures shouldVerify ps e = Ok tt }.

Inductive chain_down (L : root -> SignedBlockWithAttestation -> Prop)
  : root -> list SignedBlockWithAttestation -> root -> Prop :=
| cd_nil a : chain_down L a [] a
| cd_cons r e l a : L r e -> chain_down L (b_ParentRoot (block_of e)) l a -> chain_down L r (e :: l) a.

Lemma chain_down_mono (L L' : root -> SignedBlockWithAttestation -> Prop) r l a :
  (forall r e, L r e -> L' r e) -> chain_down L r l a -> chain_down L' r l a.
Proof. intros HL. induction 1; constructor; auto. Qed.

(** No other goroutine touches the store. *)
Definition quiet : Prop := forall i c, others i c = c.

Context (Hreg : registry_ok vs) (Hsu : surroundings_ok shouldVerify vs) (Hquiet : quiet).

(** ** The peer's answers *)

Lemma status_wf c : wf_fc c -> wf_Status (status_of (GetStatus c)).
Proof.
  intros Hc. split; unfold wf_Checkpoint; cbn; [apply (fi_F _ _ _ Hc)|].
  destruct (fi_head _ _ _ Hc) as [b Hb]. rewrite Hb. by destruct (ss_entry _ _ (fi_storage _ _ _ Hc) _ _ Hb) as (_ & ? & _).
Qed.

Lemma peer_block id d i r e : served d r e -> RequestBlocksByRoot (p_blocks (serves id d) i) [r] = Ok ([e], None).
Proof.
  intros He. cbn [serves p_blocks].
  assert (E : OnBlocksByRoot d [r] = [e]) by (unfold OnBlocksByRoot; cbn; by rewrite (sv_signed _ _ _ He)).
  rewrite exchange_blocks; [by rewrite E; cbn [map]; rewrite (sv_filled _ _ _ He)|done|].
  rewrite E. constructor; [apply He|constructor].
Qed.

Lemma quiet_read {A} (n : Node T) (f : Store T -> A) :
  exists n', read n f = Ok (n', f (n_FC n)) /\ n_FC n' = n_FC n.
Proof. unfold read, call. rewrite Hquiet. cbn. eexists. split; [reflexivity|done]. Qed.

(** ** The chain of the peer *)

(** Slots fall along the chain, so its roots are distinct. *)
Lemma chain_slots d r e l a : wf_fc d -> chain_down (link d) r (e :: l) a ->
  Forall (fun e' => b_Slot (block_of e') < b_Slot (block_of e)) l.
Proof.
  intros Hd. revert r e. induction l as [|e2 l IH]; intros r e Hc; [constructor|].
  inversion Hc as [|? ? ? ? He Hl]; subst. inversion Hl as [|? ? ? ? He2 Hl2]; subst.
  assert (Hlt : b_Slot (block_of e2) < b_Slot (block_of e)).
  { destruct (ss_entry _ _ (fi_storage _ _ _ Hd) _ _ (li_block _ _ _ He)) as (_ & _ & [Hz|(p & Hp & Hlt)] & _).
    - pose proof (li_block _ _ _ He2) as H. rewrite Hz, (ss_zero _ _ (fi_storage _ _ _ Hd)) in H. discriminate H.
    - rewrite (li_block _ _ _ He2) in Hp. injection Hp as <-. exact Hlt. }
  constructor; [done|]. eapply list.Forall_impl; [by eapply IH|]. intros e' ?. cbn beta in *. lia.
Qed.

Lemma chain_links d r l a : chain_down (link d) r l a -> Forall (fun e => exists r', link d r' e) l.
Proof. induction 1; constructor; eauto. Qed.

Lemma chain_new_root d r e l a : wf_fc d -> chain_down (link d) r (e :: l) a -> r ∉ map root_of l.
Proof.
  intros Hd Hc Hin. pose proof (chain_slots _ _ _ _ _ Hd Hc) as Hs.
  inversion Hc as [|? ? ? ? He Hl]; subst. apply list_elem_of_fmap in Hin as (e' & E & Hin).
  pose proof (chain_links _ _ _ _ Hl) as Hk. rewrite list.Forall_forall in Hs, Hk.
  destruct (Hk e' Hin) as [r' He']. rewrite (sv_root _ _ _ He') in E. subst r'.
  specialize (Hs e' Hin). pose proof (li_block _ _ _ He). pose proof (li_block _ _ _ He'). simplify_eq.
  replace (b_Slot (block_of e)) with (b_Slot (block_of e')) in Hs by congruence. lia.
Qed.

(** ** The walk back *)

Definition unknown (n : Node T) (e : SignedBlockWithAttestation) : Prop :=
  GetBlock (fc_storage (n_FC n)) (root_of e) = None.

(** The walk collects the unknown part of the chain, up to the depth limit. *)
Lemma walk_collects id d i n pending r l a : chain_down (served d) r l a -> Forall (unknown n) l ->
  known (fc_storage (n_FC n)) a \/ (i <= length l)%nat ->
  exists n', sync_walk i (serves id d) n pending r = Ok (n', pending ++ take i l) /\ n_FC n' = n_FC n.
Proof.
  intros Hc Hu Hstop. revert i n pending Hu Hstop. induction Hc as [a|r e l a He Hl IH]; intros i n pending Hu Hstop.
  - destruct i as [|i]; cbn [sync_walk take]; rewrite app_nil_r; [by exists n|].
    destruct (quiet_read n (fun c => GetBlock (fc_storage c) a)) as (n' & -> & E). cbn [mbind outcome_bind].
    destruct Hstop as [[b ->]|H]; [by exists n'|cbn in H; lia].
  - destruct i as [|i]; cbn [sync_walk take]; [rewrite app_nil_r; by exists n|].
    destruct (quiet_read n (fun c => GetBlock (fc_storage c) r)) as (n' & -> & E). cbn [mbind outcome_bind].
    apply list.Forall_cons in Hu as [Hue Hu]. unfold unknown in Hue. rewrite (sv_root _ _ _ He) in Hue. rewrite Hue.
    rewrite (peer_block id d (n_events n') r e He). cbn [mbind outcome_bind].
    destruct (IH i n' (pending ++ [e])) as (n2 & E2 & H2).
    + unfold unknown in *. by rewrite E.
    + rewrite E. destruct Hstop as [|H]; [by left|right; cbn in H; lia].
    + exists n2. split; [by rewrite E2, <- app_assoc|congruence].
Qed.

(** ** Importing what was collected *)

Lemma link_importable d r e : wf_fc d -> link d r e ->
  wf_envelope e /\ b_Slot (block_of e) * Z.of_nat (length vs) < 2 ^ 64 - 16 /\ root_of e <> ZeroHash.
Proof.
  intros Hd He. split.
  - apply fits_envelope. rewrite <- (sv_filled _ _ _ He). apply (sv_sendable _ _ _ He).
  - split; [apply (li_slot _ _ _ He)|]. rewrite (sv_root _ _ _ He). intros Ez.
    pose proof (li_block _ _ _ He) as H. rewrite Ez, (ss_zero _ _ (fi_storage _ _ _ Hd)) in H. discriminate H.
Qed.

(** The node [n'] has what [n] had and the envelopes [l], with the peer's post-states. *)
Record caught_up (d : Store T) (n n' : Node T) (l : list SignedBlockWithAttestation) : Prop := {
  cu_wf : wf_fc (n_FC n');
  cu_old r : r ∉ map root_of l -> GetBlock (fc_storage (n_FC n')) r = GetBlock (fc_storage (n_FC n)) r /\
                                GetState (fc_storage (n_FC n')) r = GetState (fc_storage (n_FC n)) r;
  cu_new : Forall (fun e => GetBlock (fc_storage (n_FC n')) (root_of e) = Some (block_of e) /\
                   GetState (fc_storage (n_FC n')) (root_of e) = GetState (fc_storage d) (root_of e)) l }.

Lemma import_link d r e (n : Node T) k : wf_fc d -> link d r e -> wf_fc (n_FC n) -> unknown n e ->
  GetState (fc_storage (n_FC n)) (b_ParentRoot (block_of e)) = GetState (fc_storage d) (b_ParentRoot (block_of e)) ->
  exists n', import_one shouldVerify (n, k) e = Ok (n', k + 1) /\ caught_up d n n' [e].
Proof.
  intros Hd He Hn Hu Hps. destruct (link_importable d r e Hd He) as (Henv & Hroom & Hz).
  destruct (li_valid _ _ _ He) as (ps & s & Hp & Hs & Est & Hver). rewrite Hp in Hps. unfold unknown in Hu.
  destruct (ProcessBlock_imports shouldVerify vs (Some (unix (n_events n))) (n_FC n) e ps s Hn Henv Hreg
              (reading_some shouldVerify vs Hreg Hsu _) Hroom Hz Hu Hps Est (li_count _ _ _ He) Hver)
    as (c1 & c' & _ & (Hst & _) & E & Him).
  unfold import_one, call. rewrite Hquiet, E. cbn [mbind outcome_bind]. eexists. split; [reflexivity|].
  pose proof (im_storage _ _ _ _ _ _ Him) as Hst'. rewrite Hst in Hst'. constructor; cbn [n_FC].
  - apply Him.
  - intros r' Hr'. cbn in Hr'. rewrite Hst', GetBlock_store_all, GetState_store_all.
    rewrite !decide_False; [done|..]; intros Heq; apply Hr'; rewrite <- Heq; by left.
  - constructor; [|constructor]. rewrite Hst', GetBlock_store_all, GetState_store_all, !decide_True by done.
    split; [done|]. by rewrite (sv_root _ _ _ He), Hs.
Qed.

Lemma caught_up_trans d n1 n2 n3 l e : caught_up d n1 n2 l -> caught_up d n2 n3 [e] -> root_of e ∉ map root_of l ->
  caught_up d n1 n3 (e :: l).
Proof.
  intros [W1 O1 N1] [W2 O2 N2] Hne. constructor; [done| |].
  - intros r Hr. cbn [map] in Hr. apply not_elem_of_cons in Hr as [Hr1 Hr2].
    destruct (O2 r) as [-> ->]; [by intros Hin%list_elem_of_singleton|]. by apply O1.
  - apply list.Forall_cons in N2 as [N2 _]. constructor; [done|]. rewrite list.Forall_forall in N1 |- *.
    intros e' He'. destruct (O2 (root_of e')) as [-> ->]; [|by apply N1].
    cbn [map]. intros Hin%list_elem_of_singleton. apply Hne. rewrite <- Hin. by apply (list_elem_of_fmap_2 root_of).
Qed.

Lemma import_chain d r l a (n : Node T) k : wf_fc d -> chain_down (link d) r l a -> wf_fc (n_FC n) -> Forall (unknown n) l ->
  GetState (fc_storage (n_FC n)) a = GetState (fc_storage d) a -> a ∉ map root_of l ->
  exists n', foldM (import_one shouldVerify) (n, k) (reverse l) = Ok (n', k + len l) /\ caught_up d n n' l /\
    GetState (fc_storage (n_FC n')) r = GetState (fc_storage d) r.
Proof.
  intros Hd Hc Hn Hu Ha Hout. induction Hc as [a|r e l a He Hl IH].
  - exists n. cbn. rewrite Z.add_0_r. split; [done|]. split; [|done]. by constructor.
  - pose proof (chain_new_root d r e l a Hd (cd_cons _ _ _ _ _ He Hl)) as Hnew.
    pose proof (sv_root _ _ _ He) as Hr. apply list.Forall_cons in Hu as [Hue Hu].
    cbn [map] in Hout. apply not_elem_of_cons in Hout as [_ Hout].
    destruct (IH Hu Ha Hout) as (n1 & E1 & H1 & Hps). rewrite reverse_cons, foldM_app, E1. cbn [mbind outcome_bind foldM].
    destruct (import_link d r e n1 (k + len l) Hd He (cu_wf _ _ _ _ H1)) as (n2 & -> & H2).
    { unfold unknown in *. destruct (cu_old _ _ _ _ H1 (root_of e)) as [-> _]; [by rewrite Hr|done]. }
    { exact Hps. }
    cbn [mbind outcome_bind]. exists n2. split; [f_equal; f_equal; unfold len; cbn [length]; lia|].
    pose proof (caught_up_trans _ _ _ _ _ _ H1 H2) as H3. rewrite Hr in H3. specialize (H3 Hnew). split; [done|].
    apply cu_new, list.Forall_cons in H3 as [[_ H3] _]. by rewrite Hr in H3.
Qed.

(** ** One exchange with a peer *)

Lemma sync_exchange id d n r l a : (16 <= String.length id)%nat -> wf_Status (status_of (GetStatus d)) -> wf_fc (n_FC n) -> r = fc_head d ->
  chain_down (served d) r l a -> Forall (unknown n) l ->
  known (fc_storage (n_FC n)) a \/ (maxSyncDepth <= length l)%nat ->
  cs_HeadSlot (GetStatus (n_FC n)) < cs_HeadSlot (GetStatus d) ->
  exists n', n_FC n' = n_FC n /\ syncWithPeer shouldVerify n (serves id d) =
    ('(n, synced) ← foldM (import_one shouldVerify) (n', 0) (reverse (take maxSyncDepth l)); Ok (n, 0 <? synced)).
Proof.
  intros Hid Hd Hn -> Hc Hu Ha Hlt. unfold syncWithPeer.
  destruct (quiet_read n GetStatus) as (n1 & -> & E1). cbn [mbind outcome_bind serves p_status].
  rewrite exchange_status by (exact Hd || by apply status_wf). unfold OnStatus, status_of. cbn [rs_Head cp_Slot cp_Root serves p_id].
  rewrite (prefix16_Ok _ Hid). cbn [mbind outcome_bind].
  rewrite (proj2 (Z.leb_gt _ _)) by done.
  destruct (walk_collects id d maxSyncDepth n1 [] (fc_head d) l a Hc) as (n2 & E & E2).
  { unfold unknown in *. by rewrite E1. }
  { by rewrite E1. }
  change (cs_Head (GetStatus d)) with (fc_head d). rewrite E. cbn [mbind outcome_bind app].
  exists n2. split; [congruence|done].
Qed.

(** Blocks without their parent's state change nothing. *)
Lemma import_orphans l (n : Node T) k : wf_fc (n_FC n) ->
  Forall (fun e => unknown n e /\ GetBlock (fc_storage (n_FC n)) (b_ParentRoot (block_of e)) = None) l ->
  exists n', foldM (import_one shouldVerify) (n, k) l = Ok (n', k) /\ wf_fc (n_FC n') /\ same_chain (n_FC n) (n_FC n').
Proof.
  intros Hn Hl. revert n Hn Hl. induction l as [|e l IH]; intros n Hn Hl; cbn [foldM].
  { exists n. by split_and!. }
  apply list.Forall_cons in Hl as [[Hu Hp] Hl]. apply (fresh_state vs) in Hp; [|apply Hn].
  destruct (ProcessBlock_orphan shouldVerify vs (Some (unix (n_events n))) (n_FC n) e Hn
              (reading_some shouldVerify vs Hreg Hsu _) Hu Hp) as (c1 & E & Hw & Hs).
  assert (E1 : exists n1, import_one shouldVerify (n, k) e = Ok (n1, k) /\ n_FC n1 = c1).
  { unfold import_one, call. rewrite Hquiet, E. cbn [mbind outcome_bind]. eexists. split; [reflexivity|done]. }
  destruct E1 as (n1 & -> & E1). cbn [mbind outcome_bind]. rewrite <- E1 in Hw, Hs.
  destruct (IH n1 Hw) as (n2 & -> & Hw2 & Hs2).
  { unfold unknown in *. by rewrite (proj1 Hs). }
  exists n2. split_and!; try done; by eapply same_chain_trans.
Qed.

(** In a chain of unknown blocks, all but the oldest have an unknown parent. *)
Lemma chain_orphans d n r l a i : chain_down (served d) r l a -> Forall (unknown n) l -> (i < length l)%nat ->
  Forall (fun e => unknown n e /\ GetBlock (fc_storage (n_FC n)) (b_ParentRoot (block_of e)) = None) (take i l).
Proof.
  intros Hc. revert i. induction Hc as [a|r e l a He Hl IH]; intros i Hu Hi; [cbn in Hi; lia|].
  destruct i as [|i]; [constructor|]. apply list.Forall_cons in Hu as [Hue Hu]. cbn [take length] in *.
  constructor; [|apply IH; [done|lia]]. split; [done|].
  destruct Hl as [|r' e' l a He' Hl]; [cbn in Hi; lia|]. apply list.Forall_cons in Hu as [Hue' _].
  unfold unknown in Hue'. by rewrite (sv_root _ _ _ He') in Hue'.
Qed.
End Sync.


(** ** Links *)

(** Is the envelope within the limits of one message? *)
Definition small (e : SignedBlockWithAttestation) : bool :=
  (len (bb_Attestations (b_Body (ba_Block (sb_Message e)))) <=? 4096) && (len (sb_Signature e) <=? 4096) &&
  (SignedBlock_SizeSSZ e <=? 10 * 1024 * 1024) &&
  match ba_ProposerAttestation (sb_Message e) with Some _ => true | None => false end.
Lemma small_filled e : small e = true -> filled_envelope e = e.
Proof.
  unfold small. intros [_ H]%andb_prop. destruct e as [[b [a|]] sigs]; [done|discriminate H].
Qed.
Lemma small_sendable e : wf_envelope e -> small e = true -> sendable e.
Proof.
  intros [(H1 & H2 & H3) Ha] Hs. pose proof (small_filled e Hs) as Ef. unfold sendable. rewrite Ef.
  unfold small in Hs. apply andb_prop in Hs as [Hs Hp]. apply andb_prop in Hs as [Hs Hsz].
  apply andb_prop in Hs as [Hb Hsig]. apply Z.leb_le in Hb, Hsig, Hsz. split; [|done]. split; [|done].
  split; [by split_and!|]. by destruct (ba_ProposerAttestation (sb_Message e)).
Qed.

(** An envelope that a node has imported is a link of its chain. *)
Lemma imported_link {HW : HashWalker} {MR : MapRange} {FFI : LeansigFFI} {T : Type} `{SL : StorageLaws T}
    shouldVerify vs now (c c' : Store T) env :
  registry_ok vs -> wf_fc shouldVerify vs c -> wf_envelope env -> reading now ->
  admissible_block vs (ba_Block (sb_Message env)) -> GetBlock (fc_storage c) (root_of env) = None -> small env = true ->
  ForkChoice.ProcessBlock shouldVerify now c env = Ok (c', inr tt) ->
  link shouldVerify vs c' (root_of env) env /\ known (fc_storage c) (b_ParentRoot (ba_Block (sb_Message env))) /\
  GetState (fc_storage c) (b_ParentRoot (ba_Block (sb_Message env))) =
  GetState (fc_storage c') (b_ParentRoot (ba_Block (sb_Message env))).
Proof.
  intros Hreg Hc Henv Hnow [Ha1 Ha2] Hfr Hs E.
  destruct (ProcessBlock_run shouldVerify vs now c env Hc Henv Hreg Hnow Ha1 Ha2)
    as (c1 & c2 & res & _ & (Hst & _) & E2 & _ & Hfate).
  rewrite E in E2. apply Ok_inj, pair_eq in E2 as [<- <-].
  inversion Hfate as [[b Hb] E1 E2| |ps state c3 _ Hps Est Hcount Hver Him E1 E2]; subst.
  { unfold root_of in Hfr. congruence. }
  apply im_storage in Him. rewrite Hst in Hps, Him. fold (root_of env) in Him.
  destruct (ss_post _ _ (fi_storage _ _ _ Hc) _ _ Hps) as (_ & _ & (b & Hb & _) & _).
  assert (Hne : root_of env <> b_ParentRoot (ba_Block (sb_Message env))) by congruence.
  split; [|split; [by exists b|by rewrite Him, GetState_store_all, decide_False]].
  constructor; [constructor|..]; rewrite ?Him, ?GetSignedBlock_store_all, ?GetBlock_store_all, ?decide_True by done;
    try done; [by apply small_sendable|by apply small_filled|].
  exists ps, state. rewrite !GetState_store_all, decide_False, decide_True by done. by split_and!.
Qed.

(** * Theorems *)

Section Properties.
Context {HW : HashWalker} {MR : MapRange} {FFI : LeansigFFI}.
Context {RT : SszRuntime} {LAWS : SszLaws RT} {SN : Snappy} {SNL : SnappyLaws SN}.
Context {T : Type} `{SL : StorageLaws T}.
Context (shouldVerify : bool) (vs : list Validator).

(** C8: synchronisation catches up: when the chain of an honest peer with a later head leaves the
    node's store at most 64 blocks below that head, one exchange with it imports all of them, each
    with the peer's post-state, and reports progress, when the other goroutines leave the store alone
    during the exchange. *)
Theorem sync_catches_up {SU : Surroundings T} (n : Node T) (id : string) (d : Store T) (l : list SignedBlockWithAttestation) (a : root) :
  registry_ok vs -> surroundings_ok shouldVerify vs -> quiet -> (16 <= String.length id)%nat ->
  wf_fc shouldVerify vs (n_FC n) -> wf_fc shouldVerify vs d ->
  cs_HeadSlot (GetStatus (n_FC n)) < cs_HeadSlot (GetStatus d) ->
  chain_down (link shouldVerify vs d) (fc_head d) l a -> l <> [] -> len l <= 64 ->
  known (fc_storage (n_FC n)) a -> GetState (fc_storage (n_FC n)) a = GetState (fc_storage d) a ->
  Forall (unknown n) l ->
  exists n', syncWithPeer shouldVerify n (serves id d) = Ok (n', true) /\ caught_up shouldVerify vs d n n' l /\
    GetState (fc_storage (n_FC n')) (fc_head d) = GetState (fc_storage d) (fc_head d).
Proof.
  intros Hreg Hsu Hq Hid Hn Hd Hlt Hc Hne Hlen Hka Ha Hu.
  assert (Hl : (length l <= maxSyncDepth)%nat) by (unfold maxSyncDepth, len in *; lia).
  destruct (sync_exchange shouldVerify vs Hq id d n (fc_head d) l a Hid (status_wf shouldVerify vs d Hd) Hn eq_refl) as (n1 & E1 & ->);
    [by eapply chain_down_mono; [intros; by eapply li_served|]|done|by left|done|].
  rewrite take_ge by done.
  destruct (import_chain shouldVerify vs Hreg Hsu Hq d (fc_head d) l a n1 0 Hd Hc) as (n2 & -> & Hcu & Hs).
  { by rewrite E1. } { unfold unknown in *. by rewrite E1. } { by rewrite E1. }
  { intros (e & -> & He)%list_elem_of_fmap. rewrite list.Forall_forall in Hu. pose proof (Hu e He) as H.
    unfold unknown in H. destruct Hka as [? ?]. congruence. }
  cbn [mbind outcome_bind]. exists n2. split; [|split; [|done]].
  - f_equal. f_equal. apply Z.ltb_lt. destruct l; [done|]. unfold len. cbn [length]. lia.
  - destruct Hcu as [W O N]. constructor; [done| |done]. by rewrite E1 in O.
Qed.

(** synchronisation gives up beyond its depth limit: when more than 64 blocks of the peer's chain
    are missing, the newest 64 are fetched, none of them can be imported, the chain data and the
    checkpoints stay as they were and no progress is reported; a node that is that far behind
    does not catch up by asking such a peer again. *)
Theorem sync_gives_up {SU : Surroundings T} (n : Node T) (id : string) (d : Store T) (l : list SignedBlockWithAttestation) (a : root) :
  registry_ok vs -> surroundings_ok shouldVerify vs -> quiet -> (16 <= String.length id)%nat ->
  wf_fc shouldVerify vs (n_FC n) -> wf_Status (status_of (GetStatus d)) ->
  cs_HeadSlot (GetStatus (n_FC n)) < cs_HeadSlot (GetStatus d) ->
  chain_down (served d) (fc_head d) l a -> 64 < len l -> Forall (unknown n) l ->
  exists n', syncWithPeer shouldVerify n (serves id d) = Ok (n', false) /\ same_chain (n_FC n) (n_FC n').
Proof.
  intros Hreg Hsu Hq Hid Hn Hd Hlt Hc Hlen Hu.
  assert (Hl : (maxSyncDepth < length l)%nat) by (unfold maxSyncDepth, len in *; lia).
  destruct (sync_exchange shouldVerify vs Hq id d n (fc_head d) l a Hid Hd Hn eq_refl Hc Hu) as (n1 & E1 & ->); [right; lia|done|].
  destruct (import_orphans shouldVerify vs Hreg Hsu Hq (reverse (take maxSyncDepth l)) n1 0) as (n2 & -> & _ & Hs).
  - by rewrite E1.
  - apply list.Forall_reverse. apply (chain_orphans d n1 (fc_head d) l a); [done| |done]. unfold unknown in *. by rewrite E1.
  - cbn [mbind outcome_bind]. exists n2. rewrite E1 in Hs. by split.
Qed.
End Properties.

(** * Concrete exchanges *)

Section Example.
#[local] Existing Instance toy_walker.
#[local] Existing Instance canonical_range.
#[local] Existing Instance toy_ffi.
#[local] Existing Instance merge_sort_slice.

(** A node on the genesis store and a peer that has imported the block of slot 1. *)
Lemma fx_new : GetBlock (fc_storage fx_genesis) (root_of fx_env) = None.
Proof.
  assert (H : match GetBlock (fc_storage fx_genesis) (root_of fx_env) with
              | None => true | Some _ => false end = true) by (vm_compute; reflexivity).
  revert H. by destruct (GetBlock _ _).
Qed.

Lemma fx_link : link true fx_vs fx_peer (root_of fx_env) fx_env /\
  known (fc_storage fx_genesis) (b_ParentRoot (ba_Block (sb_Message fx_env))) /\
  GetState (fc_storage fx_genesis) (b_ParentRoot (ba_Block (sb_Message fx_env))) =
  GetState (fc_storage fx_peer) (b_ParentRoot (ba_Block (sb_Message fx_env))).
Proof.
  refine (imported_link true fx_vs (Some 1005) fx_genesis fx_peer fx_env fx_registry fx_wf fx_env_wf fx_reading
            fx_env_admissible fx_new _ fx_import). vm_compute. reflexivity.
Qed.

Lemma fx_head : fc_head fx_peer = root_of fx_env.
Proof.
  assert (H : bool_decide (fc_head fx_peer = root_of fx_env) = true) by (vm_compute; reflexivity).
  apply bool_decide_eq_true in H. exact H.
Qed.
Lemma nx_behind : cs_HeadSlot (GetStatus (n_FC (nx_node 0))) < cs_HeadSlot (GetStatus fx_peer).
Proof. apply Z.ltb_lt. vm_compute. reflexivity. Qed.
Definition ex_peer_id : string := "16Uiu2HAm0000002".
Lemma ex_peer_id_ok : (16 <= String.length ex_peer_id)%nat.
Proof. apply Nat.leb_le. reflexivity. Qed.
Lemma alone_quiet now : quiet (SU := alone now).
Proof. done. Qed.
Lemma fx_chain : chain_down (link true fx_vs fx_peer) (fc_head fx_peer) [fx_env]
                   (b_ParentRoot (ba_Block (sb_Message fx_env))).
Proof. rewrite fx_head. apply cd_cons; [exact (proj1 fx_link)|apply cd_nil]. Qed.

Lemma sync_catches_up_witness :
  exists n', syncWithPeer (SU := alone 1005) true (nx_node 0) (serves ex_peer_id fx_peer) = Ok (n', true) /\
    caught_up true fx_vs fx_peer (nx_node 0) n' [fx_env] /\
    GetState (fc_storage (n_FC n')) (fc_head fx_peer) = GetState (fc_storage fx_peer) (fc_head fx_peer).
Proof.
  refine (sync_catches_up true fx_vs (SU := alone 1005) (nx_node 0) ex_peer_id fx_peer [fx_env]
            (b_ParentRoot (ba_Block (sb_Message fx_env))) fx_registry (alone_ok 1005 ltac:(lia)) (alone_quiet 1005)
            ex_peer_id_ok fx_wf fx_peer_wf nx_behind fx_chain _ _ (proj1 (proj2 fx_link)) (proj2 (proj2 fx_link)) _).
  - intros H. discriminate H.
  - intros H. discriminate H.
  - constructor; [exact fx_new|constructor].
Defined.

(** A peer with 65 empty blocks on an unknown root; the flag says that no two have one root. *)
Definition long_envelope (k : nat) (parent : root) : SignedBlockWithAttestation :=
  mkSignedBlock (mkBlockWithAttestation (mkBlock (Z.of_nat k) 0 parent ZeroHash (mkBlockBody [])) (Some zero_Attestation)) [].
Definition far_root : root := vreplicate 32 Byte.xff.
Fixpoint long_chain (k : nat) : memory.Store * list SignedBlockWithAttestation * root * bool :=
  match k with
  | O => (memory.New, [], far_root, true)
  | S k' =>
      let '(t, l, r, ok) := long_chain k' in
      let e := long_envelope k r in
      (PutSignedBlock (PutBlock t (root_of e) (ba_Block (sb_Message e))) (root_of e) e, e :: l, root_of e,
       match GetSignedBlock t (root_of e) with None => ok | Some _ => false end)
  end.
Definition long_store (k : nat) : Store memory.Store :=
  let '(t, _, r, _) := long_chain k in
  mkStore 0 1000 3 r r (mkCheckpoint ZeroHash 0) (mkCheckpoint ZeroHash 0) t ∅ ∅.

Lemma long_sendable k r : (k < 1000)%nat -> sendable (long_envelope k r).
Proof.
  intros Hk. apply small_sendable; [|reflexivity]. split; [|exact zero_Attestation_wf].
  split; [unfold is_u64; cbn; lia|]. split; [done|constructor].
Qed.

Lemma long_served k : (k < 1000)%nat ->
  forall t l r, long_chain k = (t, l, r, true) -> length l = k /\
  forall c : Store memory.Store, (forall x e, GetSignedBlock t x = Some e -> GetSignedBlock (fc_storage c) x = Some e) ->
    chain_down (served c) r l far_root.
Proof.
  induction k as [|k IH]; intros Hk t l r; cbn [long_chain].
  { intros [= <- <- <-]. split; [done|]. intros. constructor. }
  destruct (long_chain k) as [[[t0 l0] r0] ok0]. cbv zeta.
  destruct (GetSignedBlock t0 _) eqn:Hfr; [by intros [=]|].
  intros [= <- <- <- ->]. destruct (IH ltac:(lia) _ _ _ eq_refl) as [Hl H]. split; [cbn; lia|].
  intros c Hc. constructor; [constructor|].
  - apply Hc. autorewrite with storage. by rewrite decide_True.
  - done.
  - apply long_sendable. lia.
  - done.
  - apply H. intros x e Hx. apply Hc. autorewrite with storage. rewrite decide_False; [exact Hx|]. congruence.
Qed.

Definition far : Store memory.Store := long_store 65.
Definition far_blocks : list SignedBlockWithAttestation := let '(_, l, _, _) := long_chain 65 in l.

Lemma far_chain : chain_down (served far) (fc_head far) far_blocks far_root /\ length far_blocks = 65%nat.
Proof.
  assert (H : (long_chain 65).2 = true) by (vm_compute; reflexivity).
  unfold far, far_blocks, long_store. pose proof (long_served 65 ltac:(lia)) as G. revert H G.
  generalize (long_chain 65). intros [[[t l] r] ok]. cbn [snd]. intros -> G.
  destruct (G t l r eq_refl) as [Hl Hc]. split; [|exact Hl]. by apply Hc.
Qed.

Lemma far_unknown : Forall (unknown (nx_node 0)) far_blocks.
Proof.
  assert (H : forallb (fun e => match GetBlock (fc_storage fx_genesis) (root_of e) with None => true | Some _ => false end)
                far_blocks = true) by (vm_compute; reflexivity).
  revert H. unfold unknown. change (n_FC (nx_node 0)) with fx_genesis. generalize far_blocks. intros l.
  induction l as [|e l IH]; cbn [forallb]; [constructor|]. intros [H1 H2]%andb_prop. constructor; [|by apply IH].
  by destruct (GetBlock _ _).
Qed.

Lemma sync_gives_up_witness :
  exists n', syncWithPeer (SU := alone 1005) true (nx_node 0) (serves ex_peer_id far) = Ok (n', false) /\
    same_chain (n_FC (nx_node 0)) (n_FC n').
Proof.
  refine (sync_gives_up true fx_vs (SU := alone 1005) (nx_node 0) ex_peer_id far far_blocks far_root fx_registry
            (alone_ok 1005 ltac:(lia)) (alone_quiet 1005) ex_peer_id_ok fx_wf _ _ (proj1 far_chain) _ far_unknown).
  - split; [vm_compute; split; [discriminate|reflexivity]|].
    assert (H : bool_decide (wf_Checkpoint (rs_Head (status_of (GetStatus far)))) = true) by (vm_compute; reflexivity).
    apply bool_decide_eq_true in H. exact H.
  - apply Z.ltb_lt. vm_compute. reflexivity.
  - unfold len. rewrite (proj2 far_chain). reflexivity.
Defined.
End Example.
