(* ===== verification/Network.v ===== *)
(** The node on the network: node/handler.go with the dispatch of network/gossipsub/handler.go and
    network/reqresp/server.go, and the loop of node/ticker.go.

    An [event] is what the network hands to the handlers: a message on a topic or a request stream,
    any bytes.  [on_event] is what its handler does with the fork choice store and what it answers.
    Events give a concrete [Surroundings]: between two accesses of the main goroutine, the events
    that have arrived are handled.  The theorems are that the network cannot break the node,
    and that what one node produces another one imports. *)
From S2P Require Import Prelude Slot Types Hash Concrete GoStd Bitlist VoteRule Attestations Transition Chain Storage Ghost Leansig ForkChoice ForkInv ForkProduce Aggregation ForkProps Order Duties Ssz SszCodec SszWire SszProps Wire Reqresp Gossip Node NodeSafety.
Local Open Scope Z_scope.

(** * The code *)

(** ** gossipsub/handler.go *)

(** The reader goroutines. *)
Inductive reader := BlockReader | AttestationReader | AggregateReader.
#[export] Instance reader_eq_dec : EqDecision reader.
Proof. solve_decision. Defined.

(** SubscribeTopics with a handler whose three functions are set; [Subscribe] is the pubsub
    library's. *)
Definition SubscribeTopics (Subscribe : string -> outcome ()) (topics : Topics) : outcome (list reader) :=
  _ ← Subscribe (t_Block topics);
  _ ← Subscribe (t_Attestation topics);
  match t_AggregateAttestation topics with
  | Some topic => _ ← Subscribe topic; Ok [BlockReader; AttestationReader; AggregateReader]
  | None => Ok [BlockReader; AttestationReader]
  end.

(** registerHandlers: which readers run. *)
Definition registerHandlers (Subscribe : string -> outcome ()) (topics : Topics) : outcome (list reader) :=
  map_err (Wrapf "subscribe topics: %w" []) (SubscribeTopics Subscribe topics).

Inductive event :=
| ev_gossip (r : reader) (msg : bytes)
| ev_status (stream : bytes)
| ev_blocks_by_root (stream : bytes).

Section Code.
Context {HW : HashWalker} {MR : MapRange} {FFI : LeansigFFI} {SS : SortSlice} {RT : SszRuntime} {SN : Snappy}.
Context {T : Type} {OPS : StorageOps T}.
Context (shouldVerifySignatures : bool).

(** A reader's round on one message: at most one value reaches the handler. *)
Definition on_gossip (r : reader) (now : option Z) (c : Store T) (msg : bytes) : outcome (Store T) :=
  match r with
  | BlockReader => l ← readBlockMessages [msg]; foldM (OnBlock shouldVerifySignatures now) c l
  | AttestationReader => l ← readAttestationMessages [msg]; foldM (OnAttestation shouldVerifySignatures now) c l
  | AggregateReader => l ← readAggregatedAttestationMessages [msg]; foldM (OnAggregatedAttestation now) c l
  end.

Definition on_event (subs : list reader) (now : option Z) (c : Store T) (e : event) : outcome (Store T * bytes) :=
  match e with
  | ev_gossip r msg =>
      if bool_decide (r ∈ subs) then c ← on_gossip r now c msg; Ok (c, []) else Ok (c, [])
  | ev_status s => out ← handleStatus (Some (OnStatus c)) s; Ok (c, out)
  | ev_blocks_by_root s => out ← handleBlocksByRoot (Some (OnBlocksByRoot c)) s; Ok (c, out)
  end.

Definition on_events (subs : list reader) (now : option Z) (c : Store T) (es : list event) : outcome (Store T) :=
  foldM (fun c e => '(c, _) ← on_event subs now c e; Ok c) c es.

(** The surroundings made of the events that arrive before each access; a panic would end the
    process, and is shown never to happen. *)
Definition network (clock : nat -> Z) (subs : list reader) (arrivals : nat -> list event) : Surroundings T :=
  {| unix := clock;
     others i c := match on_events subs (Some (clock i)) c (arrivals i) with Ok c' => c' | _ => c end |}.

(** ** ticker.go *)

(** Run, for the ticks that come before the context is cancelled; a tick sees the peers that are
    connected then. *)
Definition Run {SU : Surroundings T} (n : Node T) (initial : list Peer) (ticks : list (list Peer)) : outcome (Node T) :=
  n ← initialSync shouldVerifySignatures n initial;
  foldM (run_tick shouldVerifySignatures) n ticks.
End Code.

(** * The handlers are steps of the fork choice *)

Section Robust.
Context {HW : HashWalker} {MR : MapRange} {FFI : LeansigFFI} {SS : SortSlice}.
Context {RT : SszRuntime} {LAWS : SszLaws RT} {SN : Snappy} {SNL : SnappyLaws SN}.
Context {T : Type} `{SL : StorageLaws T}.
Context (shouldVerify : bool) (vs : list Validator) (Hreg : registry_ok vs).
#[local] Abbreviation wf_fc := (wf_fc shouldVerify vs).
#[local] Abbreviation runs := (rtc (fc_step shouldVerify vs)).

(** The block of a message, if it decodes, is one the vote arithmetic has room for. *)
Definition admissible_event (e : event) : Prop :=
  match e with
  | ev_gossip BlockReader msg => forall l, readBlockMessages [msg] = Ok l ->
      Forall (fun env => admissible_block vs (ba_Block (sb_Message env))) l
  | _ => True
  end.

Lemma fold_steps {A} (f : Store T -> A -> outcome (Store T)) (Q : A -> Prop) l :
  (forall c x, wf_fc c -> Q x -> exists c', f c x = Ok c' /\ runs c c') -> Forall Q l ->
  forall c, wf_fc c -> exists c', foldM f c l = Ok c' /\ runs c c'.
Proof.
  intros Hf. induction 1 as [|x l Hx Hl IH]; intros c Hc; cbn [foldM]; [by exists c|].
  destruct (Hf c x Hc Hx) as (c1 & -> & H1). cbn [mbind outcome_bind].
  destruct (run_wf shouldVerify vs c c1 Hreg Hc H1) as [Hc1 _].
  destruct (IH c1 Hc1) as (c2 & -> & H2). exists c2. split; [done|by etrans].
Qed.

Lemma OnBlock_steps now c env : reading now -> wf_fc c -> fits_SignedBlock env -> admissible_block vs (ba_Block (sb_Message env)) ->
  exists c', OnBlock shouldVerify now c env = Ok c' /\ runs c c'.
Proof.
  intros Hnow Hc He [Ha1 Ha2]. apply fits_envelope in He. unfold OnBlock.
  destruct (ProcessBlock_run shouldVerify vs now c env Hc He Hreg Hnow Ha1 Ha2) as (c1 & c' & res & _ & _ & E & _).
  rewrite E. exists c'. split; [done|]. apply rtc_once. by eapply step_ProcessBlock.
Qed.

Lemma OnAttestation_steps now c sa : reading now -> wf_fc c -> wf_SignedAttestation sa ->
  exists c', OnAttestation shouldVerify now c sa = Ok c' /\ runs c c'.
Proof.
  intros Hnow Hc Hs. destruct (ProcessAttestation_op shouldVerify vs now c sa Hc (proj2 Hreg) Hnow Hs) as (c' & E & _).
  exists c'. split; [exact E|]. apply rtc_once. by eapply step_ProcessAttestation.
Qed.

Lemma OnAggregated_steps now c agg : reading now -> wf_fc c -> fits_Aggregated agg ->
  exists c', OnAggregatedAttestation now c agg = Ok c' /\ runs c c'.
Proof.
  intros Hnow Hc [Hd _]. destruct (ProcessAggregated_run shouldVerify vs now c agg Hc Hreg Hd Hnow) as (c' & E & _).
  exists c'. split; [exact E|]. apply rtc_once. by eapply step_ProcessAggregatedAttestation.
Qed.

Lemma on_gossip_steps r now c msg : reading now -> wf_fc c -> admissible_event (ev_gossip r msg) ->
  exists c', on_gossip shouldVerify r now c msg = Ok c' /\ runs c c'.
Proof.
  intros Hnow Hc Ha. destruct r; cbn [on_gossip].
  - destruct (read_blocks_total [msg]) as (l & E & Hl). pose proof (Ha l E) as Hadm. rewrite E. cbn [mbind outcome_bind].
    apply (fold_steps _ (fun env => fits_SignedBlock env /\ admissible_block vs (ba_Block (sb_Message env)))); [|by apply list.Forall_and|done].
    intros c1 env Hc1 [? ?]. by apply OnBlock_steps.
  - destruct (read_attestations_total [msg]) as (l & E & Hl). rewrite E. cbn [mbind outcome_bind].
    apply (fold_steps _ wf_SignedAttestation); [|done..]. intros c1 sa ? ?. by apply OnAttestation_steps.
  - destruct (read_aggregates_total [msg]) as (l & E & Hl). rewrite E. cbn [mbind outcome_bind].
    apply (fold_steps _ fits_Aggregated); [|done..]. intros c1 agg ? ?. by apply OnAggregated_steps.
Qed.

Lemma on_event_steps subs now c e : reading now -> wf_fc c -> admissible_event e ->
  exists c' resp, on_event shouldVerify subs now c e = Ok (c', resp) /\ runs c c'.
Proof.
  intros Hnow Hc Ha. destruct e as [r msg|s|s]; cbn [on_event].
  - case_bool_decide; [|by exists c, []]. destruct (on_gossip_steps r now c msg Hnow Hc Ha) as (c' & -> & Hr).
    by exists c', [].
  - destruct (handleStatus_returns (Some (OnStatus c)) s) as [out ->]. by exists c, out.
  - destruct (handleBlocksByRoot_returns (Some (OnBlocksByRoot c)) s) as [out ->]. by exists c, out.
Qed.

Lemma on_events_steps subs now es c : reading now -> wf_fc c -> Forall admissible_event es ->
  exists c', on_events shouldVerify subs now c es = Ok c' /\ runs c c'.
Proof.
  intros Hnow Hc He. unfold on_events. apply (fold_steps _ admissible_event); [|done..].
  intros c1 e Hc1 Ha. destruct (on_event_steps subs now c1 e Hnow Hc1 Ha) as (c2 & out & -> & Hr). by exists c2.
Qed.

Lemma network_ok clock subs arrivals :
  (forall i, 0 <= clock i /\ clock i * Z.of_nat (length vs) < 2 ^ 64 - 16) ->
  (forall i, Forall admissible_event (arrivals i)) ->
  surroundings_ok (SU := network shouldVerify clock subs arrivals) shouldVerify vs.
Proof.
  intros Hclock Ha. constructor; [exact Hclock|]. intros i c Hc. cbn [others network].
  destruct (on_events_steps subs (Some (clock i)) (arrivals i) c) as (c' & -> & Hr); [|done|apply Ha|done].
  intros t [= <-]. destruct (Hclock i) as [H0 H1]. destruct Hreg as [Hn _]. unfold is_u64. nia.
Qed.
End Robust.

(** * What one node publishes, another receives *)

Section Relay.
Context {HW : HashWalker} {MR : MapRange} {FFI : LeansigFFI} {SS : SortSlice}.
Context {RT : SszRuntime} {LAWS : SszLaws RT} {SN : Snappy} {SNL : SnappyLaws SN}.
Context {T : Type} `{SL : StorageLaws T}.
Context (shouldVerify : bool) (vs : list Validator) (Hreg : registry_ok vs).

Lemma published_block subs now (d : Store T) env :
  BlockReader ∈ subs -> fits_SignedBlock env ->
  exists p, PublishBlock env = Ok p /\
    on_event shouldVerify subs now d (ev_gossip BlockReader p) =
      ('(d', _) ← ForkChoice.ProcessBlock shouldVerify now d env; Ok (d', [])).
Proof.
  intros Hin [Hm Hs]. pose proof (filled_idem _ Hm) as Hid. assert (Hf : filled_envelope env = env).
  { unfold filled_envelope. rewrite Hid. by destruct env. }
  exists (snappy_Encode (wire_SignedBlock env)). unfold PublishBlock.
  rewrite SignedBlock_run by (rewrite Hf; by split). split; [done|]. cbn [on_event on_gossip].
  rewrite bool_decide_eq_true_2 by done. unfold readBlockMessages.
  rewrite (read_messages_app _ _ _ env) by (apply codec_dec; by split). cbn [mbind outcome_bind read_messages foldM].
  unfold OnBlock. destruct (ForkChoice.ProcessBlock shouldVerify now d env) as [[d' res]| | |]; done.
Qed.

Lemma published_attestation subs now (d : Store T) sa :
  AttestationReader ∈ subs -> wf_SignedAttestation sa ->
  exists p, PublishAttestation sa = Ok p /\
    on_event shouldVerify subs now d (ev_gossip AttestationReader p) =
      (d' ← ForkChoice.ProcessAttestation shouldVerify now d sa; Ok (d', [])).
Proof.
  intros Hin Hs. exists (snappy_Encode (wire_SignedAttestation sa)). unfold PublishAttestation, SignedAttestation_MarshalSSZ.
  rewrite marshal_fresh, marshal_SignedAttestation by done. split; [done|]. cbn [on_event on_gossip].
  rewrite bool_decide_eq_true_2 by done. unfold readAttestationMessages.
  rewrite (read_messages_app _ _ _ sa) by by apply fixed_dec. cbn [mbind outcome_bind read_messages foldM].
  unfold OnAttestation. by destruct (ForkChoice.ProcessAttestation shouldVerify now d sa).
Qed.

(** Importing after catching up with the clock. *)
Lemma ProcessBlock_later now (d d1 d' : Store T) env res :
  catchUp now d = Ok d1 -> ForkChoice.ProcessBlock shouldVerify None d1 env = Ok (d', res) ->
  ForkChoice.ProcessBlock shouldVerify now d env = Ok (d', res).
Proof. unfold ForkChoice.ProcessBlock. intros ->. done. Qed.

Lemma ProcessAttestation_later now (d d1 : Store T) sa :
  catchUp now d = Ok d1 ->
  ForkChoice.ProcessAttestation shouldVerify now d sa = processAttestationLocked shouldVerify d1 sa false.
Proof. unfold ForkChoice.ProcessAttestation. by intros ->. Qed.

(** The store after a proposal. *)
Lemma proposer_wf (c : Store T) slot v kp c' env :
  wf_fc shouldVerify vs c -> is_u64 slot -> is_u64 v -> total_signer kp -> slot * Z.of_nat (length vs) < 2 ^ 64 - 16 ->
  no_collision c (ba_Block (sb_Message env)) -> ProduceBlock c slot v kp = Ok (c', inr env) -> wf_fc shouldVerify vs c'.
Proof.
  intros Hc Hs Hv HS Hroom Hcf E. apply (run_wf shouldVerify vs c c' Hreg Hc). apply rtc_once.
  refine (step_ProduceBlock shouldVerify vs c slot v kp c' (inr env) Hs Hv HS Hroom _ E).
  intros env' Ee. apply (inj inr) in Ee. by rewrite <- Ee.
Qed.

(** The receiver [d] has the blocks that a vote of [c] names. *)
Definition has_vote_blocks (c d : Store T) (data : AttestationData) : Prop :=
  forall r, r ∈ [cp_Root (ad_Source data); cp_Root (ad_Target data); cp_Root (ad_Head data)] ->
    GetBlock (fc_storage d) r = GetBlock (fc_storage c) r.

(** The source is the checkpoint of a block, and the target is not older. *)
Definition forward (c : Store T) (data : AttestationData) : Prop :=
  exists sb, GetBlock (fc_storage c) (cp_Root (ad_Source data)) = Some sb /\
    b_Slot sb = cp_Slot (ad_Source data) /\ cp_Slot (ad_Source data) <= cp_Slot (ad_Target data).

Lemma produced_valid c d slot v kp c' sa :
  wf_fc shouldVerify vs c -> wf_fc shouldVerify vs d -> ProduceAttestation c slot v kp = Ok (c', inr sa) ->
  has_vote_blocks c d (sa_Message sa) -> slot <= fc_time d / IntervalsPerSlot ->
  valid_data d (sa_Message sa) <-> forward c (sa_Message sa).
Proof.
  intros Hc Hd E Hhas Ht.
  destruct (produced_vote shouldVerify vs c slot v kp c' sa Hc E) as (c1 & _ & Hc1 & Hsame & _ & Hslot & _ & Htgt & Hhead).
  assert (Htb : exists tb, GetBlock (fc_storage d) (cp_Root (ad_Target (sa_Message sa))) = Some tb /\
                  b_Slot tb = cp_Slot (ad_Target (sa_Message sa))).
  { destruct (getVoteTarget_run shouldVerify vs c1 Hc1) as [(tb & Et & Hg & _)|[Et _]]; rewrite Htgt in Et; [|done].
    apply Ok_inj in Et. rewrite Hhas by (right; left). rewrite Et. exists tb. by rewrite <- (proj1 Hsame). }
  assert (Hhb : exists hb, GetBlock (fc_storage d) (cp_Root (ad_Head (sa_Message sa))) = Some hb).
  { rewrite Hhas by (right; right; left). rewrite Hhead, <- (proj1 Hsame). apply (fi_head _ _ _ Hc1). }
  destruct Htb as (tb & Htb & Htslot), Hhb as (hb & Hhb).
  assert (Hsb : GetBlock (fc_storage d) (cp_Root (ad_Source (sa_Message sa))) =
                GetBlock (fc_storage c) (cp_Root (ad_Source (sa_Message sa)))) by (apply Hhas; left).
  unfold valid_data, forward. rewrite Hsb. split.
  - intros (sb & tb' & hb' & H1 & H2 & _ & H4 & H5 & H6 & _). exists sb. simplify_eq. split_and!; [done|done|lia].
  - intros (sb & H1 & H2 & H3). exists sb, tb, hb. split_and!; try done; lia.
Qed.

(** When a node with those blocks counts the vote. *)
Lemma vote_counts c d slot v kp c' sa :
  wf_fc shouldVerify vs c -> wf_fc shouldVerify vs d -> ProduceAttestation c slot v kp = Ok (c', inr sa) ->
  ForkInv.signed vs sa -> ad_Slot (sa_Message sa) = slot -> has_vote_blocks c d (sa_Message sa) ->
  counts shouldVerify d sa = true <-> forward c (sa_Message sa) /\ slot <= fc_time d / IntervalsPerSlot.
Proof.
  intros Hc Hd E Hsig Hslot Hhas. unfold counts. rewrite !andb_true_iff, bool_decide_eq_true, Z.leb_le, Hslot.
  rewrite (validate_spec shouldVerify vs d _ (fi_core _ _ _ Hd)).
  assert (Hver : negb shouldVerify || is_ok (verifyAttestationSignature d sa) = true).
  { destruct shouldVerify; [|done]. unfold verifyAttestationSignature.
    destruct (known_state _ _ _ (fi_storage _ _ _ Hd) (fi_head _ _ _ Hd)) as (hs & -> & Hpost).
    by rewrite (Hsig hs (proj1 (proj2 Hpost))). }
  rewrite Hver. split.
  - intros [[Hvd _] Ht]. split; [|done]. by apply (produced_valid c d slot v kp c' sa).
  - intros [Hf Ht]. split; [|done]. split; [|done]. by apply (produced_valid c d slot v kp c' sa).
Qed.

(** The vote a validator makes is signed for any node with the registry. *)
Lemma vote_signed slot v kp sa val :
  vote_of (T := T) shouldVerify vs slot v kp sa -> signer_for vs v kp -> vs !! Z.to_nat v = Some val ->
  0 <= v -> ForkInv.signed vs sa.
Proof.
  intros (Hid & Hslot & Hwf & (m & sig & Em & Es & Esa) & _) Hsig Hv H0 s Hs.
  unfold verifyAttestationSignatureWithState. cbn [att_ValidatorID]. rewrite Hs, Hid.
  pose proof (lookup_lt_Some _ _ _ Hv) as Hlt. destruct Hreg as [_ Hn].
  rewrite (proj2 (Z.leb_gt _ _)) by (rewrite u64_small by (unfold is_u64; lia); lia).
  rewrite Hv, Em. cbn [att_Data]. rewrite Hslot, Esa, (Hsig _ _ _ _ Es Hv). done.
Qed.
End Relay.

(** * The properties *)

Section Properties.
Context {HW : HashWalker} {MR : MapRange} {FFI : LeansigFFI} {SS : SortSlice}.
Context {RT : SszRuntime} {LAWS : SszLaws RT} {SN : Snappy} {SNL : SnappyLaws SN}.
Context {T : Type} `{SL : StorageLaws T}.
Context (shouldVerify : bool) (vs : list Validator).

Lemma initialSync_run {SU : Surroundings T} n peers :
  registry_ok vs -> surroundings_ok shouldVerify vs -> Forall (peer_ok vs) peers -> wf_node shouldVerify vs n ->
  exists n', initialSync shouldVerify n peers = Ok n' /\ follows shouldVerify vs n n'.
Proof.
  intros Hreg Hsu Hps. revert n. unfold initialSync. induction Hps as [|p peers Hp Hps IH]; intros n Hn; cbn [foldM].
  { exists n. split; [done|by apply follows_refl]. }
  destruct (syncWithPeer_run shouldVerify vs Hreg Hsu n p Hp Hn) as (n1 & b & -> & Hf & _). cbn [mbind outcome_bind].
  destruct (IH n1 (fo_wf _ _ _ _ Hf)) as (n2 & -> & Hf2). exists n2. split; [done|by eapply follows_trans].
Qed.

(** In this run the hash function gives each block that the node proposes a root of its own:
    condition [fresh_proposal] at the ticks that reach the proposer's duty. *)
Fixpoint fresh_ticks {SU : Surroundings T} (n : Node T) (ticks : list (list Peer)) : Prop :=
  match ticks with
  | [] => True
  | peers :: ticks' =>
      (forall n1 slot, before_duties shouldVerify n peers = Ok (n1, Some (slot, 0)) -> fresh_proposal n1 slot) /\
      (forall n', run_tick shouldVerify n peers = Ok n' -> fresh_ticks n' ticks')
  end.
Definition fresh_run {SU : Surroundings T} (n : Node T) (initial : list Peer) (ticks : list (list Peer)) : Prop :=
  forall n1, initialSync shouldVerify n initial = Ok n1 -> fresh_ticks n1 ticks.

Lemma ticks_run {SU : Surroundings T} n ticks :
  registry_ok vs -> surroundings_ok shouldVerify vs -> Forall (Forall (peer_ok vs)) ticks -> wf_node shouldVerify vs n ->
  fresh_ticks n ticks ->
  exists n', foldM (run_tick shouldVerify) n ticks = Ok n' /\ follows shouldVerify vs n n'.
Proof.
  intros Hreg Hsu Hps. revert n. induction Hps as [|peers ticks Hp Hps IH]; intros n Hn Hfresh; cbn [foldM].
  { exists n. split; [done|by apply follows_refl]. }
  destruct Hfresh as [Hnow Hlater].
  destruct (before_duties_run shouldVerify vs Hreg Hsu n peers Hp Hn) as (n1 & duty & E & F & _ & _ & Hd).
  assert (Ht : exists n2, run_tick shouldVerify n peers = Ok n2 /\ follows shouldVerify vs n n2).
  { unfold run_tick. rewrite E. cbn [mbind outcome_bind]. destruct duty as [[slot interval]|]; [|by exists n1].
    destruct (OnInterval_run shouldVerify vs Hreg Hsu slot interval n1 (fo_wf _ _ _ _ F) (Hd _ _ eq_refl))
      as (n2 & msgs & E2 & F2 & _); [intros ->; by apply Hnow|]. exists n2. split; [done|by eapply follows_trans]. }
  destruct Ht as (n2 & E2 & F2). rewrite E2. cbn [mbind outcome_bind].
  destruct (IH n2 (fo_wf _ _ _ _ F2) (Hlater n2 E2)) as (n3 & -> & F3).
  exists n3. split; [done|by eapply follows_trans].
Qed.

Lemma Run_run {SU : Surroundings T} n initial ticks :
  registry_ok vs -> surroundings_ok shouldVerify vs -> Forall (peer_ok vs) initial -> Forall (Forall (peer_ok vs)) ticks ->
  wf_node shouldVerify vs n -> fresh_run n initial ticks ->
  exists n', Run shouldVerify n initial ticks = Ok n' /\ follows shouldVerify vs n n'.
Proof.
  intros Hreg Hsu Hi Ht Hn Hfresh.
  destruct (initialSync_run n initial Hreg Hsu Hi Hn) as (n1 & E1 & F1).
  destruct (ticks_run n1 ticks Hreg Hsu Ht (fo_wf _ _ _ _ F1) (Hfresh n1 E1)) as (n2 & E2 & F2).
  exists n2. unfold Run. rewrite E1. cbn [mbind outcome_bind]. split; [exact E2|by eapply follows_trans].
Qed.


(** C31: A proposal reaches the other nodes: the message the proposer publishes is decoded by the block
    reader of any node and imported there, when that node has the parent's state and not the
    block, and the envelope is within the limits of the wire. *)
Theorem proposal_relayed (subs : list reader) (now : option Z) (c d : Store T) (slot v : Z)
    (kp : Signer) (c' : Store T) (env : SignedBlockWithAttestation) :
  wf_fc shouldVerify vs c -> wf_fc shouldVerify vs d -> registry_ok vs -> is_u64 slot -> is_u64 v -> reading now ->
  total_signer kp -> signer_for vs v kp -> slot * Z.of_nat (length vs) < 2 ^ 64 - 16 ->
  ProduceBlock c slot v kp = Ok (c', inr env) -> len (sb_Signature env) <= 4096 -> BlockReader ∈ subs ->
  (Block_HashTreeRoot (ba_Block (sb_Message env))).1 <> ZeroHash ->
  GetState (fc_storage d) (b_ParentRoot (ba_Block (sb_Message env))) =
    GetState (fc_storage c) (b_ParentRoot (ba_Block (sb_Message env))) ->
  GetBlock (fc_storage d) (Block_HashTreeRoot (ba_Block (sb_Message env))).1 = None ->
  exists p d1 d' state, PublishBlock env = Ok p /\ catchUp now d = Ok d1 /\
    on_event shouldVerify subs now d (ev_gossip BlockReader p) = Ok (d', []) /\
    imported shouldVerify vs d1 env state d'.
Proof.
  intros Hc Hd Hreg Hs Hv Hnow HS HSv Hroom E Hlen Hsub Hz Hps Hfr.
  destruct (ProduceBlock_run shouldVerify vs c slot v kp Hc Hreg Hs Hv HS Hroom)
    as (c1 & c2 & res & Ep & Hc1 & Hsm & E1 & Hres).
  rewrite E in E1. injection E1 as <- <-. destruct Hres as (hs & state & Hp & _).
  pose proof (produced_envelope_wf shouldVerify vs c1 slot v kp env hs state Hc1 Hs Hv Hp) as Henv.
  pose proof (produced_count _ _ _ _ _ _ _ Hp) as Hcount.
  assert (Hfit : fits_SignedBlock env).
  { destruct Henv as [(H1 & H2 & H3) H4]. pose proof (pr_votes _ _ _ _ _ _ _ Hp) as (l & sig & Hb & _ & _ & Hsg & tg & m & Hpa & _).
    rewrite Hpa in H4. split; [|exact Hlen]. unfold fits_BlockWithAttestation. rewrite Hpa. split; [|exact H4].
    split; [done|]. split; [done|]. split; [done|]. rewrite Hb, Hsg in *. unfold len in *.
    rewrite length_app, length_map in *. cbn [length] in Hlen. lia. }
  destruct (catchUp_wf shouldVerify vs now d Hd Hnow) as (d1 & Ed & Hd1 & Hsame).
  destruct (peer_imports shouldVerify vs c1 slot v kp env hs state d1) as (d' & Ei & Him); try done.
  { rewrite (proj1 Hsame), Hps, (pr_parent _ _ _ _ _ _ _ Hp), <- (proj1 Hsm). apply Hp. }
  { by rewrite (proj1 Hsame). }
  destruct (published_block shouldVerify subs now d env Hsub Hfit) as (p & Hpub & Eon).
  exists p, d1, d', state. split; [done|]. split; [done|]. split; [|done]. rewrite Eon.
  by rewrite (ProcessBlock_later shouldVerify now d d1 d' env _ Ed Ei).
Qed.

(** C32: A vote reaches the other nodes: the message an attester publishes is decoded by the attestation
    reader of any node that has the three blocks the vote names, and is counted there exactly when
    the receiver's clock has reached its slot and the vote points forward, from the block of its
    source to a target that is not older; then it is the pending vote of its validator unless a vote
    of the same slot or a younger one is pending already.  Otherwise it changes nothing. *)
Theorem vote_relayed (subs : list reader) (now : option Z) (c d : Store T) (slot v : Z)
    (kp : Signer) (c' : Store T) (sa : SignedAttestation) :
  wf_fc shouldVerify vs c -> wf_fc shouldVerify vs d -> registry_ok vs -> is_u64 slot -> registered vs v -> reading now ->
  total_signer kp -> signer_for vs v kp ->
  ProduceAttestation c slot v kp = Ok (c', inr sa) -> AttestationReader ∈ subs -> has_vote_blocks c d (sa_Message sa) ->
  exists p d1 d', PublishAttestation sa = Ok p /\ catchUp now d = Ok d1 /\
    on_event shouldVerify subs now d (ev_gossip AttestationReader p) = Ok (d', []) /\
    (forward c (sa_Message sa) -> slot <= fc_time d1 / IntervalsPerSlot -> recorded d1 sa false d') /\
    (~ (forward c (sa_Message sa) /\ slot <= fc_time d1 / IntervalsPerSlot) -> d' = d1).
Proof.
  intros Hc Hd Hreg Hs Hv Hnow HS HSv E Hsub Hhas.
  assert (Hvu : is_u64 v) by by apply (registered_u64 vs Hreg).
  destruct (ProduceAttestation_run shouldVerify vs c slot v kp Hc Hs Hvu HS) as (c2 & res & E1 & _ & Hres).
  rewrite E in E1. apply Ok_inj, (f_equal snd) in E1. cbn in E1. specialize (Hres sa (eq_sym E1)).
  pose proof Hres as (Hid & Hslot & Hwf & _).
  destruct (lookup_lt_is_Some_2 vs (Z.to_nat v)) as [val Hval]; [unfold registered in Hv; lia|].
  pose proof (vote_signed shouldVerify vs Hreg slot v kp sa val Hres HSv Hval (proj1 Hv)) as Hsigned.
  destruct (catchUp_wf shouldVerify vs now d Hd Hnow) as (d1 & Ed & Hd1 & Hsame).
  destruct (published_attestation shouldVerify subs now d sa Hsub Hwf) as (p & Hpub & Eon).
  rewrite (ProcessAttestation_later shouldVerify now d d1 sa Ed) in Eon.
  rewrite (processAttestation_counts shouldVerify vs d1 sa Hd1 Hwf (proj2 Hreg)) in Eon.
  pose proof (vote_counts shouldVerify vs c d1 slot v kp c' sa Hc Hd1 E Hsigned Hslot) as Hcounts.
  unfold has_vote_blocks in *. rewrite (proj1 Hsame) in Hcounts. specialize (Hcounts Hhas).
  exists p, d1, (if counts shouldVerify d1 sa
                 then set_votes d1 (fc_latestKnownAttestations d1) (put (fc_latestNewAttestations d1) sa) else d1).
  split; [done|]. split; [done|]. split; [exact Eon|]. split.
  - intros Hf Ht. rewrite (proj2 Hcounts) by done. apply gossip_recorded.
  - intros Hno. destruct (counts shouldVerify d1 sa); [|done]. by destruct Hno, Hcounts; auto.
Qed.
End Properties.

(** * Concrete nodes *)

Section Example.
#[local] Existing Instance toy_walker.
#[local] Existing Instance canonical_range.
#[local] Existing Instance toy_ffi.
#[local] Existing Instance merge_sort_slice.

(** The readers that run: the aggregate topic is not joined. *)
Definition wx_subs : list reader := [BlockReader; AttestationReader].
Lemma wx_registered : registerHandlers (fun _ => Ok tt) nx_topics = Ok wx_subs.
Proof. reflexivity. Qed.
Lemma wx_block_sub : BlockReader ∈ wx_subs.
Proof. left. Qed.
Lemma wx_attestation_sub : AttestationReader ∈ wx_subs.
Proof. right. left. Qed.

Definition root_is_zero (r : root) : bool := bool_decide (r = ZeroHash).
Lemma root_nonzero r : root_is_zero r = false -> r <> ZeroHash.
Proof. apply bool_decide_eq_false. Qed.
Lemma none_of {A} (o : option A) : match o with None => true | Some _ => false end = true -> o = None.
Proof. by destruct o. Qed.

Lemma wx_env_nonzero : (Block_HashTreeRoot (ba_Block (sb_Message fx_env))).1 <> ZeroHash.
Proof. apply root_nonzero. vm_compute. reflexivity. Qed.
Lemma wx_env_new : GetBlock (fc_storage fx_genesis) (Block_HashTreeRoot (ba_Block (sb_Message fx_env))).1 = None.
Proof. apply none_of. vm_compute. reflexivity. Qed.
Lemma wx_env_short : len (sb_Signature fx_env) <= 4096.
Proof. apply Z.leb_le. vm_compute. reflexivity. Qed.

Lemma proposal_relayed_witness :
  exists p d1 d' state, PublishBlock fx_env = Ok p /\ catchUp (Some 1005) fx_genesis = Ok d1 /\
    on_event true wx_subs (Some 1005) fx_genesis (ev_gossip BlockReader p) = Ok (d', []) /\
    imported true fx_vs d1 fx_env state d'.
Proof.
  exact (proposal_relayed true fx_vs wx_subs (Some 1005) fx_genesis fx_genesis 1 1 (fx_sign 1) fx_after fx_env
           fx_wf fx_wf fx_registry fx_slot_1 fx_slot_1 fx_reading (fx_total 1) fx_signer_1 fx_room_1 fx_produced_ok
           wx_env_short wx_block_sub wx_env_nonzero eq_refl wx_env_new).
Defined.

(** The proposer's store after its block, which validator 0, who has imported it, votes for. *)
Lemma wx_env_alone : no_collision fx_genesis (ba_Block (sb_Message fx_env)).
Proof. split; [exact wx_env_nonzero|]. intros b Hb. rewrite wx_env_new in Hb. discriminate Hb. Qed.
Lemma wx_after_wf : ForkInv.wf_fc true fx_vs fx_after.
Proof.
  exact (proposer_wf true fx_vs fx_registry fx_genesis 1 1 (fx_sign 1) fx_after fx_env fx_wf fx_slot_1 fx_slot_1 (fx_total 1)
           fx_room_1 wx_env_alone fx_produced_ok).
Qed.

Definition wx_voted : Store memory.Store * (error + SignedAttestation) :=
  value (fx_dummy, inl (ErrLib "none")) (ProduceAttestation fx_peer 1 0 (fx_sign 0)).
Lemma wx_voted_ok : ProduceAttestation fx_peer 1 0 (fx_sign 0) = Ok (wx_voted.1, inr (ord_vote 0)).
Proof.
  unfold ord_vote, wx_voted. refine (value_inr _ _ (ProduceAttestation fx_peer 1 0 (fx_sign 0)) _ _).
  vm_compute. reflexivity.
Qed.
Lemma wx_signer_0 : signer_for fx_vs 0 (fx_sign 0).
Proof. eapply fx_signer; reflexivity. Qed.

Definition same_block (c d : Store memory.Store) (r : root) : bool :=
  bool_decide (GetBlock (fc_storage d) r = GetBlock (fc_storage c) r).
Lemma same_blocks_ok (c d : Store memory.Store) data :
  forallb (same_block c d) [cp_Root (ad_Source data); cp_Root (ad_Target data); cp_Root (ad_Head data)] = true ->
  has_vote_blocks c d data.
Proof.
  intros H r Hr%list_elem_of_In. exact (proj1 (bool_decide_eq_true _) (proj1 (forallb_forall _ _) H r Hr)).
Qed.
Lemma wx_has : has_vote_blocks fx_peer fx_after (sa_Message (ord_vote 0)).
Proof. apply same_blocks_ok. vm_compute. reflexivity. Qed.

Definition forward_check (c : Store memory.Store) (data : AttestationData) : bool :=
  match GetBlock (fc_storage c) (cp_Root (ad_Source data)) with
  | Some sb => (b_Slot sb =? cp_Slot (ad_Source data)) && (cp_Slot (ad_Source data) <=? cp_Slot (ad_Target data))
  | None => false
  end.
Lemma forward_check_ok c data : forward_check c data = true -> forward c data.
Proof.
  unfold forward_check. destruct (GetBlock _ _) as [sb|] eqn:E; [|done].
  intros [H1%Z.eqb_eq H2%Z.leb_le]%andb_prop. by exists sb.
Qed.
Lemma wx_forward : forward fx_peer (sa_Message (ord_vote 0)).
Proof. apply forward_check_ok. vm_compute. reflexivity. Qed.

(** The vote ends up pending in the proposer's store. *)
Lemma vote_relayed_witness :
  exists p d', PublishAttestation (ord_vote 0) = Ok p /\
    on_event true wx_subs (Some 1005) fx_after (ev_gossip AttestationReader p) = Ok (d', []) /\
    fc_latestNewAttestations d' !! 0 = Some (ord_vote 0).
Proof.
  destruct (vote_relayed true fx_vs wx_subs (Some 1005) fx_peer fx_after 1 0 (fx_sign 0) wx_voted.1 (ord_vote 0)
           fx_peer_wf wx_after_wf fx_registry fx_slot_1 (nx_registered 0 ltac:(lia)) fx_reading (fx_total 0) wx_signer_0 wx_voted_ok
           wx_attestation_sub wx_has) as (p & d1 & d' & Hp & Hd1 & Hon & Hrec & _).
  exists p, d'. split; [exact Hp|]. split; [exact Hon|].
  assert (E1 : d1 = value fx_dummy (catchUp (Some 1005) fx_after)) by by rewrite Hd1.
  apply (recorded_first d1 (ord_vote 0) d' 0).
  - apply Hrec; [exact wx_forward|]. rewrite E1. apply Z.leb_le. vm_compute. reflexivity.
  - exact ord_id_0.
  - rewrite E1. apply none_of. vm_compute. reflexivity.
Defined.

(** A node with the key of validator 2, on the genesis store.  At every access to its store the vote
    of validator 0 arrives amid junk; its peer has the block of slot 1.  It ticks at the start of
    slot 2, where it is the proposer, and in slot 3, where it votes. *)
Definition wx_clock (i : nat) : Z := if (i <? 12)%nat then 1008 else 1013.
Definition wx_vote : bytes := value [] (PublishAttestation (ord_vote 0)).
Definition wx_events (i : nat) : list event :=
  [ev_gossip BlockReader [Byte.x00]; ev_gossip AttestationReader []; ev_gossip AttestationReader wx_vote;
   ev_gossip AggregateReader [Byte.xff]; ev_status [Byte.x01]; ev_blocks_by_root []].
Definition wx_status : bytes := ResponseSuccess :: WriteStatus (status_of (GetStatus fx_peer)).
Definition wx_blocks : bytes := value [] (write_blocks [fx_env] []).
Definition wx_peer : Peer := mkPeer "16Uiu2HAm0000002" (fun _ _ => Ok wx_status) (fun _ _ => Ok wx_blocks).
#[local] Instance wx_network : Surroundings memory.Store := network true wx_clock wx_subs wx_events.

Lemma wx_events_ok (i : nat) : Forall (admissible_event fx_vs) (wx_events i).
Proof.
  constructor; [|repeat constructor]. intros l E. assert (l = []) as ->; [|constructor].
  assert (E0 : readBlockMessages [[Byte.x00]] = Ok []) by (vm_compute; reflexivity).
  rewrite E0 in E. by injection E.
Qed.
Lemma wx_clock_ok (i : nat) : 0 <= wx_clock i /\ wx_clock i * Z.of_nat (length fx_vs) < 2 ^ 64 - 16.
Proof. unfold wx_clock. destruct (i <? 12)%nat; split; vm_compute; (discriminate || reflexivity). Qed.

Definition admissible_check (e : SignedBlockWithAttestation) : bool :=
  (b_Slot (ba_Block (sb_Message e)) * Z.of_nat (length fx_vs) <? 2 ^ 64 - 16) &&
  negb (root_is_zero (Block_HashTreeRoot (ba_Block (sb_Message e))).1).
Definition answer_check (s : bytes) : bool :=
  match loop (S (length s)) read_block_response ([], s) with
  | Ok (blocks, _) => forallb admissible_check blocks
  | _ => true
  end.
Lemma answer_ok s roots blocks err :
  answer_check s = true -> RequestBlocksByRoot (fun _ => Ok s) roots = Ok (blocks, err) ->
  Forall (fun e => admissible_block fx_vs (ba_Block (sb_Message e))) blocks.
Proof.
  unfold answer_check, RequestBlocksByRoot. intros H E. rewrite E in H. apply List.Forall_forall. intros e He.
  pose proof (proj1 (forallb_forall _ _) H e He) as [H1%Z.ltb_lt H2%negb_true_iff]%andb_prop.
  split; [exact H1|]. by apply root_nonzero.
Qed.
Lemma wx_answer : answer_check wx_blocks = true.
Proof. vm_compute. reflexivity. Qed.
Lemma wx_peer_ok : peer_ok fx_vs wx_peer.
Proof.
  constructor; [by apply Nat.leb_le|done|done|]. intros i roots blocks err E.
  exact (answer_ok wx_blocks roots blocks err wx_answer E).
Qed.
Lemma wx_peers : Forall (peer_ok fx_vs) [wx_peer].
Proof. constructor; [exact wx_peer_ok|constructor]. Qed.
Lemma wx_ticks : Forall (Forall (peer_ok fx_vs)) [[wx_peer]; [wx_peer]].
Proof. constructor; [exact wx_peers|]. constructor; [exact wx_peers|constructor]. Qed.

(** A run's proposals, checked tick by tick. *)
Fixpoint fresh_ticks_check {SU : Surroundings memory.Store} (n : Node memory.Store) (ticks : list (list Peer)) : bool :=
  match ticks with
  | [] => true
  | peers :: ticks' =>
      match before_duties true n peers with
      | Ok (n1, Some (slot, interval)) =>
          if interval =? 0
          then forallb (fun x => fresh_check (others (n_events n1) (n_FC n1)) slot x.1 x.2)
                 (map_to_list (vd_Keys (n_Validator n1)))
          else true
      | _ => true
      end &&
      match run_tick true n peers with Ok n' => fresh_ticks_check n' ticks' | _ => true end
  end.
Lemma fresh_ticks_ok {SU : Surroundings memory.Store} n ticks : fresh_ticks_check n ticks = true -> fresh_ticks true n ticks.
Proof.
  revert n. induction ticks as [|peers ticks IH]; intros n; cbn [fresh_ticks_check fresh_ticks]; [done|].
  intros [H1 H2]%andb_prop. split.
  - intros n1 slot E. rewrite E in H1. cbn [Z.eqb] in H1. intros idx kp c' env Hk.
    apply elem_of_map_to_list, list_elem_of_In in Hk. apply fresh_check_spec.
    exact (proj1 (forallb_forall _ _) H1 (idx, kp) Hk).
  - intros n' E. rewrite E in H2. by apply IH.
Qed.
Definition fresh_run_check {SU : Surroundings memory.Store} (n : Node memory.Store) initial ticks : bool :=
  match initialSync true n initial with Ok n1 => fresh_ticks_check n1 ticks | _ => true end.
Lemma fresh_run_ok {SU : Surroundings memory.Store} n initial ticks : fresh_run_check n initial ticks = true -> fresh_run true n initial ticks.
Proof. unfold fresh_run_check. intros H n1 E. rewrite E in H. by apply fresh_ticks_ok. Qed.

Lemma wx_fresh : fresh_run true (nx_node 2) [wx_peer] [[wx_peer]; [wx_peer]].
Proof. apply fresh_run_ok. vm_compute. reflexivity. Qed.

(** What a node has published: blocks of these proposers at these slots, votes of these validators. *)
Definition sent_summary (n : Node memory.Store) : list (Z * Z + Z) :=
  map (fun m => match m with
                | MsgBlock sb => inl (b_Slot (ba_Block (sb_Message sb)), b_ProposerIndex (ba_Block (sb_Message sb)))
                | MsgAttestation sa => inr (sa_ValidatorID sa)
                | MsgAggregate _ => inr (-1)
                end) (n_sent n).

Definition run_published {T} (n : outcome (Node T)) (f : Node T -> bool) : bool :=
  match n with Ok n => f n | _ => false end.
Lemma run_published_ok {T} (o : outcome (Node T)) f n : run_published o f = true -> o = Ok n -> f n = true.
Proof. by intros H ->. Qed.
Definition wx_did (n : Node memory.Store) : bool :=
  bool_decide (sent_summary n = [inl (2, 2); inr 2]) && bool_decide (is_Some (fc_latestKnownAttestations (n_FC n) !! 0)).

End Example.
