(* ===== verification/Setup.v ===== *)
(** The config package: genesis.go, validators.go and nodes.go, and what they give the node.

    Reading a file and parsing YAML (gopkg.in/yaml.v3) are parameters: the bytes of the file and the
    result of Unmarshal into each shape the code tries.  The node name is a string, a key in
    hexadecimal the bytes of its string. *)
From S2P Require Import Prelude Types Hash GoStd Storage Leansig Ssz Node NodeSafety.
Local Open Scope Z_scope.

(** * encoding/hex and strings *)

(** fromHexChar *)
Definition hex_digit (c : byte) : option Z :=
  let x := byte_Z c in
  if (48 <=? x) && (x <=? 57) then Some (x - 48)
  else if (97 <=? x) && (x <=? 102) then Some (x - 97 + 10)
  else if (65 <=? x) && (x <=? 70) then Some (x - 65 + 10)
  else None.

Definition InvalidByteError (c : byte) : error := Errorf "encoding/hex: invalid byte: %#U" [Hex [c]].
Definition ErrLength : error := ErrLib "encoding/hex: odd length hex string".

(** hex.DecodeString *)
Fixpoint DecodeString (s : bytes) : outcome bytes :=
  match s with
  | [] => Ok []
  | p :: s =>
      match hex_digit p with
      | None => Err (InvalidByteError p)
      | Some a =>
          match s with
          | [] => Err ErrLength
          | q :: s =>
              match hex_digit q with
              | None => Err (InvalidByteError q)
              | Some b => rest ← DecodeString s; Ok (Z_byte (Z.lor (Z.shiftl a 4) b) :: rest)
              end
          end
      end
  end.

(** strings.TrimPrefix(s, "0x") *)
Definition trim_0x (s : bytes) : bytes :=
  match s with
  | Byte.x30 :: Byte.x78 :: s' => s'
  | _ => s
  end.

(** * genesis.go *)

Record GenesisConfig := mkGenesisConfig { gc_GenesisTime : Z; gc_Validators : list Validator }.
Record rawGenesisConfig := mkRaw { raw_GenesisTime : Z; raw_GenesisValidators : list bytes }.

Definition load_validator (validators : list Validator) (entry : nat * bytes) : outcome (list Validator) :=
  let '(i, hexStr) := entry in
  let hexStr := trim_0x hexStr in
  pubkeyBytes ← map_err (Wrapf "invalid pubkey hex at index %d: %w" [Num (Z.of_nat i)]) (DecodeString hexStr);
  if negb (len pubkeyBytes =? 52)
  then Err (Errorf "pubkey at index %d is %d bytes, want 52" [Num (Z.of_nat i); Num (len pubkeyBytes)])
  else Ok (validators ++ [mkValidator (vec_of 52 pubkeyBytes) (u64 (Z.of_nat i))]).

Definition LoadGenesisConfig (file : outcome bytes) (Unmarshal : bytes -> outcome rawGenesisConfig)
  : outcome GenesisConfig :=
  data ← map_err (Wrapf "read config: %w" []) file;
  raw ← map_err (Wrapf "parse config: %w" []) (Unmarshal data);
  if (length (raw_GenesisValidators raw) =? 0)%nat
  then Err (Errorf "GENESIS_VALIDATORS must not be empty" [])
  else
    validators ← foldM load_validator [] (imap pair (raw_GenesisValidators raw));
    Ok (mkGenesisConfig (raw_GenesisTime raw) validators).

(** * validators.go *)

Record ValidatorAssignment := mkAssignment { va_NodeName : string; va_Validators : list Z }.
Record ValidatorRegistry := mkRegistry { vr_Assignments : list ValidatorAssignment }.

(** The map form first, then the legacy form. *)
Definition LoadValidators {MR : MapRange} (file : outcome bytes)
    (Unmarshal_map : bytes -> outcome (gmap string (list Z)))
    (Unmarshal_registry : bytes -> outcome ValidatorRegistry) : outcome ValidatorRegistry :=
  data ← map_err (Wrapf "read validators: %w" []) file;
  let legacy := map_err (Wrapf "parse validators: %w" []) (Unmarshal_registry data) in
  match Unmarshal_map data with
  | Panic w => Panic w
  | Diverges => Diverges
  | Err _ => legacy
  | Ok nodeMap =>
      if (0 <? size nodeMap)%nat
      then Ok (mkRegistry (foldl (fun l '(name, indices) => l ++ [mkAssignment name indices]) [] (range 0 nodeMap)))
      else legacy
  end.

Definition validate_index (n : Z) (name : string) (seen : gmap Z string) (idx : Z) : outcome (gmap Z string) :=
  if n <=? idx
  then Err (Errorf "validator %d in %s out of range (genesis has %d)" [Num idx; Str name; Num n])
  else
    match seen !! idx with
    | Some prev => Err (Errorf "validator %d assigned to both %s and %s" [Num idx; Str prev; Str name])
    | None => Ok (<[idx := name]> seen)
    end.
Definition Validate (r : ValidatorRegistry) (numGenesisValidators : Z) : outcome () :=
  _ ← foldM (fun seen a => foldM (validate_index numGenesisValidators (va_NodeName a)) seen (va_Validators a))
        ∅ (vr_Assignments r);
  Ok tt.

Fixpoint find_assignment (l : list ValidatorAssignment) (nodeName : string) : list Z :=
  match l with
  | [] => []
  | a :: l' => if bool_decide (va_NodeName a = nodeName) then va_Validators a else find_assignment l' nodeName
  end.
Definition GetValidatorIndices (r : ValidatorRegistry) (nodeName : string) : list Z :=
  find_assignment (vr_Assignments r) nodeName.

(** * nodes.go *)

(** [Unmarshal_entries] gives the multiaddr fields of the legacy format. *)
Definition LoadBootnodes (file : outcome bytes) (Unmarshal_entries Unmarshal_strings : bytes -> outcome (list string))
  : outcome (list string) :=
  data ← map_err (Wrapf "read nodes: %w" []) file;
  let plain := map_err (Wrapf "parse nodes: %w" []) (Unmarshal_strings data) in
  match Unmarshal_entries data with
  | Panic w => Panic w
  | Diverges => Diverges
  | Err _ => plain
  | Ok [] => plain
  | Ok (first :: rest) =>
      if bool_decide (first = EmptyString) then plain
      else Ok (foldl (fun out m => if bool_decide (m = EmptyString) then out else out ++ [m]) [] (first :: rest))
  end.

(** * The hexadecimal round trip *)

(** hex.EncodeToString *)
Definition hex_char (x : Z) : byte := Z_byte (if x <? 10 then x + 48 else x - 10 + 97).
Definition EncodeToString (l : bytes) : bytes :=
  concat (map (fun b => [hex_char (Z.shiftr (byte_Z b) 4); hex_char (Z.land (byte_Z b) 15)]) l).

Lemma hex_digit_char x : 0 <= x < 16 -> hex_digit (hex_char x) = Some x.
Proof.
  intros Hx. assert (H : forallb (fun x => bool_decide (hex_digit (hex_char x) = Some x)) (map Z.of_nat (seq 0 16)) = true)
    by (vm_compute; reflexivity).
  rewrite forallb_forall in H. specialize (H x). rewrite bool_decide_eq_true in H. apply H.
  apply in_map_iff. exists (Z.to_nat x). split; [lia|]. apply in_seq. lia.
Qed.

Lemma nibbles b : Z_byte (Z.lor (Z.shiftl (Z.shiftr (byte_Z b) 4) 4) (Z.land (byte_Z b) 15)) = b.
Proof. destruct b; vm_compute; reflexivity. Qed.

Lemma Decode_Encode l : DecodeString (EncodeToString l) = Ok l.
Proof.
  induction l as [|b l IH]; [done|]. unfold EncodeToString in *. cbn [map concat app DecodeString].
  pose proof (byte_Z_range b) as Hb. rewrite !hex_digit_char.
  - rewrite IH. cbn [mbind outcome_bind]. by rewrite nibbles.
  - change 15 with (Z.ones 4). rewrite Z.land_ones by lia. apply Z.mod_pos_bound. lia.
  - rewrite Z.shiftr_div_pow2 by lia. change (2 ^ 4) with 16. split; [apply Z.div_pos; lia|].
    apply Z.div_lt_upper_bound; lia.
Qed.

(** An encoded key does not start with the prefix: its second character is a hexadecimal digit. *)
Lemma trim_encoded l : trim_0x (EncodeToString l) = EncodeToString l.
Proof.
  destruct l as [|b l]; [done|]. unfold EncodeToString. cbn [map concat app].
  assert (H : hex_char (Z.land (byte_Z b) 15) <> Byte.x78) by by destruct b.
  generalize (hex_char (Z.shiftr (byte_Z b) 4)). intros c. unfold trim_0x.
  destruct c; try done. destruct (hex_char (Z.land (byte_Z b) 15)); done.
Qed.

(** * Properties *)

(** ** The registry of validators *)

Definition all_indices (r : ValidatorRegistry) : list Z := concat (map va_Validators (vr_Assignments r)).

(** The set of indices seen so far. *)
Lemma validate_indices n name l (seen : gmap Z string) :
  total (foldM (validate_index n name) seen l)
    (fun seen' => Forall (fun i => i < n) l /\ NoDup l /\ (forall i, i ∈ l -> seen !! i = None) /\
       forall i, is_Some (seen' !! i) <-> is_Some (seen !! i) \/ i ∈ l)
    (fun _ => ~ (Forall (fun i => i < n) l /\ NoDup l /\ forall i, i ∈ l -> seen !! i = None)).
Proof.
  revert seen. induction l as [|idx l IH]; intros seen; cbn [foldM].
  { cbn. split; [constructor|]. split; [constructor|]. split; [by intros i Hi%elem_of_nil|].
    intros i. split; [by left|by intros [|Hi%elem_of_nil]]. }
  set (m := validate_index n name seen idx). unfold validate_index in m. unfold m; clear m.
  destruct (Z.leb_spec n idx) as [Hge|Hlt]; cbn [mbind outcome_bind].
  { intros [Hl _]. apply list.Forall_cons in Hl as [Hl _]. lia. }
  destruct (seen !! idx) as [prev|] eqn:Hseen; cbn [mbind outcome_bind].
  { intros (_ & _ & H). specialize (H idx ltac:(by left)). congruence. }
  eapply total_mono; [apply IH| |].
  - intros seen' _ (H1 & H2 & H3 & H4). split; [by constructor|]. split.
    + apply list.NoDup_cons. split; [|done]. intros Hi. specialize (H3 idx Hi). rewrite lookup_insert_eq in H3. done.
    + split.
      * intros i [->|Hi]%elem_of_cons; [done|]. specialize (H3 i Hi). by apply lookup_insert_None in H3 as [? _].
      * intros i. rewrite H4, elem_of_cons. destruct (decide (i = idx)) as [->|Hne].
        -- rewrite lookup_insert_eq. split; [by right; left|by left].
        -- rewrite lookup_insert_ne by done. intuition.
  - intros e Hno (H1 & H2 & H3). apply Hno. apply list.Forall_cons in H1 as [_ H1]. apply list.NoDup_cons in H2 as [Hi H2].
    split; [done|]. split; [done|]. intros i Hin. apply lookup_insert_None. split; [apply H3; by right|congruence].
Qed.

Lemma validate_assignments n l (seen : gmap Z string) :
  let all := concat (map va_Validators l) in
  total (foldM (fun seen a => foldM (validate_index n (va_NodeName a)) seen (va_Validators a)) seen l)
    (fun _ => Forall (fun i => i < n) all /\ NoDup all /\ forall i, i ∈ all -> seen !! i = None)
    (fun _ => ~ (Forall (fun i => i < n) all /\ NoDup all /\ forall i, i ∈ all -> seen !! i = None)).
Proof.
  revert seen. induction l as [|a l IH]; intros seen; cbn [foldM map concat].
  { split; [constructor|]. split; [constructor|]. by intros i Hi%elem_of_nil. }
  apply total_bind. eapply total_mono; [apply validate_indices| |].
  - intros seen1 _ (H1 & H2 & H3 & H4). eapply total_mono; [apply IH| |].
    + intros _ _ (G1 & G2 & G3). split; [by apply list.Forall_app|]. split.
      * apply list.NoDup_app. split; [done|]. split; [|done]. intros i Hi Hi'. specialize (G3 i Hi').
        assert (is_Some (seen1 !! i)) as [? ?] by (apply H4; by right). congruence.
      * intros i [Hi|Hi]%elem_of_app; [by apply H3|]. specialize (G3 i Hi).
        destruct (seen !! i) eqn:E; [|done]. assert (is_Some (seen1 !! i)) as [? ?] by (apply H4; left; by eexists). congruence.
    + intros e Hno (G1 & G2 & G3). apply Hno. apply list.Forall_app in G1 as [_ G1].
      apply list.NoDup_app in G2 as (_ & Gd & G2). split; [done|]. split; [done|]. intros i Hi.
      destruct (seen1 !! i) eqn:E; [|done]. assert (is_Some (seen1 !! i)) as [[? Hs]|Hs]%H4 by by eexists.
      * rewrite G3 in Hs; [done|]. apply elem_of_app. by right.
      * by destruct (Gd i Hs).
  - intros e Hno (G1 & G2 & G3). apply Hno. apply list.Forall_app in G1 as [G1 _].
    apply list.NoDup_app in G2 as (G2 & _). split; [done|]. split; [done|]. intros i Hi. apply G3, elem_of_app. by left.
Qed.

Lemma Validate_run r n :
  total (Validate r n) (fun _ => Forall (fun i => i < n) (all_indices r) /\ NoDup (all_indices r))
    (fun _ => ~ (Forall (fun i => i < n) (all_indices r) /\ NoDup (all_indices r))).
Proof.
  unfold Validate. apply total_bind. eapply total_mono; [apply validate_assignments| |].
  - by intros _ _ (H1 & H2 & _).
  - intros e Hno [H1 H2]. apply Hno. split; [done|]. split; [done|]. intros i _. apply lookup_empty.
Qed.

Lemma found_part l name : exists l1 l2, concat (map va_Validators l) = l1 ++ find_assignment l name ++ l2.
Proof.
  induction l as [|a l (l1 & l2 & IH)]; [by exists [], []|]. cbn [find_assignment map concat].
  case_bool_decide; [by exists [], (concat (map va_Validators l))|].
  exists (va_Validators a ++ l1), l2. by rewrite IH, <- app_assoc.
Qed.

(** Different names find different parts of the list. *)
Lemma found_disjoint l name name' i : NoDup (concat (map va_Validators l)) -> name <> name' ->
  i ∈ find_assignment l name -> i ∈ find_assignment l name' -> False.
Proof.
  intros Hnd Hne. induction l as [|a l IH]; cbn [find_assignment map concat] in *; [by intros Hi%elem_of_nil|].
  apply list.NoDup_app in Hnd as (_ & Hd & Hnd).
  assert (Hin : forall name, i ∈ find_assignment l name -> i ∈ concat (map va_Validators l)).
  { intros nm Hi. destruct (found_part l nm) as (l1 & l2 & ->). apply elem_of_app. right. apply elem_of_app. by left. }
  case_bool_decide as E1; case_bool_decide as E2; [congruence|..].
  - intros H1 H2. by apply (Hd i H1), (Hin name').
  - intros H1 H2. by apply (Hd i H2), (Hin name).
  - by apply IH.
Qed.

(** The duties of a node are part of the list. *)
Lemma found_registered r vs name : Forall is_u64 (all_indices r) ->
  Forall (fun i => i < len vs) (all_indices r) -> NoDup (all_indices r) ->
  Forall (registered vs) (GetValidatorIndices r name) /\ NoDup (GetValidatorIndices r name).
Proof.
  intros Hu Hlt Hnd. unfold GetValidatorIndices. destruct (found_part (vr_Assignments r) name) as (l1 & l2 & Ea).
  unfold all_indices in *. rewrite Ea in Hu, Hlt, Hnd. apply list.Forall_app in Hlt as [_ Hlt].
  apply list.Forall_app in Hlt as [Hlt _]. apply list.Forall_app in Hu as [_ Hu]. apply list.Forall_app in Hu as [Hu _].
  apply list.NoDup_app in Hnd as (_ & _ & Hnd). apply list.NoDup_app in Hnd as (Hnd & _). split; [|done].
  rewrite list.Forall_forall in Hlt, Hu |- *. intros i Hi. specialize (Hlt i Hi). destruct (Hu i Hi). by split.
Qed.

(** C39: the validation of the registry decides: it accepts exactly the assignments in which every
    index is below the number of genesis validators and none occurs twice, and returns an error
    for all others; the duties of a node taken from an accepted registry are then registered
    validators, each once, and no validator works for two nodes. *)
Theorem registry_validated (r : ValidatorRegistry) (vs : list Validator) :
  Forall is_u64 (all_indices r) ->
  (Validate r (len vs) = Ok tt <-> Forall (fun i => i < len vs) (all_indices r) /\ NoDup (all_indices r)) /\
  (Validate r (len vs) <> Ok tt -> exists e, Validate r (len vs) = Err e) /\
  (Validate r (len vs) = Ok tt ->
     (forall name, Forall (registered vs) (GetValidatorIndices r name) /\ NoDup (GetValidatorIndices r name)) /\
     forall name name' i, name <> name' -> i ∈ GetValidatorIndices r name -> i ∉ GetValidatorIndices r name').
Proof.
  intros Hu. pose proof (Validate_run r (len vs)) as H.
  assert (Hok : Validate r (len vs) = Ok tt -> Forall (fun i => i < len vs) (all_indices r) /\ NoDup (all_indices r)).
  { intros E. by rewrite E in H. }
  split_and!.
  - split; [exact Hok|]. intros Hgood. destruct (Validate r (len vs)) as [[]|e|w|]; cbn [total] in H; done.
  - intros Hno. destruct (Validate r (len vs)) as [[]|e|w|]; cbn [total] in H; [done|by exists e|done..].
  - intros E. destruct (Hok E) as [Hlt Hnd]. split.
    + intros name. by apply found_registered.
    + intros name name' i Hne Hi Hi'. by apply (found_disjoint (vr_Assignments r) name name' i).
Qed.

(** ** The genesis configuration *)

(** Entry [i] of the file is the key of validator [i], with or without the prefix. *)
Definition key_entry (hexStr : bytes) (pk : pubkey) : Prop :=
  hexStr = EncodeToString pk \/ hexStr = [Byte.x30; Byte.x78] ++ EncodeToString pk.

Lemma load_entry acc i hexStr pk : key_entry hexStr pk ->
  load_validator acc (i, hexStr) = Ok (acc ++ [mkValidator pk (u64 (Z.of_nat i))]).
Proof.
  intros He. assert (E : trim_0x hexStr = EncodeToString pk) by (destruct He as [->| ->]; [apply trim_encoded|done]).
  unfold load_validator. rewrite E, Decode_Encode. cbn [map_err mbind outcome_bind]. unfold len.
  rewrite length_vec_to_list, Z.eqb_refl. cbn [negb]. by rewrite vec_of_to_list.
Qed.

Lemma load_validators_ok entries k acc res :
  foldM load_validator acc (imap (fun i x => (k + i, x)%nat) entries) = Ok res ->
  exists l, res = acc ++ l /\ Forall2 (fun hexStr v => DecodeString (trim_0x hexStr) = Ok (vec_to_list (v_Pubkey v))) entries l /\
    forall i v, l !! i = Some v -> v_Index v = u64 (Z.of_nat (k + i)).
Proof.
  revert k acc. induction entries as [|x entries IH]; intros k acc; cbn [imap foldM].
  { intros <-%Ok_inj. exists []. rewrite app_nil_r. split; [done|]. split; [constructor|by intros i v]. }
  rewrite Nat.add_0_r. set (m := load_validator acc (k, x)). unfold load_validator in m. unfold m; clear m.
  destruct (DecodeString (trim_0x x)) as [pk| | |] eqn:Ed; cbn [map_err mbind outcome_bind]; try done.
  destruct (Z.eqb_spec (len pk) 52) as [El|]; cbn [negb mbind outcome_bind]; [|done].
  intros H. erewrite imap_ext in H; [|intros i y _; unfold compose; by rewrite Nat.add_succ_r].
  apply (IH (S k)) in H as (l & -> & Hf & Hi).
  eexists (_ :: l). split; [by rewrite <- app_assoc|]. split.
  - constructor; [|done]. cbn [v_Pubkey]. rewrite vec_to_list_vec_of; [done|]. unfold len in El. lia.
  - intros [|i] v; cbn; [intros [= <-]; by rewrite Nat.add_0_r|]. intros Hv. rewrite (Hi i v Hv). f_equal. lia.
Qed.

(** A file that lists the keys of a registry. *)
Lemma LoadGenesisConfig_keys data Unmarshal t entries pks :
  Unmarshal data = Ok (mkRaw t entries) -> len entries < 2 ^ 64 -> pks <> [] -> Forall2 key_entry entries pks ->
  LoadGenesisConfig (Ok data) Unmarshal = Ok (mkGenesisConfig t (imap (fun i pk => mkValidator pk (Z.of_nat i)) pks)).
Proof.
  intros Hu Hlen Hne Hf. unfold LoadGenesisConfig. cbn [map_err mbind outcome_bind]. rewrite Hu.
  cbn [map_err mbind outcome_bind raw_GenesisTime raw_GenesisValidators].
  pose proof (List.Forall2_length Hf) as Hl. rewrite (proj2 (Nat.eqb_neq _ _)) by (rewrite Hl; by destruct pks).
  assert (G : forall k acc, Z.of_nat k + len entries < 2 ^ 64 ->
    foldM load_validator acc (imap (fun i x => (k + i, x)%nat) entries) =
    Ok (acc ++ imap (fun i pk => mkValidator pk (Z.of_nat (k + i))) pks)).
  { clear Hne Hl Hlen Hu. induction Hf as [|x pk entries pks He Hf IH]; intros k acc Hk; cbn [imap foldM];
      [by rewrite app_nil_r|]. rewrite (load_entry acc _ x pk He). cbn [mbind outcome_bind].
    unfold len in *. cbn [length] in Hk.
    erewrite (imap_ext _ (fun i x => (S k + i, x)%nat)); [|intros i y _; unfold compose; f_equal; lia].
    rewrite IH by lia. rewrite <- app_assoc, Nat.add_0_r, u64_small by (unfold is_u64; lia). cbn [app]. do 3 f_equal.
    apply imap_ext. intros i y _. unfold compose. f_equal. lia. }
  specialize (G 0%nat [] ltac:(lia)).
  change (foldM load_validator [] (imap pair entries) = Ok (imap (fun i pk => mkValidator pk (Z.of_nat i)) pks)) in G.
  by rewrite G.
Qed.

(** Whatever file is accepted. *)
Lemma LoadGenesisConfig_sound data Unmarshal t entries cfg :
  Unmarshal data = Ok (mkRaw t entries) -> len entries < 2 ^ 64 -> LoadGenesisConfig (Ok data) Unmarshal = Ok cfg ->
  gc_GenesisTime cfg = t /\ gc_Validators cfg <> [] /\ Forall wf_Validator (gc_Validators cfg) /\
  Forall2 (fun hexStr v => DecodeString (trim_0x hexStr) = Ok (vec_to_list (v_Pubkey v))) entries (gc_Validators cfg) /\
  forall i v, gc_Validators cfg !! i = Some v -> v_Index v = Z.of_nat i.
Proof.
  intros Hu Hlen. unfold LoadGenesisConfig. cbn [map_err mbind outcome_bind].
  rewrite Hu. cbn [map_err mbind outcome_bind raw_GenesisTime raw_GenesisValidators].
  destruct (Nat.eqb_spec (length entries) 0) as [|Hne]; [done|].
  intros (res & E & <-%Ok_inj)%bind_Ok. apply (load_validators_ok entries 0) in E as (l & -> & Hf & Hi).
  cbn [gc_GenesisTime gc_Validators app Nat.add] in *. pose proof (List.Forall2_length Hf) as Hl.
  split; [done|]. split; [by intros ->|]. split; [|split; [exact Hf|]].
  - apply list.Forall_forall. intros v (i & Hv)%list_elem_of_lookup. unfold wf_Validator. rewrite (Hi i v Hv). apply u64_range.
  - intros i v Hv. rewrite (Hi i v Hv). apply u64_small. apply lookup_lt_Some in Hv. unfold is_u64, len in *. lia.
Qed.

(** the genesis configuration is loaded faithfully: a file that lists the keys of a non-empty
    registry in hexadecimal, with or without prefix, loads to that registry, numbered in the
    order of the file; and whatever file is accepted gives a non-empty registry whose entry [i]
    has the key written on line [i] and the index [i], fit for the genesis state. *)
Theorem genesis_config_loads (file : outcome bytes) (data : bytes) (Unmarshal : bytes -> outcome rawGenesisConfig)
    (raw : rawGenesisConfig) :
  file = Ok data -> Unmarshal data = Ok raw -> len (raw_GenesisValidators raw) < 2 ^ 64 ->
  (forall pks, pks <> [] -> Forall2 key_entry (raw_GenesisValidators raw) pks ->
     LoadGenesisConfig file Unmarshal =
     Ok (mkGenesisConfig (raw_GenesisTime raw) (imap (fun i pk => mkValidator pk (Z.of_nat i)) pks))) /\
  (forall cfg, LoadGenesisConfig file Unmarshal = Ok cfg ->
     gc_GenesisTime cfg = raw_GenesisTime raw /\ gc_Validators cfg <> [] /\ Forall wf_Validator (gc_Validators cfg) /\
     Forall2 (fun hexStr v => DecodeString (trim_0x hexStr) = Ok (vec_to_list (v_Pubkey v)))
       (raw_GenesisValidators raw) (gc_Validators cfg) /\
     forall i v, gc_Validators cfg !! i = Some v -> v_Index v = Z.of_nat i).
Proof.
  intros -> Hu Hlen. destruct raw as [t entries]. cbn [raw_GenesisTime raw_GenesisValidators] in *.
  split; [intros pks; by apply LoadGenesisConfig_keys|intros cfg; by apply LoadGenesisConfig_sound].
Qed.

(** * Concrete inputs *)

Definition sx_vs : list Validator := map (fun i => mkValidator (vec_of 52 (le_bytes 52 i)) i) [0; 1; 2].
Definition sx_registry : ValidatorRegistry := mkRegistry [mkAssignment "a" [0; 2]; mkAssignment "b" [1]].

Lemma registry_validated_witness :
  (forall name, Forall (registered sx_vs) (GetValidatorIndices sx_registry name) /\
                NoDup (GetValidatorIndices sx_registry name)) /\
  forall name name' i, name <> name' -> i ∈ GetValidatorIndices sx_registry name ->
    i ∉ GetValidatorIndices sx_registry name'.
Proof.
  refine (proj2 (proj2 (registry_validated sx_registry sx_vs _)) _).
  - repeat constructor; discriminate.
  - vm_compute. reflexivity.
Defined.

Definition sx_pk (i : Z) : pubkey := vec_of 52 (le_bytes 52 i).
Definition sx_raw : rawGenesisConfig :=
  mkRaw 1000 [EncodeToString (sx_pk 0); [Byte.x30; Byte.x78] ++ EncodeToString (sx_pk 1)].

Lemma genesis_config_loads_witness :
  LoadGenesisConfig (Ok []) (fun _ => Ok sx_raw) = Ok (mkGenesisConfig 1000 [mkValidator (sx_pk 0) 0; mkValidator (sx_pk 1) 1]).
Proof.
  refine (proj1 (genesis_config_loads (Ok []) [] (fun _ => Ok sx_raw) sx_raw eq_refl eq_refl _) [sx_pk 0; sx_pk 1] _ _).
  - reflexivity.
  - intros H. discriminate H.
  - constructor; [by left|]. constructor; [by right|]. constructor.
Defined.
