(* ===== verification/Logging.v ===== *)
(** observability/logging/logger.go: the global logger and its handler.

    The logger of log/slog is its handler: With makes the handler's WithAttrs.  A value is known by
    its String(), a time by its formatted text, and the writer by the text that Fprint gets. *)
From stdpp Require Import pretty.
From S2P Require Import Prelude Types Setup.
From Stdlib Require Import Strings.Ascii.
Local Open Scope Z_scope.

(** ** log/slog *)

Definition LevelDebug : Z := -4.
Definition LevelInfo : Z := 0.
Definition LevelWarn : Z := 4.
Definition LevelError : Z := 8.

Record Attr := mkAttr { a_Key : string; a_Value : string }.
Record LogRecord := mkRecord { r_Time : string; r_Level : Z; r_Message : string; r_Attrs : list Attr }.

(** ** Colours and format verbs *)

Definition escape (code : string) : string := String (ascii_of_nat 27) (String.append "[" code).
Definition reset : string := escape "0m".
Definition dim : string := escape "2m".
Definition red : string := escape "31m".
Definition yellow : string := escape "33m".
Definition cyan : string := escape "36m".
Definition green : string := escape "32m".
Definition magenta : string := escape "35m".
Definition newline : string := String (ascii_of_nat 10) EmptyString.

Fixpoint cat (l : list string) : string :=
  match l with [] => EmptyString | s :: l => String.append s (cat l) end.
(** [%-3s] *)
Fixpoint pad (width : nat) (s : string) : string :=
  match width, s with
  | O, _ => s
  | S w, EmptyString => String " " (pad w EmptyString)
  | S w, String c s => String c (pad w s)
  end.

(** ** The handler *)

Record prettyHandler := mkHandler { h_level : Z; h_attrs : list Attr; h_group : string }.

Definition Enabled (h : prettyHandler) (level : Z) : bool := h_level h <=? level.

Fixpoint has_comp (attrs : list Attr) : bool :=
  match attrs with
  | [] => false
  | a :: attrs => if bool_decide (a_Key a = "comp"%string) then true else has_comp attrs
  end.

Definition split_comp (st : string * list Attr) (a : Attr) : string * list Attr :=
  let '(comp, filteredAttrs) := st in
  if bool_decide (a_Key a = "comp"%string) then (a_Value a, filteredAttrs) else (comp, filteredAttrs ++ [a]).

Definition show_attr (attrStr : string) (a : Attr) : string :=
  String.append attrStr (cat ["  "; dim; a_Key a; "="; a_Value a; reset]%string).

Definition level_tag (level : Z) : string * string :=
  if LevelError <=? level then ("ERR"%string, red)
  else if LevelWarn <=? level then ("WRN"%string, yellow)
  else if LevelInfo <=? level then ("INF"%string, green)
  else ("DBG"%string, dim).

(** Handle: the text that is printed, if any. *)
Definition Handle (h : prettyHandler) (r : LogRecord) : option string :=
  let hasComp := has_comp (h_attrs h) in
  if negb hasComp && (r_Level r <? LevelError) then None
  else
    let timestamp := r_Time r in
    let '(levelStr, levelColor) := level_tag (r_Level r) in
    let '(comp, filteredAttrs) := foldl split_comp (EmptyString, []) (h_attrs h) in
    let compTag := if negb (bool_decide (comp = EmptyString)) then cat [" "; cyan; "["; comp; "]"; reset]%string else EmptyString in
    let attrStr := foldl show_attr EmptyString filteredAttrs in
    let attrStr := foldl show_attr attrStr (r_Attrs r) in
    Some (cat [dim; timestamp; reset; " "; levelColor; pad 3 levelStr; reset; compTag; " "; r_Message r; attrStr; newline]%string).

Definition WithAttrs (h : prettyHandler) (attrs : list Attr) : prettyHandler :=
  mkHandler (h_level h) (h_attrs h ++ attrs) (h_group h).
Definition WithGroup (h : prettyHandler) (name : string) : prettyHandler :=
  mkHandler (h_level h) (h_attrs h) name.

(** ** The global logger *)

Record logging := mkLogging { defaultLogger : option prettyHandler; once : bool }.
Definition unset : logging := mkLogging None false.

(** The body of [once.Do] runs on the first call only. *)
Definition Init (level : Z) (g : logging) : logging :=
  if once g then g else mkLogging (Some (mkHandler level [] EmptyString)) true.

(** A logger from a global that is still nil panics; Init is called first. *)
Definition NewComponentLogger (component : string) (g : logging) : logging * outcome prettyHandler :=
  let g := match defaultLogger g with None => Init LevelInfo g | Some _ => g end in
  (g, match defaultLogger g with
      | Some l => Ok (WithAttrs l [mkAttr "comp" component])
      | None => Panic "nil pointer dereference"
      end).

Definition Banner (version : string) (g : logging) : logging * list string :=
  let g := match defaultLogger g with None => Init LevelInfo g | Some _ => g end in
  (g, [newline; cat ["  "; magenta; "gean"; reset; " "; dim; version; reset; newline]%string;
       cat ["  "; dim; "Lean Ethereum Go Client"; reset; newline]%string; newline]).

Definition ShortHash (h : root) : bytes := EncodeToString (take 4 (vec_to_list h)).

(** A duration is in nanoseconds; the unit is the two bytes of U+00B5 and an s. *)
Definition TimeSince (d : Z) : string :=
  if d <? 1000000
  then String.append (pretty (Z.quot d 1000)) (String (ascii_of_nat 194) (String (ascii_of_nat 181) "s"))
  else String.append (pretty (Z.quot d 1000000)) "ms".

(** * Proofs *)

Lemma has_comp_spec attrs : has_comp attrs = true <-> exists v, mkAttr "comp" v ∈ attrs.
Proof.
  induction attrs as [|[k v] attrs IH]; cbn [has_comp a_Key].
  { split; [done|by intros (v & Hv%elem_of_nil)]. }
  case_bool_decide as E.
  - cbn in E. subst k. split; [intros _; exists v; by left|done].
  - rewrite IH. split; intros (v' & Hv); exists v'; [by right|]. apply elem_of_cons in Hv as [[= <- _]|Hv]; done.
Qed.

(** The component tag of a handler is the last one it was given. *)
Lemma split_comp_fold attrs comp rest :
  foldl split_comp (comp, rest) attrs =
  (default comp (list.last (omap (fun a => if bool_decide (a_Key a = "comp"%string) then Some (a_Value a) else None) attrs)),
   rest ++ filter (fun a => a_Key a <> "comp"%string) attrs).
Proof.
  revert comp rest. induction attrs as [|a attrs IH]; intros comp rest; cbn [foldl]; [by rewrite app_nil_r|].
  unfold split_comp at 2. cbn [omap list_omap]. case_bool_decide as E; rewrite IH.
  - rewrite filter_cons_False by (intros Hn; by apply Hn). f_equal. rewrite list.last_cons.
    by destruct (list.last _).
  - f_equal. rewrite filter_cons_True by done. by rewrite <- app_assoc.
Qed.

(** Once set, the global logger keeps its handler. *)
Lemma Init_again level level' g : Init level' (Init level g) = Init level g.
Proof. unfold Init. by destruct (once g) eqn:E; rewrite ?E. Qed.
Lemma Init_once level g : once g = true -> Init level g = g.
Proof. unfold Init. by intros ->. Qed.

(** What is printed: all of a component's records, and of the libraries' only the errors.  A line
    has the tag of the component, then the attributes of the logger before those of the record. *)
Theorem handle_filters (h : prettyHandler) (r : LogRecord) :
  (is_Some (Handle h r) <-> (exists v, mkAttr "comp" v ∈ h_attrs h) \/ LevelError <= r_Level r) /\
  forall component attrs, h_attrs h = [] -> component <> EmptyString ->
    Forall (fun a => a_Key a <> "comp"%string) attrs ->
    Handle (WithAttrs (WithAttrs h [mkAttr "comp" component]) attrs) r =
    Some (cat [dim; r_Time r; reset; " "; (level_tag (r_Level r)).2; pad 3 (level_tag (r_Level r)).1; reset;
               cat [" "; cyan; "["; component; "]"; reset]; " "; r_Message r;
               foldl show_attr EmptyString (attrs ++ r_Attrs r); newline]%string).
Proof.
  split.
  - rewrite <- has_comp_spec. unfold Handle. destruct (has_comp (h_attrs h)); cbn [negb andb].
    + destruct (level_tag _), (foldl split_comp _ _). split; [by left|done].
    + destruct (Z.ltb_spec (r_Level r) LevelError).
      * split; [by intros []|]. intros [|]; [done|lia].
      * destruct (level_tag _), (foldl split_comp _ _). split; [by right|done].
  - intros component attrs Hh Hc Hattrs. unfold Handle, WithAttrs. rewrite Hh. cbn [h_attrs app has_comp a_Key].
    rewrite bool_decide_eq_true_2 by done. cbn [negb andb]. destruct (level_tag (r_Level r)) as [s c] eqn:El. cbn [fst snd].
    rewrite split_comp_fold. cbn [omap list_omap a_Key a_Value]. rewrite (bool_decide_eq_true_2 ("comp"%string = "comp"%string)) by done.
    assert (Ho : omap (fun a => if bool_decide (a_Key a = "comp"%string) then Some (a_Value a) else None) attrs = []).
    { induction Hattrs as [|a l Ha _ IH]; [done|]. cbn [omap list_omap]. rewrite bool_decide_eq_false_2 by done. exact IH. }
    rewrite Ho. clear Ho. cbn [list.last default id]. rewrite bool_decide_eq_false_2 by done. cbn [negb].
    rewrite filter_cons_False by (intros Hk; by apply Hk). cbn [app].
    assert (Hf : filter (fun a => a_Key a <> "comp"%string) attrs = attrs).
    { induction Hattrs as [|a l Ha _ IH]; [done|]. rewrite filter_cons_True by done. by rewrite IH. }
    by rewrite Hf, foldl_app.
Qed.
