(* ===== verification/Fixtures.v ===== *)
(** spectests: the fixtures of the consensus specification's tests, as the test runner reads them:
    fixture_types.go (the types of the JSON files) and converters.go (their conversion to the
    types of the client).

    encoding/json is a parameter of the two decoders that the repository writes itself.  A
    [Container] is its Data. *)
From S2P Require Import Prelude Bitlist Types Ssz Setup.
Local Open Scope Z_scope.

(** * fixture_types.go *)

Section Decoders.
(** json.Unmarshal into a string. *)
Context (Unmarshal : bytes -> outcome bytes).

Definition HexRoot_UnmarshalJSON (data : bytes) : outcome root :=
  s ← Unmarshal data;
  let s := trim_0x s in
  b ← map_err (Wrapf "invalid hex root: %w" []) (DecodeString s);
  if negb (len b =? 32) then Err (Errorf "root must be 32 bytes, got %d" [Num (len b)])
  else Ok (vec_of 32 b).

Definition HexPubkey_UnmarshalJSON (data : bytes) : outcome pubkey :=
  s ← Unmarshal data;
  let s := trim_0x s in
  b ← map_err (Wrapf "invalid hex pubkey: %w" []) (DecodeString s);
  if negb (len b =? 52) then Err (Errorf "pubkey must be 52 bytes, got %d" [Num (len b)])
  else Ok (vec_of 52 b).
End Decoders.

Record FixtureConfig := mkFConfig { fc_GenesisTime : Z }.
Record FixtureCheckpoint := mkFCheckpoint { fcp_Root : root; fcp_Slot : Z }.
Record FixtureBlockHeader := mkFHeader {
  fh_Slot : Z; fh_ProposerIndex : Z; fh_ParentRoot : root; fh_StateRoot : root; fh_BodyRoot : root }.
Record FixtureValidator := mkFValidator { fv_Pubkey : pubkey; fv_Index : Z }.
Record FixtureState := mkFState {
  fs_Config : FixtureConfig;
  fs_Slot : Z;
  fs_LatestBlockHeader : FixtureBlockHeader;
  fs_LatestJustified : FixtureCheckpoint;
  fs_LatestFinalized : FixtureCheckpoint;
  fs_HistoricalBlockHashes : list root;
  fs_JustifiedSlots : list Z;
  fs_Validators : list FixtureValidator;
  fs_JustificationsRoots : list root;
  fs_JustificationsValidators : list bool }.
Record FixtureAttestationData := mkFData {
  fd_Slot : Z; fd_Head : FixtureCheckpoint; fd_Target : FixtureCheckpoint; fd_Source : FixtureCheckpoint }.
Record FixtureAttestation := mkFAttestation { fa_ValidatorID : Z; fa_Data : FixtureAttestationData }.
Record FixtureSignedAttestation := mkFSigned { fsa_ValidatorID : Z; fsa_Data : FixtureAttestationData }.
Record FixtureBlockBody := mkFBody { fbb_Attestations : list FixtureAttestation }.
Record FixtureBlock := mkFBlock {
  fb_Slot : Z; fb_ProposerIndex : Z; fb_ParentRoot : root; fb_StateRoot : root; fb_Body : FixtureBlockBody }.

Record FixtureInfo := mkFInfo {
  fi_Hash : string; fi_Comment : string; fi_TestID : string; fi_Description : string; fi_FixtureFormat : string }.

(** ** The test cases.  A pointer is an option: what is absent is not checked. *)

Record PostState := mkPostState {
  ps_Slot : option Z;
  ps_LatestJustifiedSlot : option Z;
  ps_LatestJustifiedRoot : option root;
  ps_LatestFinalizedSlot : option Z;
  ps_LatestFinalizedRoot : option root;
  ps_ValidatorCount : option Z;
  ps_ConfigGenesisTime : option Z;
  ps_LatestBlockHeaderSlot : option Z;
  ps_LatestBlockHeaderProposerIndex : option Z;
  ps_LatestBlockHeaderParentRoot : option root;
  ps_LatestBlockHeaderStateRoot : option root;
  ps_LatestBlockHeaderBodyRoot : option root;
  ps_HistoricalBlockHashesCount : option Z;
  ps_HistoricalBlockHashes : option (list root);
  ps_JustifiedSlots : option (list Z);
  ps_JustificationsRoots : option (list root);
  ps_JustificationsValidators : option (list bool) }.
Record StateTransitionTestCase := mkSTCase {
  stc_Network : string;
  stc_Pre : FixtureState;
  stc_Blocks : list FixtureBlock;
  stc_Post : option PostState;
  stc_ExpectException : option string;
  stc_Info : FixtureInfo }.
Definition StateTransitionFixture : Type := gmap string StateTransitionTestCase.

Record AttestationCheck := mkACheck {
  ac_Validator : Z; ac_AttestationSlot : option Z; ac_HeadSlot : option Z; ac_SourceSlot : option Z;
  ac_TargetSlot : option Z; ac_Location : string }.
Record StoreChecks := mkChecks {
  sc_Time : option Z;
  sc_HeadSlot : option Z;
  sc_HeadRoot : option root;
  sc_HeadRootLabel : option string;
  sc_LatestJustifiedSlot : option Z;
  sc_LatestJustifiedRoot : option root;
  sc_LatestJustifiedRootLabel : option string;
  sc_LatestFinalizedSlot : option Z;
  sc_LatestFinalizedRoot : option root;
  sc_LatestFinalizedRootLabel : option string;
  sc_AttestationChecks : list AttestationCheck;
  sc_LexicographicHeadAmong : list string }.
Record BlockStepData := mkBStep { bs_Block : FixtureBlock; bs_ProposerAttestation : option FixtureAttestation }.
Record ForkChoiceStep := mkStep {
  fst_StepType : string;
  fst_Valid : bool;
  fst_Checks : option StoreChecks;
  fst_Block : option BlockStepData;
  fst_Time : option Z;
  fst_Attestation : option FixtureSignedAttestation }.
Record ForkChoiceTestCase := mkFCCase {
  fcc_Network : string;
  fcc_AnchorState : FixtureState;
  fcc_AnchorBlock : FixtureBlock;
  fcc_Steps : list ForkChoiceStep;
  fcc_MaxSlot : Z;
  fcc_Info : FixtureInfo }.
Definition ForkChoiceFixture : Type := gmap string ForkChoiceTestCase.

(** * converters.go *)

Definition buildBitlist (bits : list Z) : bytes :=
  foldl (fun bl b => AppendBit bl (negb (b =? 0))) [Byte.x01] bits.
Definition buildBoolBitlist (bits : list bool) : bytes := foldl AppendBit [Byte.x01] bits.

Definition convertCheckpoint (c : FixtureCheckpoint) : Checkpoint := mkCheckpoint (fcp_Root c) (fcp_Slot c).

Definition convertState (fs : FixtureState) : State :=
  let config := mkConfig (fc_GenesisTime (fs_Config fs)) in
  let h := fs_LatestBlockHeader fs in
  let header := mkBlockHeader (fh_Slot h) (fh_ProposerIndex h) (fh_ParentRoot h) (fh_StateRoot h) (fh_BodyRoot h) in
  let latestJustified := convertCheckpoint (fs_LatestJustified fs) in
  let latestFinalized := convertCheckpoint (fs_LatestFinalized fs) in
  let justifiedSlots := buildBitlist (fs_JustifiedSlots fs) in
  let validators := map (fun v => mkValidator (fv_Pubkey v) (fv_Index v)) (fs_Validators fs) in
  let justificationsValidators := buildBoolBitlist (fs_JustificationsValidators fs) in
  {| st_Config := config; st_Slot := fs_Slot fs; st_LatestBlockHeader := header;
     st_LatestJustified := latestJustified; st_LatestFinalized := latestFinalized;
     st_HistoricalBlockHashes := fs_HistoricalBlockHashes fs; st_JustifiedSlots := justifiedSlots;
     st_Validators := validators; st_JustificationsRoots := fs_JustificationsRoots fs;
     st_JustificationsValidators := justificationsValidators |}.

Definition convertData (d : FixtureAttestationData) : AttestationData :=
  mkAttestationData (fd_Slot d) (convertCheckpoint (fd_Head d)) (convertCheckpoint (fd_Target d)) (convertCheckpoint (fd_Source d)).
Definition convertAttestation (fa : FixtureAttestation) : Attestation :=
  mkAttestation (fa_ValidatorID fa) (convertData (fa_Data fa)).
(** The signature stays zero. *)
Definition convertSignedAttestation (fa : FixtureSignedAttestation) : SignedAttestation :=
  mkSignedAttestation (fsa_ValidatorID fa) (convertData (fsa_Data fa)) (vreplicate XMSSSignatureSize Byte.x00).
Definition convertBlock (fb : FixtureBlock) : Block :=
  let atts := map convertAttestation (fbb_Attestations (fb_Body fb)) in
  mkBlock (fb_Slot fb) (fb_ProposerIndex fb) (fb_ParentRoot fb) (fb_StateRoot fb) (mkBlockBody atts).

Definition makeZeroSignatures (count : Z) : outcome (list signature) :=
  if count <? 0 then Panic "makeslice: len out of range"
  else Ok (replicate (Z.to_nat count) (vreplicate XMSSSignatureSize Byte.x00)).

(** * The conversion loses nothing *)

(** The fixture of a value of the client. *)
Definition fixture_checkpoint (c : Checkpoint) : FixtureCheckpoint := mkFCheckpoint (cp_Root c) (cp_Slot c).
Definition fixture_data (d : AttestationData) : FixtureAttestationData :=
  mkFData (ad_Slot d) (fixture_checkpoint (ad_Head d)) (fixture_checkpoint (ad_Target d)) (fixture_checkpoint (ad_Source d)).
Definition fixture_attestation (a : Attestation) : FixtureAttestation :=
  mkFAttestation (att_ValidatorID a) (fixture_data (att_Data a)).
Definition fixture_block (b : Block) : FixtureBlock :=
  mkFBlock (b_Slot b) (b_ProposerIndex b) (b_ParentRoot b) (b_StateRoot b)
    (mkFBody (map fixture_attestation (bb_Attestations (b_Body b)))).
Definition fixture_header (h : BlockHeader) : FixtureBlockHeader :=
  mkFHeader (bh_Slot h) (bh_ProposerIndex h) (bh_ParentRoot h) (bh_StateRoot h) (bh_BodyRoot h).
Definition fixture_state (s : State) (justified votes : list bool) : FixtureState :=
  mkFState (mkFConfig (cfg_GenesisTime (st_Config s))) (st_Slot s) (fixture_header (st_LatestBlockHeader s))
    (fixture_checkpoint (st_LatestJustified s)) (fixture_checkpoint (st_LatestFinalized s))
    (st_HistoricalBlockHashes s) (map Z.b2z justified)
    (map (fun v => mkFValidator (v_Pubkey v) (v_Index v)) (st_Validators s)) (st_JustificationsRoots s) votes.

Lemma build_encode (bits : list bool) : buildBoolBitlist bits = encode_bits bits.
Proof.
  unfold buildBoolBitlist. rewrite <- encode_bits_nil. change bits with ([] ++ bits) at 2. generalize (@nil bool).
  induction bits as [|b bits IH]; intros acc; cbn [foldl]; [by rewrite app_nil_r|].
  by rewrite AppendBit_encode, IH, <- app_assoc.
Qed.

Lemma buildBitlist_bool bits : buildBitlist bits = buildBoolBitlist (map (fun b => negb (b =? 0)) bits).
Proof.
  unfold buildBitlist, buildBoolBitlist. generalize [Byte.x01].
  induction bits as [|b bits IH]; intros acc; [done|]. apply IH.
Qed.

Lemma map_id' {A} (f : A -> A) (l : list A) : (forall x, f x = x) -> map f l = l.
Proof. intros H. induction l as [|x l IH]; [done|]. cbn. by rewrite H, IH. Qed.

(** The conversion of the specification's fixtures loses nothing: every state whose bitlists are
    well formed, and every block, is what its fixture converts to; and the bitlists of a converted
    state have exactly the bits of the fixture, a number being a set bit unless it is zero. *)
Theorem fixtures_convert (s : State) (justified votes : list bool) (b : Block) (fs : FixtureState) :
  st_JustifiedSlots s = encode_bits justified -> st_JustificationsValidators s = encode_bits votes ->
  convertState (fixture_state s justified votes) = s /\ convertBlock (fixture_block b) = b /\
  BitlistLen (st_JustifiedSlots (convertState fs)) = len (fs_JustifiedSlots fs) /\
  (forall i x, fs_JustifiedSlots fs !! i = Some x ->
     GetBit (st_JustifiedSlots (convertState fs)) (Z.of_nat i) = negb (x =? 0)) /\
  BitlistLen (st_JustificationsValidators (convertState fs)) = len (fs_JustificationsValidators fs) /\
  (forall i x, fs_JustificationsValidators fs !! i = Some x ->
     GetBit (st_JustificationsValidators (convertState fs)) (Z.of_nat i) = x).
Proof.
  intros Hj Hv. split_and!.
  - destruct s as [[t] slot [] [] [] hashes js vs roots jv]. cbn in Hj, Hv. subst js jv.
    unfold convertState, fixture_state. cbn. rewrite buildBitlist_bool, !List.map_map, !build_encode.
    rewrite (map_id' _ justified) by by intros []. by rewrite (map_id' _ vs) by by intros [].
  - destruct b as [slot idx p st [atts]]. unfold convertBlock, fixture_block. cbn. rewrite List.map_map.
    do 2 f_equal. apply map_id'. by intros [v [sl [] [] []]].
  - cbn. rewrite buildBitlist_bool, build_encode, BitlistLen_encode. unfold len. by rewrite length_map.
  - intros i x Hx. cbn. rewrite buildBitlist_bool, build_encode. apply GetBit_encode_lt. by rewrite list_lookup_fmap, Hx.
  - cbn. by rewrite build_encode, BitlistLen_encode.
  - intros i x Hx. cbn. rewrite build_encode. by apply GetBit_encode_lt.
Qed.

(** The decoders read back what is printed as 0x and hexadecimal digits. *)
Lemma hex_decoders (r : root) (k : pubkey) :
  HexRoot_UnmarshalJSON Ok ([Byte.x30; Byte.x78] ++ EncodeToString r) = Ok r /\
  HexPubkey_UnmarshalJSON Ok ([Byte.x30; Byte.x78] ++ EncodeToString k) = Ok k.
Proof.
  unfold HexRoot_UnmarshalJSON, HexPubkey_UnmarshalJSON. cbn [mbind outcome_bind app trim_0x]. rewrite !Decode_Encode.
  cbn [map_err mbind outcome_bind]. unfold len. by rewrite !length_vec_to_list, !vec_of_to_list.
Qed.

(** A state with two slots, the second justified. *)
Definition fixture_example : State :=
  mkState (mkConfig 1000) 2 (mkBlockHeader 1 0 ZeroHash ZeroHash ZeroHash) (mkCheckpoint ZeroHash 1) (mkCheckpoint ZeroHash 0)
    [ZeroHash; ZeroHash] (encode_bits [false; true]) [mkValidator (vreplicate 52 Byte.x00) 0] [] (encode_bits []).

Lemma fixtures_convert_witness :
  convertState (fixture_state fixture_example [false; true] []) = fixture_example.
Proof.
  exact (proj1 (fixtures_convert fixture_example [false; true] [] (mkBlock 0 0 ZeroHash ZeroHash (mkBlockBody []))
           (fixture_state fixture_example [false; true] []) eq_refl eq_refl)).
Defined.
