(* ===== verification/Files.v ===== *)
(** What the node does outside its memory: the os and path/filepath packages on a file store, and
    the handles a process holds open.

    An [io] computation takes a [world] and returns the world it leaves with its outcome, so the
    effects of a call that fails are kept.  A file has its bytes and its mode; whether a path may
    be read, written or made a directory is the class [Platform], whose only law used is in the
    definitions: no file has the empty path. *)
From stdpp Require Import pretty.
From S2P Require Import Prelude.
From Stdlib Require Import Strings.Ascii.
Local Open Scope Z_scope.

Record file := mkFile { f_data : bytes; f_mode : Z }.

(** The handles of a node: the host's context (which its goroutines wait for) and the libp2p host,
    the node database, the UDP socket and the discovery service that runs on it, the metrics
    server. *)
Inductive resource := ResCtx | ResHost | ResDB | ResConn | ResDiscovery | ResMetrics.
#[export] Instance resource_eq_dec : EqDecision resource.
Proof. solve_decision. Defined.
#[export] Instance resource_countable : Countable resource.
Proof.
  refine (inj_countable'
    (fun r => match r with ResCtx => 0 | ResHost => 1 | ResDB => 2 | ResConn => 3 | ResDiscovery => 4 | ResMetrics => 5 end%nat)
    (fun n => match n with 0 => ResCtx | 1 => ResHost | 2 => ResDB | 3 => ResConn | 4 => ResDiscovery | _ => ResMetrics end%nat) _).
  by intros [].
Defined.

Record world := mkWorld {
  w_files : gmap string file;
  w_open : gset resource;
  (** draws of crypto/rand so far *)
  w_draws : nat }.

Class Platform := {
  readable : string -> bool;
  writable : string -> bool;
  directory_ok : string -> bool;
  entropy : nat -> bytes }.

(** * The monad *)

Definition io (A : Type) : Type := world -> world * outcome A.
#[export] Instance io_ret : MRet io := fun A x w => (w, Ok x).
#[export] Instance io_bind : MBind io := fun A B f m w =>
  match m w with
  | (w', Ok x) => f x w'
  | (w', Err e) => (w', Err e)
  | (w', Panic p) => (w', Panic p)
  | (w', Diverges) => (w', Diverges)
  end.

(** A pure step, an error, and the two ways Go code looks at the error of a call: wrapping it, or
    running a clean-up before it is returned. *)
Definition lift {A} (m : outcome A) : io A := fun w => (w, m).
Definition fail {A} (e : error) : io A := lift (Err e).
Definition wrap {A} (f : error -> error) (m : io A) : io A := fun w => let '(w', r) := m w in (w', map_err f r).
Definition try {A} (m : io A) : io (error + A) := fun w =>
  match m w with
  | (w', Ok x) => (w', Ok (inr x))
  | (w', Err e) => (w', Ok (inl e))
  | (w', Panic p) => (w', Panic p)
  | (w', Diverges) => (w', Diverges)
  end.
Definition on_error {A} (cleanup : io ()) (m : io A) : io A :=
  r ← try m; match r with inr x => mret x | inl e => _ ← cleanup; fail e end.

Definition acquire (r : resource) : io () := fun w => (mkWorld (w_files w) ({[r]} ∪ w_open w) (w_draws w), Ok tt).
Definition release (r : resource) : io () := fun w => (mkWorld (w_files w) (w_open w ∖ {[r]}) (w_draws w), Ok tt).

Fixpoint for_each {A S} (f : S -> A -> io S) (s : S) (l : list A) : io S :=
  match l with
  | [] => mret s
  | x :: l' => s' ← f s x; for_each f s' l'
  end.

Lemma io_bind_Ok {A B} (m : io A) (f : A -> io B) w w' y :
  (m ≫= f) w = (w', Ok y) -> exists w1 x, m w = (w1, Ok x) /\ f x w1 = (w', Ok y).
Proof. unfold mbind, io_bind. destruct (m w) as [w1 [x| | |]]; try done. intros E. by exists w1, x. Qed.

Lemma wrap_Ok {A} g (m : io A) w w' y : wrap g m w = (w', Ok y) -> m w = (w', Ok y).
Proof. unfold wrap. destruct (m w) as [w1 [x| | |]]; cbn; done || by intros [= <- <-]. Qed.

Lemma lift_Ok {A} (m : outcome A) w w' y : lift m w = (w', Ok y) -> w' = w /\ m = Ok y.
Proof. unfold lift. by intros [= <- ->]. Qed.

(** ** A program logic *)

(** Total correctness with a postcondition for the error exit: from a world in [P], [m] returns, in
    [Q x] with value [x] or in [E] with an error. *)
Definition triple {A} (P : world -> Prop) (m : io A) (Q : A -> world -> Prop) (E : world -> Prop) : Prop :=
  forall w, P w -> match m w with (w', Ok x) => Q x w' | (w', Err _) => E w' | _ => False end.

Section Rules.
Context {A B : Type}.
Implicit Types (P : world -> Prop) (Q : A -> world -> Prop) (E : world -> Prop).

Lemma triple_weaken P P' (m : io A) Q Q' E E' : triple P m Q E ->
  (forall w, P' w -> P w) -> (forall x w, Q x w -> Q' x w) -> (forall w, E w -> E' w) -> triple P' m Q' E'.
Proof. intros H HP HQ HE w Hw. specialize (H w (HP w Hw)). destruct (m w) as [w' [x| | |]]; auto. Qed.

Lemma triple_ret P (x : A) E : triple P (mret x) (fun y w => y = x /\ P w) E.
Proof. by intros w Hw. Qed.

Lemma triple_bind P (m : io A) Q (f : A -> io B) (Q' : B -> world -> Prop) E :
  triple P m Q E -> (forall x, triple (Q x) (f x) Q' E) -> triple P (m ≫= f) Q' E.
Proof.
  intros Hm Hf w Hw. specialize (Hm w Hw). unfold mbind, io_bind. destruct (m w) as [w' [x| | |]]; [|done..].
  by apply Hf.
Qed.

Lemma triple_then P R (m : io A) (f : A -> io B) (Q' : B -> world -> Prop) E :
  triple P m (fun _ => R) E -> (forall x, triple R (f x) Q' E) -> triple P (m ≫= f) Q' E.
Proof. intros Hm Hf. eapply triple_bind; [exact Hm|exact Hf]. Qed.

Lemma triple_lift P (m : outcome A) : total m (fun _ => True) (fun _ => True) ->
  triple P (lift m) (fun x w => m = Ok x /\ P w) P.
Proof. intros Hm w Hw. unfold lift. by destruct m. Qed.

Lemma triple_wrap P g (m : io A) Q E : triple P m Q E -> triple P (wrap g m) Q E.
Proof. intros Hm w Hw. specialize (Hm w Hw). unfold wrap. by destruct (m w) as [w' [x| | |]]. Qed.

(** The clean-up turns the error exit of [m] into that of the whole. *)
Lemma triple_on_error P cleanup (m : io A) Q E E' : triple P m Q E ->
  triple E cleanup (fun _ => E') E' -> triple P (on_error cleanup m) Q E'.
Proof.
  intros Hm Hc w Hw. specialize (Hm w Hw). unfold on_error, try, mbind, io_bind.
  destruct (m w) as [w' [x|e| |]]; [done| |done..]. specialize (Hc w' Hm).
  by destruct (cleanup w') as [w2 [y| | |]].
Qed.

(** A fact about a value is available to what follows. *)
Lemma triple_pure P (p : Prop) (m : io A) Q E : (p -> triple P m Q E) -> triple (fun w => p /\ P w) m Q E.
Proof. intros H w [Hp Hw]. by apply H. Qed.

Lemma triple_try P (m : io A) Q E E' : triple P m Q E ->
  triple P (try m) (fun r w => match r with inr x => Q x w | inl _ => E w end) E'.
Proof. intros Hm w Hw. specialize (Hm w Hw). unfold try. by destruct (m w) as [w' [x| | |]]. Qed.
End Rules.

(** The same for a program that may also panic, but only when [X] holds. *)
Definition triple_or {A} (X : Prop) (P : world -> Prop) (m : io A) (Q : A -> world -> Prop) (E : world -> Prop) : Prop :=
  forall w, P w -> match m w with (w', Ok x) => Q x w' | (w', Err _) => E w' | (_, Panic _) => X | _ => False end.

Lemma triple_or_triple {A} X P (m : io A) Q E : triple P m Q E -> triple_or X P m Q E.
Proof. intros H w Hw. specialize (H w Hw). by destruct (m w) as [w' [x| | |]]. Qed.

Lemma triple_or_bind {A B} X P (m : io A) Q (f : A -> io B) (Q' : B -> world -> Prop) E :
  triple_or X P m Q E -> (forall x, triple_or X (Q x) (f x) Q' E) -> triple_or X P (m ≫= f) Q' E.
Proof.
  intros Hm Hf w Hw. specialize (Hm w Hw). unfold mbind, io_bind. destruct (m w) as [w' [x| | |]]; [|done..].
  by apply Hf.
Qed.

Lemma triple_or_then {A B} X P R (m : io A) (f : A -> io B) (Q' : B -> world -> Prop) E :
  triple P m (fun _ => R) E -> (forall x, triple_or X R (f x) Q' E) -> triple_or X P (m ≫= f) Q' E.
Proof. intros Hm Hf. eapply triple_or_bind; [by apply triple_or_triple|exact Hf]. Qed.

(** The handles that are open. *)
Definition opens (O : gset resource) (w : world) : Prop := w_open w = O.

Lemma triple_acquire O r E : triple (opens O) (acquire r) (fun _ => opens ({[r]} ∪ O)) E.
Proof. by intros w <-. Qed.
Lemma triple_release O r E : triple (opens O) (release r) (fun _ => opens (O ∖ {[r]})) E.
Proof. by intros w <-. Qed.

(** A loop over indices that appends one result per index and leaves something on disk for it:
    [st w i e] says that the world has what index [i] leaves, [g e] is the result. *)
Section Indexed.
Context {A E : Type} (f : list A -> nat -> io (list A)) (g : E -> A) (st : world -> nat -> E -> Prop).

Lemma for_each_indexed :
  (forall acc i w w' acc', f acc i w = (w', Ok acc') ->
     exists e, acc' = acc ++ [g e] /\ st w' i e /\ forall j e', j <> i -> st w j e' -> st w' j e') ->
  forall m k acc w w' acc', for_each f acc (seq k m) w = (w', Ok acc') ->
    exists l, acc' = acc ++ map g l /\ length l = m /\
      (forall i e, l !! i = Some e -> st w' (k + i)%nat e) /\
      (forall j e, (j < k)%nat -> st w j e -> st w' j e).
Proof.
  intros Hstep. induction m as [|m IH]; intros k acc w w' acc'; cbn [seq for_each].
  { unfold mret, io_ret. intros [= <- <-]. exists []. rewrite app_nil_r. by split_and!. }
  intros (w1 & acc1 & E1 & E2)%io_bind_Ok. apply Hstep in E1 as (e & -> & Hst & Hpre).
  apply IH in E2 as (l & -> & Hl & Hall & Hpre2). exists (e :: l). cbn [map length].
  split; [by rewrite <- app_assoc|]. split; [by rewrite Hl|]. split.
  - intros [|i] e' Hi.
    + injection Hi as <-. rewrite Nat.add_0_r. apply Hpre2; [lia|done].
    + rewrite <- Nat.add_succ_comm. by apply Hall.
  - intros j e' Hj Hk. apply Hpre2; [lia|]. apply Hpre; [lia|done].
Qed.

Lemma for_each_again :
  (forall acc i e w, st w i e -> f acc i w = (w, Ok (acc ++ [g e]))) ->
  forall l k acc w, (forall i e, l !! i = Some e -> st w (k + i)%nat e) ->
    for_each f acc (seq k (length l)) w = (w, Ok (acc ++ map g l)).
Proof.
  intros Hstep. induction l as [|e l IH]; intros k acc w Hall; cbn [seq for_each length map].
  { by rewrite app_nil_r. }
  unfold mbind, io_bind. rewrite (Hstep acc k e w); [|rewrite <- (Nat.add_0_r k); by apply Hall].
  rewrite IH; [by rewrite <- app_assoc|]. intros i e' Hi. rewrite Nat.add_succ_comm. by apply Hall.
Qed.
End Indexed.

(** * os *)

Section Os.
Context {PF : Platform}.

Definition ErrNotExist (path : string) : error := Wrapf "open %s" [Str path] (ErrLib "no such file or directory").
Definition ErrPermission (path : string) : error := Wrapf "open %s" [Str path] (ErrLib "permission denied").

Definition find_file (path : string) (w : world) : option file :=
  if bool_decide (path = EmptyString) then None else w_files w !! path.

(** [os.Stat], as far as [os.IsNotExist] of its error. *)
Definition Stat (path : string) : io bool := fun w => (w, Ok (bool_decide (is_Some (find_file path w)))).

Definition ReadFile (path : string) : io bytes := fun w =>
  match find_file path w with
  | Some f => if readable path then (w, Ok (f_data f)) else (w, Err (ErrPermission path))
  | None => (w, Err (ErrNotExist path))
  end.

(** WriteFile truncates a file that exists and leaves its mode; a new file gets [perm]. *)
Definition WriteFile (path : string) (data : bytes) (perm : Z) : io () := fun w =>
  if bool_decide (path = EmptyString) then (w, Err (ErrNotExist path))
  else if negb (writable path) then (w, Err (ErrPermission path))
  else
    let mode := match w_files w !! path with Some f => f_mode f | None => perm end in
    (mkWorld (<[path := mkFile data mode]> (w_files w)) (w_open w) (w_draws w), Ok tt).

Definition MkdirAll (path : string) : io () :=
  lift (if directory_ok path then Ok tt else Err (ErrPermission path)).

(** A read of crypto/rand. *)
Definition draw : io bytes := fun w => (mkWorld (w_files w) (w_open w) (S (w_draws w)), Ok (entropy (w_draws w))).
End Os.

(** * path/filepath *)

(** The parts of a path between slashes. *)
Fixpoint split_path (s : string) : list string :=
  match s with
  | EmptyString => [EmptyString]
  | String c s' =>
      if bool_decide (c = "/"%char) then EmptyString :: split_path s'
      else match split_path s' with
           | [] => [String c EmptyString]
           | p :: ps => String c p :: ps
           end
  end.

(** Clean's treatment of one part, [out] being the parts kept so far. *)
Definition clean_part (rooted : bool) (out : list string) (part : string) : list string :=
  if bool_decide (part = EmptyString) || bool_decide (part = "."%string) then out
  else if bool_decide (part = ".."%string) then
    match list.last out with
    | Some l => if bool_decide (l = ".."%string) then out ++ [part] else removelast out
    | None => if rooted then out else out ++ [part]
    end
  else out ++ [part].

Fixpoint join_parts (l : list string) : string :=
  match l with
  | [] => EmptyString
  | [p] => p
  | p :: l' => String.append p (String "/" (join_parts l'))
  end.

Definition is_rooted (s : string) : bool :=
  match s with String c _ => bool_decide (c = "/"%char) | EmptyString => false end.

Definition Clean (path : string) : string :=
  let rooted := is_rooted path in
  let out := foldl (clean_part rooted) [] (split_path path) in
  if rooted then String "/" (join_parts out)
  else match out with [] => "."%string | _ => join_parts out end.

(** [filepath.Join(dir, name)]; empty elements are ignored. *)
Definition filepath_Join (dir name : string) : string :=
  if bool_decide (dir = EmptyString) then (if bool_decide (name = EmptyString) then EmptyString else Clean name)
  else if bool_decide (name = EmptyString) then Clean dir
  else Clean (String.append dir (String "/" name)).

(** ** A name joined to a directory *)

(** A file name: no slash, and not one of the names Clean interprets. *)
Fixpoint no_slash (s : string) : bool :=
  match s with EmptyString => true | String c s' => negb (bool_decide (c = "/"%char)) && no_slash s' end.
Definition plain (s : string) : Prop :=
  no_slash s = true /\ s <> EmptyString /\ s <> "."%string /\ s <> ".."%string.

Lemma split_no_slash s : no_slash s = true -> split_path s = [s].
Proof.
  induction s as [|c s IH]; [done|]. cbn [no_slash split_path]. intros [Hc Hs]%andb_prop.
  rewrite IH by done. by destruct (bool_decide (c = "/"%char)).
Qed.

Lemma split_not_nil s : split_path s <> [].
Proof. destruct s; cbn; [done|]. case_bool_decide; [done|]. by destruct (split_path s). Qed.

Lemma append_cons c a b : String.append (String c a) b = String c (String.append a b).
Proof. done. Qed.

Lemma split_append a s : split_path (String.append a (String "/" s)) = split_path a ++ split_path s.
Proof.
  induction a as [|c a IH]; [done|].
  rewrite append_cons. cbn [split_path]. rewrite IH. case_bool_decide; [done|].
  pose proof (split_not_nil a). by destruct (split_path a).
Qed.

Lemma clean_plain r out s : plain s -> clean_part r out s = out ++ [s].
Proof. intros (_ & H1 & H2 & H3). unfold clean_part. by rewrite !bool_decide_eq_false_2. Qed.

(** What comes before the name. *)
Definition dir_prefix (dir : string) : string :=
  let rooted := is_rooted dir in
  let out := foldl (clean_part rooted) [] (split_path dir) in
  String.append (if rooted then "/" else EmptyString)%string
    (match out with [] => EmptyString | _ => String.append (join_parts out) "/" end).

Lemma append_assoc a b c : String.append (String.append a b) c = String.append a (String.append b c).
Proof. induction a as [|x a IH]; [done|]. by rewrite !append_cons, IH. Qed.

Lemma join_snoc l s : l <> [] -> join_parts (l ++ [s]) = String.append (String.append (join_parts l) "/") s.
Proof.
  induction l as [|p [|q l] IH]; [done|intros _|intros _].
  - cbn. by rewrite append_assoc.
  - cbn [app join_parts] in *. rewrite IH by done. by rewrite !append_assoc.
Qed.

(** Joining a plain name puts it after a prefix that depends on the directory alone. *)
Lemma filepath_Join_plain dir s : dir <> EmptyString -> plain s -> filepath_Join dir s = String.append (dir_prefix dir) s.
Proof.
  intros Hd Hs. pose proof Hs as (Hns & Hne & _). unfold filepath_Join. rewrite !bool_decide_eq_false_2 by done.
  unfold Clean, dir_prefix.
  assert (Hr : is_rooted (String.append dir (String "/" s)) = is_rooted dir) by by destruct dir.
  rewrite Hr, split_append, foldl_app, (split_no_slash s Hns). cbn [foldl]. rewrite clean_plain by done.
  set (out := foldl _ _ _). destruct (decide (out = [])) as [->|Ho].
  - cbn [app join_parts]. by destruct (is_rooted dir).
  - rewrite join_snoc by done. destruct (is_rooted dir), out; done.
Qed.

Lemma append_inj a s s' : String.append a s = String.append a s' -> s = s'.
Proof. induction a as [|c a IH]; [done|]. rewrite !append_cons. intros [= H]. auto. Qed.

Lemma filepath_Join_inj dir s s' : dir <> EmptyString -> plain s -> plain s' -> filepath_Join dir s = filepath_Join dir s' -> s = s'.
Proof. intros Hd Hs Hs'. rewrite !filepath_Join_plain by done. apply append_inj. Qed.

Lemma append_empty a b : String.append a b = EmptyString -> a = EmptyString /\ b = EmptyString.
Proof. by destruct a. Qed.

Lemma filepath_Join_not_empty dir s : dir <> EmptyString -> plain s -> filepath_Join dir s <> EmptyString.
Proof. intros Hd Hs. rewrite filepath_Join_plain by done. intros [_ E]%append_empty. by destruct Hs as (_ & ? & _). Qed.

(** * Files across writes *)

Section Laws.
Context {PF : Platform}.

Lemma WriteFile_Ok path data perm w w' :
  WriteFile path data perm w = (w', Ok tt) ->
  path <> EmptyString /\ writable path = true /\ w_open w' = w_open w /\ w_draws w' = w_draws w /\
  w_files w' = <[path := mkFile data (match w_files w !! path with Some f => f_mode f | None => perm end)]> (w_files w).
Proof.
  unfold WriteFile. case_bool_decide; [done|]. destruct (writable path); cbn; [|done]. by intros [= <-].
Qed.

Lemma WriteFile_empty data perm w : exists e, WriteFile EmptyString data perm w = (w, Err e).
Proof. by eexists. Qed.

(** Files and randomness leave the handles alone. *)
Lemma triple_ReadFile O path : triple (opens O) (ReadFile path) (fun _ => opens O) (opens O).
Proof. intros w Hw. unfold ReadFile. destruct (find_file path w); [destruct (readable path)|]; done. Qed.
Lemma triple_WriteFile O path data perm : triple (opens O) (WriteFile path data perm) (fun _ => opens O) (opens O).
Proof. intros w Hw. unfold WriteFile. case_bool_decide; [done|]. by destruct (writable path). Qed.
Lemma triple_MkdirAll O path : triple (opens O) (MkdirAll path) (fun _ => opens O) (opens O).
Proof. intros w Hw. unfold MkdirAll, lift. by destruct (directory_ok path). Qed.
Lemma triple_Stat O path E : triple (opens O) (Stat path) (fun _ => opens O) E.
Proof. by intros w Hw. Qed.
Lemma triple_draw O E : triple (opens O) draw (fun _ => opens O) E.
Proof. by intros w <-. Qed.

Lemma ReadFile_find path w f : find_file path w = Some f -> readable path = true ->
  ReadFile path w = (w, Ok (f_data f)).
Proof. unfold ReadFile. by intros -> ->. Qed.
End Laws.
