(* ===== verification/Keys.v ===== *)
(** Key files: xmss/leansig/keystore.go, cmd/keygen, scripts/gen_node_keys, and the two loaders of the
    node key, network/host.go loadOrGenerateKey and network/p2p/enr.go loadOrGenerateNodeKey.

    The node key passes through two libraries: libp2p has its own key format, go-ethereum another.
    Their functions are the class [NodeKeyLib]; what is used of their documentation is
    [NodeKeyLaws].  The keypairs that keygen frees as it ends are not used again.  Randomness is [draw].  [main] of a command is an [io] computation: an exit with
    a status is [Err], a panic is [Panic]. *)
From stdpp Require Import pretty.
From S2P Require Import Prelude Types Storage Leansig ForkProduce Ssz Reqresp Node NodeSafety Setup Files.
Local Open Scope Z_scope.

(** * keystore.go *)

Section Keystore.
Context {PF : Platform} {FFI : LeansigFFI}.

Definition LoadKeypair (pkPath skPath : string) : io Keypair :=
  pkBytes ← wrap (Wrapf "failed to read public key from %s: %w" [Str pkPath]) (ReadFile pkPath);
  skBytes ← wrap (Wrapf "failed to read secret key from %s: %w" [Str skPath]) (ReadFile skPath);
  lift (RestoreKeypair pkBytes skBytes).

(** The modes 0644 and 0600. *)
Definition mode_public : Z := 6 * 64 + 4 * 8 + 4.
Definition mode_secret : Z := 6 * 64.

Definition SaveKeypair (kp : Keypair) (pkPath skPath : string) : io () :=
  pkBytes ← wrap (Wrapf "failed to serialize public key: %w" []) (lift (PublicKeyBytes kp));
  skBytes ← wrap (Wrapf "failed to serialize secret key: %w" []) (lift (SecretKeyBytes kp));
  _ ← wrap (Wrapf "failed to write public key to %s: %w" [Str pkPath]) (WriteFile pkPath pkBytes mode_public);
  wrap (Wrapf "failed to write secret key to %s: %w" [Str skPath]) (WriteFile skPath skBytes mode_secret).

(** * cmd/keygen/main.go, and the paths of node/lifecycle.go *)

(** [fmt.Sprintf("validator_%d.pk", i)] *)
Definition validator_file (i : Z) (ext : string) : string :=
  String.append "validator_" (String.append (pretty i) ext).
Definition pk_path (dir : string) (i : Z) : string := filepath_Join dir (validator_file i ".pk").
Definition sk_path (dir : string) (i : Z) : string := filepath_Join dir (validator_file i ".sk").

Definition keygen_one (outDir : string) (pubkeys : list bytes) (i : nat) : io (list bytes) :=
  let seed := u64 (Z.of_nat i) in
  kp ← lift (GenerateKeypair seed 0 256);
  _ ← SaveKeypair kp (pk_path outDir (Z.of_nat i)) (sk_path outDir (Z.of_nat i));
  pkBytes ← lift (PublicKeyBytes kp);
  mret (pubkeys ++ [EncodeToString pkBytes]).
Definition keygen (count : Z) (outDir : string) : io (list bytes) :=
  _ ← MkdirAll outDir;
  for_each (keygen_one outDir) [] (seq 0 (Z.to_nat count)).

(** The entries of the printed GENESIS_VALIDATORS. *)
Definition yaml_entries (pubkeys : list bytes) : list bytes := map (app [Byte.x30; Byte.x78]) pubkeys.

(** The body of loadValidatorKeys's loop: the signer of a keypair on disk. *)
Definition load_signer (dir : string) (w : world) (idx : Z) : outcome Signer :=
  kp ← (LoadKeypair (pk_path dir idx) (sk_path dir idx) w).2; Ok (Sign kp).
End Keystore.

(** * The node key *)

Class NodeKeyLib := {
  LibKey : Type;
  GenerateSecp256k1Key : bytes -> outcome LibKey;
  MarshalPrivateKey : LibKey -> outcome bytes;
  UnmarshalPrivateKey : bytes -> outcome LibKey;
  Raw : LibKey -> outcome bytes;
  IDFromPrivateKey : LibKey -> outcome string;
  EcdsaKey : Type;
  GenerateKey : bytes -> outcome EcdsaKey;
  ToECDSA : bytes -> outcome EcdsaKey;
  LoadECDSA : string -> io EcdsaKey;
  SaveECDSA : string -> EcdsaKey -> io () }.

Section NodeKey.
Context {PF : Platform} {NK : NodeKeyLib}.

(** ** network/host.go *)

Definition loadOrGenerateKey (path : string) : io LibKey :=
  if negb (bool_decide (path = EmptyString)) then
    r ← try (ReadFile path);
    match r with
    | inr data => lift (UnmarshalPrivateKey data)
    | inl _ =>
        seed ← draw;
        priv ← lift (GenerateSecp256k1Key seed);
        raw ← lift (MarshalPrivateKey priv);
        _ ← wrap (Wrapf "save key: %w" []) (WriteFile path raw mode_secret);
        mret priv
    end
  else
    seed ← draw;
    lift (GenerateSecp256k1Key seed).

(** ** network/p2p/enr.go *)

Definition loadOrGenerateNodeKey (path : string) : io EcdsaKey :=
  exists_ ← Stat path;
  if negb exists_ then
    seed ← draw;
    key ← lift (GenerateKey seed);
    _ ← SaveECDSA path key;
    mret key
  else
    r ← try (LoadECDSA path);
    match r with
    | inr key => mret key
    | inl _ =>
        data ← wrap (Wrapf "failed to read key file: %w" []) (ReadFile path);
        if (length data =? 32)%nat then lift (ToECDSA data)
        else
          match UnmarshalPrivateKey data with
          | Ok sk =>
              raw ← lift (map_err (Wrapf "failed to get raw key bytes: %w" []) (Raw sk));
              lift (ToECDSA raw)
          | Err e => fail (Wrapf "invalid key format (hex, binary, or libp2p): %w" [] e)
          | Panic p => lift (Panic p)
          | Diverges => lift Diverges
          end
    end.

(** ** scripts/gen_node_keys/main.go *)

(** [if err != nil { panic(err) }] *)
Definition must {A} (m : io A) : io A := fun w =>
  match m w with (w', Err _) => (w', Panic "error") | r => r end.

Definition gen_node_key (ids : list string) (i : nat) : io (list string) :=
  let filename := String.append "node" (String.append (pretty (Z.of_nat i)) ".key") in
  exists_ ← Stat filename;
  if (exists_ : bool) then
    data ← must (ReadFile filename);
    priv ← must (lift (UnmarshalPrivateKey data));
    pid ← must (lift (IDFromPrivateKey priv));
    mret (ids ++ [pid])
  else
    seed ← draw;
    priv ← must (lift (GenerateSecp256k1Key seed));
    data ← must (lift (MarshalPrivateKey priv));
    _ ← must (WriteFile filename data mode_secret);
    pid ← must (lift (IDFromPrivateKey priv));
    mret (ids ++ [pid]).
Definition gen_node_keys : io (list string) := for_each gen_node_key [] (seq 0 3).
End NodeKey.

(** * Names of key files *)

Lemma no_slash_append a b : no_slash (String.append a b) = no_slash a && no_slash b.
Proof. induction a as [|c a IH]; [done|]. rewrite append_cons. cbn [no_slash]. by rewrite IH, andb_assoc. Qed.

Lemma no_slash_pretty_N (x : N) : no_slash (pretty x) = true.
Proof.
  assert (Hgo : forall s, no_slash s = true -> no_slash (pretty_N_go x s) = true); cycle 1.
  { unfold pretty, pretty_N. destruct (decide (x = 0%N)); [done|]. by apply Hgo. }
  induction x as [x IH] using (well_founded_induction N.lt_wf_0); intros s Hs.
  destruct (decide (0 < x)%N) as [Hx|Hx]; cycle 1.
  { assert (x = 0%N) as -> by lia. by rewrite pretty_N_go_0. }
  rewrite pretty_N_go_step by done. apply IH; [apply N.div_lt; lia|].
  cbn [no_slash]. rewrite Hs, andb_true_r. unfold pretty_N_char. by repeat case_match.
Qed.

Lemma no_slash_pretty (z : Z) : no_slash (pretty z) = true.
Proof.
  unfold pretty, pretty_Z. destruct z; [done|apply (no_slash_pretty_N (Npos p))|].
  rewrite no_slash_append. apply (no_slash_pretty_N (Npos p)).
Qed.

Lemma validator_file_plain i ext : no_slash ext = true -> plain (validator_file i ext).
Proof.
  intros He. unfold validator_file. split; [|by split_and!].
  by rewrite !no_slash_append, no_slash_pretty, He.
Qed.

Lemma length_append a b : String.length (String.append a b) = (String.length a + String.length b)%nat.
Proof. induction a as [|c a IH]; [done|]. rewrite append_cons. cbn. by rewrite IH. Qed.

Lemma append_cancel a b s : String.append a s = String.append b s -> a = b.
Proof.
  revert b. induction a as [|c a IH]; intros [|d b] E; [done| | |].
  - apply (f_equal String.length) in E. rewrite !length_append in E. cbn in E. lia.
  - apply (f_equal String.length) in E. rewrite !length_append in E. cbn in E. lia.
  - rewrite !append_cons in E. injection E as -> E. by rewrite (IH b E).
Qed.

Lemma pk_not_sk a b : String.append a ".pk" <> String.append b ".sk".
Proof.
  revert b. induction a as [|c a IH]; intros [|d b] E; [done| | |].
  - apply (f_equal String.length) in E. rewrite !length_append in E. cbn in E. lia.
  - apply (f_equal String.length) in E. rewrite !length_append in E. cbn in E. lia.
  - rewrite !append_cons in E. injection E as _ E. by apply (IH b).
Qed.

Section Paths.
Context (dir : string) (Hdir : dir <> EmptyString).

Lemma pk_path_inj i j : pk_path dir i = pk_path dir j -> i = j.
Proof.
  intros E%filepath_Join_inj; [|done|by apply validator_file_plain..].
  apply append_inj, append_cancel in E. by apply pretty_Z_inj in E.
Qed.
Lemma sk_path_inj i j : sk_path dir i = sk_path dir j -> i = j.
Proof.
  intros E%filepath_Join_inj; [|done|by apply validator_file_plain..].
  apply append_inj, append_cancel in E. by apply pretty_Z_inj in E.
Qed.
Lemma pk_path_not_sk i j : pk_path dir i <> sk_path dir j.
Proof.
  intros E%filepath_Join_inj; [|done|by apply validator_file_plain..].
  apply append_inj in E. by apply pk_not_sk in E.
Qed.
Lemma pk_path_not_empty i : pk_path dir i <> EmptyString.
Proof. by apply filepath_Join_not_empty, validator_file_plain. Qed.
Lemma sk_path_not_empty i : sk_path dir i <> EmptyString.
Proof. by apply filepath_Join_not_empty, validator_file_plain. Qed.
End Paths.

(** Two different files of the key directory. *)
Ltac other_file :=
  let E := fresh in intros E;
  first [by apply pk_path_not_sk in E | symmetry in E; by apply pk_path_not_sk in E
        | apply pk_path_inj in E; [congruence|done] | apply sk_path_inj in E; [congruence|done]].

(** * What the libraries promise *)

(** A keypair restored from its two serializations has the same public key and signs the same;
    keys and signatures have their fixed sizes. *)
Class KeyLaws (FFI : LeansigFFI) : Prop := {
  restore_serialize p pk sk :
    leansig_pubkey_serialize p = (ResultOK, pk) -> leansig_seckey_serialize p = (ResultOK, sk) ->
    pk <> [] /\ sk <> [] /\ exists p', leansig_keypair_restore pk sk = (ResultOK, p') /\
      leansig_pubkey_serialize p' = (ResultOK, pk) /\ forall e m, leansig_sign p' e m = leansig_sign p e m;
  pubkey_size p pk : leansig_pubkey_serialize p = (ResultOK, pk) -> length pk = 52%nat;
  signature_size p e m sig : leansig_sign p e m = (ResultOK, sig) -> length sig = XMSSSignatureSize }.

(** libp2p writes a secp256k1 key as four bytes of protobuf framing and the 32 bytes of its scalar,
    which are its raw form and a key of go-ethereum; LoadECDSA wants 64 hexadecimal digits; and
    SaveECDSA cannot create a file without a name. *)
Class NodeKeyLaws {PF : Platform} (NK : NodeKeyLib) : Prop := {
  marshal_unmarshal k data : MarshalPrivateKey k = Ok data -> UnmarshalPrivateKey data = Ok k;
  secp256k1_file seed k data : GenerateSecp256k1Key seed = Ok k -> MarshalPrivateKey k = Ok data -> length data = 36%nat;
  secp256k1_raw seed k : GenerateSecp256k1Key seed = Ok k -> exists raw key, Raw k = Ok raw /\ ToECDSA raw = Ok key;
  hex_file path w f : find_file path w = Some f -> (length (f_data f) < 64)%nat ->
    exists e, LoadECDSA path w = (w, Err e);
  save_unnamed key w : exists e w', SaveECDSA EmptyString key w = (w', Err e);
  generators_return : (forall s, returns (GenerateSecp256k1Key s)) /\ (forall s, returns (GenerateKey s));
  formats_return : (forall k, returns (MarshalPrivateKey k)) /\ (forall d, returns (UnmarshalPrivateKey d)) /\
    (forall k, returns (Raw k)) /\ (forall d, returns (ToECDSA d));
  load_returns O path : triple (opens O) (LoadECDSA path) (fun _ => opens O) (opens O);
  save_returns O path key : triple (opens O) (SaveECDSA path key) (fun _ => opens O) (opens O) }.

(** * Key files of validators *)

Section KeyFiles.
Context {PF : Platform} {FFI : LeansigFFI} {KL : KeyLaws FFI}.

Lemma SaveKeypair_Ok kp pkPath skPath w w' : SaveKeypair kp pkPath skPath w = (w', Ok tt) ->
  exists pk sk m m', PublicKeyBytes kp = Ok pk /\ SecretKeyBytes kp = Ok sk /\
    w_files w' = <[skPath := mkFile sk m']> (<[pkPath := mkFile pk m]> (w_files w)).
Proof.
  unfold SaveKeypair. intros (w1 & pk & E1 & E)%io_bind_Ok. apply wrap_Ok, lift_Ok in E1 as [-> Epk].
  apply io_bind_Ok in E as (w2 & sk & E2 & E). apply wrap_Ok, lift_Ok in E2 as [-> Esk].
  apply io_bind_Ok in E as (w3 & [] & E3 & E). apply wrap_Ok, WriteFile_Ok in E3 as (_ & _ & _ & _ & Hf1).
  apply wrap_Ok, WriteFile_Ok in E as (_ & _ & _ & _ & Hf2). eexists pk, sk, _, _.
  split; [done|]. split; [done|]. by rewrite Hf2, Hf1.
Qed.

(** The files of validator [i] hold the keypair generated for it. *)
Definition key_stored (dir : string) (w : world) (i : Z) (kp : Keypair) (pk : bytes) : Prop :=
  GenerateKeypair (u64 i) 0 256 = Ok kp /\ PublicKeyBytes kp = Ok pk /\
  exists sk f g, SecretKeyBytes kp = Ok sk /\ w_files w !! pk_path dir i = Some f /\ f_data f = pk /\
    w_files w !! sk_path dir i = Some g /\ f_data g = sk.

Lemma keygen_one_Ok dir pubs i w w' pubs' : dir <> EmptyString ->
  keygen_one dir pubs i w = (w', Ok pubs') ->
  exists kp pk, pubs' = pubs ++ [EncodeToString pk] /\ key_stored dir w' (Z.of_nat i) kp pk /\
    forall j kp' pk', j <> Z.of_nat i -> key_stored dir w j kp' pk' -> key_stored dir w' j kp' pk'.
Proof.
  intros Hd. unfold keygen_one. intros (w1 & kp & E1 & E)%io_bind_Ok. apply lift_Ok in E1 as [-> Ekp].
  apply io_bind_Ok in E as (w2 & [] & E2 & E). apply SaveKeypair_Ok in E2 as (pk & sk & m & m' & Epk & Esk & Hf).
  apply io_bind_Ok in E as (w3 & pk' & E3 & E). apply lift_Ok in E3 as [-> Epk']. rewrite Epk in Epk'. injection Epk' as <-.
  unfold mret, io_ret in E. injection E as <- <-. exists kp, pk. split; [done|]. split.
  - split; [done|]. split; [done|]. exists sk, (mkFile pk m), (mkFile sk m'). rewrite Hf.
    rewrite lookup_insert_ne by (apply not_eq_sym, pk_path_not_sk, Hd).
    by rewrite !lookup_insert_eq.
  - intros j kp' pk' Hj (H1 & H2 & sk' & f & g & H3 & H4 & H5 & H6 & H7). split; [done|]. split; [done|].
    assert (G : forall p, pk_path dir (Z.of_nat i) <> p -> sk_path dir (Z.of_nat i) <> p -> w_files w2 !! p = w_files w !! p)
      by (intros p Hp1 Hp2; by rewrite Hf, !lookup_insert_ne).
    exists sk', f, g. rewrite !G; [done|other_file..].
Qed.

Lemma keypair_handle i kp : GenerateKeypair i 0 256 = Ok kp -> exists p, kp = mkKeypair (Some p).
Proof.
  unfold GenerateKeypair, fail_if. destruct (leansig_keypair_generate i 0 256) as [r p].
  destruct (negb _); [done|]. intros [= <-]. by exists p.
Qed.

Lemma PublicKeyBytes_Ok p pk : PublicKeyBytes (mkKeypair (Some p)) = Ok pk <-> leansig_pubkey_serialize p = (ResultOK, pk).
Proof.
  unfold PublicKeyBytes, with_ptr, fail_if. cbn [kp_ptr]. destruct (leansig_pubkey_serialize p) as [r d].
  destruct (Z.eqb_spec r ResultOK) as [->|Hr]; cbn [negb]; split; [by intros [= ->]|by intros [= ->]|done|by intros [= -> _]].
Qed.
Lemma SecretKeyBytes_Ok p sk : SecretKeyBytes (mkKeypair (Some p)) = Ok sk <-> leansig_seckey_serialize p = (ResultOK, sk).
Proof.
  unfold SecretKeyBytes, with_ptr, fail_if. cbn [kp_ptr]. destruct (leansig_seckey_serialize p) as [r d].
  destruct (Z.eqb_spec r ResultOK) as [->|Hr]; cbn [negb]; split; [by intros [= ->]|by intros [= ->]|done|by intros [= -> _]].
Qed.

Lemma load_stored dir w i kp pk : dir <> EmptyString -> (forall p, readable p = true) -> key_stored dir w i kp pk ->
  exists kp', LoadKeypair (pk_path dir i) (sk_path dir i) w = (w, Ok kp') /\ PublicKeyBytes kp' = Ok pk /\
    forall e m, Sign kp' e m = Sign kp e m.
Proof.
  intros Hd Hread (Hg & Hpk & sk & f & g & Hsk & Hf & <- & Hg' & <-).
  destruct (keypair_handle _ _ Hg) as [p ->]. apply PublicKeyBytes_Ok in Hpk. apply SecretKeyBytes_Ok in Hsk.
  destruct (restore_serialize p _ _ Hpk Hsk) as (Hn1 & Hn2 & p' & Hr & Hpk' & Hsign).
  exists (mkKeypair (Some p')). split; [|split; [by apply PublicKeyBytes_Ok|]].
  - unfold LoadKeypair, wrap, mbind, io_bind.
    rewrite (ReadFile_find _ w f); [|by unfold find_file; rewrite bool_decide_eq_false_2 by (by apply pk_path_not_empty)|done].
    cbn [map_err].
    rewrite (ReadFile_find _ w g); [|by unfold find_file; rewrite bool_decide_eq_false_2 by (by apply sk_path_not_empty)|done].
    cbn [map_err]. unfold lift, RestoreKeypair, fail_if.
    rewrite (proj2 (Nat.eqb_neq _ _)) by (by destruct (f_data f)). rewrite (proj2 (Nat.eqb_neq _ _)) by (by destruct (f_data g)).
    by rewrite Hr.
  - intros e m. unfold Sign, with_ptr. cbn [kp_ptr]. by rewrite Hsign.
Qed.

Lemma Sign_total kp : total_signer (Sign kp).
Proof.
  intros e m. unfold Sign, with_ptr, fail_if. destruct (kp_ptr kp) as [p|]; [|done].
  destruct (leansig_sign p e m) as [r sig]. by destruct (negb _).
Qed.

Lemma generated_genuine i kp : GenerateKeypair i 0 256 = Ok kp -> genuine_keypair kp.
Proof.
  unfold GenerateKeypair, fail_if. destruct (leansig_keypair_generate i 0 256) as [r p] eqn:E.
  destruct (Z.eqb_spec r ResultOK) as [->|]; cbn [negb]; [|done]. intros <-%Ok_inj. exists p. split; [done|].
  by eapply genuine_generated.
Qed.

Lemma Sign_verifies {LL : LeansigLaws FFI} kp pk e m sig : genuine_keypair kp -> length pk = 52%nat ->
  PublicKeyBytes kp = Ok pk -> Sign kp e m = Ok sig ->
  Verify (vec_of 52 pk) e m (vec_of XMSSSignatureSize sig) = Ok tt.
Proof.
  intros (p & Ep & Hp) Hl Hpk Hs. destruct kp as [o]. cbn [kp_ptr] in Ep. subst o.
  unfold Sign, with_ptr in Hs. cbn [kp_ptr] in Hs.
  apply PublicKeyBytes_Ok in Hpk. destruct (leansig_sign p e m) as [r s] eqn:Es. unfold fail_if in Hs.
  destruct (Z.eqb_spec r ResultOK) as [->|]; cbn [negb] in Hs; [|done]. injection Hs as ->.
  rewrite !vec_to_list_vec_of by (done || by eapply signature_size). apply Verify_ok. by eapply sign_verify.
Qed.
End KeyFiles.

(** * Loading every key of a node *)

Lemma loadValidatorKeys_all dir load ids : dir <> EmptyString ->
  (forall i, i ∈ ids -> exists kp, load i = Ok kp) ->
  exists keys, loadValidatorKeys dir load ids = Ok keys /\
    forall i kp, i ∈ ids -> load i = Ok kp -> keys !! i = Some kp.
Proof.
  intros Hd Hload. unfold loadValidatorKeys. rewrite bool_decide_eq_false_2 by done.
  assert (G : forall acc : gmap Z Signer, exists keys,
    foldM (fun keys idx => kp ← map_err (Wrapf "failed to load keypair for validator %d: %w" [Num idx]) (load idx);
                           Ok (<[idx := kp]> keys)) acc ids = Ok keys /\
    (forall i kp, i ∈ ids -> load i = Ok kp -> keys !! i = Some kp) /\ forall i, i ∉ ids -> keys !! i = acc !! i).
  { induction ids as [|idx ids IH]; intros acc; cbn [foldM].
    { exists acc. split; [done|]. split; [by intros i kp Hi%elem_of_nil|done]. }
    destruct (Hload idx ltac:(by left)) as (kp & El). rewrite El. cbn [map_err mbind outcome_bind].
    destruct (IH ltac:(intros i Hi; apply Hload; by right) (<[idx := kp]> acc)) as (keys & -> & H1 & H2).
    exists keys. split; [done|]. split.
    - intros i kp' Hi Ei. destruct (decide (i ∈ ids)) as [|Hni]; [by apply H1|]. apply elem_of_cons in Hi as [->|]; [|done].
      rewrite El in Ei. injection Ei as <-. by rewrite H2, lookup_insert_eq.
    - intros i [Hne Hni]%not_elem_of_cons. by rewrite H2, lookup_insert_ne. }
  destruct (G ∅) as (keys & Ek & Hin & _). by exists keys.
Qed.

Section Network.
Context {PF : Platform} {FFI : LeansigFFI} {LL : LeansigLaws FFI} {KL : KeyLaws FFI}.
Context (dir : string) (w : world) (l : list (Keypair * bytes)).
Context (Hdir : dir <> EmptyString) (Hread : forall p, readable p = true).
Context (Hstored : forall i kp pk, l !! i = Some (kp, pk) -> key_stored dir w (Z.of_nat i) kp pk).

(** The registry of the stored keys. *)
Definition stored_keys : list pubkey := map (fun e : Keypair * bytes => vec_of 52 e.2) l.
Definition stored_registry : list Validator := imap (fun i pk => mkValidator pk (Z.of_nat i)) stored_keys.

Lemma stored_size i kp pk : l !! i = Some (kp, pk) -> length pk = 52%nat.
Proof.
  intros Hi. destruct (Hstored i kp pk Hi) as (Hg & Hpk & _).
  destruct (keypair_handle _ _ Hg) as [p ->]. apply PublicKeyBytes_Ok in Hpk. by eapply pubkey_size.
Qed.

Lemma stored_entries : Forall2 key_entry (yaml_entries (map (fun e => EncodeToString e.2) l)) stored_keys.
Proof.
  unfold yaml_entries, stored_keys. rewrite List.map_map.
  assert (Hall : Forall (fun e : Keypair * bytes => length e.2 = 52%nat) l).
  { apply list.Forall_forall. intros [kp pk] (i & Hi)%list_elem_of_lookup. by eapply stored_size. }
  clear -Hall. induction Hall as [|[kp pk] l He Hall IH]; [constructor|]. cbn [map]. constructor; [|exact IH].
  right. cbn [snd] in *. by rewrite vec_to_list_vec_of.
Qed.

Lemma stored_signer i : registered stored_registry i ->
  exists kp, load_signer dir w i = Ok kp /\ total_signer kp /\ signer_for stored_registry i kp.
Proof.
  intros Hi. unfold registered, stored_registry, stored_keys in Hi. rewrite length_imap, length_map in Hi.
  destruct (lookup_lt_is_Some_2 l (Z.to_nat i)) as [[kp pk] Hk]; [lia|].
  pose proof (Hstored _ _ _ Hk) as Hst. rewrite Z2Nat.id in Hst by lia.
  destruct (load_stored dir w i kp pk Hdir Hread Hst) as (kp' & El & _ & Hsame). exists (Sign kp').
  split; [unfold load_signer; by rewrite El|]. split; [apply Sign_total|]. intros e m sig val Hs Hv.
  unfold stored_registry, stored_keys in Hv. rewrite list_lookup_imap, list_lookup_fmap, Hk in Hv.
  cbn in Hv. injection Hv as <-. cbn [v_Pubkey]. rewrite Hsame in Hs.
  destruct Hst as (Hg & Hpk & _). eapply Sign_verifies; [by eapply generated_genuine|by eapply stored_size|done|done].
Qed.
End Network.

(** * The node key files *)

Section NodeKeyFiles.
Context {PF : Platform} {NK : NodeKeyLib} {NL : NodeKeyLaws NK}.

Definition node_file (i : nat) : string := String.append "node" (String.append (pretty (Z.of_nat i)) ".key").

(** The file of node [i] holds a libp2p key whose peer id is [pid]. *)
Definition node_stored (w : world) (i : nat) (pid : string) : Prop :=
  exists f k, find_file (node_file i) w = Some f /\ UnmarshalPrivateKey (f_data f) = Ok k /\ IDFromPrivateKey k = Ok pid.

Lemma node_file_inj i j : node_file i = node_file j -> i = j.
Proof. intros E%append_inj%append_cancel. apply pretty_Z_inj in E. lia. Qed.

Lemma find_file_insert path w fs f : path <> EmptyString -> w_files w = <[path := f]> fs -> find_file path w = Some f.
Proof. intros Hp E. unfold find_file. rewrite bool_decide_eq_false_2 by done. by rewrite E, lookup_insert_eq. Qed.

Lemma must_Ok {A} (m : io A) w w' y : must m w = (w', Ok y) -> m w = (w', Ok y).
Proof. unfold must. by destruct (m w) as [w1 [x| | |]]. Qed.

Lemma loadOrGenerateKey_again path w f k : find_file path w = Some f -> readable path = true ->
  UnmarshalPrivateKey (f_data f) = Ok k -> loadOrGenerateKey path w = (w, Ok k).
Proof.
  intros Hf Hr Hk. unfold loadOrGenerateKey, mbind, io_bind, try. rewrite bool_decide_eq_false_2; cbn [negb].
  - by rewrite (ReadFile_find path w f Hf Hr), Hk.
  - intros ->. by unfold find_file in Hf; cbn in Hf.
Qed.

(** A file as the host and gen_node_keys write it: a secp256k1 key in libp2p's format. *)
Definition key_file (data : bytes) (k : LibKey) : Prop :=
  (exists seed, GenerateSecp256k1Key seed = Ok k) /\ MarshalPrivateKey k = Ok data.

(** What a successful load leaves on disk: the file that was there, or a new one. *)
Lemma loadOrGenerateKey_Ok path w w1 k : path <> EmptyString -> readable path = true ->
  loadOrGenerateKey path w = (w1, Ok k) ->
  exists f, find_file path w1 = Some f /\ UnmarshalPrivateKey (f_data f) = Ok k /\
    (find_file path w = Some f \/ find_file path w = None /\ key_file (f_data f) k).
Proof.
  intros Hp Hread. unfold loadOrGenerateKey. rewrite bool_decide_eq_false_2 by done. cbn [negb].
  intros (w2 & r & Hr & E)%io_bind_Ok. unfold try, ReadFile in Hr. rewrite Hread in Hr.
  destruct (find_file path w) as [f|] eqn:Hf; injection Hr as <- <-.
  - apply lift_Ok in E as [-> Hk]. exists f. split_and!; [done|done|by left].
  - apply io_bind_Ok in E as (w3 & seed & _ & E). apply io_bind_Ok in E as (w4 & priv & Eg & E).
    apply lift_Ok in Eg as [-> Eg].
    apply io_bind_Ok in E as (w5 & raw & Em & E). apply lift_Ok in Em as [-> Em].
    apply io_bind_Ok in E as (w6 & [] & Ew & E). unfold mret, io_ret in E. injection E as <- <-.
    apply wrap_Ok, WriteFile_Ok in Ew as (_ & _ & _ & _ & Ew). eexists. split; [by eapply find_file_insert|].
    split; [by apply marshal_unmarshal|]. right. split; [done|]. split; [by exists seed|done].
Qed.

Lemma gen_node_key_Ok ids i w w' ids' : gen_node_key ids i w = (w', Ok ids') ->
  exists pid, ids' = ids ++ [pid] /\ node_stored w' i pid /\
    forall j pid', j <> i -> node_stored w j pid' -> node_stored w' j pid'.
Proof.
  unfold gen_node_key. fold (node_file i). intros (w1 & b & Eb & E)%io_bind_Ok. unfold Stat in Eb. injection Eb as <- <-.
  case_bool_decide as Hst.
  - apply io_bind_Ok in E as (w1 & data & Er & E). apply must_Ok in Er. unfold ReadFile in Er.
    destruct (find_file _ w) as [f|] eqn:Hf; [|done]. destruct (readable _); [|done]. injection Er as <- <-.
    apply io_bind_Ok in E as (w1 & k & Ek & E). apply must_Ok, lift_Ok in Ek as [-> Ek].
    apply io_bind_Ok in E as (w1 & pid & Ep & E). apply must_Ok, lift_Ok in Ep as [-> Ep].
    unfold mret, io_ret in E. injection E as <- <-. exists pid. split; [done|]. split; [by exists f, k|done].
  - apply io_bind_Ok in E as (w1 & seed & Es & E). unfold draw in Es. injection Es as <- <-.
    apply io_bind_Ok in E as (w1 & k & Ek & E). apply must_Ok, lift_Ok in Ek as [-> Ek].
    apply io_bind_Ok in E as (w1 & data & Ed & E). apply must_Ok, lift_Ok in Ed as [-> Ed].
    apply io_bind_Ok in E as (w1 & [] & Ew & E). apply must_Ok, WriteFile_Ok in Ew as (Hn & _ & _ & _ & Ew).
    apply io_bind_Ok in E as (w2 & pid & Ep & E). apply must_Ok, lift_Ok in Ep as [-> Ep].
    unfold mret, io_ret in E. injection E as <- <-. exists pid. split; [done|]. split.
    + eexists _, k. split; [by eapply find_file_insert|]. split; [by apply marshal_unmarshal|done].
    + intros j pid' Hj (f & k' & Hf & Hrest). exists f, k'. split; [|done]. unfold find_file in *.
      case_bool_decide; [done|]. rewrite Ew, lookup_insert_ne; [done|]. by intros ?%node_file_inj.
Qed.

Lemma gen_node_key_again ids i w pid : readable (node_file i) = true -> node_stored w i pid ->
  gen_node_key ids i w = (w, Ok (ids ++ [pid])).
Proof.
  intros Hr (f & k & Hf & Hk & Hp). unfold gen_node_key. fold (node_file i). unfold mbind, io_bind, Stat, must, lift.
  rewrite bool_decide_eq_true_2 by by rewrite Hf. by rewrite (ReadFile_find _ _ f Hf Hr), Hk, Hp.
Qed.

(** ** Properties *)

(** C34: One identity for both networks.  The key file of a node is missing, or holds a secp256k1 key
    in libp2p's format, as the host and gen_node_keys write it.  Once the host has its key, the
    discovery service of the same start succeeds with the key of the same scalar, writing nothing,
    and a later start of the host reads the same key again. *)
Theorem node_has_one_identity (path : string) (w w1 : world) (k : LibKey) :
  path <> EmptyString -> readable path = true ->
  (forall f, find_file path w = Some f -> exists k0, key_file (f_data f) k0) ->
  loadOrGenerateKey path w = (w1, Ok k) ->
  exists raw key, Raw k = Ok raw /\ ToECDSA raw = Ok key /\
    loadOrGenerateNodeKey path w1 = (w1, Ok key) /\ loadOrGenerateKey path w1 = (w1, Ok k).
Proof.
  intros Hp Hr Hfile E. destruct (loadOrGenerateKey_Ok path w w1 k Hp Hr E) as (f & Hf & Hk & Hor).
  assert (Hkf : key_file (f_data f) k).
  { destruct Hor as [Hf0|[_ H]]; [|exact H]. destruct (Hfile f Hf0) as (k0 & Hg & Hm).
    pose proof (marshal_unmarshal k0 _ Hm) as Hu. rewrite Hk in Hu. apply Ok_inj in Hu as ->. by split. }
  destruct Hkf as [[seed Hg] Hm]. pose proof (secp256k1_file seed k _ Hg Hm) as Hlen.
  destruct (secp256k1_raw seed k Hg) as (raw & key & Eraw & Ekey). exists raw, key.
  split; [done|]. split; [done|]. split; [|by eapply loadOrGenerateKey_again].
  unfold loadOrGenerateNodeKey, mbind, io_bind, Stat, try, wrap. rewrite bool_decide_eq_true_2 by by rewrite Hf.
  cbn [negb]. destruct (hex_file path w1 f Hf) as (e & ->); [lia|]. rewrite (ReadFile_find _ _ f Hf Hr). cbn [map_err].
  rewrite Hlen, Hk. cbn [Nat.eqb]. unfold lift. by rewrite Eraw, <- Ekey.
Qed.

(** gen_node_keys is stable: a second run changes no file and prints the same peer ids; and the
    host started on file [i] has the printed id [i]. *)
Theorem gen_node_keys_stable (w w1 : world) (ids : list string) :
  (forall p, readable p = true) -> gen_node_keys w = (w1, Ok ids) ->
  length ids = 3%nat /\ gen_node_keys w1 = (w1, Ok ids) /\
  forall i pid, ids !! i = Some pid ->
    exists k, loadOrGenerateKey (node_file i) w1 = (w1, Ok k) /\ IDFromPrivateKey k = Ok pid.
Proof.
  intros Hr E. unfold gen_node_keys in *.
  apply (for_each_indexed gen_node_key id node_stored gen_node_key_Ok) in E as (l & -> & Hl & Hall & _).
  rewrite <- Hl. cbn [app Nat.add] in *. rewrite (list_fmap_id l : map id l = l). split; [done|]. split.
  - rewrite (for_each_again gen_node_key id node_stored); [by rewrite (list_fmap_id l : map id l = l)| |done].
    intros acc i e w2. by apply gen_node_key_again.
  - intros i pid Hi. destruct (Hall i pid Hi) as (f & k & Hf & Hk & Hp). exists k. split; [|done].
    by eapply loadOrGenerateKey_again.
Qed.
End NodeKeyFiles.

(** * Properties *)

Section Properties.
Context {PF : Platform} {FFI : LeansigFFI} {LL : LeansigLaws FFI} {KL : KeyLaws FFI}.

(** C18: What cmd/keygen writes and prints starts a network: the printed keys load as the genesis
    registry, with validator [i] at place [i]; every node loads the keys of its validators from
    the directory; and what it signs for validator [i] verifies under key [i] of the registry. *)
Theorem keygen_starts_network (count : Z) (dir : string) (w w' : world) (pubs : list bytes)
    (data : bytes) (Unmarshal : bytes -> outcome rawGenesisConfig) (t : Z) :
  0 < count < 2 ^ 64 -> dir <> EmptyString -> (forall p, readable p = true) ->
  keygen count dir w = (w', Ok pubs) -> Unmarshal data = Ok (mkRaw t (yaml_entries pubs)) ->
  exists vs, LoadGenesisConfig (Ok data) Unmarshal = Ok (mkGenesisConfig t vs) /\ len vs = count /\
    forall ids, Forall (registered vs) ids ->
      exists keys, loadValidatorKeys dir (load_signer dir w') ids = Ok keys /\
        forall i, i ∈ ids -> exists kp, keys !! i = Some kp /\ total_signer kp /\ signer_for vs i kp.
Proof.
  intros Hc Hd Hread E Hu. unfold keygen in E. apply io_bind_Ok in E as (w0 & [] & E0 & E).
  unfold MkdirAll in E0. apply lift_Ok in E0 as [-> _].
  apply (for_each_indexed _ (fun e : Keypair * bytes => EncodeToString e.2)
           (fun w i e => key_stored dir w (Z.of_nat i) e.1 e.2)) in E as (l & -> & Hl & Hall & _); cycle 1.
  { intros acc i w1 w2 acc' (kp & pk & -> & H1 & H2)%keygen_one_Ok; [|done]. exists (kp, pk).
    split; [done|]. split; [done|]. intros j [kp' pk'] Hj. apply H2. lia. }
  cbn [app Nat.add] in *. assert (Hall' := fun i kp pk => Hall i (kp, pk)). clear Hall. rename Hall' into Hall.
  assert (Hlen : len (stored_keys l) = count) by (unfold stored_keys, len; rewrite length_map, Hl; lia).
  exists (stored_registry l). split; [|split].
  - apply (LoadGenesisConfig_keys data Unmarshal t _ (stored_keys l) Hu); [| |by eapply stored_entries].
    + unfold len, yaml_entries. rewrite !length_map, Hl. lia.
    + intros En. rewrite En in Hlen. unfold len in Hlen. cbn in Hlen. lia.
  - unfold stored_registry, len in *. by rewrite length_imap.
  - intros ids Hids. rewrite list.Forall_forall in Hids.
    pose proof (fun i Hi => stored_signer dir w' l Hd Hread Hall i (Hids i Hi)) as Hone.
    destruct (loadValidatorKeys_all dir (load_signer dir w') ids Hd) as (keys & Ek & Hin).
    { intros i Hi. destruct (Hone i Hi) as (kp & El & _). by exists kp. }
    exists keys. split; [exact Ek|]. intros i Hi. destruct (Hone i Hi) as (kp & El & Ht & Hs). exists kp.
    split; [exact (Hin i kp Hi El)|by split].
Qed.

(** What SaveKeypair leaves on disk, on each of its branches: nothing when the key does not
    serialize or the public file cannot be written; the public key alone when the secret file
    cannot; otherwise both, the secret key with mode 0600 if its file is new, and with the mode
    the file had if it is not. *)
Theorem SaveKeypair_effects (kp : Keypair) (pkPath skPath : string) (w w' : world) (r : outcome ()) :
  SaveKeypair kp pkPath skPath w = (w', r) -> pkPath <> skPath ->
  (exists e, r = Err e /\ w' = w) \/
  (exists pk, PublicKeyBytes kp = Ok pk /\
    ((exists e f, r = Err e /\ f_data f = pk /\ w_files w' = <[pkPath := f]> (w_files w)) \/
     (exists sk f g, r = Ok tt /\ SecretKeyBytes kp = Ok sk /\ f_data f = pk /\ f_data g = sk /\
        w_files w' = <[skPath := g]> (<[pkPath := f]> (w_files w)) /\
        f_mode g = match w_files w !! skPath with Some old => f_mode old | None => mode_secret end))).
Proof.
  unfold SaveKeypair, mbind, io_bind, wrap, lift. intros E Hne.
  assert (Hp : returns (PublicKeyBytes kp)).
  { unfold returns, PublicKeyBytes, with_ptr, fail_if. destruct (kp_ptr kp) as [p|]; [|done].
    destruct (leansig_pubkey_serialize p). by destruct (negb _). }
  assert (Hs : returns (SecretKeyBytes kp)).
  { unfold returns, SecretKeyBytes, with_ptr, fail_if. destruct (kp_ptr kp) as [p|]; [|done].
    destruct (leansig_seckey_serialize p). by destruct (negb _). }
  unfold returns in Hp, Hs.
  destruct (PublicKeyBytes kp) as [pk|e| |]; cbn [total map_err] in *; [|left; injection E as <- <-; by eexists|by destruct Hp..].
  destruct (SecretKeyBytes kp) as [sk|e| |]; cbn [total map_err] in *; [|left; injection E as <- <-; by eexists|by destruct Hs..].
  unfold WriteFile in E. destruct (bool_decide (pkPath = EmptyString)); cbn [map_err] in E; [left; injection E as <- <-; by eexists|].
  destruct (writable pkPath); cbn [negb map_err] in E; [|left; injection E as <- <-; by eexists].
  right. exists pk. split; [done|].
  destruct (bool_decide (skPath = EmptyString)); cbn [map_err] in E; [left; injection E as <- <-; by eexists _, (mkFile _ _)|].
  destruct (writable skPath); cbn [negb map_err w_files] in E; [|left; injection E as <- <-; by eexists _, (mkFile _ _)].
  right. injection E as <- <-. eexists sk, (mkFile _ _), (mkFile _ _). cbn [w_files]. split_and!; [done|done| | |reflexivity|]; [done|done|].
  cbn [f_mode]. by rewrite lookup_insert_ne.
Qed.
End Properties.

(** * Concrete libraries for the witnesses *)

#[export] Instance toy_platform : Platform := {
  readable _ := true; writable _ := true; directory_ok _ := true; entropy n := le_bytes 32 (Z.of_nat (S n)) }.
Definition empty_world : world := mkWorld ∅ ∅ 0.

#[export] Instance toy_key_laws : KeyLaws toy_ffi.
Proof.
  split.
  - intros p pk sk E1%(f_equal snd) E2%(f_equal snd).
    change (le_bytes 52 p = pk) in E1. change (le_bytes 52 p = sk) in E2. subst pk sk.
    split; [done|]. split; [done|]. exists (le_Z (le_bytes 52 p)).
    cbn [leansig_pubkey_serialize leansig_keypair_restore leansig_sign toy_ffi snd].
    by rewrite le_bytes_le_Z by apply length_le_bytes.
  - intros p pk E%(f_equal snd). change (le_bytes 52 p = pk) in E. subst pk. apply length_le_bytes.
  - intros p e m sig E%(f_equal snd). change (toy_body (le_bytes 52 p) e m = sig) in E. subst sig. apply length_toy_body.
Qed.

Lemma DecodeString_returns s : returns (DecodeString s).
Proof.
  enough (H : forall n s, (length s <= n)%nat -> returns (DecodeString s)) by by eapply H.
  clear s. induction n as [|n IH]; intros [|p [|q s]] Hl; cbn in Hl; try done; try lia; cbn.
  - by destruct (hex_digit p).
  - destruct (hex_digit p); [|done]. destruct (hex_digit q); [|done].
    assert (Hs : returns (DecodeString s)) by (apply IH; lia). unfold returns in *. by destruct (DecodeString s).
Qed.

(** libp2p's file is four bytes of tag and the scalar, go-ethereum's its hexadecimal digits. *)
Definition toy_tag : bytes := [Byte.x08; Byte.x02; Byte.x12; Byte.x20].
#[export] Instance toy_node_keys : NodeKeyLib := {
  LibKey := root;
  GenerateSecp256k1Key seed := Ok (vec_of 32 seed);
  MarshalPrivateKey k := Ok (toy_tag ++ vec_to_list k);
  UnmarshalPrivateKey data :=
    if (length data =? 36)%nat then Ok (vec_of 32 (drop 4 data)) else Err (ErrLib "unmarshal");
  Raw k := Ok (vec_to_list k);
  IDFromPrivateKey k := Ok (String.append "16Uiu2" (pretty (le_Z (vec_to_list k))));
  EcdsaKey := root;
  GenerateKey seed := Ok (vec_of 32 seed);
  ToECDSA data := if (length data =? 32)%nat then Ok (vec_of 32 data) else Err (ErrLib "invalid length");
  LoadECDSA path := data ← ReadFile path;
    if (length data =? 64)%nat then lift (d ← DecodeString data; Ok (vec_of 32 d)) else fail (ErrLib "key file too short");
  SaveECDSA path k := WriteFile path (EncodeToString (vec_to_list k)) mode_secret }.

#[export] Instance toy_node_key_laws : NodeKeyLaws toy_node_keys.
Proof.
  split.
  - intros k data <-%Ok_inj. cbn [UnmarshalPrivateKey toy_node_keys].
    rewrite (proj2 (Nat.eqb_eq _ _)) by by rewrite length_app, length_vec_to_list.
    rewrite (drop_app_length toy_tag (vec_to_list k) : drop 4 _ = _). by rewrite vec_of_to_list.
  - intros seed k data _ <-%Ok_inj. by rewrite length_app, length_vec_to_list.
  - intros seed k _. exists (vec_to_list (k : root)), (vec_of 32 (vec_to_list (k : root))). split; [done|].
    cbn [ToECDSA toy_node_keys]. by rewrite length_vec_to_list.
  - intros path w f Hf Hl. cbn [LoadECDSA toy_node_keys]. unfold mbind, io_bind, ReadFile. rewrite Hf. cbn [readable toy_platform].
    rewrite (proj2 (Nat.eqb_neq _ _)) by lia. by eexists.
  - intros key w. by eexists _, _.
  - done.
  - split_and!; try done; intros d; cbn; by destruct (_ =? _)%nat.
  - intros O path. cbn [LoadECDSA toy_node_keys].
    eapply triple_bind; [apply triple_ReadFile|]. intros data w Hw. cbn beta. destruct (_ =? _)%nat; [|done].
    unfold lift. pose proof (DecodeString_returns data) as Hd. unfold returns in Hd. by destruct (DecodeString data).
  - intros O path key. apply triple_WriteFile.
Qed.

(** ** Witnesses *)

Definition ex_keygen : world := (keygen 2 "keys" empty_world).1.
Definition ex_pubkeys : list bytes := [EncodeToString (le_bytes 52 0); EncodeToString (le_bytes 52 1)].

Lemma keygen_starts_network_witness :
  exists vs, LoadGenesisConfig (Ok []) (fun _ => Ok (mkRaw 1000 (yaml_entries ex_pubkeys))) = Ok (mkGenesisConfig 1000 vs) /\
    len vs = 2 /\
    forall ids, Forall (registered vs) ids ->
      exists keys, loadValidatorKeys "keys" (load_signer "keys" ex_keygen) ids = Ok keys /\
        forall i, i ∈ ids -> exists kp, keys !! i = Some kp /\ total_signer kp /\ signer_for vs i kp.
Proof.
  apply (keygen_starts_network 2 "keys" empty_world ex_keygen ex_pubkeys [] (fun _ => Ok (mkRaw 1000 (yaml_entries ex_pubkeys))) 1000);
    [lia|done|done|vm_compute; reflexivity|reflexivity].
Defined.

Lemma SaveKeypair_effects_witness :
  exists w', SaveKeypair ex_keypair "k.pk" "k.sk" empty_world = (w', Ok tt) /\
    ((exists e, Ok tt = Err e /\ w' = empty_world) \/
     (exists pk, PublicKeyBytes ex_keypair = Ok pk /\
       ((exists e f, Ok tt = Err e /\ f_data f = pk /\ w_files w' = <["k.pk"%string := f]> (w_files empty_world)) \/
        (exists sk f g, @Ok () tt = Ok tt /\ SecretKeyBytes ex_keypair = Ok sk /\ f_data f = pk /\ f_data g = sk /\
           w_files w' = <["k.sk"%string := g]> (<["k.pk"%string := f]> (w_files empty_world)) /\
           f_mode g = mode_secret)))).
Proof. eexists. split; [reflexivity|]. by apply (SaveKeypair_effects ex_keypair "k.pk" "k.sk" empty_world). Defined.

Definition ex_host_key : @LibKey toy_node_keys := vec_of 32 (le_bytes 32 1).
Definition ex_node : world := (loadOrGenerateKey "node.key" empty_world).1.

Lemma node_has_one_identity_witness :
  loadOrGenerateKey "node.key" empty_world = (ex_node, Ok ex_host_key) /\
  exists raw key, Raw ex_host_key = Ok raw /\ ToECDSA raw = Ok key /\
    loadOrGenerateNodeKey "node.key" ex_node = (ex_node, Ok key) /\
    loadOrGenerateKey "node.key" ex_node = (ex_node, Ok ex_host_key).
Proof.
  split; [reflexivity|].
  refine (node_has_one_identity "node.key" empty_world ex_node ex_host_key _ eq_refl _ eq_refl).
  - intros H. discriminate H.
  - intros f H. discriminate H.
Defined.

Definition ex_three : world := (gen_node_keys empty_world).1.

Lemma gen_node_keys_stable_witness :
  exists ids, gen_node_keys empty_world = (ex_three, Ok ids) /\
    length ids = 3%nat /\ gen_node_keys ex_three = (ex_three, Ok ids) /\
    forall i pid, ids !! i = Some pid ->
      exists k, loadOrGenerateKey (node_file i) ex_three = (ex_three, Ok k) /\ IDFromPrivateKey k = Ok pid.
Proof.
  eexists. split; [vm_compute; reflexivity|].
  apply (gen_node_keys_stable empty_world ex_three); [done|vm_compute; reflexivity].
Defined.
