(* ===== verification/Ffi.v ===== *)
(** xmss/leansig-ffi/src/lib.rs: the C functions that the Go binding calls, over the leansig crate.

    The crate is a parameter: the class [SignatureScheme] has the functions of its traits that the
    wrapper uses, on opaque keys and signatures.  A pointer to a keypair is [None] when it is null,
    as the Go side leaves it when a call fails; the other pointers are addresses the Go side has
    just taken, never null.  [ffi_of_scheme] is the instance of the interface of Leansig.v, and its
    laws, and those of Keys.v, are proved from what the crate documents, [SchemeLaws]. *)
From S2P Require Import Prelude Types Leansig Keys.
Local Open Scope Z_scope.

(** * The crate *)

Class SignatureScheme := {
  PublicKey : Type;
  SecretKey : Type;
  Signature : Type;
  (** [None]: the thread of the generation panics or cannot be started. *)
  key_gen : Z -> Z -> Z -> option (PublicKey * SecretKey);
  pk_to_bytes : PublicKey -> bytes;
  pk_from_bytes : bytes -> option PublicKey;
  sk_to_bytes : SecretKey -> bytes;
  sk_from_bytes : bytes -> option SecretKey;
  sig_to_bytes : Signature -> bytes;
  sig_from_bytes : bytes -> option Signature;
  get_activation_interval : SecretKey -> Z * Z;
  get_prepared_interval : SecretKey -> Z * Z;
  advance_preparation : SecretKey -> SecretKey;
  scheme_sign : SecretKey -> Z -> root -> option Signature;
  scheme_verify : PublicKey -> Z -> root -> Signature -> bool }.

(** The keys of one generation; the preparation of the secret key may have been advanced. *)
Inductive matched {SC : SignatureScheme} : PublicKey -> SecretKey -> Prop :=
| matched_generated seed start n pk sk : key_gen seed start n = Some (pk, sk) -> matched pk sk
| matched_advanced pk sk : matched pk sk -> matched pk (advance_preparation sk).

Class SchemeLaws (SC : SignatureScheme) : Prop := {
  pk_roundtrip pk : pk_from_bytes (pk_to_bytes pk) = Some pk;
  sk_roundtrip sk : sk_from_bytes (sk_to_bytes sk) = Some sk;
  sig_roundtrip sig : sig_from_bytes (sig_to_bytes sig) = Some sig;
  pk_length pk : length (pk_to_bytes pk) = 52%nat;
  sk_nonempty sk : sk_to_bytes sk <> [];
  sig_length sig : length (sig_to_bytes sig) = XMSSSignatureSize;
  scheme_correct pk sk epoch m sig : matched pk sk -> scheme_sign sk epoch m = Some sig ->
    scheme_verify pk epoch m sig = true }.

(** * lib.rs *)

(** LeansigResult; [Ok] and [VerificationFailed] are ResultOK and ResultVerificationFailed. *)
Definition NullPointer : Z := 1.
Definition InvalidLength : Z := 2.
Definition SigningFailed : Z := 3.
Definition DeserializationFailed : Z := 4.
Definition EpochNotPrepared : Z := 6.

Section Code.
Context {SC : SignatureScheme}.

Record LeansigKeypair := mkPair { kp_pk : PublicKey; kp_sk : SecretKey }.
(** [*mut LeansigKeypair] *)
Definition Ptr : Type := option LeansigKeypair.

Definition leansig_keypair_generate (seed activation_epoch num_active_epochs : Z) : Z * Ptr :=
  match key_gen seed activation_epoch num_active_epochs with
  | Some (pk, sk) => (ResultOK, Some (mkPair pk sk))
  | None => (SigningFailed, None)
  end.

Definition leansig_keypair_restore (pk_bytes sk_bytes : bytes) : Z * Ptr :=
  match pk_from_bytes pk_bytes with
  | None => (DeserializationFailed, None)
  | Some pk =>
      match sk_from_bytes sk_bytes with
      | None => (DeserializationFailed, None)
      | Some sk => (ResultOK, Some (mkPair pk sk))
      end
  end.

Definition leansig_pubkey_serialize (keypair : Ptr) : Z * bytes :=
  match keypair with None => (NullPointer, []) | Some kp => (ResultOK, pk_to_bytes (kp_pk kp)) end.
Definition leansig_seckey_serialize (keypair : Ptr) : Z * bytes :=
  match keypair with None => (NullPointer, []) | Some kp => (ResultOK, sk_to_bytes (kp_sk kp)) end.

Definition leansig_sk_activation_start (keypair : Ptr) : Z :=
  match keypair with None => 0 | Some kp => (get_activation_interval (kp_sk kp)).1 end.
Definition leansig_sk_activation_end (keypair : Ptr) : Z :=
  match keypair with None => 0 | Some kp => (get_activation_interval (kp_sk kp)).2 end.
Definition leansig_sk_prepared_start (keypair : Ptr) : Z :=
  match keypair with None => 0 | Some kp => (get_prepared_interval (kp_sk kp)).1 end.
Definition leansig_sk_prepared_end (keypair : Ptr) : Z :=
  match keypair with None => 0 | Some kp => (get_prepared_interval (kp_sk kp)).2 end.

Definition leansig_sk_advance_preparation (keypair : Ptr) : Z * Ptr :=
  match keypair with
  | None => (NullPointer, None)
  | Some kp => (ResultOK, Some (mkPair (kp_pk kp) (advance_preparation (kp_sk kp))))
  end.

Definition leansig_sign (keypair : Ptr) (epoch : Z) (message : root) : Z * bytes :=
  match keypair with
  | None => (NullPointer, [])
  | Some kp =>
      let '(start, stop) := get_prepared_interval (kp_sk kp) in
      if negb ((start <=? epoch) && (epoch <? stop)) then (EpochNotPrepared, [])
      else
        match scheme_sign (kp_sk kp) epoch message with
        | Some sig => (ResultOK, sig_to_bytes sig)
        | None => (SigningFailed, [])
        end
  end.

Definition leansig_verify (pk_data : bytes) (epoch : Z) (message : root) (sig_data : bytes) : Z :=
  match pk_from_bytes pk_data with
  | None => DeserializationFailed
  | Some pk =>
      match sig_from_bytes sig_data with
      | None => DeserializationFailed
      | Some sig => if scheme_verify pk epoch message sig then ResultOK else ResultVerificationFailed
      end
  end.

Definition leansig_verify_with_keypair (keypair : Ptr) (epoch : Z) (message : root) (sig_data : bytes) : Z :=
  match keypair with
  | None => NullPointer
  | Some kp =>
      match sig_from_bytes sig_data with
      | None => DeserializationFailed
      | Some sig => if scheme_verify (kp_pk kp) epoch message sig then ResultOK else ResultVerificationFailed
      end
  end.

Definition ffi_of_scheme : LeansigFFI := {|
  Leansig.LeansigKeypair := Ptr;
  Leansig.leansig_keypair_generate := leansig_keypair_generate;
  Leansig.leansig_keypair_restore := leansig_keypair_restore;
  Leansig.leansig_pubkey_serialize := leansig_pubkey_serialize;
  Leansig.leansig_seckey_serialize := leansig_seckey_serialize;
  Leansig.leansig_sk_activation_start := leansig_sk_activation_start;
  Leansig.leansig_sk_activation_end := leansig_sk_activation_end;
  Leansig.leansig_sk_prepared_start := leansig_sk_prepared_start;
  Leansig.leansig_sk_prepared_end := leansig_sk_prepared_end;
  Leansig.leansig_sk_advance_preparation := leansig_sk_advance_preparation;
  Leansig.leansig_sign := leansig_sign;
  Leansig.leansig_verify := leansig_verify;
  Leansig.leansig_verify_with_keypair := leansig_verify_with_keypair |}.
End Code.

(** * The laws of the interface *)

Section Laws.
Context {SC : SignatureScheme} {SCL : SchemeLaws SC}.
#[local] Existing Instance ffi_of_scheme | 0.

Lemma serialize_pk (p : Ptr) pk : leansig_pubkey_serialize p = (ResultOK, pk) ->
  exists kp, p = Some kp /\ pk = pk_to_bytes (kp_pk kp).
Proof. destruct p as [kp|]; intros E; [|done]. apply (f_equal snd) in E. by exists kp. Qed.
Lemma serialize_sk (p : Ptr) sk : leansig_seckey_serialize p = (ResultOK, sk) ->
  exists kp, p = Some kp /\ sk = sk_to_bytes (kp_sk kp).
Proof. destruct p as [kp|]; intros E; [|done]. apply (f_equal snd) in E. by exists kp. Qed.

Lemma sign_Ok (p : Ptr) epoch m s : leansig_sign p epoch m = (ResultOK, s) ->
  exists kp sig, p = Some kp /\ scheme_sign (kp_sk kp) epoch m = Some sig /\ s = sig_to_bytes sig.
Proof.
  destruct p as [kp|]; [|done]. cbn [leansig_sign]. destruct (get_prepared_interval _) as [start stop].
  destruct (negb _); [done|]. destruct (scheme_sign _ _ _) as [sig|] eqn:E; [|done].
  intros Es%(f_equal snd). by exists kp, sig.
Qed.

Lemma restored kp : leansig_keypair_restore (pk_to_bytes (kp_pk kp)) (sk_to_bytes (kp_sk kp)) = (ResultOK, Some kp).
Proof. unfold leansig_keypair_restore. rewrite pk_roundtrip, sk_roundtrip. by destruct kp. Qed.

(** A genuine handle points to matching keys. *)
Lemma genuine_matched (p : Ptr) : genuine (FFI := ffi_of_scheme) p -> exists kp, p = Some kp /\ matched (kp_pk kp) (kp_sk kp).
Proof.
  induction 1 as [seed start n p E|p p' Hp (kp & -> & Hm) E|p pk sk p' Hp (kp & -> & Hm) Epk Esk E].
  - change (leansig_keypair_generate seed start n = (ResultOK, p)) in E. unfold leansig_keypair_generate in E.
    destruct (key_gen seed start n) as [[pk sk]|] eqn:Eg; [|done]. apply (f_equal snd) in E. cbn in E. subst p.
    eexists. split; [done|]. by eapply matched_generated.
  - apply (f_equal snd) in E. cbn in E. subst p'. eexists. split; [done|]. by apply matched_advanced.
  - apply (serialize_pk (Some kp)) in Epk as (kp1 & [= <-] & ->).
    apply (serialize_sk (Some kp)) in Esk as (kp2 & [= <-] & ->).
    change (leansig_keypair_restore (pk_to_bytes (kp_pk kp)) (sk_to_bytes (kp_sk kp)) = (ResultOK, p')) in E.
    rewrite restored in E. apply (f_equal snd) in E. cbn in E. subst p'. by exists kp.
Qed.

#[export] Instance ffi_laws : LeansigLaws ffi_of_scheme.
Proof.
  split. intros p epoch m pk s (kp & -> & Hm)%genuine_matched Epk Es.
  apply (serialize_pk (Some kp)) in Epk as (kp1 & [= <-] & ->). apply (sign_Ok (Some kp)) in Es as (kp2 & sig & [= <-] & Esig & ->).
  split; [intros E; by pose proof (pk_length (kp_pk kp)) as H; rewrite E in H|].
  split; [intros E; by pose proof (sig_length sig) as H; rewrite E in H|].
  cbn [Leansig.leansig_verify ffi_of_scheme]. unfold leansig_verify. rewrite pk_roundtrip, sig_roundtrip.
  by rewrite (scheme_correct _ _ _ _ _ Hm Esig).
Qed.

#[export] Instance ffi_key_laws : KeyLaws ffi_of_scheme.
Proof.
  split.
  - intros p pk sk Epk Esk. apply (serialize_pk p) in Epk as (kp & -> & ->). apply (serialize_sk (Some kp)) in Esk as (kp' & [= <-] & ->).
    split; [intros E; by pose proof (pk_length (kp_pk kp)) as H; rewrite E in H|]. split; [apply sk_nonempty|].
    exists (Some kp : Ptr). split; [apply restored|]. by split.
  - intros p pk Epk. apply (serialize_pk p) in Epk as (kp & _ & ->). apply pk_length.
  - intros p e m s Es. apply (sign_Ok p) in Es as (kp & sig & _ & _ & ->). apply sig_length.
Qed.

(** Keys restored from the files of two keypairs pair the public key of the one with the secret key
    of the other: nothing is checked. *)
Theorem restore_pairs_any_keys (kp kp' : LeansigKeypair) :
  leansig_keypair_restore (pk_to_bytes (kp_pk kp)) (sk_to_bytes (kp_sk kp')) =
    (ResultOK, Some (mkPair (kp_pk kp) (kp_sk kp'))).
Proof. unfold leansig_keypair_restore. by rewrite pk_roundtrip, sk_roundtrip. Qed.
End Laws.

(** ** A scheme that has the laws *)

#[export] Instance toy_scheme : SignatureScheme := {
  PublicKey := pubkey;
  SecretKey := pubkey;
  Signature := signature;
  key_gen seed _ _ := Some (vec_of 52 (le_bytes 52 seed), vec_of 52 (le_bytes 52 seed));
  pk_to_bytes := vec_to_list;
  pk_from_bytes b := if (length b =? 52)%nat then Some (vec_of 52 b) else None;
  sk_to_bytes := vec_to_list;
  sk_from_bytes b := if (length b =? 52)%nat then Some (vec_of 52 b) else None;
  sig_to_bytes := vec_to_list;
  sig_from_bytes b := if (length b =? XMSSSignatureSize)%nat then Some (vec_of XMSSSignatureSize b) else None;
  get_activation_interval _ := (0, 2 ^ 32);
  get_prepared_interval _ := (0, 2 ^ 32);
  advance_preparation sk := sk;
  scheme_sign sk epoch m := Some (vec_of XMSSSignatureSize (toy_body (vec_to_list sk) epoch m));
  scheme_verify pk epoch m sig :=
    bool_decide (sig = vec_of XMSSSignatureSize (toy_body (vec_to_list pk) epoch m)) }.

#[export] Instance toy_scheme_laws : SchemeLaws toy_scheme.
Proof.
  assert (R : forall n (v : vec Byte.byte n), (if (length (vec_to_list v) =? n)%nat then Some (vec_of n (vec_to_list v)) else None) = Some v)
    by (intros n v; by rewrite length_vec_to_list, Nat.eqb_refl, vec_of_to_list).
  constructor.
  - exact (R 52%nat).
  - exact (R 52%nat).
  - exact (R XMSSSignatureSize).
  - exact (fun pk : pubkey => length_vec_to_list pk).
  - intros sk E%(f_equal length). cbn [sk_to_bytes toy_scheme] in E. by rewrite length_vec_to_list in E.
  - exact (fun sig : signature => length_vec_to_list sig).
  - intros pk sk epoch m sig Hm E. assert (pk = sk) as <-.
    { clear E. induction Hm as [seed start n pk sk E|pk sk Hm IH]; [|exact IH].
      apply (inj Some) in E. exact (eq_trans (eq_sym (f_equal fst E)) (f_equal snd E)). }
    apply (inj Some) in E. rewrite <- E. apply bool_decide_eq_true_2. exact eq_refl.
Qed.
