(* ===== verification/Host.v ===== *)
(** The node's network services: network/host.go (the libp2p host and the bootnodes),
    network/p2p/enr.go (the node record) and network/p2p/discovery.go (discv5).

    go-libp2p, go-ethereum's enode and discover packages and the sockets are the class [NetLib]: a
    function that starts something is modelled by its outcome, and the handle it gives is acquired
    when it succeeds.  A peer id is known by its printed form.  ListenV5 takes over the socket only
    when it succeeds, as the convention for a failing Go constructor is. *)
From stdpp Require Import pretty.
From S2P Require Import Prelude GoStd Types Storage Leansig ForkProduce Ssz Reqresp Node NodeSafety Setup Files Keys.
Local Open Scope Z_scope.

(** * gossipsub/gossip.go: NewGossipSub *)

(** The options given to pubsub.NewGossipSub; durations are in milliseconds, the gossip factor in
    hundredths.  A parameter that the literal leaves out is zero.  The fourth option, the message
    identifier, is [ComputeMessageID] of Gossip.v. *)
Record GossipSubParams := mkGossipParams {
  gp_D : Z; gp_Dlo : Z; gp_Dhi : Z; gp_Dlazy : Z;
  gp_HeartbeatInterval : Z; gp_FanoutTTL : Z; gp_HistoryLength : Z; gp_HistoryGossip : Z; gp_GossipFactor : Z;
  gp_PruneBackoff : Z; gp_UnsubscribeBackoff : Z; gp_Connectors : Z; gp_MaxPendingConnections : Z;
  gp_ConnectionTimeout : Z; gp_DirectConnectTicks : Z; gp_DirectConnectInitialDelay : Z;
  gp_OpportunisticGraftTicks : Z; gp_OpportunisticGraftPeers : Z; gp_GraftFloodThreshold : Z;
  gp_MaxIHaveLength : Z; gp_MaxIHaveMessages : Z; gp_IWantFollowupTime : Z }.
Inductive SignaturePolicy := StrictSign | StrictNoSign | LaxSign | LaxNoSign.
Record PubSubOptions := mkPubSubOptions {
  po_MessageSignaturePolicy : SignaturePolicy; po_GossipSubParams : GossipSubParams; po_SeenMessagesTTL : Z }.

Definition gossipOptions : PubSubOptions := {|
  po_MessageSignaturePolicy := StrictNoSign;
  po_GossipSubParams := {|
    gp_D := 8; gp_Dlo := 6; gp_Dhi := 12; gp_Dlazy := 6;
    gp_HeartbeatInterval := 700; gp_FanoutTTL := 60 * 1000; gp_HistoryLength := 6; gp_HistoryGossip := 3;
    gp_GossipFactor := 25;
    gp_PruneBackoff := 60 * 1000; gp_UnsubscribeBackoff := 10 * 1000; gp_Connectors := 8;
    gp_MaxPendingConnections := 128; gp_ConnectionTimeout := 30 * 1000; gp_DirectConnectTicks := 300;
    gp_DirectConnectInitialDelay := 1000; gp_OpportunisticGraftTicks := 60; gp_OpportunisticGraftPeers := 2;
    gp_GraftFloodThreshold := 10 * 1000; gp_MaxIHaveLength := 5000; gp_MaxIHaveMessages := 10;
    gp_IWantFollowupTime := 3 * 1000 |};
  po_SeenMessagesTTL := 24 * 1000 |}.

Class NetLib (NK : NodeKeyLib) := {
  Multiaddr : Type;
  NewMultiaddr : string -> outcome Multiaddr;
  AddrInfoFromP2pAddr : Multiaddr -> outcome (string * list Multiaddr);
  libp2p_New : LibKey -> Multiaddr -> outcome string;
  NewPubSub : string -> PubSubOptions -> outcome ();
  Dial : string * list Multiaddr -> outcome ();
  Enr : Type;
  enode_Parse : string -> outcome Enr;
  enr_IP : Enr -> option string;
  enr_QUIC : Enr -> outcome Z;
  EcdsaPub : Type;
  enr_Pubkey : Enr -> option EcdsaPub;
  CompressPubkey : EcdsaPub -> bytes;
  LibPub : Type;
  UnmarshalSecp256k1PublicKey : bytes -> outcome LibPub;
  IDFromPublicKey : LibPub -> outcome string;
  enode_OpenDB : string -> outcome ();
  UDPAddr : Type;
  ResolveUDPAddr : string -> outcome UDPAddr;
  ListenUDP : UDPAddr -> outcome ();
  ListenV5 : EcdsaKey -> list Enr -> outcome () }.

Section Code.
Context {PF : Platform} {NK : NodeKeyLib} {NET : NetLib NK}.

(** * host.go *)

(** A libp2p host and the address info of a peer, both under a peer id. *)
Record Host := mkHost { h_ID : string }.
Record AddrInfo := mkAddrInfo { ai_ID : string; ai_Addrs : list Multiaddr }.

Definition NewGossipSub (id : string) : outcome () := NewPubSub id gossipOptions.

Definition NewHost (listenAddr nodeKeyPath : string) : io Host :=
  _ ← acquire ResCtx;
  privKey ← on_error (release ResCtx) (wrap (Wrapf "load key: %w" []) (loadOrGenerateKey nodeKeyPath));
  addr ← on_error (release ResCtx) (wrap (Wrapf "parse listen addr: %w" []) (lift (NewMultiaddr listenAddr)));
  id ← on_error (release ResCtx) (wrap (Wrapf "new host: %w" []) (lift (libp2p_New privKey addr)));
  _ ← acquire ResHost;
  _ ← on_error (_ ← release ResHost; release ResCtx) (wrap (Wrapf "gossipsub: %w" []) (lift (NewGossipSub id)));
  mret (mkHost id).

(** [h.Close]; the error of the library's Close is only logged by its callers. *)
Definition Host_Close : io () := _ ← release ResCtx; release ResHost.

(** ** The record of a node, enr.go *)

Definition quic_addr (ip : string) (port : Z) : string :=
  String.append "/ip4/" (String.append ip (String.append "/udp/" (String.append (pretty port) "/quic-v1"))).

Definition ENRToAddrInfo (enrStr : string) : outcome AddrInfo :=
  node ← map_err (Wrapf "parse enr: %w" []) (enode_Parse enrStr);
  match enr_IP node with
  | None => Err (Errorf "enr has no IP" [])
  | Some ip =>
      quicPort ← map_err (Wrapf "enr has no quic port: %w" []) (enr_QUIC node);
      match enr_Pubkey node with
      | None => Err (Errorf "enr has no public key" [])
      | Some pubkey =>
          let compressed := CompressPubkey pubkey in
          libp2pKey ← map_err (Wrapf "convert pubkey: %w" []) (UnmarshalSecp256k1PublicKey compressed);
          pid ← map_err (Wrapf "derive peer id: %w" []) (IDFromPublicKey libp2pKey);
          addr ← map_err (Wrapf "build multiaddr: %w" []) (NewMultiaddr (quic_addr ip quicPort));
          Ok (mkAddrInfo pid [addr])
      end
  end.

(** ** The bootnodes *)

Definition parseBootnode (addr : string) : outcome AddrInfo :=
  if String.prefix "enr:" addr then ENRToAddrInfo addr
  else
    ma ← NewMultiaddr addr;
    '(id, addrs) ← AddrInfoFromP2pAddr ma;
    Ok (mkAddrInfo id addrs).

(** One bootnode; the peers dialled so far are returned, and the outcome of the dial is logged with
    the first characters of the peer id. *)
Definition connect_one (self : string) (dialled : list AddrInfo) (addr : string) : outcome (list AddrInfo) :=
  match parseBootnode addr with
  | Err _ => Ok dialled
  | Panic p => Panic p
  | Diverges => Diverges
  | Ok pi =>
      if bool_decide (ai_ID pi = self) then Ok dialled
      else
        match Dial (ai_ID pi, ai_Addrs pi) with
        | Ok _ | Err _ => _ ← prefix16 (ai_ID pi); Ok (dialled ++ [pi])
        | Panic p => Panic p
        | Diverges => Diverges
        end
  end.
Definition ConnectBootnodes (h : Host) (addrs : list string) : outcome (list AddrInfo) :=
  foldM (connect_one (h_ID h)) [] addrs.

(** * enr.go: the local node *)

Inductive entry := EntIP (ip : string) | EntUDP (port : Z) | EntTCP (port : Z).
Record LocalNodeManager := mkManager { lm_entries : list entry; lm_privKey : EcdsaKey }.

(** [enr.UDP(port)], [enr.TCP(port)]: conversions to uint16. *)
Definition u16 (port : Z) : Z := port mod 2 ^ 16.

Definition NewLocalNodeManager (dbPath nodeKeyPath ip : string) (udpPort tcpPort : Z) : io LocalNodeManager :=
  privKey ← wrap (Wrapf "failed to load node key: %w" []) (loadOrGenerateNodeKey nodeKeyPath);
  _ ← wrap (Wrapf "failed to open node db: %w" []) (lift (enode_OpenDB dbPath));
  _ ← acquire ResDB;
  let local := [EntIP ip; EntUDP (u16 udpPort)] in
  let local := if negb (tcpPort =? 0) then local ++ [EntTCP (u16 tcpPort)] else local in
  mret (mkManager local privKey).
Definition Manager_Close : io () := release ResDB.

(** * discovery.go *)

Record DiscoveryService := mkDiscovery { ds_manager : LocalNodeManager; ds_bootnodes : list Enr; ds_port : Z }.

Definition parse_boot (boots : list Enr) (url : string) : outcome (list Enr) :=
  if bool_decide (url = EmptyString) then Ok boots
  else
    match enode_Parse url with
    | Ok node => Ok (boots ++ [node])
    | Err _ => Ok boots
    | Panic p => Panic p
    | Diverges => Diverges
    end.

Definition NewDiscoveryService (manager : LocalNodeManager) (port : Z) (bootnodes : list string) : io DiscoveryService :=
  boots ← lift (foldM parse_boot [] bootnodes);
  let addr := String.append "0.0.0.0:" (pretty port) in
  localAddr ← wrap (Wrapf "failed to resolve udp addr %s: %w" [Str addr]) (lift (ResolveUDPAddr addr));
  _ ← wrap (Wrapf "failed to listen on udp %s: %w" [Str addr]) (lift (ListenUDP localAddr));
  _ ← acquire ResConn;
  _ ← wrap (Wrapf "failed to start discv5: %w" []) (lift (ListenV5 (lm_privKey manager) boots));
  _ ← acquire ResDiscovery;
  mret (mkDiscovery manager boots port).
(** [udp.Close] closes its socket. *)
Definition Discovery_Close : io () := _ ← release ResDiscovery; release ResConn.

(** At most sixteen nodes of the random walk [iter]. *)
Fixpoint lookup_loop (i : nat) (iter nodes : list Enr) : list Enr :=
  match i, iter with
  | S i, node :: iter => lookup_loop i iter (nodes ++ [node])
  | _, _ => nodes
  end.
Definition LookupRandom (iter : list Enr) : list Enr := lookup_loop 16 iter [].
End Code.

(** * What the libraries promise *)

(** Every function of the libraries returns; and the id of the node's own host has its sixteen
    characters (it hashes a key). *)
Class NetLaws {NK : NodeKeyLib} (NET : NetLib NK) : Prop := {
  hosts_return : (forall s, returns (NewMultiaddr s)) /\ (forall a, returns (AddrInfoFromP2pAddr a)) /\
    (forall k a, returns (libp2p_New k a)) /\ (forall id o, returns (NewPubSub id o)) /\ (forall p, returns (Dial p));
  records_return : (forall s, returns (enode_Parse s)) /\ (forall n, returns (enr_QUIC n)) /\
    (forall b, returns (UnmarshalSecp256k1PublicKey b)) /\ (forall k, returns (IDFromPublicKey k));
  sockets_return : (forall p, returns (enode_OpenDB p)) /\ (forall s, returns (ResolveUDPAddr s)) /\
    (forall a, returns (ListenUDP a)) /\ (forall k l, returns (ListenV5 k l));
  host_id k a id : libp2p_New k a = Ok id -> (16 <= String.length id)%nat }.

Lemma returns_bind {A B} (m : outcome A) (f : A -> outcome B) :
  returns m -> (forall x, m = Ok x -> returns (f x)) -> returns (m ≫= f).
Proof. unfold returns. intros Hm Hf. destruct m; cbn in *; auto. Qed.
Lemma returns_map_err {A} g (m : outcome A) : returns m -> returns (map_err g m).
Proof. unfold returns. by destruct m. Qed.

Section Host.
Context {PF : Platform} {NK : NodeKeyLib} {NL : NodeKeyLaws NK} {NET : NetLib NK} {NTL : NetLaws NET}.

(** ** Loading the node key opens nothing *)

Lemma triple_lift_opens {A} O (m : outcome A) : returns m -> triple (opens O) (lift m) (fun _ => opens O) (opens O).
Proof. intros Hm w Hw. unfold lift. unfold returns in Hm. by destruct m. Qed.
Lemma triple_ret_opens {A} O (x : A) E : triple (opens O) (mret x) (fun _ => opens O) E.
Proof. by intros w Hw. Qed.
Lemma triple_try_opens {A} O (m : io A) : triple (opens O) m (fun _ => opens O) (opens O) ->
  triple (opens O) (try m) (fun _ => opens O) (opens O).
Proof. intros H. eapply triple_weaken; [by apply triple_try|done| |done]. by intros [e|x] w. Qed.

Lemma opens_loadOrGenerateKey O path : triple (opens O) (loadOrGenerateKey path) (fun _ => opens O) (opens O).
Proof.
  destruct generators_return as [Hg _], formats_return as (Hm & Hu & _).
  unfold loadOrGenerateKey. destruct (negb _); (eapply triple_then; [|intros r]);
    [apply triple_try_opens, triple_ReadFile| |apply triple_draw|by apply triple_lift_opens].
  destruct r as [e|data]; [|by apply triple_lift_opens].
  eapply triple_then; [apply triple_draw|intros seed]. eapply triple_then; [by apply triple_lift_opens|intros priv].
  eapply triple_then; [by apply triple_lift_opens|intros raw].
  eapply triple_then; [apply triple_wrap, triple_WriteFile|intros _; apply triple_ret_opens].
Qed.

Lemma opens_loadOrGenerateNodeKey O path : triple (opens O) (loadOrGenerateNodeKey path) (fun _ => opens O) (opens O).
Proof.
  destruct generators_return as [_ Hg], formats_return as (_ & Hu & Hr & He).
  unfold loadOrGenerateNodeKey. eapply triple_then; [apply triple_Stat|intros ex]. destruct (negb ex).
  - eapply triple_then; [apply triple_draw|intros seed]. eapply triple_then; [by apply triple_lift_opens|intros key].
    eapply triple_then; [apply save_returns|intros _; apply triple_ret_opens].
  - eapply triple_then; [apply triple_try_opens, load_returns|intros [e|key]]; [|apply triple_ret_opens].
    eapply triple_then; [apply triple_wrap, triple_ReadFile|intros data].
    destruct (_ =? 32)%nat; [by apply triple_lift_opens|].
    specialize (Hu data). unfold returns in Hu. destruct (UnmarshalPrivateKey data) as [sk|e'| |]; [| |done..].
    + eapply triple_then; [apply triple_lift_opens, returns_map_err, Hr|intros raw]. by apply triple_lift_opens.
    + intros w Hw. exact Hw.
Qed.

(** ** The constructors *)

Lemma NewHost_run listenAddr nodeKeyPath :
  triple (opens ∅) (NewHost listenAddr nodeKeyPath)
    (fun h w => opens {[ResCtx; ResHost]} w /\ (16 <= String.length (h_ID h))%nat) (opens ∅).
Proof.
  destruct hosts_return as (Hm & _ & Hl & Hp & _). unfold NewHost.
  eapply triple_then; [apply triple_acquire|intros _].
  eapply triple_then; [apply triple_on_error with (E := opens ({[ResCtx]} ∪ ∅)); [apply triple_wrap, opens_loadOrGenerateKey|apply triple_release]|intros k].
  eapply triple_then; [apply triple_on_error with (E := opens ({[ResCtx]} ∪ ∅)); [apply triple_wrap, triple_lift_opens, Hm|apply triple_release]|intros addr].
  eapply triple_bind.
  { apply triple_on_error with (E := opens ({[ResCtx]} ∪ ∅)); [|apply triple_release]. apply triple_wrap, triple_lift, Hl. }
  intros id. apply triple_pure; intros Hid.
  eapply triple_then; [apply triple_acquire|intros _].
  eapply triple_then.
  { eapply triple_on_error; [apply triple_wrap, triple_lift_opens, Hp|].
    eapply triple_then; [apply triple_release|intros _; apply triple_release]. }
  intros _ w Hw. cbn. split; [|by eapply host_id]. unfold opens in *. by rewrite Hw.
Qed.

Lemma parse_boots_return bootnodes : returns (foldM parse_boot [] bootnodes).
Proof.
  destruct records_return as (Hp & _). generalize (@nil Enr). induction bootnodes as [|url l IH]; intros acc; [done|].
  cbn [foldM]. apply returns_bind; [|intros; apply IH]. unfold parse_boot. case_bool_decide; [done|].
  specialize (Hp url). unfold returns in Hp. by destruct (enode_Parse url).
Qed.

Definition base : gset resource := {[ResCtx; ResHost]}.
Definition with_db : gset resource := {[ResCtx; ResHost; ResDB]}.
(** [leak]: a socket without a discovery service. *)
Definition services (disc : option DiscoveryService) (leak : bool) : gset resource :=
  match disc, leak with
  | Some _, _ => {[ResCtx; ResHost; ResDB; ResConn; ResDiscovery]}
  | None, true => {[ResCtx; ResHost; ResDB; ResConn]}
  | None, false => with_db
  end.

Lemma NewLocalNodeManager_run dbPath nodeKeyPath ip udp tcp :
  triple (opens base) (NewLocalNodeManager dbPath nodeKeyPath ip udp tcp) (fun _ => opens with_db) (opens base).
Proof.
  destruct sockets_return as (Ho & _). unfold NewLocalNodeManager.
  eapply triple_then; [apply triple_wrap, opens_loadOrGenerateNodeKey|intros key].
  eapply triple_then; [apply triple_wrap, triple_lift_opens, Ho|intros u].
  eapply triple_then; [apply triple_acquire|intros u' w Hw]. unfold opens in *. cbn. by rewrite Hw.
Qed.

(** The discovery service starts, or fails; then the socket stays open if it was ListenV5 that failed. *)
Lemma NewDiscoveryService_run m port bootnodes :
  triple (opens with_db) (NewDiscoveryService m port bootnodes)
    (fun d => opens (services (Some d) false))
    (fun w => opens (services None false) w \/
              opens (services None true) w /\ exists boots e, ListenV5 (lm_privKey m) boots = Err e).
Proof.
  destruct sockets_return as (_ & Hr & Hl & Hv). unfold NewDiscoveryService.
  eapply triple_then; [eapply triple_weaken; [apply (triple_lift_opens with_db), parse_boots_return|done|done|by left]|intros boots].
  eapply triple_then; [eapply triple_weaken; [apply triple_wrap, (triple_lift_opens with_db), Hr|done|done|by left]|intros addr].
  eapply triple_then; [eapply triple_weaken; [apply triple_wrap, (triple_lift_opens with_db), Hl|done|done|by left]|intros u].
  intros w Hw. specialize (Hv (lm_privKey m) boots). unfold returns in Hv. unfold opens in *.
  cbn. unfold mbind, io_bind, wrap, lift. cbn. rewrite Hw.
  destruct (ListenV5 (lm_privKey m) boots) as [[]|e| |] eqn:E; try done; cbn.
  right. split; [done|]. by exists boots, e.
Qed.

(** ** Bootnodes *)

(** The peer id of a bootnode has the sixteen characters that are logged. *)
Definition named (addr : string) : Prop := forall pi, parseBootnode addr = Ok pi -> (16 <= String.length (ai_ID pi))%nat.

Lemma ENRToAddrInfo_returns s : returns (ENRToAddrInfo s).
Proof.
  destruct hosts_return as (Hm & _), records_return as (Hp & Hq & Hu & Hi). unfold ENRToAddrInfo.
  apply returns_bind; [by apply returns_map_err|intros node _]. destruct (enr_IP node) as [ip|]; [|done].
  apply returns_bind; [by apply returns_map_err|intros port _]. destruct (enr_Pubkey node) as [pk|]; [|done].
  apply returns_bind; [by apply returns_map_err|intros key _].
  apply returns_bind; [by apply returns_map_err|intros pid _].
  by apply returns_bind; [by apply returns_map_err|intros addr _].
Qed.

Lemma parseBootnode_returns addr : returns (parseBootnode addr).
Proof.
  destruct hosts_return as (Hm & Ha & _). unfold parseBootnode.
  destruct (String.prefix _ _); [apply ENRToAddrInfo_returns|].
  apply returns_bind; [done|intros ma _]. by apply returns_bind; [|intros [id addrs] _].
Qed.

(** The peers that a list of bootnodes names, the node itself apart. *)
Definition other_named (self addr : string) : option AddrInfo :=
  match parseBootnode addr with
  | Ok pi => if bool_decide (ai_ID pi = self) then None else Some pi
  | _ => None
  end.
Definition others_named (self : string) (addrs : list string) : list AddrInfo := omap (other_named self) addrs.

Lemma connect_one_run self dialled addr : named addr ->
  connect_one self dialled addr = Ok (match other_named self addr with Some pi => dialled ++ [pi] | None => dialled end).
Proof.
  intros Ha. destruct hosts_return as (_ & _ & _ & _ & Hd).
  pose proof (parseBootnode_returns addr) as Hp. unfold returns in Hp. unfold named in Ha. unfold connect_one, other_named.
  destruct (parseBootnode addr) as [pi|e| |]; cbn [Prelude.total] in Hp; [|done..].
  case_bool_decide; [done|]. rewrite (prefix16_Ok _ (Ha pi eq_refl)).
  specialize (Hd (ai_ID pi, ai_Addrs pi)). unfold returns in Hd. by destruct (Dial _).
Qed.

Lemma connect_all self addrs dialled : Forall named addrs ->
  foldM (connect_one self) dialled addrs = Ok (dialled ++ others_named self addrs).
Proof.
  intros Hn. revert dialled. induction Hn as [|addr addrs Ha Hn IH]; intros dialled; cbn [foldM others_named omap list_omap].
  { by rewrite app_nil_r. }
  rewrite connect_one_run by done. cbn [mbind outcome_bind]. rewrite IH. unfold others_named.
  destruct (other_named self addr); [by rewrite <- app_assoc|done].
Qed.

(** A bootnode with a shorter id, on which the slice for the log panics. *)
Definition short_bootnode (addrs : list string) : Prop :=
  exists addr pi, addr ∈ addrs /\ parseBootnode addr = Ok pi /\ (String.length (ai_ID pi) < 16)%nat.

Lemma named_or_short addr : named addr \/ exists pi, parseBootnode addr = Ok pi /\ (String.length (ai_ID pi) < 16)%nat.
Proof.
  unfold named. destruct (parseBootnode addr) as [pi| | |]; [|by left..].
  destruct (decide (16 <= String.length (ai_ID pi))%nat); [left; by intros ? [= <-]|right; exists pi; split; [done|lia]].
Qed.

(** Bootnodes are dialled up to the first whose id is too short. *)
Lemma connect_outcome self addrs dialled : exists l,
  foldM (connect_one self) dialled addrs = Ok l \/
  exists p, foldM (connect_one self) dialled addrs = Panic p /\ short_bootnode addrs.
Proof.
  revert dialled. induction addrs as [|addr addrs IH]; intros dialled; cbn [foldM]; [exists dialled; by left|].
  assert (Hrec : forall d, exists l, foldM (connect_one self) d addrs = Ok l \/
    exists p, foldM (connect_one self) d addrs = Panic p /\ short_bootnode (addr :: addrs)).
  { intros d. destruct (IH d) as (l & [H|(p & H & a & pi & Ha & Hs)]); exists l; [by left|right; exists p].
    split; [done|]. exists a, pi. split; [by right|done]. }
  destruct (named_or_short addr) as [Hn|(pi & Ep & Hl)]; [rewrite connect_one_run by done; apply Hrec|].
  unfold connect_one at 2 4. rewrite Ep. case_bool_decide; [apply Hrec|].
  destruct hosts_return as (_ & _ & _ & _ & Hd). specialize (Hd (ai_ID pi, ai_Addrs pi)). unfold returns in Hd.
  assert (Hp : exists p, prefix16 (ai_ID pi) = Panic p).
  { unfold prefix16. rewrite (proj2 (Nat.leb_gt _ _)) by lia. by eexists. }
  destruct Hp as [p ->]. exists dialled. right. exists p. split; [by destruct (Dial _)|].
  exists addr, pi. split; [left|done].
Qed.

(** * Property *)

(** The bootnodes of a list are dialled one by one, in order: a bootnode that does not parse, or does
    not answer, does not keep the node from dialling the rest, and the node never dials itself. *)
Theorem bootnodes_dialled (h : Host) (addrs : list string) :
  Forall named addrs ->
  ConnectBootnodes h addrs = Ok (others_named (h_ID h) addrs) /\
  forall pi, pi ∈ others_named (h_ID h) addrs <->
    ai_ID pi <> h_ID h /\ exists addr, addr ∈ addrs /\ parseBootnode addr = Ok pi.
Proof.
  intros Hn. split; [by apply (connect_all (h_ID h) addrs [])|]. intros pi. unfold others_named.
  rewrite list_elem_of_omap. unfold other_named. split.
  - intros (addr & Ha & E). destruct (parseBootnode addr) as [pi'| | |] eqn:Ep; try done.
    case_bool_decide; [done|]. injection E as <-. split; [done|]. by exists addr.
  - intros (Hne & addr & Ha & Ep). exists addr. split; [done|]. by rewrite Ep, bool_decide_eq_false_2.
Qed.
End Host.

(** * Concrete libraries for the witnesses *)

(** An address is its own peer id and node record; [v5] says whether discv5 starts. *)
Definition toy_net (v5 : bool) : NetLib toy_node_keys := {|
  Multiaddr := string;
  NewMultiaddr s := if bool_decide (s = EmptyString) then Err (ErrLib "empty multiaddr") else Ok s;
  AddrInfoFromP2pAddr a := Ok (a, [a]);
  libp2p_New k _ := Ok (String.append "16Uiu2HAm0000000" (pretty (le_Z (vec_to_list (k : root)))));
  NewPubSub _ _ := Ok tt;
  Dial p := if bool_decide (p.1 = "/ip4/10.0.0.9/udp/9000"%string) then Err (ErrLib "no route") else Ok tt;
  Enr := string;
  enode_Parse s := if String.prefix "enr:" s then Ok s else Err (ErrLib "missing enr: prefix");
  enr_IP _ := Some "10.0.0.1"%string;
  enr_QUIC _ := Ok 9000;
  EcdsaPub := string;
  enr_Pubkey s := Some s;
  CompressPubkey _ := [];
  LibPub := ();
  UnmarshalSecp256k1PublicKey _ := Ok tt;
  IDFromPublicKey _ := Ok "16Uiu2HAm00000009"%string;
  enode_OpenDB _ := Ok tt;
  UDPAddr := string;
  ResolveUDPAddr s := Ok s;
  ListenUDP _ := Ok tt;
  ListenV5 _ _ := if v5 then Ok tt else Err (ErrLib "bad bootstrap node") |}.

#[export] Instance toy_net_laws v5 : NetLaws (toy_net v5).
Proof.
  split; cbn.
  - split_and!; try done; [intros s; by case_bool_decide|intros p; by case_bool_decide].
  - split_and!; try done. intros s. by destruct (String.prefix _ _).
  - split_and!; try done. intros _ _. by destruct v5.
  - intros k a id <-%Ok_inj. rewrite length_append. cbn. lia.
Qed.

Definition ex_boots : list string :=
  [EmptyString; "/ip4/10.0.0.9/udp/9000"; "enr:-node"; "/ip4/10.0.0.2/udp/9000"]%string.

Lemma bootnodes_dialled_witness :
  ConnectBootnodes (NET := toy_net true) (mkHost "16Uiu2HAm00000009") ex_boots =
    Ok (others_named (NET := toy_net true) "16Uiu2HAm00000009" ex_boots) /\
  map (ai_ID (NET := toy_net true)) (others_named (NET := toy_net true) "16Uiu2HAm00000009" ex_boots) =
    ["/ip4/10.0.0.9/udp/9000"; "/ip4/10.0.0.2/udp/9000"]%string.
Proof.
  split; [|reflexivity].
  apply (bootnodes_dialled (NET := toy_net true) (mkHost "16Uiu2HAm00000009") ex_boots).
  repeat constructor; intros pi; unfold parseBootnode; cbn; (intros [= <-]; cbn; lia) || done.
Defined.
