(* ===== verification/Startup.v ===== *)
(** Start-up and shutdown: node/lifecycle.go and node/node.go with their network services and their
    clean-up, the end of node/ticker.go, and cmd/gean/main.go.

    [New] is the whole constructor; what it builds in memory is [Node.New]'s node
    ([New_refines]).  The YAML library is the class [YamlLib].  A command that exits with a status
    is [Err], a panic is [Panic]; what main logs is not modelled. *)
From stdpp Require Import pretty.
From S2P Require Import Prelude Slot Types Hash Concrete GoStd Bitlist VoteRule Attestations Transition Chain Storage Ghost Leansig ForkChoice ForkInv ForkProduce Aggregation ForkProps Ssz SszCodec SszWire SszProps Wire Reqresp Gossip Node NodeSafety Network Setup Logging Files Keys Host.
Local Open Scope Z_scope.

(** * node.go: the configuration and the node *)

Record Config := mkConfig {
  GenesisTime : Z; Validators : list Validator; ListenAddr : string; NodeKeyPath : string;
  Bootnodes : list string; DiscoveryPort : Z; DataDir : string; ValidatorIDs : list Z;
  ValidatorKeysDir : string; MetricsPort : Z; DevnetID : string }.

Definition node_config (cfg : Config) : NodeConfig :=
  mkNodeConfig (GenesisTime cfg) (Validators cfg) (ValidatorIDs cfg) (ValidatorKeysDir cfg) (DevnetID cfg).

(** The pubsub library. *)
Class PubSub := { Join : string -> outcome string; Subscribe : string -> outcome () }.

Section Code.
Context {HW : HashWalker} {MR : MapRange} {FFI : LeansigFFI} {SS : SortSlice} {RT : SszRuntime} {SN : Snappy}.
Context {PF : Platform} {NK : NodeKeyLib} {NET : NetLib NK} {PS : PubSub}.
Context {T : Type} {OPS : StorageOps T}.
Context (shouldVerifySignatures : bool).

(** A node with its services; [sn_cancel] is the field cancel, which New leaves nil. *)
Record Started := mkStarted {
  sn_node : Node T;
  sn_Host : Host;
  sn_readers : list reader;
  sn_P2PManager : option LocalNodeManager;
  sn_P2PDiscovery : option DiscoveryService;
  sn_dialled : list AddrInfo;
  sn_cancel : option (io ()) }.

(** [if p != nil { p.Close() }] *)
Definition close_if {A} (p : option A) (close : io ()) : io () := match p with Some _ => close | None => mret tt end.

Definition Close (n : Started) : io () :=
  _ ← match sn_cancel n with Some cancel => cancel | None => lift (Panic "nil function") end;
  _ ← close_if (sn_P2PDiscovery n) Discovery_Close;
  _ ← close_if (sn_P2PManager n) Manager_Close;
  Host_Close.

(** * lifecycle.go *)

Definition initP2P (cfg : Config) : io (Host * Topics) :=
  host ← wrap (Wrapf "create host: %w" []) (NewHost (ListenAddr cfg) (NodeKeyPath cfg));
  _ ← lift (prefix16 (h_ID host));
  let devnetID := if bool_decide (DevnetID cfg = EmptyString) then "devnet0"%string else DevnetID cfg in
  topics ← on_error Host_Close (wrap (Wrapf "join topics: %w" []) (lift (JoinTopics Join devnetID)));
  mret (host, topics).

Definition initDiscovery (cfg : Config) : io (LocalNodeManager * option DiscoveryService) :=
  let discPort := if DiscoveryPort cfg =? 0 then 9000 else DiscoveryPort cfg in
  let p2pDBPath := filepath_Join (DataDir cfg) "p2p" in
  _ ← wrap (Wrapf "failed to create p2p db dir: %w" []) (MkdirAll p2pDBPath);
  p2pManager ← wrap (Wrapf "failed to init p2p manager: %w" [])
    (NewLocalNodeManager p2pDBPath (NodeKeyPath cfg) "0.0.0.0" discPort 0);
  r ← try (NewDiscoveryService p2pManager discPort (Bootnodes cfg));
  mret (p2pManager, match r with inr p2pDiscovery => Some p2pDiscovery | inl _ => None end).

(** The keys are read from the files there are now. *)
Definition load_keys (cfg : Config) : io (gmap Z Signer) := fun w =>
  (w, loadValidatorKeys (ValidatorKeysDir cfg) (load_signer (ValidatorKeysDir cfg) w) (ValidatorIDs cfg)).

Definition startMetrics (cfg : Config) : io () :=
  if MetricsPort cfg <=? 0 then mret tt else acquire ResMetrics.

Definition New (store : T) (cfg : Config) : io Started :=
  fc ← lift (initGenesis (GenesisTime cfg) (Validators cfg) store);
  '(host, topics) ← initP2P cfg;
  '(p2pManager, p2pDiscovery) ← on_error Host_Close (initDiscovery cfg);
  let cleanup := (_ ← close_if p2pDiscovery Discovery_Close; _ ← Manager_Close; Host_Close) in
  validatorKeys ← on_error cleanup (load_keys cfg);
  let validator := mkDuties (ValidatorIDs cfg) validatorKeys topics true [] in
  let n := mkNode fc (NewClock (GenesisTime cfg)) validator 0 [] in
  readers ← on_error cleanup (lift (registerHandlers Subscribe topics));
  dialled ← lift (if (0 <? length (Bootnodes cfg))%nat then ConnectBootnodes host (Bootnodes cfg) else Ok []);
  _ ← startMetrics cfg;
  mret (mkStarted n host readers (Some p2pManager) p2pDiscovery dialled None).

(** * ticker.go: Run, until the context is cancelled *)

Definition Run_and_close {SU : Surroundings T} (sn : Started) (initial : list Peer) (ticks : list (list Peer)) : io (Node T) :=
  n ← lift (Network.Run shouldVerifySignatures (sn_node sn) initial ticks);
  _ ← Host_Close;
  mret n.
End Code.
Arguments Started {_ _} T.

(** * cmd/gean/main.go *)

Class YamlLib := {
  Unmarshal_genesis : bytes -> outcome rawGenesisConfig;
  Unmarshal_entries : bytes -> outcome (list string);
  Unmarshal_strings : bytes -> outcome (list string);
  Unmarshal_map : bytes -> outcome (gmap string (list Z));
  Unmarshal_registry : bytes -> outcome ValidatorRegistry }.

Record Flags := mkFlags {
  genesisPath : string; bootnodesPath : string; validatorsPath : string; nodeID : string;
  nodeKey : string; validatorKeys : string; listenAddr : string; metricsPort : Z;
  discoveryPort : Z; dataDir : string; devnetID : string; logLevel : string }.

Definition parseLevel (s : string) : Z :=
  if bool_decide (s = "debug"%string) then LevelDebug
  else if bool_decide (s = "warn"%string) then LevelWarn
  else if bool_decide (s = "error"%string) then LevelError
  else LevelInfo.

(** The loggers made before main runs: the package variables of chain/forkchoice/store.go and
    network/host.go.  Then the first statements of main. *)
Definition package_init (g : logging) : logging :=
  (NewComponentLogger "network" (NewComponentLogger "forkchoice" g).1).1.
Definition main_logging (f : Flags) : logging * outcome prettyHandler :=
  NewComponentLogger "node" (Init (parseLevel (logLevel f)) (package_init unset)).

Section Main.
Context {HW : HashWalker} {MR : MapRange} {FFI : LeansigFFI} {SS : SortSlice} {RT : SszRuntime} {SN : Snappy}.
Context {PF : Platform} {NK : NodeKeyLib} {NET : NetLib NK} {PS : PubSub} {YL : YamlLib}.
Context {T : Type} {OPS : StorageOps T}.
Context (shouldVerifySignatures : bool).

(** A loader of a configuration file. *)
Definition with_file {A} (path : string) (load : outcome bytes -> outcome A) : io A := fun w =>
  let '(w', data) := ReadFile path w in (w', load data).

Definition main_config (f : Flags) : io Config :=
  if bool_decide (genesisPath f = EmptyString) then fail (Errorf "--genesis flag is required" [])
  else
    genCfg ← with_file (genesisPath f) (fun file => LoadGenesisConfig file Unmarshal_genesis);
    bootnodes ← (if negb (bool_decide (bootnodesPath f = EmptyString))
                 then with_file (bootnodesPath f) (fun file => LoadBootnodes file Unmarshal_entries Unmarshal_strings)
                 else mret []);
    validatorIDs ← (if negb (bool_decide (validatorsPath f = EmptyString)) && negb (bool_decide (nodeID f = EmptyString)) then
                      reg ← with_file (validatorsPath f) (fun file => LoadValidators file Unmarshal_map Unmarshal_registry);
                      _ ← lift (Validate reg (len (gc_Validators genCfg)));
                      mret (GetValidatorIndices reg (nodeID f))
                    else mret []);
    mret (mkConfig (gc_GenesisTime genCfg) (gc_Validators genCfg) (listenAddr f) (nodeKey f) bootnodes
            (discoveryPort f) (dataDir f) validatorIDs (validatorKeys f) (metricsPort f) (devnetID f)).

Definition start (store : T) (f : Flags) : io (Started T) := cfg ← main_config f; New store cfg.

(** main: the store is memory.New's; a cancelled context ends Run. *)
Definition main (store : T) (f : Flags) (clock : nat -> Z) (arrivals : nat -> list event)
    (initial : list Peer) (ticks : list (list Peer)) : io (Node T) :=
  sn ← start store f;
  let SU := network shouldVerifySignatures clock (sn_readers sn) arrivals in
  Run_and_close shouldVerifySignatures sn initial ticks.
End Main.

(** * Proofs *)

Section Startup.
Context {HW : HashWalker} {MR : MapRange} {FFI : LeansigFFI} {SS : SortSlice}.
Context {RT : SszRuntime} {LAWS : SszLaws RT} {SN : Snappy} {SNL : SnappyLaws SN}.
Context {PF : Platform} {NK : NodeKeyLib} {NL : NodeKeyLaws NK} {NET : NetLib NK} {NTL : NetLaws NET} {PS : PubSub}.
Context {T : Type} `{SL : StorageLaws T}.
Context (shouldVerify : bool).

(** The pubsub library returns. *)
Definition pubsub_returns : Prop := (forall t, returns (Join t)) /\ (forall t, returns (Subscribe t)).

(** ** The pieces of New *)

Lemma JoinTopics_returns devnet : pubsub_returns -> returns (JoinTopics Join devnet).
Proof.
  intros [Hj _]. unfold JoinTopics. apply returns_bind; [by apply returns_map_err|intros b _].
  by apply returns_bind; [by apply returns_map_err|intros a _].
Qed.

Lemma registerHandlers_returns topics : pubsub_returns -> returns (registerHandlers Subscribe topics).
Proof.
  intros [_ Hs]. apply returns_map_err. unfold SubscribeTopics.
  apply returns_bind; [done|intros ? _]. apply returns_bind; [done|intros ? _].
  destruct (t_AggregateAttestation topics); [|done]. by apply returns_bind.
Qed.

Lemma Host_Close_run : triple (opens base) Host_Close (fun _ => opens ∅) (opens ∅).
Proof. intros w Hw. unfold Host_Close, release, mbind, io_bind, opens in *. cbn. by rewrite Hw. Qed.

Lemma initP2P_run cfg : pubsub_returns ->
  triple (opens ∅) (initP2P cfg) (fun _ => opens base) (opens ∅).
Proof.
  intros Hps. unfold initP2P. eapply triple_bind; [apply triple_wrap, NewHost_run|intros h].
  intros w [Hw Hid]. revert w Hw. change (fun w => opens {[ResCtx; ResHost]} w) with (opens base).
  rewrite (prefix16_Ok _ Hid).
  assert (G : triple (opens base) (topics ← on_error Host_Close (wrap (Wrapf "join topics: %w" [])
     (lift (JoinTopics Join (if bool_decide (DevnetID cfg = EmptyString) then "devnet0"%string else DevnetID cfg)))); mret (h, topics))
     (fun _ => opens base) (opens ∅)); [|exact G].
  eapply triple_then; [|intros topics; apply triple_ret_opens].
  apply triple_on_error with (E := opens base); [|apply Host_Close_run].
  by apply triple_wrap, triple_lift_opens, JoinTopics_returns.
Qed.

(** Discovery that does not start is only logged. *)
Definition v5_failed (m : LocalNodeManager) : Prop := exists boots e, ListenV5 (lm_privKey m) boots = Err e.

Lemma initDiscovery_run cfg :
  triple (opens base) (initDiscovery cfg)
    (fun r w => exists leak, opens (services r.2 leak) w /\ (leak = true -> v5_failed r.1)) (opens base).
Proof.
  unfold initDiscovery. eapply triple_then; [apply triple_wrap, triple_MkdirAll|intros u].
  eapply triple_then; [apply triple_wrap, NewLocalNodeManager_run|intros m].
  eapply triple_bind.
  { eapply triple_try, NewDiscoveryService_run. }
  intros [e|d] w; cbn.
  - intros [Hw|[Hw Hf]]; [by exists false|by exists true].
  - by exists false.
Qed.

(** What is left when the services of a failed start are closed: the socket of a discovery service
    that did not start. *)
Definition remains (disc : option DiscoveryService) (leak : bool) : gset resource :=
  match disc, leak with None, true => {[ResConn]} | _, _ => ∅ end.

Lemma cleanup_run disc leak E :
  triple (opens (services disc leak)) (_ ← close_if disc Discovery_Close; _ ← Manager_Close; Host_Close)
    (fun _ => opens (remains disc leak)) E.
Proof.
  intros w Hw. unfold close_if, Discovery_Close, Manager_Close, Host_Close, release, mbind, io_bind, mret, io_ret, opens in *.
  destruct disc, leak; cbn; by rewrite Hw.
Qed.

Lemma LoadKeypair_returns pk sk w : exists r, LoadKeypair pk sk w = (w, r) /\ returns r.
Proof.
  unfold LoadKeypair, mbind, io_bind, wrap, ReadFile. destruct (find_file pk w); [destruct (readable pk)|]; cbn; try by eexists.
  destruct (find_file sk w); [destruct (readable sk)|]; cbn; try by eexists.
  eexists. split; [done|]. unfold RestoreKeypair, fail_if, returns.
  destruct (_ =? 0)%nat; [done|]. destruct (_ =? 0)%nat; [done|]. destruct (leansig_keypair_restore _ _). by destruct (negb _).
Qed.

Lemma load_keys_run_opens O cfg : triple (opens O) (load_keys cfg) (fun _ => opens O) (opens O).
Proof.
  intros w Hw. unfold load_keys. cbn.
  enough (H : returns (loadValidatorKeys (ValidatorKeysDir cfg) (load_signer (ValidatorKeysDir cfg) w) (ValidatorIDs cfg)))
    by by destruct (loadValidatorKeys _ _ _).
  { unfold loadValidatorKeys. case_bool_decide; [done|]. generalize (∅ : gmap Z Signer).
    induction (ValidatorIDs cfg) as [|i l IH]; intros m; [done|]. cbn [foldM].
    apply returns_bind; [|intros x _; apply IH]. apply returns_bind; [|done]. apply returns_map_err.
    unfold load_signer. apply returns_bind; [|done].
    destruct (LoadKeypair_returns (pk_path (ValidatorKeysDir cfg) i) (sk_path (ValidatorKeysDir cfg) i) w) as (r & -> & Hr).
    exact Hr. }
Qed.

Definition metrics_handle (cfg : Config) : gset resource := if MetricsPort cfg <=? 0 then ∅ else {[ResMetrics]}.

Lemma startMetrics_run O cfg E : triple (opens O) (startMetrics cfg) (fun _ => opens (metrics_handle cfg ∪ O)) E.
Proof.
  unfold startMetrics, metrics_handle. destruct (_ <=? 0); [|apply triple_acquire].
  intros w Hw. unfold opens in *. cbn. by rewrite Hw, union_empty_l_L.
Qed.

(** The handles of a start: those of the services on success, what remains on failure; a leak
    comes from discv5.  The log of a bootnode with a short id panics. *)
Lemma New_run (store : T) cfg fc : pubsub_returns ->
  initGenesis (GenesisTime cfg) (Validators cfg) store = Ok fc ->
  triple_or (short_bootnode (Bootnodes cfg)) (opens ∅) (New store cfg)
    (fun sn w => is_Some (sn_P2PManager sn) /\
       exists leak, opens (metrics_handle cfg ∪ services (sn_P2PDiscovery sn) leak) w /\
         (leak = true -> exists m, v5_failed m))
    (fun w => opens ∅ w \/ opens {[ResConn]} w /\ exists m, v5_failed m).
Proof.
  intros Hps Hg. unfold New. rewrite Hg.
  eapply triple_or_then with (R := opens ∅); [by intros w|]. intros fc0.
  eapply triple_or_then with (R := opens base); [eapply triple_weaken; [by apply initP2P_run|done|done|by left]|intros [host topics]].
  eapply triple_or_bind.
  { apply triple_or_triple. eapply triple_on_error; [apply initDiscovery_run|].
    eapply triple_weaken; [apply Host_Close_run|done|intros ? w Hw; left; exact Hw|by left]. }
  intros [m disc] w (leak & Hw & Hleak). revert w Hw. cbn [fst snd] in *.
  match goal with |- forall w, _ -> match ?prog w with _ => _ end => change (triple_or (short_bootnode (Bootnodes cfg)) (opens (services disc leak)) prog
    (fun sn w => is_Some (sn_P2PManager sn) /\
       exists leak, opens (metrics_handle cfg ∪ services (sn_P2PDiscovery sn) leak) w /\ (leak = true -> exists m, v5_failed m))
    (fun w => opens ∅ w \/ (opens {[ResConn]} w /\ exists m, v5_failed m))) end.
  assert (Hrem : forall w, opens (remains disc leak) w -> opens ∅ w \/ opens {[ResConn]} w /\ exists m, v5_failed m).
  { intros w. destruct disc, leak; cbn; try by left. right. split; [done|]. exists m. by apply Hleak. }
  assert (Hclean : triple (opens (services disc leak))
    (_ ← close_if disc Discovery_Close; _ ← Manager_Close; Host_Close)
    (fun _ w => opens ∅ w \/ opens {[ResConn]} w /\ exists m, v5_failed m)
    (fun w => opens ∅ w \/ (opens {[ResConn]} w /\ exists m, v5_failed m))).
  { eapply triple_weaken; [apply cleanup_run with (E := fun _ => False)|done|intros u; exact Hrem|done]. }
  eapply triple_or_then; [eapply triple_on_error; [apply load_keys_run_opens|exact Hclean]|intros keys].
  eapply triple_or_then; [eapply triple_on_error; [apply triple_lift_opens, registerHandlers_returns, Hps|exact Hclean]|intros readers].
  eapply triple_or_bind with (Q := fun _ => opens (services disc leak)).
  { intros w Hw. unfold lift, ConnectBootnodes. destruct (_ <? _)%nat; [|done].
    by destruct (connect_outcome (h_ID host) (Bootnodes cfg) []) as (l & [->|(p & -> & Hs)]). }
  intros dialled. apply triple_or_triple. eapply triple_then; [apply startMetrics_run|]. intros [] w Hw. cbn.
  split; [done|]. exists leak. split; [exact Hw|]. intros Hl. exists m. by apply Hleak.
Qed.

(** ** The node of New *)

Lemma foldM_ext {A S} (f g : S -> A -> outcome S) l s : (forall s x, f s x = g s x) -> foldM f s l = foldM g s l.
Proof.
  intros H. revert s. induction l as [|x l IH]; intros s; [done|]. cbn [foldM]. rewrite H.
  destruct (g s x); cbn; [apply IH|done..].
Qed.

(** Loading a key looks at the files only. *)
Lemma load_signer_files dir w w' i : w_files w = w_files w' -> load_signer dir w i = load_signer dir w' i.
Proof.
  intros E. assert (Hr : forall p, (ReadFile p w).2 = (ReadFile p w').2 /\ (ReadFile p w).1 = w /\ (ReadFile p w').1 = w').
  { intros p. unfold ReadFile, find_file. rewrite E. by repeat case_match. }
  unfold load_signer, LoadKeypair, mbind, io_bind, wrap.
  destruct (Hr (pk_path dir i)) as (H1 & H2 & H3). destruct (ReadFile (pk_path dir i) w) as [w1 r1], (ReadFile (pk_path dir i) w') as [w2 r2].
  cbn [fst snd] in *. subst. destruct r2; cbn; try done.
  destruct (Hr (sk_path dir i)) as (H1 & H2 & H3). destruct (ReadFile (sk_path dir i) w) as [w1' r1], (ReadFile (sk_path dir i) w') as [w2' r3].
  cbn [fst snd] in *. subst. by destruct r3.
Qed.

Lemma load_keys_files dir w w' ids : w_files w = w_files w' ->
  loadValidatorKeys dir (load_signer dir w) ids = loadValidatorKeys dir (load_signer dir w') ids.
Proof.
  intros E. unfold loadValidatorKeys. case_bool_decide; [done|]. apply foldM_ext. intros m i. by rewrite (load_signer_files dir w w').
Qed.

Lemma on_error_Ok {A} cleanup (m : io A) w w' x : on_error cleanup m w = (w', Ok x) -> m w = (w', Ok x).
Proof.
  unfold on_error, try, mbind, io_bind. destruct (m w) as [w1 [y|e| |]]; cbn; try done.
  by destruct (cleanup w1) as [w2 [z| | |]].
Qed.

Lemma New_node (store : T) cfg w w' sn : New store cfg w = (w', Ok sn) ->
  Node.New Join (load_signer (ValidatorKeysDir cfg) w') store (node_config cfg) = Ok (sn_node sn) /\
  registerHandlers Subscribe (vd_Topics (n_Validator (sn_node sn))) = Ok (sn_readers sn) /\ sn_cancel sn = None.
Proof.
  unfold New. intros (w1 & fc & E1 & E)%io_bind_Ok. apply lift_Ok in E1 as [-> Eg].
  apply io_bind_Ok in E as (w1 & [host topics] & Ep & E). apply io_bind_Ok in Ep as (w2 & h & _ & Ep).
  apply io_bind_Ok in Ep as (w3 & pre & _ & Ep). apply io_bind_Ok in Ep as (w4 & tp & Ej & Ep).
  apply on_error_Ok, wrap_Ok, lift_Ok in Ej as [-> Ej]. unfold mret, io_ret in Ep. injection Ep as <- <- <-.
  apply io_bind_Ok in E as (w5 & [m disc] & _ & E). apply io_bind_Ok in E as (w6 & keys & Ek & E).
  apply on_error_Ok in Ek. unfold load_keys in Ek. injection Ek as <- Ek.
  apply io_bind_Ok in E as (w7 & readers & Er & E). apply on_error_Ok, lift_Ok in Er as [-> Er].
  apply io_bind_Ok in E as (w8 & dialled & Ed & E). apply lift_Ok in Ed as [-> _].
  apply io_bind_Ok in E as (w9 & [] & Em & E). unfold mret, io_ret in E. injection E as <- <-. cbn [sn_node sn_readers sn_cancel].
  assert (Hf : w_files w5 = w_files w9) by (unfold startMetrics in Em; destruct (_ <=? 0); by injection Em as <-).
  split; [|done]. unfold Node.New, node_config. cbn [nc_GenesisTime nc_Validators nc_DevnetID nc_ValidatorKeysDir nc_ValidatorIDs].
  rewrite Eg. cbn [mbind outcome_bind]. rewrite Ej. cbn [map_err mbind outcome_bind].
  by rewrite <- (load_keys_files _ w5 w9), Ek.
Qed.
End Startup.

(** ** The configuration of main *)

(** The library decodes into the types the code declares: its integers are uint64, and a slice of
    strings has fewer than 2^62 elements. *)
Class YamlLaws (YL : YamlLib) : Prop := {
  yaml_returns : (forall b, returns (Unmarshal_genesis b)) /\ (forall b, returns (Unmarshal_entries b)) /\
    (forall b, returns (Unmarshal_strings b)) /\ (forall b, returns (Unmarshal_map b)) /\
    (forall b, returns (Unmarshal_registry b));
  genesis_types b raw : Unmarshal_genesis b = Ok raw ->
    is_u64 (raw_GenesisTime raw) /\ len (raw_GenesisValidators raw) < 2 ^ 62;
  map_indices b m name l : Unmarshal_map b = Ok m -> m !! name = Some l -> Forall is_u64 l;
  registry_indices b r : Unmarshal_registry b = Ok r -> Forall is_u64 (all_indices r) }.

Section MainProofs.
Context {HW : HashWalker} {MR : MapRange} {FFI : LeansigFFI} {SS : SortSlice}.
Context {RT : SszRuntime} {LAWS : SszLaws RT} {SN : Snappy} {SNL : SnappyLaws SN}.
Context {PF : Platform} {NK : NodeKeyLib} {NL : NodeKeyLaws NK} {NET : NetLib NK} {NTL : NetLaws NET} {PS : PubSub}.
Context {YL : YamlLib} {YLL : YamlLaws YL}.
Context {T : Type} `{SL : StorageLaws T}.
Context (shouldVerify : bool).

Lemma triple_with_file {A} O path (load : outcome bytes -> outcome A) :
  (forall file, returns file -> returns (load file)) ->
  triple (opens O) (with_file path load) (fun x w => opens O w /\ exists file, returns file /\ load file = Ok x) (opens O).
Proof.
  intros H w Hw. unfold with_file, ReadFile.
  assert (G : forall file, returns file -> match load file with Ok x => opens O w /\ (exists file, returns file /\ load file = Ok x)
    | Err _ => opens O w | _ => False end).
  { intros file Hf. specialize (H file Hf). unfold returns in H. destruct (load file) eqn:E; try done. split; [done|]. by exists file. }
  destruct (find_file path w); [destruct (readable path)|]; by apply G.
Qed.

Lemma LoadGenesisConfig_returns file : returns file -> returns (LoadGenesisConfig file Unmarshal_genesis).
Proof.
  intros Hf. unfold LoadGenesisConfig. apply returns_bind; [by apply returns_map_err|intros data _].
  apply returns_bind; [apply returns_map_err, yaml_returns|intros raw _]. destruct (_ =? 0)%nat; [done|].
  apply returns_bind; [|done]. generalize (imap pair (raw_GenesisValidators raw)) (@nil Validator).
  induction l as [|[i s] l IH]; intros acc; [done|]. cbn [foldM]. apply returns_bind; [|intros; apply IH].
  unfold load_validator. apply returns_bind; [apply returns_map_err, DecodeString_returns|intros b _].
  by destruct (negb _).
Qed.

Lemma LoadBootnodes_returns file : returns file -> returns (LoadBootnodes file Unmarshal_entries Unmarshal_strings).
Proof.
  intros Hf. unfold LoadBootnodes. apply returns_bind; [by apply returns_map_err|intros data _].
  destruct yaml_returns as (_ & He & Hs & _). specialize (He data).
  assert (G : returns (map_err (Wrapf "parse nodes: %w" []) (Unmarshal_strings data))) by by apply returns_map_err.
  unfold returns in He. destruct (Unmarshal_entries data) as [[|m l]| | |]; try done. by case_bool_decide.
Qed.

Lemma LoadValidators_run file : returns file ->
  total (LoadValidators file Unmarshal_map Unmarshal_registry) (fun r => Forall is_u64 (all_indices r)) (fun _ => True).
Proof.
  intros Hf. unfold LoadValidators. apply total_bind.
  eapply total_mono; [apply returns_map_err, Hf| |done]. intros data _ _.
  destruct yaml_returns as (_ & _ & _ & Hm & Hr). specialize (Hm data). specialize (Hr data).
  assert (G : total (map_err (Wrapf "parse validators: %w" []) (Unmarshal_registry data))
    (fun r => Forall is_u64 (all_indices r)) (fun _ => True)).
  { unfold returns in Hr. destruct (Unmarshal_registry data) eqn:E; try done. by eapply registry_indices. }
  unfold returns in Hm. destruct (Unmarshal_map data) as [m| | |] eqn:E; try done. destruct (0 <? size m)%nat; [|done].
  cbn [Prelude.total]. unfold all_indices. cbn [vr_Assignments].
  assert (H : forall l (acc : list ValidatorAssignment), (forall name idx, (name, idx) ∈ l -> Forall is_u64 idx) ->
    Forall is_u64 (concat (map va_Validators acc)) ->
    Forall is_u64 (concat (map va_Validators (foldl (fun l '(name, indices) => l ++ [mkAssignment name indices]) acc l)))).
  { induction l as [|[name idx] l IH]; intros acc Hl Ha; [done|]. cbn [foldl]. apply IH.
    - intros name' idx' Hi. apply (Hl name' idx'). by right.
    - rewrite List.map_app, concat_app. apply list.Forall_app. split; [done|]. cbn. rewrite app_nil_r.
      apply (Hl name idx). by left. }
  apply H; [|constructor]. intros name idx Hi. apply elem_of_range in Hi. by eapply map_indices.
Qed.

(** What main knows of a configuration it has accepted. *)
Record config_ok (cfg : Config) : Prop := {
  co_time : is_u64 (GenesisTime cfg);
  co_registry : registry_ok (Validators cfg);
  co_validators : Forall wf_Validator (Validators cfg);
  co_ids : Forall (registered (Validators cfg)) (ValidatorIDs cfg);
  co_distinct : NoDup (ValidatorIDs cfg) }.

Lemma loaded_genesis file gc : returns file -> LoadGenesisConfig file Unmarshal_genesis = Ok gc ->
  is_u64 (gc_GenesisTime gc) /\ registry_ok (gc_Validators gc) /\ Forall wf_Validator (gc_Validators gc).
Proof.
  intros Hf E. destruct file as [data|e| |]; try done.
  assert (E' := E). unfold LoadGenesisConfig in E'. cbn [map_err mbind outcome_bind] in E'.
  apply bind_Ok in E' as ([t entries] & Eu & _). apply map_err_ok in Eu. destruct (genesis_types _ _ Eu) as [Ht Hl].
  cbn [raw_GenesisTime raw_GenesisValidators] in *.
  destruct (LoadGenesisConfig_sound data Unmarshal_genesis t entries gc Eu) as (-> & Hne & Hwf & Hf2 & _); [lia|done|].
  split; [done|]. split; [|done]. apply List.Forall2_length in Hf2. unfold registry_ok, len in *.
  destruct (gc_Validators gc); [done|]. rewrite <- Hf2. cbn [length] in *. lia.
Qed.

Lemma main_config_run O f : triple (opens O) (main_config f) (fun cfg w => config_ok cfg /\ opens O w) (opens O).
Proof.
  unfold main_config. case_bool_decide; [by intros w|].
  eapply triple_bind; [apply triple_with_file, LoadGenesisConfig_returns|intros gc].
  intros w [Hw (file & Hf & Eg)]. destruct (loaded_genesis file gc Hf Eg) as (Ht & Hreg & Hwf). revert w Hw.
  match goal with |- forall w, _ -> match ?prog w with _ => _ end =>
    change (triple (opens O) prog (fun cfg w => config_ok cfg /\ opens O w) (opens O)) end.
  eapply triple_then with (R := opens O).
  { destruct (negb _); [|apply triple_ret_opens].
    eapply triple_weaken; [apply triple_with_file, LoadBootnodes_returns|done|by intros x w (? & _)|done]. }
  intros boots. eapply triple_bind with (Q := fun ids w =>
    (Forall (registered (gc_Validators gc)) ids /\ NoDup ids) /\ opens O w).
  - destruct (negb _ && negb _); [|intros w Hw; split; [split; constructor|exact Hw]].
    eapply triple_bind; [apply triple_with_file; intros file'; intros Hf'; eapply total_mono; [by apply LoadValidators_run|done|done]|].
    intros reg w [Hw (file' & Hf' & Er)].
    pose proof (LoadValidators_run file' Hf') as Hu. rewrite Er in Hu. cbn [Prelude.total] in Hu.
    unfold mbind, io_bind, lift. pose proof (Validate_run reg (len (gc_Validators gc))) as Hv.
    destruct (Validate _ _) as [[]|e| |]; try done. destruct Hv as [Hlt Hnd]. split; [|exact Hw].
    by apply found_registered.
  - intros ids w [[Hids Hnd] Hw]. split; [by constructor|exact Hw].
Qed.

Lemma load_signer_total dir w i kp : load_signer dir w i = Ok kp -> total_signer kp.
Proof. unfold load_signer. intros (k & _ & <-%Ok_inj)%bind_Ok. apply Sign_total. Qed.

(** ** Properties *)

(** The handles after the host is closed. *)
Lemma after_shutdown cfg disc leak (X := (metrics_handle cfg ∪ services disc leak) ∖ {[ResCtx]} ∖ {[ResHost]}) :
  (ResHost ∉ X) /\ (ResCtx ∉ X) /\ (ResDB ∈ X).
Proof. subst X. unfold metrics_handle. destruct (_ <=? 0), disc, leak; split_and!; apply (bool_decide_unpack _); vm_compute; exact I. Qed.

(** What main needs of the outside world, once it has accepted a configuration: a clock within the
    vote arithmetic, peers and gossip whose blocks have slots in its range, and a hash function that
    gives no block the root zero, nor a block that the node proposes in this run the root of another
    one that it stores. *)
Record main_env (store : T) (clock : nat -> Z) (arrivals : nat -> list event) (initial : list Peer)
    (ticks : list (list Peer)) (cfg : Config) (w : world) : Prop := {
  me_root : (Block_HashTreeRoot (genesis_block (GenerateGenesis (GenesisTime cfg) (Validators cfg)))).1 <> ZeroHash;
  me_clock i : 0 <= clock i /\ clock i * Z.of_nat (length (Validators cfg)) < 2 ^ 64 - 16;
  me_arrivals i : Forall (admissible_event (Validators cfg)) (arrivals i);
  me_initial : Forall (peer_ok (Validators cfg)) initial;
  me_ticks : Forall (Forall (peer_ok (Validators cfg))) ticks;
  me_fresh w' sn : New store cfg w = (w', Ok sn) ->
    fresh_run (SU := network shouldVerify clock (sn_readers sn) arrivals) shouldVerify (sn_node sn) initial ticks }.

Lemma start_wf (store : T) cfg w w' sn :
  (forall r, GetBlock store r = None) -> (forall r, GetState store r = None) -> config_ok cfg ->
  (Block_HashTreeRoot (genesis_block (GenerateGenesis (GenesisTime cfg) (Validators cfg)))).1 <> ZeroHash ->
  New store cfg w = (w', Ok sn) ->
  wf_node shouldVerify (Validators cfg) (sn_node sn) /\ vd_Indices (n_Validator (sn_node sn)) = ValidatorIDs cfg.
Proof.
  intros Hb Hs [H1 H2 H3 H4 H5] Hr E. apply New_node in E as (E & _). split.
  - eapply (New_wf shouldVerify (Validators cfg) H2 Join _ store (node_config cfg)); try done. apply load_signer_total.
  - unfold Node.New in E. apply bind_Ok in E as (fc & _ & E). apply bind_Ok in E as (tp & _ & E).
    by apply bind_Ok in E as (keys & _ & <-%Ok_inj).
Qed.

(** C16: The program as a whole.  On any files, flags and pubsub answers, main does one of three things.
    It exits with an error before the event loop, and all that it had opened is closed again, but for
    the UDP socket of a discovery service that did not start.  It panics, before the event loop, on
    a bootnode whose peer id is shorter than the 16 characters that are logged.  Or the event loop
    runs a well-formed node for the validators of the genesis file, with just the duties the
    registry gives it, until it is cancelled; then the libp2p host is closed, and the node database
    is still open.  The conditions on the run: the clock and the slots of the blocks that decode
    from what the network sends, times the number of validators, stay below 2^64 - 16; a peer's id
    has 16 characters; no root of the genesis block or of a block from the network is zero; and no
    block that the node proposes in this run has the root of another block that it stores. *)
Theorem main_safe (store : T) (f : Flags) (clock : nat -> Z) (arrivals : nat -> list event)
    (initial : list Peer) (ticks : list (list Peer)) (w : world) :
  (forall r, GetBlock store r = None) -> (forall r, GetState store r = None) -> pubsub_returns ->
  (forall w1 cfg, main_config f w = (w1, Ok cfg) -> main_env store clock arrivals initial ticks cfg w1) ->
  w_open w = ∅ ->
  exists w' r, main shouldVerify store f clock arrivals initial ticks w = (w', r) /\
    ((exists e, r = Err e /\ (w_open w' = ∅ \/ (w_open w' = {[ResConn]} /\ exists m, v5_failed m))) \/
     (exists cfg p, (main_config f w).2 = Ok cfg /\ r = Panic p /\ short_bootnode (Bootnodes cfg)) \/
     (exists cfg n, (main_config f w).2 = Ok cfg /\ r = Ok n /\ wf_node shouldVerify (Validators cfg) n /\
        vd_Indices (n_Validator n) = ValidatorIDs cfg /\
        (ResHost ∉ w_open w') /\ (ResCtx ∉ w_open w') /\ (ResDB ∈ w_open w'))).
Proof.
  intros Hb Hs Hps Henv Hw. pose proof (main_config_run ∅ f w Hw) as Hc. unfold main, start.
  destruct (main_config f w) as [w1 [cfg|e| |]] eqn:Ec; [|..]; try done; cycle 1.
  { eexists w1, (Err e). unfold mbind, io_bind. rewrite Ec. split; [done|]. left. exists e. split; [done|by left]. }
  destruct Hc as [Hcfg Hw1]. destruct (Henv w1 cfg eq_refl) as [E2 E3 E4 E5 E6 E7].
  destruct (initGenesis_run shouldVerify (Validators cfg) store (GenesisTime cfg) Hb Hs (co_time _ Hcfg)
              (co_validators _ Hcfg) (co_registry _ Hcfg) E2) as (fc & Eg & _).
  pose proof (New_run store cfg fc Hps Eg w1 Hw1) as Hn. unfold mbind at 1 2, io_bind at 1 2. rewrite Ec.
  destruct (New store cfg w1) as [w2 [sn|e|p|]] eqn:En; try done; cycle 1.
  { exists w2, (Err e). split; [done|]. left. exists e. by split. }
  { exists w2, (Panic p). split; [done|]. right. left. by exists cfg, p. }
  destruct (start_wf store cfg w1 w2 sn Hb Hs Hcfg E2 En) as [Hwf Hids].
  assert (Hsu : surroundings_ok (SU := network shouldVerify clock (sn_readers sn) arrivals) shouldVerify (Validators cfg))
    by (apply network_ok; [apply Hcfg|done..]).
  destruct (Run_run shouldVerify (Validators cfg) (sn_node sn) initial ticks (co_registry _ Hcfg) Hsu E5 E6 Hwf (E7 w2 sn eq_refl))
    as (n & Er & F).
  destruct Hn as (_ & leak & Hw2 & _). unfold Run_and_close, mbind, io_bind, lift. rewrite Er.
  eexists _, (Ok n). split; [reflexivity|]. right. right. exists cfg, n. split; [done|]. split; [done|].
  split; [apply F|]. split; [by rewrite (fo_indices _ _ _ _ F)|]. unfold opens in Hw2. cbn. rewrite Hw2.
  apply after_shutdown.
Qed.

(** A node needs a key file: with no path for it, as by default, the discovery service cannot store
    the key it makes, and New fails, on every platform. *)
Theorem node_needs_key_file (store : T) (cfg : Config) (w w' : world) (r : outcome (Started T)) :
  NodeKeyPath cfg = EmptyString -> New store cfg w = (w', r) -> forall sn, r <> Ok sn.
Proof.
  intros Hk E sn ->. unfold New in E. apply io_bind_Ok in E as (w1 & fc & _ & E).
  apply io_bind_Ok in E as (w2 & [host topics] & _ & E). apply io_bind_Ok in E as (w3 & [m disc] & Ed & _).
  apply on_error_Ok in Ed. unfold initDiscovery in Ed. apply io_bind_Ok in Ed as (w4 & u & _ & Ed).
  apply io_bind_Ok in Ed as (w5 & m' & Em & _). apply wrap_Ok in Em. unfold NewLocalNodeManager in Em.
  apply io_bind_Ok in Em as (w6 & key & El & _). apply wrap_Ok in El. rewrite Hk in El.
  unfold loadOrGenerateNodeKey in El. apply io_bind_Ok in El as (w7 & ex & Ex & El).
  unfold Stat in Ex. cbn in Ex. injection Ex as <- <-. cbn [negb] in El.
  apply io_bind_Ok in El as (w8 & seed & _ & El). apply io_bind_Ok in El as (w9 & k & _ & El).
  apply io_bind_Ok in El as (w10 & u' & Es & _). destruct (save_unnamed k w9) as (e & w11 & E'). by rewrite E' in Es.
Qed.

(** A node cannot be closed: New leaves the field cancel nil, so Close, called on any node that New
    returns, panics before it has released anything. *)
Theorem node_cannot_be_closed (store : T) (cfg : Config) (w w' : world) (sn : Started T) :
  New store cfg w = (w', Ok sn) -> forall w2, Close sn w2 = (w2, Panic "nil function").
Proof. intros (_ & _ & E)%New_node w2. unfold Close. by rewrite E. Qed.
End MainProofs.

(** The flag for the log level has no effect: the loggers that two packages make as they are
    initialised set the global handler up at level Info, once and for all; so whatever is asked
    for, main's loggers, and all later ones, print from Info on. *)
Theorem log_level_flag_ignored (f : Flags) (component : string) :
  (main_logging f).1 = package_init unset /\
  exists l, (NewComponentLogger component (main_logging f).1).2 = Ok l /\
    forall level, Enabled l level = (LevelInfo <=? level).
Proof.
  assert (E : (main_logging f).1 = package_init unset).
  { unfold main_logging. by rewrite (Init_once (parseLevel (logLevel f)) (package_init unset) eq_refl). }
  split; [exact E|]. rewrite E. by eexists.
Qed.

(** * A concrete start *)

Section Example.
#[local] Existing Instance toy_walker.
#[local] Existing Instance canonical_range.
#[local] Existing Instance toy_ffi.
#[local] Existing Instance merge_sort_slice.
#[local] Instance toy_pubsub : PubSub := { Join t := Ok t; Subscribe _ := Ok tt }.
#[local] Instance toy_net_up : NetLib toy_node_keys := toy_net true.

(** The genesis file decodes to the keys of the three validators, the registry gives the node
    validator 2. *)
#[local] Instance toy_yaml : YamlLib := {
  Unmarshal_genesis _ := Ok (mkRaw 1000 (map (fun v => EncodeToString (vec_to_list (v_Pubkey v))) fx_vs));
  Unmarshal_entries _ := Ok [];
  Unmarshal_strings _ := Ok ["/ip4/10.0.0.2/udp/9000"]%string;
  Unmarshal_map _ := Ok ∅;
  Unmarshal_registry _ := Ok (mkRegistry [mkAssignment "node0" [0; 1]; mkAssignment "node1" [2]]) }.
#[local] Instance toy_yaml_laws : YamlLaws toy_yaml.
Proof.
  split; [done|..].
  - intros _ raw <-%Ok_inj. done.
  - intros _ m name l <-%Ok_inj Hl. by apply (lookup_empty_Some (M := gmap string)) in Hl.
  - intros _ r <-%Ok_inj. repeat constructor; discriminate.
Qed.

Definition ex_flags (key : string) : Flags :=
  mkFlags "config.yaml" "nodes.yaml" "validators.yaml" "node1" key "keys" "/ip4/0.0.0.0/udp/9000/quic-v1" 8080 9000 "."
    "devnet0" "info".
Definition ex_disk : world :=
  mkWorld (list_to_map [("config.yaml"%string, mkFile [] mode_public); ("nodes.yaml"%string, mkFile [] mode_public);
    ("validators.yaml"%string, mkFile [] mode_public); (pk_path "keys" 2, mkFile (le_bytes 52 2) mode_public);
    (sk_path "keys" 2, mkFile (le_bytes 52 2) mode_secret)]) ∅ 0.
Definition ex_config (key : string) : Config :=
  mkConfig 1000 fx_vs "/ip4/0.0.0.0/udp/9000/quic-v1" key ["/ip4/10.0.0.2/udp/9000"%string] 9000 "." [2] "keys" 8080 "devnet0".

Lemma ex_main_config key : main_config (ex_flags key) ex_disk = (ex_disk, Ok (ex_config key)).
Proof. vm_compute. reflexivity. Qed.

Lemma ex_ids cfg : (main_config (ex_flags "node.key") ex_disk).2 = Ok cfg -> ValidatorIDs cfg = [2].
Proof. rewrite ex_main_config. by intros <-%Ok_inj. Qed.
Lemma ex_closed : w_open ex_disk = ∅.
Proof. reflexivity. Qed.
Lemma ex_pubsub : pubsub_returns.
Proof. done. Qed.

(** The run of Network.v's example: a peer, gossip and junk, and the two ticks. *)
Definition ex_ticks : list (list Peer) := [[wx_peer]; [wx_peer]].
Definition started_check (clock : nat -> Z) (arrivals : nat -> list event) (initial : list Peer) (ticks : list (list Peer))
    (r : world * outcome (Started memory.Store)) : bool :=
  match r.2 with
  | Ok sn => fresh_run_check (SU := network true clock (sn_readers sn) arrivals) (sn_node sn) initial ticks
  | _ => false
  end.
Lemma started_fresh clock arrivals initial ticks r w' sn :
  started_check clock arrivals initial ticks r = true -> r = (w', Ok sn) ->
  fresh_run (SU := network true clock (sn_readers sn) arrivals) true (sn_node sn) initial ticks.
Proof. intros H ->. by apply fresh_run_ok. Qed.
Lemma ex_fresh : started_check wx_clock wx_events [wx_peer] ex_ticks (New memory.New (ex_config "node.key") ex_disk) = true.
Proof. vm_compute. reflexivity. Qed.

Lemma ex_env (w1 : world) (cfg : Config) : main_config (ex_flags "node.key") ex_disk = (w1, Ok cfg) ->
  main_env true memory.New wx_clock wx_events [wx_peer] ex_ticks cfg w1.
Proof.
  rewrite ex_main_config. intros [<- <-%Ok_inj]%pair_eq. constructor.
  - exact fx_genesis_root.
  - exact wx_clock_ok.
  - exact wx_events_ok.
  - exact wx_peers.
  - exact wx_ticks.
  - intros w' sn. exact (started_fresh wx_clock wx_events [wx_peer] ex_ticks _ w' sn ex_fresh).
Qed.

Definition main_check (f : Node memory.Store -> bool) (r : world * outcome (Node memory.Store)) : bool :=
  run_published r.2 f.
(** Of the three ends of main, a run that passes a check on its node has had the third. *)
Lemma main_ran (m : world * outcome (Node memory.Store)) (c : outcome Config) (failed : world -> Prop)
    (short : Config -> Prop) (ran : world -> Config -> Node memory.Store -> Prop) f :
  main_check f m = true ->
  (exists w' r, m = (w', r) /\
    ((exists e, r = Err e /\ failed w') \/ (exists cfg p, c = Ok cfg /\ r = Panic p /\ short cfg) \/
     (exists cfg n, c = Ok cfg /\ r = Ok n /\ ran w' cfg n))) ->
  exists w' cfg n, m = (w', Ok n) /\ c = Ok cfg /\ ran w' cfg n /\ f n = true.
Proof.
  intros Hf (w' & r & -> & H). unfold main_check, run_published in Hf. cbn [snd] in Hf.
  destruct H as [(e & -> & _)|[(cfg & p & _ & -> & _)|(cfg & n & Hc & -> & Hr)]]; [done..|]. by exists w', cfg, n.
Qed.
Lemma did_published n : wx_did n = true -> sent_summary n = [inl (2, 2); inr 2].
Proof. unfold wx_did. intros [H _]%andb_prop. exact (bool_decide_eq_true_1 _ H). Qed.
Lemma ex_ran : main_check wx_did (main true memory.New (ex_flags "node.key") wx_clock wx_events [wx_peer] ex_ticks ex_disk) = true.
Proof. vm_compute. reflexivity. Qed.

(** Started from its files, with the key of its validator, the node runs, and publishes its block for
    slot 2 and its vote in slot 3. *)
Lemma main_safe_witness :
  exists w' cfg n, main true memory.New (ex_flags "node.key") wx_clock wx_events [wx_peer] ex_ticks ex_disk = (w', Ok n) /\
    (main_config (ex_flags "node.key") ex_disk).2 = Ok cfg /\ wf_node true (Validators cfg) n /\
    vd_Indices (n_Validator n) = ValidatorIDs cfg /\ ValidatorIDs cfg = [2] /\ sent_summary n = [inl (2, 2); inr 2] /\
    (ResHost ∉ w_open w') /\ (ResCtx ∉ w_open w') /\ (ResDB ∈ w_open w').
Proof.
  destruct (main_ran (main true memory.New (ex_flags "node.key") wx_clock wx_events [wx_peer] ex_ticks ex_disk)
    (main_config (ex_flags "node.key") ex_disk).2
    (fun w' => w_open w' = ∅ \/ (w_open w' = {[ResConn]} /\ exists m, v5_failed m)) (fun cfg => short_bootnode (Bootnodes cfg))
    (fun w' cfg n => wf_node true (Validators cfg) n /\ vd_Indices (n_Validator n) = ValidatorIDs cfg /\
       (ResHost ∉ w_open w') /\ (ResCtx ∉ w_open w') /\ (ResDB ∈ w_open w')) wx_did ex_ran
    (main_safe true memory.New (ex_flags "node.key") wx_clock wx_events [wx_peer] ex_ticks ex_disk
       fx_no_block fx_no_state ex_pubsub ex_env ex_closed)) as (w' & cfg & n & E & Hc & (Hwf & Hids & Hh) & Hn).
  exists w', cfg, n. exact (conj E (conj Hc (conj Hwf (conj Hids (conj (ex_ids cfg Hc) (conj (did_published n Hn) Hh)))))).
Defined.

(** With a key file the node starts; it cannot be closed. *)
Lemma ex_started_ok : is_ok (New memory.New (ex_config "node.key") ex_disk).2 = true.
Proof. vm_compute. reflexivity. Qed.
Lemma started (r : world * outcome (Started memory.Store)) : is_ok r.2 = true -> exists w' sn, r = (w', Ok sn).
Proof. destruct r as [w' [sn| | |]]; [|done..]. by exists w', sn. Qed.

Lemma node_cannot_be_closed_witness :
  exists w' sn, New memory.New (ex_config "node.key") ex_disk = (w', Ok sn) /\
    Close sn w' = (w', Panic "nil function").
Proof.
  destruct (started _ ex_started_ok) as (w' & sn & E).
  exists w', sn. split; [exact E|]. exact (node_cannot_be_closed memory.New (ex_config "node.key") ex_disk w' sn E w').
Defined.

(** Without one it does not. *)
Lemma node_needs_key_file_witness :
  exists w' r, New memory.New (ex_config EmptyString) ex_disk = (w', r) /\ forall sn, r <> Ok sn.
Proof.
  destruct (New memory.New (ex_config EmptyString) ex_disk) as [w' r] eqn:E. exists w', r. split; [reflexivity|].
  exact (node_needs_key_file memory.New (ex_config EmptyString) ex_disk w' r eq_refl E).
Defined.
End Example.
