(* ===== verification/Metrics.v ===== *)
(** observability/metrics, and the calls the other packages make on it.

    A collector is its name, help text and kind.  The prometheus client is a parameter: what a
    constructor and MustRegister check, as documented.  What the instrumented functions report is
    the list of their calls on the collectors, in order; a duration is never looked at, so an
    Observe carries no value. *)
From S2P Require Import Prelude Slot Types Hash Concrete GoStd Bitlist VoteRule Attestations Transition Chain Storage Ghost Leansig Ssz ForkChoice ForkInv ForkProduce Aggregation ForkProps Order NodeSafety Network Files Setup Startup.
Local Open Scope Z_scope.

(** * metrics.go *)

(** Histogram buckets are in thousandths: the literals have at most three decimals. *)
Inductive kind := Gauge | GaugeVec (labels : list string) | Counter | Histogram (buckets : list Z).
Record Collector := mkCollector { co_name : string; co_help : string; co_kind : kind }.
#[export] Instance kind_eq_dec : EqDecision kind.
Proof. solve_decision. Defined.
#[export] Instance Collector_eq_dec : EqDecision Collector.
Proof. solve_decision. Defined.

Definition fastBuckets : list Z := [5; 10; 25; 50; 100; 1000].
Definition stfBuckets : list Z := [250; 500; 750; 1000; 1250; 1500; 2000; 2500; 3000; 4000].

Definition NodeInfo : Collector :=
  mkCollector "lean_node_info" "Node information (always 1)" (GaugeVec ["name"; "version"]%string).
Definition NodeStartTime : Collector := mkCollector "lean_node_start_time_seconds" "Start timestamp" Gauge.
Definition HeadSlot : Collector := mkCollector "lean_head_slot" "Latest slot of the lean chain" Gauge.
Definition CurrentSlot : Collector := mkCollector "lean_current_slot" "Current slot of the lean chain" Gauge.
Definition SafeTargetSlot : Collector := mkCollector "lean_safe_target_slot" "Safe target slot" Gauge.
Definition ForkChoiceBlockProcessingTime : Collector :=
  mkCollector "lean_fork_choice_block_processing_time_seconds" "Time taken to process block in fork choice"
    (Histogram fastBuckets).
Definition AttestationsValid : Collector :=
  mkCollector "lean_attestations_valid_total" "Total number of valid attestations" Counter.
Definition AttestationsInvalid : Collector :=
  mkCollector "lean_attestations_invalid_total" "Total number of invalid attestations" Counter.
Definition AttestationValidationTime : Collector :=
  mkCollector "lean_attestation_validation_time_seconds" "Time taken to validate attestation" (Histogram fastBuckets).
Definition LatestJustifiedSlot : Collector := mkCollector "lean_latest_justified_slot" "Latest justified slot" Gauge.
Definition LatestFinalizedSlot : Collector := mkCollector "lean_latest_finalized_slot" "Latest finalized slot" Gauge.
Definition StateTransitionTime : Collector :=
  mkCollector "lean_state_transition_time_seconds" "Time to process state transition" (Histogram stfBuckets).
Definition STFSlotsProcessed : Collector :=
  mkCollector "lean_state_transition_slots_processed_total" "Total number of processed slots" Counter.
Definition STFSlotsProcessingTime : Collector :=
  mkCollector "lean_state_transition_slots_processing_time_seconds" "Time taken to process slots" (Histogram fastBuckets).
Definition STFBlockProcessingTime : Collector :=
  mkCollector "lean_state_transition_block_processing_time_seconds" "Time taken to process block" (Histogram fastBuckets).
Definition STFAttestationsProcessed : Collector :=
  mkCollector "lean_state_transition_attestations_processed_total" "Total number of processed attestations" Counter.
Definition STFAttestationsProcessingTime : Collector :=
  mkCollector "lean_state_transition_attestations_processing_time_seconds" "Time taken to process attestations"
    (Histogram fastBuckets).
Definition ValidatorsCount : Collector :=
  mkCollector "lean_validators_count" "Number of validators managed by a node" Gauge.
Definition ConnectedPeers : Collector := mkCollector "lean_connected_peers" "Number of connected peers" Gauge.
Definition SignatureVerificationTime : Collector :=
  mkCollector "lean_signature_verification_time_seconds" "Time to verify a single XMSS signature"
    (Histogram [1; 5; 10; 25; 50; 100]).
Definition SigningTime : Collector :=
  mkCollector "lean_signing_time_seconds" "Time to produce a single XMSS signature" (Histogram [5; 10; 25; 50; 100; 500]).
Definition AggregateSizeBytes : Collector :=
  mkCollector "lean_aggregate_size_bytes" "Size in bytes of the latest aggregated signature" Gauge.

(** The package variables in the order of their declarations, which init also follows. *)
Definition collectors : list Collector :=
  [NodeInfo; NodeStartTime;
   HeadSlot; CurrentSlot; SafeTargetSlot; ForkChoiceBlockProcessingTime; AttestationsValid; AttestationsInvalid;
   AttestationValidationTime;
   LatestJustifiedSlot; LatestFinalizedSlot; StateTransitionTime; STFSlotsProcessed; STFSlotsProcessingTime;
   STFBlockProcessingTime; STFAttestationsProcessed; STFAttestationsProcessingTime;
   ValidatorsCount; ConnectedPeers; SignatureVerificationTime; SigningTime; AggregateSizeBytes].

(** ** The prometheus client *)

Definition name_start (c : Ascii.ascii) : bool :=
  let n := Ascii.nat_of_ascii c in
  ((65 <=? n) && (n <=? 90))%nat || ((97 <=? n) && (n <=? 122))%nat || (n =? 95)%nat.
Definition name_char (c : Ascii.ascii) : bool :=
  let n := Ascii.nat_of_ascii c in name_start c || ((48 <=? n) && (n <=? 57))%nat.
Definition valid_name (s : string) : bool :=
  match String.list_ascii_of_string s with c :: l => name_start c && forallb name_char l | [] => false end.
Definition increasing (l : list Z) : bool :=
  match l with [] => false | x :: l' => (fix go x l := match l with [] => true | y :: l' => (x <? y) && go y l' end) x l' end.

(** A collector that no constructor and no registry objects to. *)
Definition well_formed (c : Collector) : bool :=
  valid_name (co_name c) &&
  match co_kind c with
  | Gauge | Counter => true
  | GaugeVec labels => forallb valid_name labels && bool_decide (NoDup labels) && negb (bool_decide ("le"%string ∈ labels))
  | Histogram buckets => increasing buckets
  end.

(** The constructors New*, and MustRegister on the empty default registry. *)
Class PromLib := {
  prom_New : Collector -> outcome ();
  prom_MustRegister : list Collector -> outcome () }.
Class PromLaws (P : PromLib) : Prop := {
  prom_New_ok c : well_formed c = true -> prom_New c = Ok tt;
  prom_MustRegister_ok l : Forall (fun c => well_formed c = true) l -> NoDup (map co_name l) -> prom_MustRegister l = Ok tt;
  prom_MustRegister_dup l : ~ NoDup (map co_name l) -> exists w, prom_MustRegister l = Panic w }.

(** The start of the package: its variables, then init. *)
Definition metrics_init {P : PromLib} : outcome () :=
  _ ← foldM (fun (_ : ()) c => prom_New c) tt collectors;
  prom_MustRegister collectors.

(** Serve: http.Handle on the default mux, then a server in a goroutine of its own.  ServeMux
    panics on a pattern it has; the mux is the list of its patterns. *)
Definition http_Handle (mux : list string) (pattern : string) : outcome (list string) :=
  if bool_decide (pattern ∈ mux) then Panic "http: multiple registrations" else Ok (pattern :: mux).
Definition Serve (mux : list string) (port : Z) : outcome (list string * Z) :=
  mux ← http_Handle mux "/metrics";
  Ok (mux, port).

(** * The calls on the collectors *)

(** Values are the integers before their conversion to float64. *)
Inductive metric_call :=
| CallSet (c : Collector) (v : Z)
| CallInc (c : Collector)
| CallAdd (c : Collector) (v : Z)
| CallObserve (c : Collector).

(** The total a list of calls adds to a counter. *)
Fixpoint added (c : Collector) (l : list metric_call) : Z :=
  match l with
  | [] => 0
  | CallInc c' :: l' => (if decide (c' = c) then 1 else 0) + added c l'
  | CallAdd c' v :: l' => (if decide (c' = c) then v else 0) + added c l'
  | _ :: l' => added c l'
  end.

(** node/lifecycle.go: startMetrics; the server and the port are in Startup.v. *)
Definition startMetrics_calls (cfg : Startup.Config) (now : Z) : list metric_call :=
  if MetricsPort cfg <=? 0 then []
  else [CallSet NodeInfo 1; CallSet NodeStartTime now; CallSet ValidatorsCount (len (ValidatorIDs cfg))].

(** node/ticker.go: the gauges at a slot boundary. *)
Definition slot_calls (slot : Z) (status : ChainStatus) (peerCount : Z) : list metric_call :=
  [CallSet CurrentSlot slot; CallSet HeadSlot (cs_HeadSlot status); CallSet LatestFinalizedSlot (cs_FinalizedSlot status);
   CallSet LatestJustifiedSlot (cs_JustifiedSlot status); CallSet ConnectedPeers peerCount].

Section Calls.
Context {HW : HashWalker} {MR : MapRange} {FFI : LeansigFFI} {T : Type} {OPS : StorageOps T}.
Context (shouldVerifySignatures : bool).

(** chain/forkchoice/attestation.go: processAttestationLocked; the deferred Observe comes last. *)
Definition processAttestation_calls (c : Store T) (sa : SignedAttestation) (isFromBlock : bool)
  : outcome (list metric_call) :=
  let data := sa_Message sa in
  let return_with l := Ok (l ++ [CallObserve AttestationValidationTime]) in
  if negb (bool_decide (validateAttestationData c data = EmptyString)) then return_with [CallInc AttestationsInvalid]
  else
  match (if negb isFromBlock && shouldVerifySignatures then verifyAttestationSignature c sa else Ok ()) with
  | Panic w => Panic w
  | Diverges => Diverges
  | Err _ => return_with [CallInc AttestationsInvalid]
  | Ok _ =>
    if isFromBlock then return_with [CallInc AttestationsValid]
    else
      let currentSlot := fc_time c / IntervalsPerSlot in
      if currentSlot <? ad_Slot data then return_with [CallInc AttestationsInvalid]
      else return_with [CallInc AttestationsValid]
  end.

(** chain/forkchoice/time.go: updateSafeTargetLocked, on the store it leaves. *)
Definition updateSafeTarget_calls (c' : Store T) : list metric_call :=
  match GetBlock (fc_storage c') (fc_safeTarget c') with
  | Some block => [CallSet SafeTargetSlot (b_Slot block)]
  | None => []
  end.

(** chain/statetransition/transition.go: ProcessBlock and StateTransition. *)
Definition stf_ProcessBlock_calls (state : State) (block : Block) : outcome (list metric_call) :=
  match ProcessBlockHeader state block with
  | Panic w => Panic w
  | Diverges => Diverges
  | Err _ => Ok []
  | Ok s =>
      _ ← ProcessAttestations s (bb_Attestations (b_Body block));
      Ok [CallAdd STFAttestationsProcessed (len (bb_Attestations (b_Body block)));
          CallObserve STFAttestationsProcessingTime; CallObserve STFBlockProcessingTime]
  end.
Definition StateTransition_calls (state : State) (block : Block) : outcome (list metric_call) :=
  match ProcessSlots state (b_Slot block) with
  | Panic w => Panic w
  | Diverges => Diverges
  | Err _ => Ok []
  | Ok s =>
      l ← stf_ProcessBlock_calls s block;
      Ok (CallAdd STFSlotsProcessed (u64 (b_Slot block - st_Slot state)) :: CallObserve STFSlotsProcessingTime :: l)
  end.
End Calls.

(** * What the metrics say *)

Section Props.
Context {HW : HashWalker} {MR : MapRange} {FFI : LeansigFFI} {T : Type} `{SL : StorageLaws T}.
Context (shouldVerify : bool) (vs : list Validator).

(** The package starts: no constructor panics, and no collector is registered twice. *)
Theorem metrics_init_returns {P : PromLib} {PL : PromLaws P} : metrics_init = Ok tt.
Proof.
  assert (Hwf : Forall (fun c => well_formed c = true) collectors)
    by (apply (bool_decide_unpack (Forall _ collectors)); vm_compute; exact I).
  unfold metrics_init. assert (E : foldM (fun (_ : ()) c => prom_New c) tt collectors = Ok tt).
  { revert Hwf. generalize collectors. induction 1 as [|c l Hc Hl IH]; [done|]. cbn [foldM].
    by rewrite prom_New_ok. }
  rewrite E. cbn [mbind outcome_bind]. apply prom_MustRegister_ok; [done|].
  apply (bool_decide_unpack (NoDup _)). vm_compute. exact I.
Qed.

(** Serve works once per process. *)
Theorem Serve_once (port port' : Z) :
  exists mux, Serve [] port = Ok (mux, port) /\ Serve mux port' = Panic "http: multiple registrations".
Proof. by exists ["/metrics"%string]. Qed.

(** ** Votes *)

(** What makes a vote count: the store has the blocks of its checkpoints, at their slots and in
    order; by gossip, it is signed and its slot has begun. *)
Definition countable (c : Store T) (sa : SignedAttestation) (isFromBlock : bool) : Prop :=
  valid_data c (sa_Message sa) /\
  (isFromBlock = false ->
   (shouldVerify = true -> verifyAttestationSignature c sa = Ok tt) /\
   ad_Slot (sa_Message sa) <= fc_time c / IntervalsPerSlot).

(** C40: Every vote is reported exactly once, after which its time is: as valid exactly when it is one
    that counts, and then processAttestationLocked has recorded it, as the known or pending vote of
    its validator unless one of the same slot or younger is held there; as invalid exactly when it
    does not count, and then the store is unchanged. *)
Theorem attestation_metrics_exact (c : Store T) (sa : SignedAttestation) (isFromBlock : bool) :
  wf_fc shouldVerify vs c -> registry_ok vs -> wf_SignedAttestation sa ->
  exists calls c', processAttestation_calls shouldVerify c sa isFromBlock = Ok calls /\
    processAttestationLocked shouldVerify c sa isFromBlock = Ok c' /\
    ((added AttestationsValid calls = 1 /\ added AttestationsInvalid calls = 0 /\
      countable c sa isFromBlock /\ recorded c sa isFromBlock c') \/
     (added AttestationsValid calls = 0 /\ added AttestationsInvalid calls = 1 /\
      ~ countable c sa isFromBlock /\ c' = c)).
Proof.
  intros Hc [_ Hn] Hsa. pose proof (validate_spec shouldVerify vs c (sa_Message sa) (fi_core _ _ _ Hc)) as Hvalid.
  unfold processAttestation_calls, processAttestationLocked, countable.
  case_bool_decide as Hv; cbn [negb]; cycle 1.
  { eexists _, c. split_and!; [done..|]. right. split_and!; [done..| |done]. intros [Hd _]. apply Hv. by apply Hvalid. }
  apply Hvalid in Hv. clear Hvalid. destruct isFromBlock; cbn [negb andb].
  { eexists _, _. split_and!; [done..|]. left. split_and!; [done|done|exact Hv|done|apply block_recorded]. }
  assert (Hver : total (if shouldVerify then verifyAttestationSignature c sa else Ok ()) (fun _ => True) (fun _ => True)).
  { pose proof (attestation_verdict shouldVerify vs c sa false (fi_core _ _ _ Hc) Hsa Hn ltac:(done)) as H.
    by eapply total_mono. }
  destruct (if shouldVerify then _ else _) as [[]|e|w|] eqn:E; cbn [total] in Hver; try done; cycle 1.
  { eexists _, c. split_and!; [done..|]. right. split_and!; [done..| |done]. intros [_ [Hs _]%(fun f => f eq_refl)].
    destruct shouldVerify; [|done]. by rewrite Hs in E. }
  destruct (Z.ltb_spec (fc_time c / IntervalsPerSlot) (ad_Slot (sa_Message sa))) as [Hlt|Hge].
  - eexists _, c. split_and!; [done..|]. right. split_and!; [done..| |done]. intros [_ [_ Hs]%(fun f => f eq_refl)]. lia.
  - eexists _, _. split_and!; [done..|]. left. split_and!; [done|done|exact Hv| |apply gossip_recorded].
    intros _. split; [|done]. by intros Hs; rewrite Hs in E.
Qed.

(** An accepted block adds to the counters the slots its state moved forward and the votes it carries. *)
Theorem transition_metrics_exact (s s' : State) (b : Block) :
  wf_state s -> wf_Block b -> numValidators_of s <> 0 -> roomy s (b_Slot b) -> StateTransition s b = Ok s' ->
  exists calls, StateTransition_calls s b = Ok calls /\
    added STFSlotsProcessed calls = st_Slot s' - st_Slot s /\ 0 < st_Slot s' - st_Slot s /\
    added STFAttestationsProcessed calls = len (bb_Attestations (b_Body b)).
Proof.
  intros Hs Hb Hn Hroom E. pose proof (StateTransition_run s b Hs Hb Hn Hroom) as Hrun.
  rewrite E in Hrun. destruct Hrun as (_ & r & Ha). pose proof (ac_slot _ _ _ _ Ha) as Hlt.
  rewrite (ac_post_slot _ _ _ _ Ha). pose proof (ws_slot _ Hs) as Hu. destruct Hb as [Hbs _]. unfold is_u64 in *.
  unfold StateTransition in E. unfold StateTransition_calls, stf_ProcessBlock_calls.
  destruct (ProcessSlots s (b_Slot b)) as [s1| | |]; cbn [map_err mbind outcome_bind] in E; try done.
  unfold Transition.ProcessBlock in E.
  destruct (ProcessBlockHeader s1 b) as [s2| | |]; cbn [map_err mbind outcome_bind] in E; try done.
  destruct (ProcessAttestations s2 _) as [s3| | |]; cbn [map_err mbind outcome_bind] in *; try done.
  eexists. split; [reflexivity|]. cbn [added].
  rewrite (decide_True (P := STFSlotsProcessed = STFSlotsProcessed)) by done.
  rewrite (decide_True (P := STFAttestationsProcessed = STFAttestationsProcessed)) by done.
  rewrite !decide_False by done. rewrite u64_small by (unfold is_u64; lia). lia.
Qed.
End Props.

(** * A registry, and a vote that counts *)

Section Example.
#[local] Existing Instance toy_walker.
#[local] Existing Instance canonical_range.
#[local] Existing Instance toy_ffi.

#[export] Instance checking_prom : PromLib := {
  prom_New c := if well_formed c then Ok tt else Panic "invalid collector";
  prom_MustRegister l :=
    if forallb well_formed l && bool_decide (NoDup (map co_name l)) then Ok tt else Panic "duplicate metrics collector" }.
#[export] Instance checking_laws : PromLaws checking_prom.
Proof.
  split; cbn.
  - intros c Hc. by rewrite Hc.
  - intros l Hl Hnd. rewrite (bool_decide_eq_true_2 (NoDup _)) by done. rewrite (proj2 (forallb_forall _ _)); [done|].
    intros c Hc%list_elem_of_In. by eapply list.Forall_forall in Hl.
  - intros l Hnd. rewrite (bool_decide_eq_false_2 (NoDup _)) by done. rewrite andb_false_r. by eexists.
Qed.
Lemma metrics_init_checked : metrics_init (P := checking_prom) = Ok tt.
Proof. vm_compute. reflexivity. Qed.

Lemma me_vote_wf : wf_SignedAttestation (ord_vote 0).
Proof. exact (proj1 (proj1 (list.Forall_cons _ _ _) ord_wf)). Qed.

(** The vote of the store's own head, at the slot it has reached: valid, and pending afterwards. *)
Lemma attestation_metrics_exact_witness :
  exists calls c', processAttestation_calls true fx_peer (ord_vote 0) false = Ok calls /\
    processAttestationLocked true fx_peer (ord_vote 0) false = Ok c' /\
    added AttestationsValid calls = 1 /\ fc_latestNewAttestations c' !! 0 = Some (ord_vote 0).
Proof.
  destruct (attestation_metrics_exact true fx_vs fx_peer (ord_vote 0) false fx_peer_wf fx_registry me_vote_wf)
    as (calls & c' & E1 & E2 & [(Hv & _ & _ & Hr)|(Hv & _)]).
  - exists calls, c'. split; [exact E1|]. split; [exact E2|]. split; [exact Hv|].
    apply (recorded_first fx_peer (ord_vote 0) c' 0 Hr ord_id_0). apply none_of. vm_compute. reflexivity.
  - exfalso. assert (Ec : match processAttestation_calls true fx_peer (ord_vote 0) false with
      | Ok l => added AttestationsValid l =? 1 | _ => false end = true) by (vm_compute; reflexivity).
    rewrite E1, Hv in Ec. discriminate Ec.
Defined.
End Example.
